(** * The sixteen-channel sound unit of DeeS: mixing tick, register bank
      and frame-buffer exchange ([src/spu.cpp])

    The C++ class [Spu] is embedded as a record of its members together
    with the free store its two frame buffers live in.  Every member
    function becomes a function on that record:

    - [writeSoundCnt], [writeSoundSad], [writeSoundTmr], [writeSoundPnt],
      [writeSoundLen], [writeMainSoundCnt], [writeSoundBias]: the register
      bank;
    - [runSample]: one synthesis tick (channel loop, master volume, bias,
      clipping, frame push and buffer swap);
    - [getSamples]: the consumer side of the buffer exchange;
    - [readSoundCnt], [readMainSoundCnt], [readSoundBias]: the readers of
      [spu.h];
    - [destructor]: what [~Spu] leaves of the free store.

    Fixed-width integers are values of [Z]; every store into an unsigned
    member truncates explicitly ([u8], [u16], [u32]).  C++ [/] on signed
    operands is [Z.quot], [>>] on signed operands is [Z.shiftr].  Signed
    arithmetic ([int32_t] predictors, [int64_t] samples) is computed in
    [Z]: C++ gives signed overflow no meaning, and the predictors stay
    within 16 bits (see the section on the ADPCM ranges).

    The two threads of the program (the emulation driver calling
    [runSample], the host audio callback calling [getSamples]) are
    interleaved at the granularity of whole calls; a producer that would
    wait for the consumer is reported as [Spinning]. *)

From Stdlib Require Import ZArith Lia Bool List.
From stdpp Require Import base option list gmap.

Local Open Scope Z_scope.

(** ** Fixed-width integers *)

Definition u8 (x : Z) : Z := x mod 2 ^ 8.
Definition u16 (x : Z) : Z := x mod 2 ^ 16.
Definition u32 (x : Z) : Z := x mod 2 ^ 32.

(** Conversion to [int8_t] / [int16_t]: keep the low bits, read them as
    two's complement. *)
Definition i8 (x : Z) : Z :=
  let y := u8 x in if y <? 2 ^ 7 then y else y - 2 ^ 8.
Definition i16 (x : Z) : Z :=
  let y := u16 x in if y <? 2 ^ 15 then y else y - 2 ^ 16.

(** Modelled from the spec: the [BIT(i)] macro of [defines.h], which is not
    among the sources; the spec speaks of "bit 31" of the control word and
    of "nibble bits 0-2", i.e. the single-bit mask [1 << i]. *)
Definition BIT (i : Z) : Z := Z.shiftl 1 i.

(** A C++ integer used as a condition. *)
Definition nonzero (x : Z) : bool := negb (x =? 0).

(** ** The memory collaborator *)

(** Modelled from the spec: the memory subsystem ([memory.h]) is not among
    the sources.  The spec gives its interface as [read(width, address)],
    "a byte/half-word/word read from an external address space",
    side-effect-free for the sound unit.  The address space is a function
    from addresses to bytes; wider reads are little-endian, as the header
    scenario of the spec (bytes 0x34,0x12 read as 0x1234) requires. *)
Definition Memory : Type := Z -> Z.

Definition read_u8 (mem : Memory) (a : Z) : Z := u8 (mem a).
Definition read_i8 (mem : Memory) (a : Z) : Z := i8 (mem a).
Definition read_u16 (mem : Memory) (a : Z) : Z :=
  Z.lor (read_u8 mem a) (Z.shiftl (read_u8 mem (a + 1)) 8).
Definition read_i16 (mem : Memory) (a : Z) : Z := i16 (read_u16 mem a).
Definition read_u32 (mem : Memory) (a : Z) : Z :=
  Z.lor (read_u16 mem a) (Z.shiftl (read_u16 mem (a + 2)) 16).

(** ** The two ADPCM tables *)

Definition indexTable : list Z := [-1; -1; -1; -1; 2; 4; 6; 8].

Definition adpcmTable : list Z :=
  [ 0x0007; 0x0008; 0x0009; 0x000A; 0x000B; 0x000C; 0x000D; 0x000E; 0x0010; 0x0011; 0x0013; 0x0015;
    0x0017; 0x0019; 0x001C; 0x001F; 0x0022; 0x0025; 0x0029; 0x002D; 0x0032; 0x0037; 0x003C; 0x0042;
    0x0049; 0x0050; 0x0058; 0x0061; 0x006B; 0x0076; 0x0082; 0x008F; 0x009D; 0x00AD; 0x00BE; 0x00D1;
    0x00E6; 0x00FD; 0x0117; 0x0133; 0x0151; 0x0173; 0x0198; 0x01C1; 0x01EE; 0x0220; 0x0256; 0x0292;
    0x02D4; 0x031C; 0x036C; 0x03C3; 0x0424; 0x048E; 0x0502; 0x0583; 0x0610; 0x06AB; 0x0756; 0x0812;
    0x08E0; 0x09C3; 0x0ABD; 0x0BD0; 0x0CFF; 0x0E4C; 0x0FBA; 0x114C; 0x1307; 0x14EE; 0x1706; 0x1954;
    0x1BDC; 0x1EA5; 0x21B6; 0x2515; 0x28CA; 0x2CDF; 0x315B; 0x364B; 0x3BB9; 0x41B2; 0x4844; 0x4F7E;
    0x5771; 0x602F; 0x69CE; 0x7462; 0x7FFF ].

(** ** Arrays *)

(** [a[i]] for a member array of integers.  The channel loop only uses
    indices inside the array; outside it C++ gives no meaning to the read
    and the model answers 0. *)
Definition get (a : list Z) (i : nat) : Z := default 0 (a !! i).
Definition getb (a : list bool) (i : nat) : bool := default false (a !! i).

(** A table read with an [int] subscript. *)
Definition tableAt (t : list Z) (k : Z) : Z :=
  if k <? 0 then 0 else get t (Z.to_nat k).

(** ** The state of the sound unit *)

(** The members of [class Spu] that [src/spu.cpp] touches, under their own
    names.  [bufferIn] and [bufferOut] are pointers ([None] is [nullptr])
    into [heap], the free store of [uint32_t] blocks: the buffer swap of
    [runSample] exchanges the two pointers, not the blocks. *)
Record Spu : Type := mkSpu {
  heap : gmap nat (list Z);
  bufferIn : option nat;
  bufferOut : option nat;
  bufferSize : Z;
  bufferPointer : Z;
  ready : bool;
  adpcmValue : list Z;
  adpcmLoopValue : list Z;
  adpcmIndex : list Z;
  adpcmLoopIndex : list Z;
  adpcmToggle : list bool;
  dutyCycles : list Z;
  noiseValues : list Z;
  soundCurrent : list Z;
  soundTimers : list Z;
  soundCnt : list Z;
  soundSad : list Z;
  soundTmr : list Z;
  soundPnt : list Z;
  soundLen : list Z;
  mainSoundCnt : Z;
  soundBias : Z
}.

(** The state a freshly constructed [Spu] has: every member is
    zero-initialised in the class declaration. *)
Definition initial : Spu :=
  {| heap := ∅; bufferIn := None; bufferOut := None;
     bufferSize := 0; bufferPointer := 0; ready := false;
     adpcmValue := replicate 16 0; adpcmLoopValue := replicate 16 0;
     adpcmIndex := replicate 16 0; adpcmLoopIndex := replicate 16 0;
     adpcmToggle := replicate 16 false;
     dutyCycles := replicate 6 0; noiseValues := replicate 2 0;
     soundCurrent := replicate 16 0; soundTimers := replicate 16 0;
     soundCnt := replicate 16 0; soundSad := replicate 16 0;
     soundTmr := replicate 16 0; soundPnt := replicate 16 0;
     soundLen := replicate 16 0; mainSoundCnt := 0; soundBias := 0 |}.

(** Member assignment. *)
Definition set_heap (v : gmap nat (list Z)) (s : Spu) : Spu :=
  mkSpu v (bufferIn s) (bufferOut s) (bufferSize s) (bufferPointer s) (ready s) (adpcmValue s) (adpcmLoopValue s) (adpcmIndex s) (adpcmLoopIndex s) (adpcmToggle s) (dutyCycles s) (noiseValues s) (soundCurrent s) (soundTimers s) (soundCnt s) (soundSad s) (soundTmr s) (soundPnt s) (soundLen s) (mainSoundCnt s) (soundBias s).
Definition set_bufferIn (v : option nat) (s : Spu) : Spu :=
  mkSpu (heap s) v (bufferOut s) (bufferSize s) (bufferPointer s) (ready s) (adpcmValue s) (adpcmLoopValue s) (adpcmIndex s) (adpcmLoopIndex s) (adpcmToggle s) (dutyCycles s) (noiseValues s) (soundCurrent s) (soundTimers s) (soundCnt s) (soundSad s) (soundTmr s) (soundPnt s) (soundLen s) (mainSoundCnt s) (soundBias s).
Definition set_bufferOut (v : option nat) (s : Spu) : Spu :=
  mkSpu (heap s) (bufferIn s) v (bufferSize s) (bufferPointer s) (ready s) (adpcmValue s) (adpcmLoopValue s) (adpcmIndex s) (adpcmLoopIndex s) (adpcmToggle s) (dutyCycles s) (noiseValues s) (soundCurrent s) (soundTimers s) (soundCnt s) (soundSad s) (soundTmr s) (soundPnt s) (soundLen s) (mainSoundCnt s) (soundBias s).
Definition set_bufferSize (v : Z) (s : Spu) : Spu :=
  mkSpu (heap s) (bufferIn s) (bufferOut s) v (bufferPointer s) (ready s) (adpcmValue s) (adpcmLoopValue s) (adpcmIndex s) (adpcmLoopIndex s) (adpcmToggle s) (dutyCycles s) (noiseValues s) (soundCurrent s) (soundTimers s) (soundCnt s) (soundSad s) (soundTmr s) (soundPnt s) (soundLen s) (mainSoundCnt s) (soundBias s).
Definition set_bufferPointer (v : Z) (s : Spu) : Spu :=
  mkSpu (heap s) (bufferIn s) (bufferOut s) (bufferSize s) v (ready s) (adpcmValue s) (adpcmLoopValue s) (adpcmIndex s) (adpcmLoopIndex s) (adpcmToggle s) (dutyCycles s) (noiseValues s) (soundCurrent s) (soundTimers s) (soundCnt s) (soundSad s) (soundTmr s) (soundPnt s) (soundLen s) (mainSoundCnt s) (soundBias s).
Definition set_ready (v : bool) (s : Spu) : Spu :=
  mkSpu (heap s) (bufferIn s) (bufferOut s) (bufferSize s) (bufferPointer s) v (adpcmValue s) (adpcmLoopValue s) (adpcmIndex s) (adpcmLoopIndex s) (adpcmToggle s) (dutyCycles s) (noiseValues s) (soundCurrent s) (soundTimers s) (soundCnt s) (soundSad s) (soundTmr s) (soundPnt s) (soundLen s) (mainSoundCnt s) (soundBias s).
Definition set_adpcmValue (v : list Z) (s : Spu) : Spu :=
  mkSpu (heap s) (bufferIn s) (bufferOut s) (bufferSize s) (bufferPointer s) (ready s) v (adpcmLoopValue s) (adpcmIndex s) (adpcmLoopIndex s) (adpcmToggle s) (dutyCycles s) (noiseValues s) (soundCurrent s) (soundTimers s) (soundCnt s) (soundSad s) (soundTmr s) (soundPnt s) (soundLen s) (mainSoundCnt s) (soundBias s).
Definition set_adpcmLoopValue (v : list Z) (s : Spu) : Spu :=
  mkSpu (heap s) (bufferIn s) (bufferOut s) (bufferSize s) (bufferPointer s) (ready s) (adpcmValue s) v (adpcmIndex s) (adpcmLoopIndex s) (adpcmToggle s) (dutyCycles s) (noiseValues s) (soundCurrent s) (soundTimers s) (soundCnt s) (soundSad s) (soundTmr s) (soundPnt s) (soundLen s) (mainSoundCnt s) (soundBias s).
Definition set_adpcmIndex (v : list Z) (s : Spu) : Spu :=
  mkSpu (heap s) (bufferIn s) (bufferOut s) (bufferSize s) (bufferPointer s) (ready s) (adpcmValue s) (adpcmLoopValue s) v (adpcmLoopIndex s) (adpcmToggle s) (dutyCycles s) (noiseValues s) (soundCurrent s) (soundTimers s) (soundCnt s) (soundSad s) (soundTmr s) (soundPnt s) (soundLen s) (mainSoundCnt s) (soundBias s).
Definition set_adpcmLoopIndex (v : list Z) (s : Spu) : Spu :=
  mkSpu (heap s) (bufferIn s) (bufferOut s) (bufferSize s) (bufferPointer s) (ready s) (adpcmValue s) (adpcmLoopValue s) (adpcmIndex s) v (adpcmToggle s) (dutyCycles s) (noiseValues s) (soundCurrent s) (soundTimers s) (soundCnt s) (soundSad s) (soundTmr s) (soundPnt s) (soundLen s) (mainSoundCnt s) (soundBias s).
Definition set_adpcmToggle (v : list bool) (s : Spu) : Spu :=
  mkSpu (heap s) (bufferIn s) (bufferOut s) (bufferSize s) (bufferPointer s) (ready s) (adpcmValue s) (adpcmLoopValue s) (adpcmIndex s) (adpcmLoopIndex s) v (dutyCycles s) (noiseValues s) (soundCurrent s) (soundTimers s) (soundCnt s) (soundSad s) (soundTmr s) (soundPnt s) (soundLen s) (mainSoundCnt s) (soundBias s).
Definition set_dutyCycles (v : list Z) (s : Spu) : Spu :=
  mkSpu (heap s) (bufferIn s) (bufferOut s) (bufferSize s) (bufferPointer s) (ready s) (adpcmValue s) (adpcmLoopValue s) (adpcmIndex s) (adpcmLoopIndex s) (adpcmToggle s) v (noiseValues s) (soundCurrent s) (soundTimers s) (soundCnt s) (soundSad s) (soundTmr s) (soundPnt s) (soundLen s) (mainSoundCnt s) (soundBias s).
Definition set_noiseValues (v : list Z) (s : Spu) : Spu :=
  mkSpu (heap s) (bufferIn s) (bufferOut s) (bufferSize s) (bufferPointer s) (ready s) (adpcmValue s) (adpcmLoopValue s) (adpcmIndex s) (adpcmLoopIndex s) (adpcmToggle s) (dutyCycles s) v (soundCurrent s) (soundTimers s) (soundCnt s) (soundSad s) (soundTmr s) (soundPnt s) (soundLen s) (mainSoundCnt s) (soundBias s).
Definition set_soundCurrent (v : list Z) (s : Spu) : Spu :=
  mkSpu (heap s) (bufferIn s) (bufferOut s) (bufferSize s) (bufferPointer s) (ready s) (adpcmValue s) (adpcmLoopValue s) (adpcmIndex s) (adpcmLoopIndex s) (adpcmToggle s) (dutyCycles s) (noiseValues s) v (soundTimers s) (soundCnt s) (soundSad s) (soundTmr s) (soundPnt s) (soundLen s) (mainSoundCnt s) (soundBias s).
Definition set_soundTimers (v : list Z) (s : Spu) : Spu :=
  mkSpu (heap s) (bufferIn s) (bufferOut s) (bufferSize s) (bufferPointer s) (ready s) (adpcmValue s) (adpcmLoopValue s) (adpcmIndex s) (adpcmLoopIndex s) (adpcmToggle s) (dutyCycles s) (noiseValues s) (soundCurrent s) v (soundCnt s) (soundSad s) (soundTmr s) (soundPnt s) (soundLen s) (mainSoundCnt s) (soundBias s).
Definition set_soundCnt (v : list Z) (s : Spu) : Spu :=
  mkSpu (heap s) (bufferIn s) (bufferOut s) (bufferSize s) (bufferPointer s) (ready s) (adpcmValue s) (adpcmLoopValue s) (adpcmIndex s) (adpcmLoopIndex s) (adpcmToggle s) (dutyCycles s) (noiseValues s) (soundCurrent s) (soundTimers s) v (soundSad s) (soundTmr s) (soundPnt s) (soundLen s) (mainSoundCnt s) (soundBias s).
Definition set_soundSad (v : list Z) (s : Spu) : Spu :=
  mkSpu (heap s) (bufferIn s) (bufferOut s) (bufferSize s) (bufferPointer s) (ready s) (adpcmValue s) (adpcmLoopValue s) (adpcmIndex s) (adpcmLoopIndex s) (adpcmToggle s) (dutyCycles s) (noiseValues s) (soundCurrent s) (soundTimers s) (soundCnt s) v (soundTmr s) (soundPnt s) (soundLen s) (mainSoundCnt s) (soundBias s).
Definition set_soundTmr (v : list Z) (s : Spu) : Spu :=
  mkSpu (heap s) (bufferIn s) (bufferOut s) (bufferSize s) (bufferPointer s) (ready s) (adpcmValue s) (adpcmLoopValue s) (adpcmIndex s) (adpcmLoopIndex s) (adpcmToggle s) (dutyCycles s) (noiseValues s) (soundCurrent s) (soundTimers s) (soundCnt s) (soundSad s) v (soundPnt s) (soundLen s) (mainSoundCnt s) (soundBias s).
Definition set_soundPnt (v : list Z) (s : Spu) : Spu :=
  mkSpu (heap s) (bufferIn s) (bufferOut s) (bufferSize s) (bufferPointer s) (ready s) (adpcmValue s) (adpcmLoopValue s) (adpcmIndex s) (adpcmLoopIndex s) (adpcmToggle s) (dutyCycles s) (noiseValues s) (soundCurrent s) (soundTimers s) (soundCnt s) (soundSad s) (soundTmr s) v (soundLen s) (mainSoundCnt s) (soundBias s).
Definition set_soundLen (v : list Z) (s : Spu) : Spu :=
  mkSpu (heap s) (bufferIn s) (bufferOut s) (bufferSize s) (bufferPointer s) (ready s) (adpcmValue s) (adpcmLoopValue s) (adpcmIndex s) (adpcmLoopIndex s) (adpcmToggle s) (dutyCycles s) (noiseValues s) (soundCurrent s) (soundTimers s) (soundCnt s) (soundSad s) (soundTmr s) (soundPnt s) v (mainSoundCnt s) (soundBias s).
Definition set_mainSoundCnt (v : Z) (s : Spu) : Spu :=
  mkSpu (heap s) (bufferIn s) (bufferOut s) (bufferSize s) (bufferPointer s) (ready s) (adpcmValue s) (adpcmLoopValue s) (adpcmIndex s) (adpcmLoopIndex s) (adpcmToggle s) (dutyCycles s) (noiseValues s) (soundCurrent s) (soundTimers s) (soundCnt s) (soundSad s) (soundTmr s) (soundPnt s) (soundLen s) v (soundBias s).
Definition set_soundBias (v : Z) (s : Spu) : Spu :=
  mkSpu (heap s) (bufferIn s) (bufferOut s) (bufferSize s) (bufferPointer s) (ready s) (adpcmValue s) (adpcmLoopValue s) (adpcmIndex s) (adpcmLoopIndex s) (adpcmToggle s) (dutyCycles s) (noiseValues s) (soundCurrent s) (soundTimers s) (soundCnt s) (soundSad s) (soundTmr s) (soundPnt s) (soundLen s) (mainSoundCnt s) v.

(** ** Register bank *)

(** Bit 31 of a channel's control word: the enable flag. *)
Definition enabled (cnt : Z) : bool := nonzero (Z.land cnt (BIT 31)).

(** Bits 29-30: the sample format (0 PCM8, 1 PCM16, 2 ADPCM, 3 pulse/noise). *)
Definition formatOf (cnt : Z) : Z := Z.shiftr (Z.land cnt 0x60000000) 29.

(** Bits 27-28: the repeat mode; the code loops on 1 and ends the sound on
    every other value. *)
Definition repeatOf (cnt : Z) : Z := Z.shiftr (Z.land cnt 0x18000000) 27.

(** "Read the ADPCM header": [case 2] of the format switch of
    [writeSoundCnt]. *)
Definition readAdpcmHeader (mem : Memory) (channel : nat) (s : Spu) : Spu :=
  let header := read_u32 mem (get (soundSad s) channel) in
  let s := set_adpcmValue (<[channel := i16 header]> (adpcmValue s)) s in
  let s := set_adpcmIndex
             (<[channel := Z.shiftr (Z.land header 0x007F0000) 16]> (adpcmIndex s)) s in
  let s := if get (adpcmIndex s) channel >? 88
           then set_adpcmIndex (<[channel := 88]> (adpcmIndex s)) s else s in
  let s := set_adpcmToggle (<[channel := false]> (adpcmToggle s)) s in
  set_soundCurrent (<[channel := u32 (get (soundCurrent s) channel + 4)]> (soundCurrent s)) s.

(** "Reset the pulse or noise values": [case 3] of the same switch. *)
Definition resetPsg (channel : nat) (s : Spu) : Spu :=
  if (8 <=? channel)%nat && (channel <=? 13)%nat then
    set_dutyCycles (<[(channel - 8)%nat := 0]> (dutyCycles s)) s
  else if (14 <=? channel)%nat then
    set_noiseValues (<[(channel - 14)%nat := 0x7FFF]> (noiseValues s)) s
  else s.

(** "Reload the internal registers": the body of the [if] of
    [writeSoundCnt].  The format is read from the stored control word. *)
Definition reloadRegisters (mem : Memory) (channel : nat) (s : Spu) : Spu :=
  let s := set_soundCurrent (<[channel := get (soundSad s) channel]> (soundCurrent s)) s in
  let s := set_soundTimers (<[channel := get (soundTmr s) channel]> (soundTimers s)) s in
  let format := Z.shiftr (Z.land (get (soundCnt s) channel) 0x60000000) 29 in
  if format =? 2 then readAdpcmHeader mem channel s
  else if format =? 3 then resetPsg channel s
  else s.

(** [Spu::writeSoundCnt].  The reload test reads the stored control word
    and the raw [value]; only afterwards is the masked value stored. *)
Definition writeSoundCnt (mem : Memory) (channel : nat) (mask value : Z) (s : Spu) : Spu :=
  let s :=
    if negb (nonzero (Z.land (get (soundCnt s) channel) (BIT 31)))
       && nonzero (Z.land value (BIT 31))
    then reloadRegisters mem channel s
    else s in
  let mask := Z.land mask 0xFF7F837F in
  set_soundCnt
    (<[channel := u32 (Z.lor (Z.land (get (soundCnt s) channel) (Z.lnot mask))
                             (Z.land value mask))]> (soundCnt s)) s.

(** [Spu::writeSoundSad]. *)
Definition writeSoundSad (channel : nat) (mask value : Z) (s : Spu) : Spu :=
  let mask := Z.land mask 0x07FFFFFC in
  set_soundSad
    (<[channel := u32 (Z.lor (Z.land (get (soundSad s) channel) (Z.lnot mask))
                             (Z.land value mask))]> (soundSad s)) s.

(** [Spu::writeSoundTmr]. *)
Definition writeSoundTmr (channel : nat) (mask value : Z) (s : Spu) : Spu :=
  set_soundTmr
    (<[channel := u16 (Z.lor (Z.land (get (soundTmr s) channel) (Z.lnot mask))
                             (Z.land value mask))]> (soundTmr s)) s.

(** [Spu::writeSoundPnt]. *)
Definition writeSoundPnt (channel : nat) (mask value : Z) (s : Spu) : Spu :=
  set_soundPnt
    (<[channel := u16 (Z.lor (Z.land (get (soundPnt s) channel) (Z.lnot mask))
                             (Z.land value mask))]> (soundPnt s)) s.

(** [Spu::writeSoundLen]. *)
Definition writeSoundLen (channel : nat) (mask value : Z) (s : Spu) : Spu :=
  let mask := Z.land mask 0x003FFFFF in
  set_soundLen
    (<[channel := u32 (Z.lor (Z.land (get (soundLen s) channel) (Z.lnot mask))
                             (Z.land value mask))]> (soundLen s)) s.

(** [Spu::writeMainSoundCnt]. *)
Definition writeMainSoundCnt (mask value : Z) (s : Spu) : Spu :=
  let mask := Z.land mask 0xBF7F in
  set_mainSoundCnt
    (u16 (Z.lor (Z.land (mainSoundCnt s) (Z.lnot mask)) (Z.land value mask))) s.

(** [Spu::writeSoundBias]. *)
Definition writeSoundBias (mask value : Z) (s : Spu) : Spu :=
  let mask := Z.land mask 0x03FF in
  set_soundBias
    (u16 (Z.lor (Z.land (soundBias s) (Z.lnot mask)) (Z.land value mask))) s.

(** The readers of [spu.h]: [Spu::readSoundCnt], [Spu::readMainSoundCnt]
    and [Spu::readSoundBias] return the stored word. *)
Definition readSoundCnt (channel : nat) (s : Spu) : Z := get (soundCnt s) channel.
Definition readMainSoundCnt (s : Spu) : Z := mainSoundCnt s.
Definition readSoundBias (s : Spu) : Z := soundBias s.

(** ** The synthesis tick: per-channel part *)

(** The [switch (format)] that reads the sample data of channel [i]. *)
Definition readData (mem : Memory) (i : nat) (format : Z) (s : Spu) : Z :=
  if format =? 0 then Z.shiftl (read_i8 mem (get (soundCurrent s) i)) 8
  else if format =? 1 then read_i16 mem (get (soundCurrent s) i)
  else if format =? 2 then get (adpcmValue s) i
  else if format =? 3 then
    if (8 <=? i)%nat && (i <=? 13)%nat then
      let duty := 7 - Z.shiftr (Z.land (get (soundCnt s) i) 0x07000000) 24 in
      if get (dutyCycles s) (i - 8)%nat <? duty then - 0x7FFF else 0x7FFF
    else if (14 <=? i)%nat then
      if nonzero (Z.land (get (noiseValues s) (i - 14)%nat) (BIT 15)) then - 0x7FFF else 0x7FFF
    else 0
  else 0.

(** "Get the 4-bit ADPCM data". *)
Definition adpcmNibble (mem : Memory) (i : nat) (s : Spu) : Z :=
  let adpcmData := read_u8 mem (get (soundCurrent s) i) in
  if getb (adpcmToggle s) i then Z.shiftr (Z.land adpcmData 0xF0) 4 else Z.land adpcmData 0x0F.

(** "Calculate the sample difference". *)
Definition adpcmDiff (i : nat) (adpcmData : Z) (s : Spu) : Z :=
  let diff := Z.quot (tableAt adpcmTable (get (adpcmIndex s) i)) 8 in
  let diff := if nonzero (Z.land adpcmData (BIT 0))
              then diff + Z.quot (tableAt adpcmTable (get (adpcmIndex s) i)) 4 else diff in
  let diff := if nonzero (Z.land adpcmData (BIT 1))
              then diff + Z.quot (tableAt adpcmTable (get (adpcmIndex s) i)) 2 else diff in
  if nonzero (Z.land adpcmData (BIT 2))
  then diff + Z.quot (tableAt adpcmTable (get (adpcmIndex s) i)) 1 else diff.

(** "Apply the sample difference to the sample". *)
Definition applyDiff (i : nat) (adpcmData diff : Z) (s : Spu) : Spu :=
  if nonzero (Z.land adpcmData (BIT 3)) then
    let s := set_adpcmValue (<[i := get (adpcmValue s) i + diff]> (adpcmValue s)) s in
    if get (adpcmValue s) i >? 0x7FFF
    then set_adpcmValue (<[i := 0x7FFF]> (adpcmValue s)) s else s
  else
    let s := set_adpcmValue (<[i := get (adpcmValue s) i - diff]> (adpcmValue s)) s in
    if get (adpcmValue s) i <? - 0x7FFF
    then set_adpcmValue (<[i := - 0x7FFF]> (adpcmValue s)) s else s.

(** "Calculate the next index". *)
Definition nextIndex (i : nat) (adpcmData : Z) (s : Spu) : Spu :=
  let s := set_adpcmIndex
             (<[i := get (adpcmIndex s) i + tableAt indexTable (Z.land adpcmData 0x7)]>
                (adpcmIndex s)) s in
  let s := if get (adpcmIndex s) i <? 0
           then set_adpcmIndex (<[i := 0]> (adpcmIndex s)) s else s in
  if get (adpcmIndex s) i >? 88
  then set_adpcmIndex (<[i := 88]> (adpcmIndex s)) s else s.

(** "Move to the next 4-bit ADPCM data". *)
Definition nextNibble (i : nat) (s : Spu) : Spu :=
  let s := set_adpcmToggle (<[i := negb (getb (adpcmToggle s) i)]> (adpcmToggle s)) s in
  if negb (getb (adpcmToggle s) i)
  then set_soundCurrent (<[i := u32 (get (soundCurrent s) i + 1)]> (soundCurrent s)) s
  else s.

(** "Save the ADPCM values at the loop position". *)
Definition saveLoop (i : nat) (s : Spu) : Spu :=
  if (get (soundCurrent s) i =? u32 (get (soundSad s) i + get (soundPnt s) i * 4))
     && negb (getb (adpcmToggle s) i)
  then
    let s := set_adpcmLoopValue (<[i := get (adpcmValue s) i]> (adpcmLoopValue s)) s in
    set_adpcmLoopIndex (<[i := get (adpcmIndex s) i]> (adpcmLoopIndex s)) s
  else s.

(** [case 2] of the reload switch: one ADPCM nibble. *)
Definition adpcmStep (mem : Memory) (i : nat) (s : Spu) : Spu :=
  let adpcmData := adpcmNibble mem i s in
  let diff := adpcmDiff i adpcmData s in
  saveLoop i (nextNibble i (nextIndex i adpcmData (applyDiff i adpcmData diff s))).

(** "Advance the random generator and save the carry bit to bit 15",
    after "Clear the previous saved carry bit". *)
Definition noiseStep (j : nat) (s : Spu) : Spu :=
  let s := set_noiseValues
             (<[j := u16 (Z.land (get (noiseValues s) j) (Z.lnot (BIT 15)))]>
                (noiseValues s)) s in
  if nonzero (Z.land (get (noiseValues s) j) (BIT 0)) then
    set_noiseValues
      (<[j := u16 (Z.lor (BIT 15) (Z.lxor (Z.shiftr (get (noiseValues s) j) 1) 0x6000))]>
         (noiseValues s)) s
  else
    set_noiseValues (<[j := Z.shiftr (get (noiseValues s) j) 1]> (noiseValues s)) s.

(** [case 3] of the reload switch: pulse duty counter or noise generator. *)
Definition psgStep (i : nat) (s : Spu) : Spu :=
  if (8 <=? i)%nat && (i <=? 13)%nat then
    set_dutyCycles
      (<[(i - 8)%nat := Z.rem (get (dutyCycles s) (i - 8)%nat + 1) 8]> (dutyCycles s)) s
  else if (14 <=? i)%nat then noiseStep (i - 14)%nat s
  else s.

(** The [switch (format)] inside the reload loop. *)
Definition advance (mem : Memory) (i : nat) (format : Z) (s : Spu) : Spu :=
  if (format =? 0) || (format =? 1) then
    set_soundCurrent (<[i := u32 (get (soundCurrent s) i + (1 + format))]> (soundCurrent s)) s
  else if format =? 2 then adpcmStep mem i s
  else if format =? 3 then psgStep i s
  else s.

(** The address one past the sample data, [soundSad + (soundPnt + soundLen) * 4],
    and the loop address, [soundSad + soundPnt * 4], both in [uint32_t]. *)
Definition endAddress (i : nat) (s : Spu) : Z :=
  u32 (get (soundSad s) i + (get (soundPnt s) i + get (soundLen s) i) * 4).
Definition loopAddress (i : nat) (s : Spu) : Z :=
  u32 (get (soundSad s) i + get (soundPnt s) i * 4).

(** "Restore the ADPCM values from the loop position". *)
Definition restoreLoop (i : nat) (s : Spu) : Spu :=
  let s := set_adpcmValue (<[i := get (adpcmLoopValue s) i]> (adpcmValue s)) s in
  let s := set_adpcmIndex (<[i := get (adpcmLoopIndex s) i]> (adpcmIndex s)) s in
  set_adpcmToggle (<[i := false]> (adpcmToggle s)) s.

(** "Repeat or end the sound if the end of the data is reached". *)
Definition endOfData (i : nat) (format : Z) (s : Spu) : Spu :=
  if negb (format =? 3) && (get (soundCurrent s) i =? endAddress i s) then
    if Z.shiftr (Z.land (get (soundCnt s) i) 0x18000000) 27 =? 1 then
      let s := set_soundCurrent (<[i := loopAddress i s]> (soundCurrent s)) s in
      if format =? 2 then restoreLoop i s else s
    else
      set_soundCnt (<[i := Z.land (get (soundCnt s) i) (Z.lnot (BIT 31))]> (soundCnt s)) s
  else s.

(** "Reload the timer": the first two statements of the loop body. *)
Definition reloadTimer (i : nat) (s : Spu) : Spu :=
  set_soundTimers (<[i := u16 (get (soundTimers s) i + get (soundTmr s) i)]> (soundTimers s)) s.

(** One pass through the body of [while (overflow)]; the boolean is the
    new value of [overflow]. *)
Definition reloadStep (mem : Memory) (i : nat) (format : Z) (s : Spu) : Spu * bool :=
  let s := reloadTimer i s in
  (endOfData i format (advance mem i format s),
   get (soundTimers s) i <? get (soundTmr s) i).

(** [while (overflow) { ... }], entered with [overflow] true.  The loop is
    bounded by [fuel] passes; [None] means the bound was reached with
    [overflow] still set. *)
Fixpoint reloadLoop (fuel : nat) (mem : Memory) (i : nat) (format : Z) (s : Spu)
  : option Spu :=
  match fuel with
  | O => None
  | S fuel =>
      let '(s, overflow) := reloadStep mem i format s in
      if overflow then reloadLoop fuel mem i format s else Some s
  end.

(** The volume divider, volume factor and panning of one channel. *)
Definition divStage (cnt data : Z) : Z :=
  let divShift := Z.shiftr (Z.land cnt 0x00000300) 8 in
  let divShift := if divShift =? 3 then divShift + 1 else divShift in
  Z.shiftl data (4 - divShift).

Definition mulStage (cnt data : Z) : Z :=
  let mulFactor := Z.land cnt 0x0000007F in
  let mulFactor := if mulFactor =? 127 then mulFactor + 1 else mulFactor in
  Z.quot (Z.shiftl data 7 * mulFactor) 128.

Definition panStage (cnt data : Z) : Z * Z :=
  let panValue := Z.shiftr (Z.land cnt 0x007F0000) 16 in
  let panValue := if panValue =? 127 then panValue + 1 else panValue in
  (Z.shiftr (Z.quot (Z.shiftl data 7 * (128 - panValue)) 128) 10,
   Z.shiftr (Z.quot (Z.shiftl data 7 * panValue) 128) 10).

(** What channel [i] adds to [(sampleLeft, sampleRight)]: the three stages
    applied to [data] with the control word as it is after the reload loop. *)
Definition contribution (cnt data : Z) : Z * Z :=
  panStage cnt (mulStage cnt (divStage cnt data)).

(** The timer value after [soundTimers[i] += 512] bounds the number of
    reload passes, so it is the fuel of the loop. *)
Definition reloadFuel (i : nat) (s : Spu) : nat := S (Z.to_nat (get (soundTimers s) i)).

(** "Increment the timer for the length of a sample". *)
Definition tickTimer (i : nat) (s : Spu) : Spu :=
  set_soundTimers (<[i := u16 (get (soundTimers s) i + 512)]> (soundTimers s)) s.

(** The timer handling of channel [i]: the increment and the reload loop. *)
Definition runTimer (mem : Memory) (i : nat) (format : Z) (s : Spu) : option Spu :=
  let s := tickTimer i s in
  if get (soundTimers s) i <? 512
  then reloadLoop (reloadFuel i s) mem i format s
  else Some s.

(** The body of [for (int i = 0; i < 16; i++)], on the state and the two
    accumulators. *)
Definition runChannel (mem : Memory) (i : nat) (st : Spu * (Z * Z)) : option (Spu * (Z * Z)) :=
  if negb (nonzero (Z.land (get (soundCnt st.1) i) (BIT 31))) then Some st
  else
    let format := Z.shiftr (Z.land (get (soundCnt st.1) i) 0x60000000) 29 in
    let data := readData mem i format st.1 in
    s ← runTimer mem i format st.1;
    let c := contribution (get (soundCnt s) i) data in
    Some (s, (st.2.1 + c.1, st.2.2 + c.2)).

(** The channel loop from channel [i] on, [n] channels. *)
Fixpoint runChannels (mem : Memory) (i n : nat) (st : Spu * (Z * Z)) : option (Spu * (Z * Z)) :=
  match n with
  | O => Some st
  | S n => st ← runChannel mem i st; runChannels mem (S i) n st
  end.

(** ** The synthesis tick: master volume, bias, clipping *)

(** "Apply the master volume". *)
Definition masterStage (mainCnt sample : Z) : Z :=
  let masterVol := Z.land mainCnt 0x007F in
  let masterVol := if masterVol =? 127 then masterVol + 1 else masterVol in
  Z.quot (Z.quot (Z.shiftl sample 13 * masterVol) 128) 64.

(** "Round to 0 fractional bits and apply the sound bias". *)
Definition biasStage (bias sample : Z) : Z := Z.shiftr sample 21 + bias.

(** "Apply clipping". *)
Definition clip (sample : Z) : Z :=
  let sample := if sample <? 0x000 then 0x000 else sample in
  if sample >? 0x3FF then 0x3FF else sample.

(** "Expand the samples to signed 16-bit values". *)
Definition expand (sample : Z) : Z := Z.shiftl (sample - 0x200) 5.

(** Everything [runSample] does to an accumulator after the channel loop. *)
Definition finalSample (s : Spu) (sample : Z) : Z :=
  expand (clip (biasStage (soundBias s) (masterStage (mainSoundCnt s) sample))).

(** The [uint32_t] stored in the buffer: [(sampleRight << 16) | (sampleLeft & 0xFFFF)]. *)
Definition packFrame (sampleLeft sampleRight : Z) : Z :=
  u32 (Z.lor (Z.shiftl sampleRight 16) (Z.land sampleLeft 0xFFFF)).

(** The two halves of a stored frame, read back as [int16_t]. *)
Definition frameLeft (frame : Z) : Z := i16 frame.
Definition frameRight (frame : Z) : Z := i16 (Z.shiftr frame 16).

(** ** The synthesis tick: frame push and buffer swap *)

(** How a call of [runSample] ends in the sequential model: it returns, or
    it sits in the producer's [while (wait)] loop (frame-rate limiting on,
    [ready] still set, nobody else running to clear it), or it steps out
    of what C++ defines (a buffer access outside a live block, or the
    reload loop exceeding its bound). *)
Inductive Outcome : Type :=
  | Returned (s : Spu)
  | Spinning (s : Spu)
  | Undefined.

(** "Swap the buffers", "Signal that the buffer is ready to play",
    "Reset the buffer pointer". *)
Definition swapBuffers (s : Spu) : Spu :=
  let buffer := bufferOut s in
  let s := set_bufferOut (bufferIn s) s in
  let s := set_bufferIn buffer s in
  let s := set_ready true s in
  set_bufferPointer 0 s.

(** [bufferIn[bufferPointer++] = frame] and the full-buffer handling.
    [limitFps] is the value of [Settings::getLimitFps()], a collaborator
    outside the sound unit. *)
Definition pushFrame (limitFps : bool) (frame : Z) (s : Spu) : Outcome :=
  match bufferIn s with
  | None => Undefined
  | Some a =>
      match heap s !! a with
      | None => Undefined
      | Some blk =>
          if (0 <=? bufferPointer s) && (bufferPointer s <? Z.of_nat (length blk)) then
            let s := set_heap (<[a := <[Z.to_nat (bufferPointer s) := frame]> blk]> (heap s)) s in
            let s := set_bufferPointer (bufferPointer s + 1) s in
            if bufferPointer s =? bufferSize s then
              if limitFps && ready s then Spinning s
              else Returned (swapBuffers s)
            else Returned s
          else Undefined
      end
  end.

(** The frame one tick computes from the two accumulators. *)
Definition frameOf (s : Spu) (acc : Z * Z) : Z :=
  packFrame (finalSample s (fst acc)) (finalSample s (snd acc)).

(** [Spu::runSample]. *)
Definition runSample (mem : Memory) (limitFps : bool) (s : Spu) : Outcome :=
  match runChannels mem 0 16 (s, (0, 0)) with
  | None => Undefined
  | Some (s, acc) =>
      if bufferSize s =? 0 then Returned s
      else pushFrame limitFps (frameOf s acc) s
  end.

(** ** The consumer: [getSamples] *)

(** [new uint32_t[n]]: a block at an address not in use.  C++ leaves the
    contents of the new block indeterminate; [junk] is what happens to be
    there, cut or padded to [n] words. *)
Definition alloc (n : nat) (junk : list Z) (h : gmap nat (list Z)) : nat * gmap nat (list Z) :=
  let p := fresh (dom h) in (p, <[p := resize n 0 junk]> h).

(** [delete[] p]; deleting [nullptr] does nothing. *)
Definition free (p : option nat) (h : gmap nat (list Z)) : gmap nat (list Z) :=
  match p with
  | None => h
  | Some a => delete a h
  end.

(** "Initialize the buffers": the reallocation at the head of [getSamples]. *)
Definition resizeBuffers (count : Z) (junkIn junkOut : list Z) (s : Spu) : Spu :=
  if negb (bufferSize s =? count) then
    let h := free (bufferIn s) (heap s) in
    let h := free (bufferOut s) h in
    let '(pin, h) := alloc (Z.to_nat count) junkIn h in
    let '(pout, h) := alloc (Z.to_nat count) junkOut h in
    let s := set_heap h s in
    let s := set_bufferIn (Some pin) s in
    let s := set_bufferOut (Some pout) s in
    let s := set_bufferSize count s in
    set_bufferPointer 0 s
  else s.

(** The consumer's polling loop; the result is the final value of [wait].
    [polls] is the number of passes the clock allows before the deadline
    of 500000/60 microseconds; the pass on which the deadline has expired
    still tests [ready] first.  No producer runs in between, so [ready]
    is the same on every pass. *)
Fixpoint waitReady (polls : nat) (s : Spu) : bool :=
  let wait := if ready s then false else true in
  match polls with
  | O => wait
  | S polls => if negb wait then wait else waitReady polls s
  end.

(** [Spu::getSamples].  The result is the pointer [out] and the new state;
    [None] stands for a negative [count] (the allocation throws) and for a
    read outside the out buffer. *)
Definition getSamples (polls : nat) (junk : list Z * list Z * list Z) (count : Z) (s : Spu)
  : option (nat * Spu) :=
  if count <? 0 then None
  else
    let '(junkIn, junkOut, junkRes) := junk in
    let s := resizeBuffers count junkIn junkOut s in
    let wait := waitReady polls s in
    let '(out, h) := alloc (Z.to_nat count) junkRes (heap s) in
    let s := set_heap h s in
    filled ←
      (if count =? 0 then Some []
       else
         blk ← bufferOut s ≫= (heap s !!.);
         if wait then
           last ← blk !! Z.to_nat (count - 1);
           Some (replicate (Z.to_nat count) last)
         else
           if (Z.to_nat count <=? length blk)%nat
           then Some (take (Z.to_nat count) blk) else None);
    let s := set_heap (<[out := filled]> (heap s)) s in
    let s := set_ready false s in
    Some (out, s).

(** ** The destructor *)

(** [Spu::~Spu]: "Free the buffers".  The object is gone afterwards; what
    the destructor leaves is the free store. *)
Definition destructor (s : Spu) : gmap nat (list Z) :=
  free (bufferOut s) (free (bufferIn s) (heap s)).

(** * Vocabulary of the properties *)

(** ** What an operation leaves alone *)

(** [agree k i a a']: the arrays have the same length and differ at most
    at the subscript [i - k]. *)
Definition agree {A : Type} (k i : nat) (a a' : list A) : Prop :=
  length a' = length a /\ forall j : nat, (j + k)%nat <> i -> a' !! j = a !! j.

(** [Frame i s s']: going from [s] to [s'] only the entries of channel [i]
    changed, and of those only the ones the channel loop writes: the
    registers other than [soundCnt], the buffers and the free store are
    the same. *)
Record Frame (i : nat) (s s' : Spu) : Prop := mkFrame {
  fr_heap : heap s' = heap s;
  fr_bufferIn : bufferIn s' = bufferIn s;
  fr_bufferOut : bufferOut s' = bufferOut s;
  fr_bufferSize : bufferSize s' = bufferSize s;
  fr_bufferPointer : bufferPointer s' = bufferPointer s;
  fr_ready : ready s' = ready s;
  fr_soundSad : soundSad s' = soundSad s;
  fr_soundTmr : soundTmr s' = soundTmr s;
  fr_soundPnt : soundPnt s' = soundPnt s;
  fr_soundLen : soundLen s' = soundLen s;
  fr_mainSoundCnt : mainSoundCnt s' = mainSoundCnt s;
  fr_soundBias : soundBias s' = soundBias s;
  fr_adpcmValue : agree 0 i (adpcmValue s) (adpcmValue s');
  fr_adpcmLoopValue : agree 0 i (adpcmLoopValue s) (adpcmLoopValue s');
  fr_adpcmIndex : agree 0 i (adpcmIndex s) (adpcmIndex s');
  fr_adpcmLoopIndex : agree 0 i (adpcmLoopIndex s) (adpcmLoopIndex s');
  fr_adpcmToggle : agree 0 i (adpcmToggle s) (adpcmToggle s');
  fr_soundCurrent : agree 0 i (soundCurrent s) (soundCurrent s');
  fr_soundTimers : agree 0 i (soundTimers s) (soundTimers s');
  fr_soundCnt : agree 0 i (soundCnt s) (soundCnt s');
  fr_dutyCycles : agree 8 i (dutyCycles s) (dutyCycles s');
  fr_noiseValues : agree 14 i (noiseValues s) (noiseValues s')
}.

(** [Keep j s s']: everything that belongs to channel [j], and everything
    that belongs to no channel, is the same in [s] and [s']. *)
Record Keep (j : nat) (s s' : Spu) : Prop := mkKeep {
  kp_heap : heap s' = heap s;
  kp_bufferIn : bufferIn s' = bufferIn s;
  kp_bufferOut : bufferOut s' = bufferOut s;
  kp_bufferSize : bufferSize s' = bufferSize s;
  kp_bufferPointer : bufferPointer s' = bufferPointer s;
  kp_ready : ready s' = ready s;
  kp_soundSad : soundSad s' = soundSad s;
  kp_soundTmr : soundTmr s' = soundTmr s;
  kp_soundPnt : soundPnt s' = soundPnt s;
  kp_soundLen : soundLen s' = soundLen s;
  kp_mainSoundCnt : mainSoundCnt s' = mainSoundCnt s;
  kp_soundBias : soundBias s' = soundBias s;
  kp_adpcmValue : get (adpcmValue s') j = get (adpcmValue s) j;
  kp_adpcmLoopValue : get (adpcmLoopValue s') j = get (adpcmLoopValue s) j;
  kp_adpcmIndex : get (adpcmIndex s') j = get (adpcmIndex s) j;
  kp_adpcmLoopIndex : get (adpcmLoopIndex s') j = get (adpcmLoopIndex s) j;
  kp_adpcmToggle : getb (adpcmToggle s') j = getb (adpcmToggle s) j;
  kp_soundCurrent : get (soundCurrent s') j = get (soundCurrent s) j;
  kp_soundTimers : get (soundTimers s') j = get (soundTimers s) j;
  kp_soundCnt : get (soundCnt s') j = get (soundCnt s) j;
  kp_dutyCycles : (8 <= j)%nat -> get (dutyCycles s') (j - 8) = get (dutyCycles s) (j - 8);
  kp_noiseValues : (14 <= j)%nat -> get (noiseValues s') (j - 14) = get (noiseValues s) (j - 14)
}.

(** The four ADPCM arrays of two states are the same. *)
Definition sameAdpcm (s s' : Spu) : Prop :=
  adpcmIndex s' = adpcmIndex s /\ adpcmLoopIndex s' = adpcmLoopIndex s /\
  adpcmValue s' = adpcmValue s /\ adpcmLoopValue s' = adpcmLoopValue s.

(** The channel arrays and the sound registers of two states are the same
    (the buffers and the free store may differ). *)
Record SameSound (s s' : Spu) : Prop := mkSameSound {
  ss_adpcmValue : adpcmValue s' = adpcmValue s;
  ss_adpcmLoopValue : adpcmLoopValue s' = adpcmLoopValue s;
  ss_adpcmIndex : adpcmIndex s' = adpcmIndex s;
  ss_adpcmLoopIndex : adpcmLoopIndex s' = adpcmLoopIndex s;
  ss_adpcmToggle : adpcmToggle s' = adpcmToggle s;
  ss_dutyCycles : dutyCycles s' = dutyCycles s;
  ss_noiseValues : noiseValues s' = noiseValues s;
  ss_soundCurrent : soundCurrent s' = soundCurrent s;
  ss_soundTimers : soundTimers s' = soundTimers s;
  ss_soundCnt : soundCnt s' = soundCnt s;
  ss_soundSad : soundSad s' = soundSad s;
  ss_soundTmr : soundTmr s' = soundTmr s;
  ss_soundPnt : soundPnt s' = soundPnt s;
  ss_soundLen : soundLen s' = soundLen s;
  ss_mainSoundCnt : mainSoundCnt s' = mainSoundCnt s;
  ss_soundBias : soundBias s' = soundBias s
}.

(** ** Well-formed states *)

(** The member arrays have their declared sizes, and the reload periods
    are [uint16_t] values. *)
Definition wf (s : Spu) : bool :=
  (length (adpcmValue s) =? 16)%nat && (length (adpcmLoopValue s) =? 16)%nat
  && (length (adpcmIndex s) =? 16)%nat && (length (adpcmLoopIndex s) =? 16)%nat
  && (length (adpcmToggle s) =? 16)%nat
  && (length (dutyCycles s) =? 6)%nat && (length (noiseValues s) =? 2)%nat
  && (length (soundCurrent s) =? 16)%nat && (length (soundTimers s) =? 16)%nat
  && (length (soundCnt s) =? 16)%nat && (length (soundSad s) =? 16)%nat
  && (length (soundTmr s) =? 16)%nat && (length (soundPnt s) =? 16)%nat
  && (length (soundLen s) =? 16)%nat
  && forallb (fun x => (0 <=? x) && (x <? 65536)) (soundTmr s).

(** The same as a proposition, one field per fact. *)
Record WF (s : Spu) : Prop := mkWF {
  wf_adpcmValue : length (adpcmValue s) = 16%nat;
  wf_adpcmLoopValue : length (adpcmLoopValue s) = 16%nat;
  wf_adpcmIndex : length (adpcmIndex s) = 16%nat;
  wf_adpcmLoopIndex : length (adpcmLoopIndex s) = 16%nat;
  wf_adpcmToggle : length (adpcmToggle s) = 16%nat;
  wf_dutyCycles : length (dutyCycles s) = 6%nat;
  wf_noiseValues : length (noiseValues s) = 2%nat;
  wf_soundCurrent : length (soundCurrent s) = 16%nat;
  wf_soundTimers : length (soundTimers s) = 16%nat;
  wf_soundCnt : length (soundCnt s) = 16%nat;
  wf_soundSad : length (soundSad s) = 16%nat;
  wf_soundTmr : length (soundTmr s) = 16%nat;
  wf_soundPnt : length (soundPnt s) = 16%nat;
  wf_soundLen : length (soundLen s) = 16%nat;
  wf_tmr_range : Forall (fun x => 0 <= x < 65536) (soundTmr s)
}.

(** The buffers of a unit whose buffer size is not 0: two different live
    blocks of [bufferSize] words each, and a cursor inside the in buffer. *)
Definition bufferOk (s : Spu) : bool :=
  (bufferSize s =? 0)
  || match bufferIn s, bufferOut s with
     | Some a, Some b =>
         negb (a =? b)%nat
         && match heap s !! a, heap s !! b with
            | Some la, Some lb =>
                (Z.of_nat (length la) =? bufferSize s) && (Z.of_nat (length lb) =? bufferSize s)
            | _, _ => false
            end
         && (0 <=? bufferPointer s) && (bufferPointer s <? bufferSize s)
     | _, _ => false
     end.

(** ** Runs of the unit *)

(** The state in which a call ends, if it ends inside defined behaviour. *)
Definition outcomeState (o : Outcome) : option Spu :=
  match o with
  | Returned s => Some s
  | Spinning s => Some s
  | Undefined => None
  end.

(** The state a call of [runSample] ends in ([s] itself if there is none). *)
Definition afterTick (mem : Memory) (limitFps : bool) (s : Spu) : Spu :=
  default s (outcomeState (runSample mem limitFps s)).

(** [n] ticks in a row, each one returning. *)
Fixpoint runTicks (n : nat) (mem : Memory) (limitFps : bool) (s : Spu) : Outcome :=
  match n with
  | O => Returned s
  | S n =>
      match runSample mem limitFps s with
      | Returned s' => runTicks n mem limitFps s'
      | o => o
      end
  end.

(** The state after [n] ticks ([s] itself when they do not all return). *)
Definition afterTicks (n : nat) (mem : Memory) (limitFps : bool) (s : Spu) : Spu :=
  match runTicks n mem limitFps s with
  | Returned s' => s'
  | _ => s
  end.

(** The frames [n] ticks in a row push, in order, and the state after them;
    [None] when one of the ticks does not return. *)
Fixpoint produce (n : nat) (mem : Memory) (limitFps : bool) (s : Spu)
  : option (list Z * Spu) :=
  match n with
  | O => Some ([], s)
  | S n =>
      match runChannels mem 0 16 (s, (0, 0)), runSample mem limitFps s with
      | Some (s1, acc), Returned s' =>
          r ← produce n mem limitFps s'; Some (frameOf s1 acc :: r.1, r.2)
      | _, _ => None
      end
  end.

(** Whether some pass of the reload loop, run from [s], finds the current
    address at the end address after its advance. *)
Fixpoint reachesEnd (fuel : nat) (mem : Memory) (i : nat) (format : Z) (s : Spu) : bool :=
  match fuel with
  | O => false
  | S fuel =>
      let s1 := advance mem i format (reloadTimer i s) in
      (negb (format =? 3) && (get (soundCurrent s1) i =? endAddress i s1))
      || (if (reloadStep mem i format s).2
          then reachesEnd fuel mem i format (reloadStep mem i format s).1
          else false)
  end.

(** What is asked of the ADPCM headers the unit is given: nothing, or
    that the initial value is not 0x8000. *)
Definition AnyHeader : Memory -> Z -> Prop := fun _ _ => True.
Definition GoodHeader : Memory -> Z -> Prop :=
  fun mem a => i16 (read_u32 mem a) <> - 32768.

(** The states the unit can be in: the freshly constructed one, and any
    state reached from a reachable one by a register write (to an existing
    channel), by a tick that ends (returning, or waiting for the consumer),
    by the producer leaving its wait with the swap, or by a [getSamples]
    call.  The contents of memory may be different at every step; [H]
    constrains the memory a control-register write sees at the channel's
    source address, where the ADPCM header lies. *)
Inductive Reachable (H : Memory -> Z -> Prop) : Spu -> Prop :=
  | reach_initial : Reachable H initial
  | reach_writeSoundCnt mem ch mask value s :
      (ch < 16)%nat -> H mem (get (soundSad s) ch) -> Reachable H s ->
      Reachable H (writeSoundCnt mem ch mask value s)
  | reach_writeSoundSad ch mask value s :
      (ch < 16)%nat -> Reachable H s -> Reachable H (writeSoundSad ch mask value s)
  | reach_writeSoundTmr ch mask value s :
      (ch < 16)%nat -> Reachable H s -> Reachable H (writeSoundTmr ch mask value s)
  | reach_writeSoundPnt ch mask value s :
      (ch < 16)%nat -> Reachable H s -> Reachable H (writeSoundPnt ch mask value s)
  | reach_writeSoundLen ch mask value s :
      (ch < 16)%nat -> Reachable H s -> Reachable H (writeSoundLen ch mask value s)
  | reach_writeMainSoundCnt mask value s :
      Reachable H s -> Reachable H (writeMainSoundCnt mask value s)
  | reach_writeSoundBias mask value s :
      Reachable H s -> Reachable H (writeSoundBias mask value s)
  | reach_runSample mem limitFps s s' :
      Reachable H s -> outcomeState (runSample mem limitFps s) = Some s' -> Reachable H s'
  | reach_swapBuffers s :
      Reachable H s -> Reachable H (swapBuffers s)
  | reach_getSamples polls junk count s out s' :
      Reachable H s -> getSamples polls junk count s = Some (out, s') -> Reachable H s'.

(** ** The volume stages with explicit factors *)

(** The stages of the spec, with the factor they work with made explicit:
    a divider that shifts left by [4 - d], a multiplier by [f / 128], a pan
    split into [(128 - p) / 128] and [p / 128] followed by the rounding
    shift, and the master volume by [v / 128] with its further scaling. *)
Definition dividerBy (d data : Z) : Z := Z.shiftl data (4 - d).
Definition multiplierBy (f data : Z) : Z := Z.quot (Z.shiftl data 7 * f) 128.
Definition panBy (p data : Z) : Z * Z :=
  (Z.shiftr (Z.quot (Z.shiftl data 7 * (128 - p)) 128) 10,
   Z.shiftr (Z.quot (Z.shiftl data 7 * p) 128) 10).
Definition masterBy (v sample : Z) : Z := Z.quot (Z.quot (Z.shiftl sample 13 * v) 128) 64.

(** The register fields the stages read. *)
Definition divField (cnt : Z) : Z := Z.shiftr (Z.land cnt 0x00000300) 8.
Definition mulField (cnt : Z) : Z := Z.land cnt 0x0000007F.
Definition panField (cnt : Z) : Z := Z.shiftr (Z.land cnt 0x007F0000) 16.
Definition masterField (mainCnt : Z) : Z := Z.land mainCnt 0x007F.

(** ** Clipping *)

(** The value of a sample after the bias has been added, clipped to
    [0, 0x3FF]: 0 below the range, 0x3FF above it, the value itself
    inside. *)
Definition saturated (v : Z) : Z := if v <? 0 then 0 else if 0x3FF <? v then 0x3FF else v.

(** ** The ADPCM channel state, its decode step and its ranges *)

(** The ADPCM state of one channel. *)
Record AdpcmChannel : Type := mkAdpcmChannel {
  predictor : Z;
  stepIndex : Z;
  highNibble : bool;
  address : Z;
  loopPredictor : Z;
  loopStepIndex : Z
}.

(** The ADPCM state of channel [i] in [s]. *)
Definition adpcmChannel (i : nat) (s : Spu) : AdpcmChannel :=
  {| predictor := get (adpcmValue s) i;
     stepIndex := get (adpcmIndex s) i;
     highNibble := getb (adpcmToggle s) i;
     address := get (soundCurrent s) i;
     loopPredictor := get (adpcmLoopValue s) i;
     loopStepIndex := get (adpcmLoopIndex s) i |}.

(** The decode step as the spec words it: the nibble of [byte] the
    selector points at, the magnitude from the step table gated by the
    nibble bits 0-2, the predictor moved up (bit 3 set) or down and clamped,
    the step index moved by the index table and clamped, the selector
    toggled, the address advanced after the high nibble, and the loop pair
    taken when the new address is the loop point with the selector back at
    the low nibble. *)
Definition decodeNibble (byte sourceAddress loopPoint : Z) (c : AdpcmChannel) : AdpcmChannel :=
  let nibble := if highNibble c then byte / 16 else byte mod 16 in
  let step := nth (Z.to_nat (stepIndex c)) adpcmTable 0 in
  let magnitude :=
    step / 8 + (if Z.testbit nibble 0 then step / 4 else 0)
             + (if Z.testbit nibble 1 then step / 2 else 0)
             + (if Z.testbit nibble 2 then step / 1 else 0) in
  let predictor' :=
    if Z.testbit nibble 3 then Z.min (predictor c + magnitude) 32767
    else Z.max (predictor c - magnitude) (- 32767) in
  let stepIndex' :=
    Z.max 0 (Z.min 88 (stepIndex c + nth (Z.to_nat (nibble mod 8)) indexTable 0)) in
  let address' := if highNibble c then (address c + 1) mod 2 ^ 32 else address c in
  let atLoop :=
    (address' =? (sourceAddress + loopPoint * 4) mod 2 ^ 32) && highNibble c in
  {| predictor := predictor';
     stepIndex := stepIndex';
     highNibble := negb (highNibble c);
     address := address';
     loopPredictor := if atLoop then predictor' else loopPredictor c;
     loopStepIndex := if atLoop then stepIndex' else loopStepIndex c |}.

(** The range of a step index, and the range of a predictor with lower
    end [lo]. *)
Definition idxOK (x : Z) : Prop := 0 <= x <= 88.
Definition valOK (lo x : Z) : Prop := lo <= x <= 32767.

(** The step indices, current and saved, lie in [0,88]; the predictors,
    current and saved, lie in [lo, 32767]. *)
Record AdpcmInv (lo : Z) (s : Spu) : Prop := mkAdpcmInv {
  inv_index : Forall idxOK (adpcmIndex s);
  inv_loopIndex : Forall idxOK (adpcmLoopIndex s);
  inv_value : Forall (valOK lo) (adpcmValue s);
  inv_loopValue : Forall (valOK lo) (adpcmLoopValue s)
}.

(** ** A PCM8 channel at a given point of its timer *)

(** Channel [i] is an enabled PCM8 channel with reload period 0xFFFF, its
    accumulator at [t], its current address at [c] and its end address at
    [e]. *)
Definition pcm8At (i : nat) (t c e : Z) (s : Spu) : Prop :=
  enabled (get (soundCnt s) i) = true /\ formatOf (get (soundCnt s) i) = 0 /\
  get (soundTmr s) i = 0xFFFF /\ get (soundTimers s) i = t /\
  get (soundCurrent s) i = c /\ endAddress i s = e.

(** ** Values of a register's width *)

(** [x] has no bit outside [mask]. *)
Definition onlyBits (mask x : Z) : Prop := Z.land x mask = x.

(** The registers hold only their writable bits, and the working members
    of the tick are values of their C++ type. *)
Record Typed (s : Spu) : Prop := mkTyped {
  ty_soundCnt : Forall (onlyBits 0xFF7F837F) (soundCnt s);
  ty_soundSad : Forall (onlyBits 0x07FFFFFC) (soundSad s);
  ty_soundTmr : Forall (onlyBits 0xFFFF) (soundTmr s);
  ty_soundPnt : Forall (onlyBits 0xFFFF) (soundPnt s);
  ty_soundLen : Forall (onlyBits 0x003FFFFF) (soundLen s);
  ty_mainSoundCnt : onlyBits 0xBF7F (mainSoundCnt s);
  ty_soundBias : onlyBits 0x03FF (soundBias s);
  ty_soundTimers : Forall (onlyBits 0xFFFF) (soundTimers s);
  ty_soundCurrent : Forall (onlyBits 0xFFFFFFFF) (soundCurrent s);
  ty_dutyCycles : Forall (fun x => 0 <= x <= 7) (dutyCycles s);
  ty_noiseValues : Forall (onlyBits 0xFFFF) (noiseValues s)
}.

(** ** The control-register write in two steps *)

(** "Write to one of the SOUNDCNT registers": the masked store that ends
    [writeSoundCnt]. *)
Definition storeSoundCnt (channel : nat) (mask value : Z) (s : Spu) : Spu :=
  let mask := Z.land mask 0xFF7F837F in
  set_soundCnt
    (<[channel := u32 (Z.lor (Z.land (get (soundCnt s) channel) (Z.lnot mask))
                             (Z.land value mask))]> (soundCnt s)) s.

(** The reload test of [writeSoundCnt]. *)
Definition reloads (channel : nat) (value : Z) (s : Spu) : bool :=
  negb (enabled (get (soundCnt s) channel)) && Z.testbit value 31.

(** ** The timer in closed form *)

(** The number of passes through the reload loop in a tick that finds
    the accumulator at [t] when the reload value is [tmr]: none while
    [t + 512] stays below 65536; otherwise one, and one more for every
    whole period [65536 - tmr] contained in the excess. *)
Definition reloadPasses (t tmr : Z) : Z :=
  if t + 512 <? 65536 then 0 else (t + 512 - 65536) / (65536 - tmr) + 1.

(** The accumulator that tick leaves. *)
Definition timerAfter (t tmr : Z) : Z :=
  if t + 512 <? 65536 then t + 512 else tmr + (t + 512 - 65536) mod (65536 - tmr).

(** ** The shift register of the noise channels *)

(** The 15-bit shift register of the noise channels: shifted right by
    one, and XORed with 0x6000 when the bit shifted out was set. *)
Definition lfsr15 (y : Z) : Z :=
  if Z.testbit y 0 then Z.lxor (Z.shiftr y 1) 0x6000 else Z.shiftr y 1.

(** Whether the register, stepped from [y], is at [y0] after one of the
    next [n] steps. *)
Fixpoint returnsWithin (n : nat) (y0 y : Z) : bool :=
  match n with
  | O => false
  | S n => (lfsr15 y =? y0) || returnsWithin n y0 (lfsr15 y)
  end.

(** ** The factors of the volume stages and their intermediate values *)

(** The factor a 7-bit volume or pan field stands for, and the shift a
    divider field stands for. *)
Definition factorOf (field : Z) : Z := if field =? 127 then field + 1 else field.
Definition dividerOf (field : Z) : Z := if field =? 3 then field + 1 else field.

(** A value of [int64_t]. *)
Definition fits64 (x : Z) : Prop := - 2 ^ 63 <= x < 2 ^ 63.

(** Every value the volume divider, the volume factor and the panning
    compute on the way from [data] to the two contributions, in the order
    of the source. *)
Definition channelIntermediates (cnt data : Z) : list Z :=
  let d := divStage cnt data in
  let m := mulStage cnt d in
  [ d; Z.shiftl d 7; Z.shiftl d 7 * factorOf (mulField cnt); m;
    Z.shiftl m 7;
    Z.shiftl m 7 * (128 - factorOf (panField cnt));
    Z.quot (Z.shiftl m 7 * (128 - factorOf (panField cnt))) 128;
    (panStage cnt m).1;
    Z.shiftl m 7 * factorOf (panField cnt);
    Z.quot (Z.shiftl m 7 * factorOf (panField cnt)) 128;
    (panStage cnt m).2 ].

(** Every value computed from an accumulator after the channel loop: the
    master volume, the rounding, the bias, the clipping and the
    expansion. *)
Definition masterIntermediates (mainCnt bias sample : Z) : list Z :=
  let m := masterStage mainCnt sample in
  [ Z.shiftl sample 13;
    Z.shiftl sample 13 * factorOf (masterField mainCnt);
    Z.quot (Z.shiftl sample 13 * factorOf (masterField mainCnt)) 128;
    m; Z.shiftr m 21; biasStage bias m; clip (biasStage bias m);
    clip (biasStage bias m) - 0x200; expand (clip (biasStage bias m));
    Z.shiftl (expand (clip (biasStage bias m))) 16 ].

(** ** The buffers of the unit *)

(** The buffers of a unit at any time: none yet (and the size 0), or two
    different live blocks of [bufferSize] words each; the cursor is inside
    the in buffer or, while the producer waits for the consumer, just past
    its end. *)
Definition buffersLive (s : Spu) : Prop :=
  0 <= bufferPointer s <= bufferSize s /\
  match bufferIn s, bufferOut s with
  | None, None => bufferSize s = 0
  | Some a, Some b =>
      a <> b /\
      exists la lb, heap s !! a = Some la /\ heap s !! b = Some lb /\
                    Z.of_nat (length la) = bufferSize s /\ Z.of_nat (length lb) = bufferSize s
  | _, _ => False
  end.

(** The buffers and the free store of two states are the same. *)
Record SameBuffers (s s' : Spu) : Prop := mkSameBuffers {
  sb_heap : heap s' = heap s;
  sb_bufferIn : bufferIn s' = bufferIn s;
  sb_bufferOut : bufferOut s' = bufferOut s;
  sb_bufferSize : bufferSize s' = bufferSize s;
  sb_bufferPointer : bufferPointer s' = bufferPointer s;
  sb_ready : ready s' = ready s
}.

(** ** Looping channels *)

(** The read pointer of channel [i] is inside its sample data: at or
    after the source address and before the end address, and on a 16-bit
    boundary when the channel plays PCM16. *)
Definition inSample (i : nat) (s : Spu) : Prop :=
  get (soundSad s) i <= get (soundCurrent s) i < endAddress i s /\
  (formatOf (get (soundCnt s) i) = 1 -> get (soundCurrent s) i mod 2 = 0).

(** One pass of the reload loop of channel [i], in the format its control
    word gives. *)
Definition reloadPass (mem : Memory) (i : nat) (s : Spu) : Spu :=
  (reloadStep mem i (formatOf (get (soundCnt s) i)) s).1.

(** ** Example memories and states *)

(** A memory of zero bytes. *)
Definition zeroMemory : Memory := fun _ => 0.

(** A memory holding the header bytes 0x34, 0x12, 0x00, 0x00 at 0x02000000
    and the data byte 0x7B after them. *)
Definition headerMemory : Memory :=
  fun a => if a =? 0x02000000 then 0x34 else if a =? 0x02000001 then 0x12
           else if a =? 0x02000004 then 0x7B else 0.

(** A memory whose ADPCM header at 0x02000000 holds the initial value
    0x8000 and whose sample data, from 0x02000004 on, is the byte 0x88. *)
Definition lowestHeaderMemory : Memory :=
  fun a => if a =? 0x02000001 then 0x80 else if 0x02000004 <=? a then 0x88 else 0.

(** The state after the host asked a fresh unit for a block of two frames
    (and gave up waiting): both buffers exist and hold two words each. *)
Definition twoFrameUnit : Spu :=
  match getSamples 0 ([], [], []) 2 initial with
  | Some (_, s) => s
  | None => initial
  end.


(** Channel 3 set up for ADPCM at 0x02000000 with reload period 0xF000,
    not yet enabled. *)
Definition adpcmSetup : Spu :=
  writeSoundTmr 3 0xFFFF 0xF000
    (writeSoundCnt headerMemory 3 0xFFFFFFFF 0x40000000
       (writeSoundSad 3 0xFFFFFFFF 0x02000000 initial)).

(** The enabling write of the header scenario, carried out. *)
Definition adpcmRunning : Spu :=
  writeSoundCnt headerMemory 3 0xFFFFFFFF 0xC000007F adpcmSetup.

(** Channel 3 enabled for ADPCM on that memory, with the fastest reload
    period. *)
Definition lowestStart : Spu :=
  writeSoundCnt lowestHeaderMemory 3 0xFFFFFFFF 0xC000007F
    (writeSoundTmr 3 0xFFFF 0xFFFF adpcmSetup).

(** A one-shot PCM8 channel of one word at 0x02000000 with the fastest
    reload period, enabled. *)
Definition oneShotStart : Spu :=
  writeSoundCnt zeroMemory 0 0xFFFFFFFF 0x9000007F
    (writeSoundTmr 0 0xFFFF 0xFFFF
       (writeSoundLen 0 0xFFFFFFFF 1
          (writeSoundSad 0 0xFFFFFFFF 0x02000000 initial))).

(** Channel 0 enabled as PCM8 on a fresh unit and its reload period set to
    0xFFFF afterwards: the accumulator starts at 0. *)
Definition enableThenReload : Spu :=
  writeSoundTmr 0 0xFFFF 0xFFFF (writeSoundCnt zeroMemory 0 0xFFFFFFFF 0x8000007F initial).

(** The reload period set to 0xFFFF first and the channel enabled after:
    the enabling write loads the accumulator with 0xFFFF. *)
Definition reloadThenEnable : Spu :=
  writeSoundCnt zeroMemory 0 0xFFFFFFFF 0x8000007F (writeSoundTmr 0 0xFFFF 0xFFFF initial).

(** A looping PCM8 channel of one word at 0x02000000 with the fastest
    reload period, enabled. *)
Definition loopStart : Spu :=
  writeSoundCnt zeroMemory 0 0xFFFFFFFF 0x8800007F
    (writeSoundTmr 0 0xFFFF 0xFFFF
       (writeSoundLen 0 0xFFFFFFFF 1
          (writeSoundSad 0 0xFFFFFFFF 0x02000000 initial))).

(** Channel 8 set to the pulse format with duty field 2 and enabled by a
    second write, which resets its duty counter. *)
Definition pulseStart : Spu :=
  writeSoundCnt zeroMemory 8 0xFFFFFFFF 0xE200007F
    (writeSoundCnt zeroMemory 8 0xFFFFFFFF 0x6200007F
       (writeSoundTmr 8 0xFFFF 0xFF00 initial)).

(** Channel 14 set to the noise format and enabled by a second write,
    which loads its generator with 0x7FFF. *)
Definition noiseStart : Spu :=
  writeSoundCnt zeroMemory 14 0xFFFFFFFF 0xE000007F
    (writeSoundCnt zeroMemory 14 0xFFFFFFFF 0x6000007F
       (writeSoundTmr 14 0xFFFF 0xFF00 initial)).

(** The two-frame unit after two ticks: the buffers swapped, the ready
    flag set. *)
Definition readyUnit : Spu := afterTicks 2 zeroMemory false twoFrameUnit.

(** The two-frame unit asked for a block of three frames. *)
Definition resizedUnit : Spu :=
  match getSamples 0 ([1; 2; 3], [4; 5; 6], [7; 8; 9]) 3 twoFrameUnit with
  | Some (_, s) => s
  | None => twoFrameUnit
  end.

(** A memory whose bytes are 0 up to 0x02000003 and 0x7B from 0x02000004
    on: an ADPCM header of zeros followed by sample data. *)
Definition zeroHeaderMemory : Memory := fun a => if 0x02000004 <=? a then 0x7B else 0.

(** Channel 3 set up for ADPCM in loop mode on one word of sample data
    after the header, and enabled by a second write: the read pointer is
    at the loop address, which is the first byte after the header. *)
Definition adpcmLoopStart : Spu :=
  writeSoundCnt zeroHeaderMemory 3 0xFFFFFFFF 0xC800007F
    (writeSoundCnt zeroHeaderMemory 3 0xFFFFFFFF 0x4800007F
       (writeSoundLen 3 0xFFFFFFFF 1
          (writeSoundPnt 3 0xFFFF 1
             (writeSoundSad 3 0xFFFFFFFF 0x02000000 initial)))).

(** A unit with buffers of two frames whose channel 8 plays a pulse wave
    with duty field 5 at full volume and centre pan, two reload passes to
    the tick: its data is low in the first tick and high in the second.
    Master volume 127, bias 0x200. *)
Definition pulsingUnit : Spu :=
  match getSamples 0 ([], [], []) 2
          (writeSoundCnt zeroMemory 8 0xFFFFFFFF 0xE540007F
             (writeSoundCnt zeroMemory 8 0xFFFFFFFF 0x6540007F
                (writeSoundTmr 8 0xFFFF 0xFF00
                   (writeSoundBias 0xFFFF 0x200
                      (writeMainSoundCnt 0xFFFF 0x007F initial))))) with
  | Some (_, s) => s
  | None => initial
  end.

(** A unit with buffers of two frames, master volume 127 and bias 0x100,
    in which channel 8 plays the low level of a pulse wave at full volume
    on the left and channels 9 and 10 the high level at full volume on the
    right: the left sample falls below 0 and the right one exceeds 0x3FF
    before clipping. *)
Definition clippingUnit : Spu :=
  match getSamples 0 ([], [], []) 2
          (writeSoundCnt zeroMemory 10 0xFFFFFFFF 0xE77F007F
             (writeSoundCnt zeroMemory 10 0xFFFFFFFF 0x677F007F
                (writeSoundCnt zeroMemory 9 0xFFFFFFFF 0xE77F007F
                   (writeSoundCnt zeroMemory 9 0xFFFFFFFF 0x677F007F
                      (writeSoundCnt zeroMemory 8 0xFFFFFFFF 0xE000007F
                         (writeSoundCnt zeroMemory 8 0xFFFFFFFF 0x6000007F
                            (writeSoundBias 0xFFFF 0x100
                               (writeMainSoundCnt 0xFFFF 0x007F initial)))))))) with
  | Some (_, s) => s
  | None => initial
  end.

(** * Properties *)

(** ** Arithmetic and array lemmas *)

Lemma u8_range x : 0 <= u8 x < 256.
Proof. unfold u8. change (2 ^ 8) with 256. apply Z.mod_pos_bound. lia. Qed.

Lemma u16_range x : 0 <= u16 x < 65536.
Proof. unfold u16. change (2 ^ 16) with 65536. apply Z.mod_pos_bound. lia. Qed.

Lemma u32_range x : 0 <= u32 x < 4294967296.
Proof. unfold u32. change (2 ^ 32) with 4294967296. apply Z.mod_pos_bound. lia. Qed.

Lemma u16_small x : 0 <= x < 65536 -> u16 x = x.
Proof. intros H. unfold u16. change (2 ^ 16) with 65536. apply Z.mod_small. lia. Qed.

Lemma u32_small x : 0 <= x < 4294967296 -> u32 x = x.
Proof. intros H. unfold u32. change (2 ^ 32) with 4294967296. apply Z.mod_small. lia. Qed.

Lemma i16_range x : - 32768 <= i16 x <= 32767.
Proof.
  unfold i16. pose proof (u16_range x) as H. change (2 ^ 15) with 32768.
  change (2 ^ 16) with 65536. destruct (Z.ltb_spec (u16 x) 32768); lia.
Qed.

Lemma nonzero_true x : nonzero x = true <-> x <> 0.
Proof. unfold nonzero. destruct (Z.eqb_spec x 0); simpl; intuition congruence. Qed.

Lemma nonzero_false x : nonzero x = false <-> x = 0.
Proof. unfold nonzero. destruct (Z.eqb_spec x 0); simpl; intuition congruence. Qed.

Lemma get_insert_eq (a : list Z) (i : nat) (v : Z) :
  (i < length a)%nat -> get (<[i := v]> a) i = v.
Proof. intros H. unfold get. by rewrite list_lookup_insert_eq. Qed.

Lemma get_insert_ne (a : list Z) (i j : nat) (v : Z) :
  i <> j -> get (<[i := v]> a) j = get a j.
Proof. intros H. unfold get. by rewrite list_lookup_insert_ne. Qed.

Lemma getb_insert_eq (a : list bool) (i : nat) (v : bool) :
  (i < length a)%nat -> getb (<[i := v]> a) i = v.
Proof. intros H. unfold getb. by rewrite list_lookup_insert_eq. Qed.

Lemma getb_insert_ne (a : list bool) (i j : nat) (v : bool) :
  i <> j -> getb (<[i := v]> a) j = getb a j.
Proof. intros H. unfold getb. by rewrite list_lookup_insert_ne. Qed.

Lemma get_Forall (P : Z -> Prop) (a : list Z) (i : nat) :
  Forall P a -> P 0 -> P (get a i).
Proof.
  intros Ha H0. unfold get. destruct (a !! i) as [x|] eqn:E; simpl; [|done].
  eapply Forall_lookup_1; eauto.
Qed.

(** An element assignment keeps a property of all elements when the
    element read back has it (out of range the assignment stores nothing). *)
Lemma Forall_insert_get (P : Z -> Prop) (a : list Z) (i : nat) (v : Z) :
  Forall P a -> P (get (<[i := v]> a) i) -> Forall P (<[i := v]> a).
Proof.
  intros Ha Hv. destruct (decide (i < length a)%nat) as [Hi|Hi].
  - rewrite get_insert_eq in Hv by done. by apply Forall_insert.
  - rewrite list_insert_ge by lia. done.
Qed.

(** ** Which members a channel's pass may change *)

Lemma agree_refl {A : Type} (k i : nat) (a : list A) : agree k i a a.
Proof. by split. Qed.

Lemma agree_trans {A : Type} (k i : nat) (a b c : list A) :
  agree k i a b -> agree k i b c -> agree k i a c.
Proof.
  intros [L1 H1] [L2 H2]. split; [congruence|].
  intros j Hj. rewrite H2, H1; auto.
Qed.

Lemma agree_insert {A : Type} (k i j : nat) (v : A) (a a' : list A) :
  (j + k)%nat = i -> agree k i a a' -> agree k i a (<[j := v]> a').
Proof.
  intros Hj [L H]. split; [by rewrite length_insert|].
  intros j' Hj'. rewrite list_lookup_insert_ne by lia. auto.
Qed.

Lemma Frame_refl (i : nat) (s : Spu) : Frame i s s.
Proof. split; (reflexivity || apply agree_refl). Qed.

Lemma Frame_trans (i : nat) (s1 s2 s3 : Spu) :
  Frame i s1 s2 -> Frame i s2 s3 -> Frame i s1 s3.
Proof.
  intros [] []. split; (congruence || (eapply agree_trans; eassumption)).
Qed.

(** Projections of member assignments compute. *)
Ltac proj :=
  cbn [heap bufferIn bufferOut bufferSize bufferPointer ready adpcmValue adpcmLoopValue
       adpcmIndex adpcmLoopIndex adpcmToggle dutyCycles noiseValues soundCurrent
       soundTimers soundCnt soundSad soundTmr soundPnt soundLen mainSoundCnt soundBias
       set_heap set_bufferIn set_bufferOut set_bufferSize set_bufferPointer set_ready
       set_adpcmValue set_adpcmLoopValue set_adpcmIndex set_adpcmLoopIndex
       set_adpcmToggle set_dutyCycles set_noiseValues set_soundCurrent set_soundTimers
       set_soundCnt set_soundSad set_soundTmr set_soundPnt set_soundLen
       set_mainSoundCnt set_soundBias] in *.

Ltac split_ifs :=
  repeat match goal with
         | |- context [if ?c then _ else _] => destruct c eqn:?
         end.

(** A short run of element assignments, all at subscript [i]. *)
Ltac frame_assign :=
  split_ifs; split; proj; try reflexivity;
  repeat (apply agree_insert; [lia|]); apply agree_refl.

Lemma readAdpcmHeader_Frame mem i s : Frame i s (readAdpcmHeader mem i s).
Proof. unfold readAdpcmHeader. frame_assign. Qed.

Lemma resetPsg_Frame i s : Frame i s (resetPsg i s).
Proof.
  unfold resetPsg.
  destruct ((8 <=? i)%nat && (i <=? 13)%nat) eqn:E1.
  - apply andb_true_iff in E1 as [E1 _]. apply Nat.leb_le in E1. frame_assign.
  - destruct (14 <=? i)%nat eqn:E2; [|apply Frame_refl].
    apply Nat.leb_le in E2. frame_assign.
Qed.

Lemma reloadRegisters_Frame mem i s : Frame i s (reloadRegisters mem i s).
Proof.
  unfold reloadRegisters. cbv zeta.
  match goal with |- Frame _ _ (if _ then ?f _ _ ?x else _) => set (s1 := x) end.
  assert (H1 : Frame i s s1) by (subst s1; frame_assign).
  clearbody s1.
  destruct (_ =? 2); [|destruct (_ =? 3)]; [| |done].
  - eapply Frame_trans; [exact H1|apply readAdpcmHeader_Frame].
  - eapply Frame_trans; [exact H1|apply resetPsg_Frame].
Qed.

Lemma applyDiff_Frame i d diff s : Frame i s (applyDiff i d diff s).
Proof. unfold applyDiff. frame_assign. Qed.

Lemma nextIndex_Frame i d s : Frame i s (nextIndex i d s).
Proof. unfold nextIndex. frame_assign. Qed.

Lemma nextNibble_Frame i s : Frame i s (nextNibble i s).
Proof. unfold nextNibble. frame_assign. Qed.

Lemma saveLoop_Frame i s : Frame i s (saveLoop i s).
Proof. unfold saveLoop. frame_assign. Qed.

Lemma adpcmStep_Frame mem i s : Frame i s (adpcmStep mem i s).
Proof.
  unfold adpcmStep. cbv zeta.
  eapply Frame_trans; [|apply saveLoop_Frame].
  eapply Frame_trans; [|apply nextNibble_Frame].
  eapply Frame_trans; [|apply nextIndex_Frame].
  apply applyDiff_Frame.
Qed.

Lemma noiseStep_Frame i s : (14 <= i)%nat -> Frame i s (noiseStep (i - 14) s).
Proof. intros Hi. unfold noiseStep. frame_assign. Qed.

Lemma psgStep_Frame i s : Frame i s (psgStep i s).
Proof.
  unfold psgStep.
  destruct ((8 <=? i)%nat && (i <=? 13)%nat) eqn:E1.
  - apply andb_true_iff in E1 as [E1 _]. apply Nat.leb_le in E1. frame_assign.
  - destruct (14 <=? i)%nat eqn:E2; [|apply Frame_refl].
    apply Nat.leb_le in E2. by apply noiseStep_Frame.
Qed.

Lemma advance_Frame mem i format s : Frame i s (advance mem i format s).
Proof.
  unfold advance.
  destruct ((format =? 0) || (format =? 1)); [frame_assign|].
  destruct (format =? 2); [apply adpcmStep_Frame|].
  destruct (format =? 3); [apply psgStep_Frame|apply Frame_refl].
Qed.

Lemma restoreLoop_Frame i s : Frame i s (restoreLoop i s).
Proof. unfold restoreLoop. frame_assign. Qed.

Lemma endOfData_Frame i format s : Frame i s (endOfData i format s).
Proof.
  unfold endOfData.
  destruct (negb (format =? 3) && _); [|apply Frame_refl].
  destruct (_ =? 1); [|frame_assign].
  cbv zeta. destruct (format =? 2); [|frame_assign].
  eapply Frame_trans; [|apply restoreLoop_Frame]. frame_assign.
Qed.

Lemma reloadTimer_Frame i s : Frame i s (reloadTimer i s).
Proof. unfold reloadTimer. frame_assign. Qed.

Lemma tickTimer_Frame i s : Frame i s (tickTimer i s).
Proof. unfold tickTimer. frame_assign. Qed.

Lemma reloadStep_Frame mem i format s : Frame i s (reloadStep mem i format s).1.
Proof.
  unfold reloadStep. cbn [fst].
  eapply Frame_trans; [|apply endOfData_Frame].
  eapply Frame_trans; [|apply advance_Frame].
  apply reloadTimer_Frame.
Qed.

Lemma reloadLoop_Frame fuel mem i format s s' :
  reloadLoop fuel mem i format s = Some s' -> Frame i s s'.
Proof.
  revert s. induction fuel as [|fuel IH]; intros s H; [discriminate|].
  cbn [reloadLoop] in H.
  pose proof (reloadStep_Frame mem i format s) as Hs.
  destruct (reloadStep mem i format s) as [s1 ov]. cbn [fst] in Hs.
  destruct ov.
  - eapply Frame_trans; [exact Hs|]. by apply IH.
  - injection H as <-. exact Hs.
Qed.

Lemma runTimer_Frame mem i format s s' :
  runTimer mem i format s = Some s' -> Frame i s s'.
Proof.
  unfold runTimer. cbv zeta. intros H.
  destruct (_ <? 512).
  - eapply Frame_trans; [apply tickTimer_Frame|]. eapply reloadLoop_Frame; eauto.
  - injection H as <-. apply tickTimer_Frame.
Qed.

Lemma runChannel_Frame mem i st st' :
  runChannel mem i st = Some st' -> Frame i st.1 st'.1.
Proof.
  unfold runChannel. intros H.
  destruct (negb _).
  - injection H as <-. apply Frame_refl.
  - cbv zeta in H. destruct (runTimer _ _ _ _) as [s1|] eqn:E; [|discriminate].
    cbn [mbind option_bind] in H. apply (inj Some) in H. subst st'. cbn [fst].
    eapply runTimer_Frame; eauto.
Qed.

Lemma Keep_refl (j : nat) (s : Spu) : Keep j s s.
Proof. by split. Qed.

Lemma Keep_trans (j : nat) (s1 s2 s3 : Spu) : Keep j s1 s2 -> Keep j s2 s3 -> Keep j s1 s3.
Proof.
  intros [] []. split; try congruence.
  - intros H. rewrite kp_dutyCycles1, kp_dutyCycles0; auto.
  - intros H. rewrite kp_noiseValues1, kp_noiseValues0; auto.
Qed.

Lemma agree_get (k i j : nat) (a a' : list Z) :
  agree k i a a' -> (j + k)%nat <> i -> get a' j = get a j.
Proof. intros [_ H] Hj. unfold get. by rewrite H. Qed.

Lemma agree_getb (k i j : nat) (a a' : list bool) :
  agree k i a a' -> (j + k)%nat <> i -> getb a' j = getb a j.
Proof. intros [_ H] Hj. unfold getb. by rewrite H. Qed.

(** The pass of channel [i] keeps every other channel. *)
Lemma Frame_Keep (i j : nat) (s s' : Spu) : Frame i s s' -> i <> j -> Keep j s s'.
Proof.
  intros [] Hij. split; try done;
    try (eapply agree_get; [eassumption|lia]);
    try (eapply agree_getb; [eassumption|lia]);
    intros Hj; (eapply agree_get; [eassumption|lia]).
Qed.

(** ** Well-formed states *)

Lemma wf_WF (s : Spu) : wf s = true <-> WF s.
Proof.
  unfold wf. rewrite !andb_true_iff, !Nat.eqb_eq, forallb_forall.
  split.
  - intros H. destruct_and!. split; try done.
    apply List.Forall_forall. intros x Hx.
    match goal with H : forall x, In x _ -> _ |- _ => specialize (H x Hx); apply andb_true_iff in H end.
    lia.
  - intros []. repeat split; try done.
    intros x Hx. rewrite List.Forall_forall in wf_tmr_range0.
    specialize (wf_tmr_range0 x Hx). apply andb_true_iff. lia.
Qed.

Lemma WF_Frame (i : nat) (s s' : Spu) : WF s -> Frame i s s' -> WF s'.
Proof.
  intros Hwf Hfr. destruct Hwf.
  split.
  - by rewrite (proj1 (fr_adpcmValue _ _ _ Hfr)).
  - by rewrite (proj1 (fr_adpcmLoopValue _ _ _ Hfr)).
  - by rewrite (proj1 (fr_adpcmIndex _ _ _ Hfr)).
  - by rewrite (proj1 (fr_adpcmLoopIndex _ _ _ Hfr)).
  - by rewrite (proj1 (fr_adpcmToggle _ _ _ Hfr)).
  - by rewrite (proj1 (fr_dutyCycles _ _ _ Hfr)).
  - by rewrite (proj1 (fr_noiseValues _ _ _ Hfr)).
  - by rewrite (proj1 (fr_soundCurrent _ _ _ Hfr)).
  - by rewrite (proj1 (fr_soundTimers _ _ _ Hfr)).
  - by rewrite (proj1 (fr_soundCnt _ _ _ Hfr)).
  - by rewrite (fr_soundSad _ _ _ Hfr).
  - by rewrite (fr_soundTmr _ _ _ Hfr).
  - by rewrite (fr_soundPnt _ _ _ Hfr).
  - by rewrite (fr_soundLen _ _ _ Hfr).
  - by rewrite (fr_soundTmr _ _ _ Hfr).
Qed.

Lemma WF_tmr (s : Spu) (i : nat) : WF s -> 0 <= get (soundTmr s) i < 65536.
Proof. intros H. apply (get_Forall (fun x => 0 <= x < 65536)); [apply H|lia]. Qed.

(** ** The reload loop terminates *)

(** The format-specific advance and the end-of-data handling leave the
    timers alone. *)
Lemma applyDiff_soundTimers i d diff s : soundTimers (applyDiff i d diff s) = soundTimers s.
Proof. unfold applyDiff. split_ifs; reflexivity. Qed.

Lemma nextIndex_soundTimers i d s : soundTimers (nextIndex i d s) = soundTimers s.
Proof. unfold nextIndex. split_ifs; reflexivity. Qed.

Lemma nextNibble_soundTimers i s : soundTimers (nextNibble i s) = soundTimers s.
Proof. unfold nextNibble. split_ifs; reflexivity. Qed.

Lemma saveLoop_soundTimers i s : soundTimers (saveLoop i s) = soundTimers s.
Proof. unfold saveLoop. split_ifs; reflexivity. Qed.

Lemma adpcmStep_soundTimers mem i s : soundTimers (adpcmStep mem i s) = soundTimers s.
Proof.
  unfold adpcmStep. cbv zeta.
  by rewrite saveLoop_soundTimers, nextNibble_soundTimers, nextIndex_soundTimers,
    applyDiff_soundTimers.
Qed.

Lemma psgStep_soundTimers i s : soundTimers (psgStep i s) = soundTimers s.
Proof. unfold psgStep, noiseStep. split_ifs; reflexivity. Qed.

Lemma advance_soundTimers mem i format s :
  soundTimers (advance mem i format s) = soundTimers s.
Proof.
  unfold advance.
  destruct ((format =? 0) || (format =? 1)); [reflexivity|].
  destruct (format =? 2); [apply adpcmStep_soundTimers|].
  destruct (format =? 3); [apply psgStep_soundTimers|reflexivity].
Qed.

Lemma endOfData_soundTimers i format s :
  soundTimers (endOfData i format s) = soundTimers s.
Proof. unfold endOfData, restoreLoop. split_ifs; reflexivity. Qed.

Lemma reloadStep_soundTimers mem i format s :
  soundTimers (reloadStep mem i format s).1 = soundTimers (reloadTimer i s).
Proof.
  unfold reloadStep. cbn [fst].
  by rewrite endOfData_soundTimers, advance_soundTimers.
Qed.

(** A reload that leaves [overflow] set has wrapped the accumulator, which
    is then strictly smaller than before. *)
Lemma reload_decreases (t tmr : Z) :
  0 <= t < 65536 -> 0 <= tmr < 65536 -> u16 (t + tmr) < tmr -> u16 (t + tmr) < t.
Proof.
  intros Ht Htmr. unfold u16. change (2 ^ 16) with 65536.
  destruct (Z_lt_le_dec (t + tmr) 65536) as [H|H].
  - rewrite Z.mod_small by lia. lia.
  - replace (t + tmr) with ((t + tmr - 65536) + 1 * 65536) by lia.
    rewrite Z.mod_add by lia. rewrite Z.mod_small by lia. lia.
Qed.

Lemma reloadLoop_total (fuel : nat) mem i format s :
  WF s -> (i < 16)%nat ->
  0 <= get (soundTimers s) i < 65536 ->
  (Z.to_nat (get (soundTimers s) i) < fuel)%nat ->
  exists s', reloadLoop fuel mem i format s = Some s'.
Proof.
  revert s. induction fuel as [|fuel IH]; intros s Hwf Hi Ht Hfuel; [lia|].
  cbn [reloadLoop].
  pose proof (reloadStep_Frame mem i format s) as Hfr.
  pose proof (reloadStep_soundTimers mem i format s) as Htm.
  assert (Hov : (reloadStep mem i format s).2
                = (get (soundTimers (reloadTimer i s)) i <? get (soundTmr (reloadTimer i s)) i))
    by reflexivity.
  destruct (reloadStep mem i format s) as [s1 ov]. cbn [fst snd] in *.
  destruct ov; [|eauto].
  assert (Ht1 : get (soundTimers s1) i = u16 (get (soundTimers s) i + get (soundTmr s) i)).
  { rewrite Htm. unfold reloadTimer. proj. apply get_insert_eq. rewrite (wf_soundTimers s Hwf). done. }
  symmetry in Hov. apply Z.ltb_lt in Hov. unfold reloadTimer in Hov. proj.
  rewrite get_insert_eq in Hov by (rewrite (wf_soundTimers s Hwf); done).
  pose proof (WF_tmr s i Hwf) as Htmr.
  pose proof (reload_decreases _ _ Ht Htmr Hov) as Hdec.
  pose proof (u16_range (get (soundTimers s) i + get (soundTmr s) i)).
  apply IH; [eapply WF_Frame; eauto|done|rewrite Ht1; lia|rewrite Ht1; lia].
Qed.

Lemma runTimer_total mem i format s :
  WF s -> (i < 16)%nat -> exists s', runTimer mem i format s = Some s'.
Proof.
  intros Hwf Hi. unfold runTimer. cbv zeta.
  destruct (_ <? 512); [|eauto].
  assert (Ht : get (soundTimers (tickTimer i s)) i = u16 (get (soundTimers s) i + 512)).
  { unfold tickTimer. proj. apply get_insert_eq. rewrite (wf_soundTimers s Hwf). done. }
  pose proof (u16_range (get (soundTimers s) i + 512)).
  apply reloadLoop_total.
  - eapply WF_Frame; [exact Hwf|apply tickTimer_Frame].
  - done.
  - rewrite Ht. lia.
  - unfold reloadFuel. lia.
Qed.

Lemma runChannel_total mem i st :
  WF st.1 -> (i < 16)%nat -> exists st', runChannel mem i st = Some st'.
Proof.
  intros Hwf Hi. unfold runChannel. destruct (negb _); [eauto|]. cbv zeta.
  destruct (runTimer_total mem i (Z.shiftr (Z.land (get (soundCnt st.1) i) 0x60000000) 29)
              st.1 Hwf Hi) as [s' ->].
  cbn [mbind option_bind]. eauto.
Qed.

(** ** Bit-level lemmas *)

Lemma land_BIT (x n : Z) : 0 <= n -> Z.land x (BIT n) = if Z.testbit x n then 2 ^ n else 0.
Proof.
  intros Hn. unfold BIT. rewrite Z.shiftl_1_l. apply Z.bits_inj'. intros m Hm.
  rewrite Z.land_spec, Z.pow2_bits_eqb by done.
  destruct (Z.eqb_spec n m) as [->|Hne].
  - rewrite andb_true_r. destruct (Z.testbit x m) eqn:E.
    + by rewrite Z.pow2_bits_true.
    + by rewrite Z.bits_0.
  - rewrite andb_false_r. destruct (Z.testbit x n).
    + rewrite Z.pow2_bits_false; done.
    + by rewrite Z.bits_0.
Qed.

Lemma nonzero_land_BIT (x n : Z) : 0 <= n -> nonzero (Z.land x (BIT n)) = Z.testbit x n.
Proof.
  intros Hn. rewrite land_BIT by done. destruct (Z.testbit x n).
  - apply nonzero_true. pose proof (Z.pow_pos_nonneg 2 n). lia.
  - by apply nonzero_false.
Qed.

Lemma enabled_testbit (cnt : Z) : enabled cnt = Z.testbit cnt 31.
Proof. unfold enabled. by apply nonzero_land_BIT. Qed.

Lemma u16_bits_eq (x y : Z) :
  (forall n, 0 <= n < 16 -> Z.testbit x n = Z.testbit y n) -> u16 x = u16 y.
Proof.
  intros H. unfold u16. apply Z.bits_inj'. intros n Hn.
  destruct (Z_lt_le_dec n 16).
  - rewrite !Z.mod_pow2_bits_low by lia. apply H. lia.
  - rewrite !Z.mod_pow2_bits_high by lia. done.
Qed.

Lemma i16_small (x : Z) : - 32768 <= x < 32768 -> i16 x = x.
Proof.
  intros H. unfold i16, u16. change (2 ^ 16) with 65536. change (2 ^ 15) with 32768.
  pose proof (Z_div_mod_eq_full x 65536) as Hdm.
  pose proof (Z.mod_pos_bound x 65536 ltac:(lia)) as Hb.
  destruct (Z.ltb_spec (x mod 65536) 32768); lia.
Qed.

Lemma i16_u16_eq (x y : Z) : u16 x = u16 y -> i16 x = i16 y.
Proof. unfold i16. by intros ->. Qed.

Lemma frameLeft_packFrame (l r : Z) : - 32768 <= l < 32768 -> frameLeft (packFrame l r) = l.
Proof.
  intros H. unfold frameLeft, packFrame. rewrite <- (i16_small l) at 2 by done.
  apply i16_u16_eq, u16_bits_eq. intros n Hn.
  unfold u32. rewrite Z.mod_pow2_bits_low by lia.
  rewrite Z.lor_spec, Z.shiftl_spec_low, Z.land_spec by lia.
  change 0xFFFF with (Z.ones 16). rewrite Z.ones_spec_low by lia.
  by rewrite andb_true_r.
Qed.

Lemma frameRight_packFrame (l r : Z) : - 32768 <= r < 32768 -> frameRight (packFrame l r) = r.
Proof.
  intros H. unfold frameRight, packFrame. rewrite <- (i16_small r) at 2 by done.
  apply i16_u16_eq, u16_bits_eq. intros n Hn.
  rewrite Z.shiftr_spec by lia.
  unfold u32. rewrite Z.mod_pow2_bits_low by lia.
  rewrite Z.lor_spec, Z.shiftl_spec, Z.land_spec by lia.
  change 0xFFFF with (Z.ones 16). rewrite Z.ones_spec_high by lia.
  rewrite andb_false_r, orb_false_r. f_equal. lia.
Qed.

(** ** Clipping and expansion of the final samples *)

Lemma clip_range (x : Z) : 0 <= clip x <= 0x3FF.
Proof.
  unfold clip. destruct (Z.ltb_spec x 0).
  - destruct (Z.gtb_spec 0 0x3FF); lia.
  - destruct (Z.gtb_spec x 0x3FF); lia.
Qed.

Lemma expand_clip_range (x : Z) : - 0x4000 <= expand (clip x) <= 0x3FE0.
Proof.
  pose proof (clip_range x). unfold expand. rewrite Z.shiftl_mul_pow2 by lia.
  change (2 ^ 5) with 32. lia.
Qed.

Lemma finalSample_range (s : Spu) (x : Z) : - 0x4000 <= finalSample s x <= 0x3FE0.
Proof. apply expand_clip_range. Qed.

(** ** The channel loop as a whole *)

Lemma runChannels_Keep mem (n i j : nat) st st' :
  runChannels mem i n st = Some st' -> (j < i \/ i + n <= j)%nat -> Keep j st.1 st'.1.
Proof.
  revert i st. induction n as [|n IH]; intros i st H Hj; cbn [runChannels] in H.
  - apply (inj Some) in H. subst. apply Keep_refl.
  - destruct (runChannel mem i st) as [st1|] eqn:E; [|discriminate].
    cbn [mbind option_bind] in H.
    eapply Keep_trans.
    + eapply Frame_Keep; [eapply runChannel_Frame; eauto|lia].
    + eapply IH; [eauto|lia].
Qed.

Lemma runChannels_WF mem (n i : nat) st st' :
  runChannels mem i n st = Some st' -> WF st.1 -> WF st'.1.
Proof.
  revert i st. induction n as [|n IH]; intros i st H Hwf; cbn [runChannels] in H.
  - apply (inj Some) in H. by subst.
  - destruct (runChannel mem i st) as [st1|] eqn:E; [|discriminate].
    cbn [mbind option_bind] in H.
    eapply IH; [eauto|]. eapply WF_Frame; [exact Hwf|]. eapply runChannel_Frame; eauto.
Qed.

Lemma runChannels_total mem (n i : nat) st :
  WF st.1 -> (i + n <= 16)%nat -> exists st', runChannels mem i n st = Some st'.
Proof.
  revert i st. induction n as [|n IH]; intros i st Hwf Hn; cbn [runChannels]; [eauto|].
  destruct (runChannel_total mem i st Hwf) as [st1 E]; [lia|].
  rewrite E. cbn [mbind option_bind].
  apply IH; [|lia]. eapply WF_Frame; [exact Hwf|]. eapply runChannel_Frame; eauto.
Qed.

(** The channel loop reaches channel [j] in a state that still has [j]'s
    entries, and nothing after [j]'s pass touches them. *)
Lemma runChannels_split mem (j : nat) st st' :
  (j < 16)%nat -> runChannels mem 0 16 st = Some st' ->
  exists st1 st2,
    Keep j st.1 st1.1 /\ (WF st.1 -> WF st1.1) /\
    runChannel mem j st1 = Some st2 /\ Keep j st2.1 st'.1.
Proof.
  intros Hj H.
  assert (Hgen : forall n i st st', (i <= j < i + n)%nat ->
             runChannels mem i n st = Some st' ->
             exists st1 st2,
               Keep j st.1 st1.1 /\ (WF st.1 -> WF st1.1) /\
               runChannel mem j st1 = Some st2 /\ Keep j st2.1 st'.1).
  { clear. induction n as [|n IH]; intros i st st' Hij H; [lia|].
    cbn [runChannels] in H.
    destruct (runChannel mem i st) as [sta|] eqn:E; [|discriminate].
    cbn [mbind option_bind] in H.
    destruct (decide (i = j)) as [->|Hne].
    - exists st, sta. split; [apply Keep_refl|]. split; [done|]. split; [done|].
      eapply runChannels_Keep; [eauto|lia].
    - destruct (IH (S i) sta st') as (st1 & st2 & K1 & W & R & K2); [lia|done|].
      exists st1, st2. split; [|split; [|done]].
      + eapply Keep_trans; [|exact K1].
        eapply Frame_Keep; [eapply runChannel_Frame; eauto|done].
      + intros Hwf. apply W. eapply WF_Frame; [exact Hwf|].
        eapply runChannel_Frame; eauto. }
  eapply Hgen; [|exact H]. lia.
Qed.

(** ** What a tick does to the buffers *)

Lemma runSample_cases mem limitFps s :
  runSample mem limitFps s <> Undefined ->
  exists s1 acc,
    runChannels mem 0 16 (s, (0, 0)) = Some (s1, acc) /\
    runSample mem limitFps s =
      (if bufferSize s1 =? 0 then Returned s1 else pushFrame limitFps (frameOf s1 acc) s1).
Proof.
  unfold runSample. intros H.
  destruct (runChannels mem 0 16 (s, (0, 0))) as [[s1 acc]|]; [|done].
  by exists s1, acc.
Qed.

(** A frame pushed into the in buffer sits at the old cursor of the block
    that was the in buffer when the tick began, also after a swap. *)
Lemma pushFrame_written limitFps frame s s' :
  outcomeState (pushFrame limitFps frame s) = Some s' ->
  exists a blk,
    bufferIn s = Some a /\ heap s !! a = Some blk /\
    0 <= bufferPointer s < Z.of_nat (length blk) /\
    heap s' = <[a := <[Z.to_nat (bufferPointer s) := frame]> blk]> (heap s).
Proof.
  unfold pushFrame. intros H.
  destruct (bufferIn s) as [a|]; [|done].
  destruct (heap s !! a) as [blk|] eqn:Eb; [|done].
  destruct (_ && _) eqn:Er; [|done].
  apply andb_true_iff in Er as [E1 E2]. apply Z.leb_le in E1. apply Z.ltb_lt in E2.
  exists a, blk. repeat split; try done.
  cbv zeta in H. proj.
  destruct (_ =? _); [destruct (_ && _)|]; cbn in H; apply (inj Some) in H; by subst s'.
Qed.

Lemma clip_saturated (v : Z) : clip v = saturated v.
Proof.
  unfold clip, saturated. destruct (Z.ltb_spec v 0).
  - destruct (Z.gtb_spec 0 0x3FF); [lia|reflexivity].
  - destruct (Z.gtb_spec v 0x3FF), (Z.ltb_spec 0x3FF v); (reflexivity || lia).
Qed.

(** C7: every tick clips each of the two samples after the bias has been
    added (a value below 0 becomes 0, a value above 0x3FF becomes 0x3FF
    and a value in between is kept) and then converts it with
    [(x - 0x200) << 5], which is [(x - 0x200) * 32]; the two halves of the
    frame the tick stores at the cursor of the in buffer, read back as
    signed 16-bit numbers, are these samples and lie in
    [-0x4000, 0x3FE0]. *)
Theorem C7_frame_components_clipped mem limitFps s s' :
  outcomeState (runSample mem limitFps s) = Some s' ->
  bufferSize s <> 0 ->
  exists s1 acc a blk frame,
    runChannels mem 0 16 (s, (0, 0)) = Some (s1, acc) /\
    bufferIn s = Some a /\ heap s' !! a = Some blk /\
    blk !! Z.to_nat (bufferPointer s) = Some frame /\
    let vl := Z.shiftr (masterStage (mainSoundCnt s) acc.1) 21 + soundBias s in
    let vr := Z.shiftr (masterStage (mainSoundCnt s) acc.2) 21 + soundBias s in
    let cl := if vl <? 0 then 0 else if 0x3FF <? vl then 0x3FF else vl in
    let cr := if vr <? 0 then 0 else if 0x3FF <? vr then 0x3FF else vr in
    frameLeft frame = Z.shiftl (cl - 0x200) 5 /\
    frameRight frame = Z.shiftl (cr - 0x200) 5 /\
    frameLeft frame = (cl - 0x200) * 32 /\
    frameRight frame = (cr - 0x200) * 32 /\
    frameLeft frame
      = Z.shiftl (clip (biasStage (soundBias s) (masterStage (mainSoundCnt s) acc.1)) - 0x200) 5 /\
    frameRight frame
      = Z.shiftl (clip (biasStage (soundBias s) (masterStage (mainSoundCnt s) acc.2)) - 0x200) 5 /\
    0 <= cl <= 0x3FF /\ 0 <= cr <= 0x3FF /\
    0 <= clip (biasStage (soundBias s) (masterStage (mainSoundCnt s) acc.1)) <= 0x3FF /\
    0 <= clip (biasStage (soundBias s) (masterStage (mainSoundCnt s) acc.2)) <= 0x3FF /\
    - 0x4000 <= frameLeft frame <= 0x3FE0 /\
    - 0x4000 <= frameRight frame <= 0x3FE0.
Proof.
  intros Hout Hsize.
  destruct (runSample_cases mem limitFps s) as (s1 & acc & Hch & Hrun).
  { intros E. by rewrite E in Hout. }
  pose proof (runChannels_Keep mem 16 0 16 _ _ Hch ltac:(lia)) as K. cbn [fst] in K.
  rewrite Hrun in Hout.
  rewrite (kp_bufferSize _ _ _ K) in Hout.
  destruct (Z.eqb_spec (bufferSize s) 0) as [|_]; [done|].
  destruct (pushFrame_written _ _ _ _ Hout) as (a & blk & Ha & Hblk & Hptr & Hheap).
  rewrite (kp_bufferIn _ _ _ K) in Ha. rewrite (kp_bufferPointer _ _ _ K) in Hptr, Hheap.
  pose proof (finalSample_range s1 acc.1) as Hl.
  pose proof (finalSample_range s1 acc.2) as Hr.
  exists s1, acc, a, (<[Z.to_nat (bufferPointer s) := frameOf s1 acc]> blk), (frameOf s1 acc).
  split; [exact Hch|]. split; [exact Ha|].
  split; [rewrite Hheap; apply lookup_insert_eq|].
  split; [apply list_lookup_insert_eq; lia|].
  cbv zeta.
  fold (saturated (Z.shiftr (masterStage (mainSoundCnt s) acc.1) 21 + soundBias s)).
  fold (saturated (Z.shiftr (masterStage (mainSoundCnt s) acc.2) 21 + soundBias s)).
  fold (biasStage (soundBias s) (masterStage (mainSoundCnt s) acc.1)).
  fold (biasStage (soundBias s) (masterStage (mainSoundCnt s) acc.2)).
  rewrite <- !clip_saturated.
  unfold frameOf in *.
  rewrite frameLeft_packFrame, frameRight_packFrame by lia.
  unfold finalSample in *. unfold expand in *.
  rewrite (kp_soundBias _ _ _ K), (kp_mainSoundCnt _ _ _ K) in *.
  rewrite !Z.shiftl_mul_pow2 in * by lia. change (2 ^ 5) with 32 in *.
  repeat split; try done; try lia; try apply clip_range.
Qed.

Lemma C7_witness :
  exists s1 acc a blk frame,
    runChannels zeroMemory 0 16 (clippingUnit, (0, 0)) = Some (s1, acc) /\
    bufferIn clippingUnit = Some a /\
    heap (afterTick zeroMemory false clippingUnit) !! a = Some blk /\
    blk !! Z.to_nat (bufferPointer clippingUnit) = Some frame /\
    let vl := Z.shiftr (masterStage (mainSoundCnt clippingUnit) acc.1) 21
              + soundBias clippingUnit in
    let vr := Z.shiftr (masterStage (mainSoundCnt clippingUnit) acc.2) 21
              + soundBias clippingUnit in
    let cl := if vl <? 0 then 0 else if 0x3FF <? vl then 0x3FF else vl in
    let cr := if vr <? 0 then 0 else if 0x3FF <? vr then 0x3FF else vr in
    frameLeft frame = Z.shiftl (cl - 0x200) 5 /\
    frameRight frame = Z.shiftl (cr - 0x200) 5 /\
    frameLeft frame = (cl - 0x200) * 32 /\
    frameRight frame = (cr - 0x200) * 32 /\
    frameLeft frame
      = Z.shiftl (clip (biasStage (soundBias clippingUnit)
                          (masterStage (mainSoundCnt clippingUnit) acc.1)) - 0x200) 5 /\
    frameRight frame
      = Z.shiftl (clip (biasStage (soundBias clippingUnit)
                          (masterStage (mainSoundCnt clippingUnit) acc.2)) - 0x200) 5 /\
    0 <= cl <= 0x3FF /\ 0 <= cr <= 0x3FF /\
    0 <= clip (biasStage (soundBias clippingUnit)
                 (masterStage (mainSoundCnt clippingUnit) acc.1)) <= 0x3FF /\
    0 <= clip (biasStage (soundBias clippingUnit)
                 (masterStage (mainSoundCnt clippingUnit) acc.2)) <= 0x3FF /\
    - 0x4000 <= frameLeft frame <= 0x3FE0 /\
    - 0x4000 <= frameRight frame <= 0x3FE0.
Proof.
  apply (C7_frame_components_clipped zeroMemory false clippingUnit
           (afterTick zeroMemory false clippingUnit)).
  - vm_compute. reflexivity.
  - vm_compute. discriminate.
Defined.

(** In the clipping unit both bounds take effect: the left sample is -256
    before clipping and the right one 1279; the frame stored carries
    -0x4000 and 0x3FE0. *)
Lemma clippingUnit_frame :
  (st ← runChannels zeroMemory 0 16 (clippingUnit, (0, 0));
   Some (biasStage (soundBias st.1) (masterStage (mainSoundCnt st.1) st.2.1),
         biasStage (soundBias st.1) (masterStage (mainSoundCnt st.1) st.2.2)))
  = Some (- 256, 1279) /\
  fst <$> produce 1 zeroMemory false clippingUnit = Some [0x3FE0C000].
Proof. split; vm_compute; reflexivity. Qed.

(** ** Volume stages: the reinterpreted register values *)

(** C5: in the multiplier, pan and master-volume stages a register factor
    of 127 gives what the stage computes with the factor 128, and a divider
    selector of 3 gives what the divider computes with 4; hence the whole
    contribution of a channel whose three fields are 3, 127 and 127 is the
    one computed with 4, 128 and 128, for every sample and whatever the
    other bits of the registers are. *)
Theorem C5_reinterpreted_factors (cnt mainCnt data : Z) :
  (mulField cnt = 127 -> mulStage cnt data = multiplierBy 128 data) /\
  (panField cnt = 127 -> panStage cnt data = panBy 128 data) /\
  (masterField mainCnt = 127 -> masterStage mainCnt data = masterBy 128 data) /\
  (divField cnt = 3 -> divStage cnt data = dividerBy 4 data) /\
  (divField cnt = 3 -> mulField cnt = 127 -> panField cnt = 127 ->
   contribution cnt data = panBy 128 (multiplierBy 128 (dividerBy 4 data))) /\
  (forall s : Spu,
     masterField (mainSoundCnt s) = 127 ->
     finalSample s data = expand (clip (biasStage (soundBias s) (masterBy 128 data)))).
Proof.
  unfold finalSample, contribution, mulField, panField, masterField, divField, mulStage,
    panStage, masterStage, divStage, multiplierBy, panBy, masterBy, dividerBy.
  repeat split; intros; cbv zeta;
    repeat match goal with H : _ = _ |- _ => rewrite H end; reflexivity.
Qed.

(** For the other register values the stages use the field as it is. *)
Lemma stages_plain (cnt mainCnt data : Z) :
  (mulField cnt <> 127 -> mulStage cnt data = multiplierBy (mulField cnt) data) /\
  (panField cnt <> 127 -> panStage cnt data = panBy (panField cnt) data) /\
  (masterField mainCnt <> 127 ->
   masterStage mainCnt data = masterBy (masterField mainCnt) data) /\
  (divField cnt <> 3 -> divStage cnt data = dividerBy (divField cnt) data).
Proof.
  unfold mulField, panField, masterField, divField, mulStage, panStage, masterStage,
    divStage, multiplierBy, panBy, masterBy, dividerBy.
  repeat split; intros H; cbv zeta; apply Z.eqb_neq in H; by rewrite H.
Qed.

(** With the factor 128 the multiplier is the plain shift by 7, the pan
    sends everything to the right, and the divider 4 leaves the sample. *)
Lemma full_scale_stages (data : Z) :
  multiplierBy 128 data = Z.shiftl data 7 /\
  panBy 128 data = (0, Z.shiftr (Z.shiftl data 7) 10) /\
  dividerBy 4 data = data.
Proof.
  unfold multiplierBy, panBy, dividerBy.
  rewrite Z.quot_mul by lia. change (128 - 128) with 0.
  rewrite Z.mul_0_r. by rewrite Z.shiftl_0_r.
Qed.

Lemma C5_witness :
  (mulField 0x007F037F = 127 /\ panField 0x007F037F = 127 /\ masterField 0x7F = 127 /\
   divField 0x007F037F = 3) /\
  mulStage 0x007F037F 1000 = multiplierBy 128 1000 /\
  panStage 0x007F037F 1000 = panBy 128 1000 /\
  masterStage 0x7F 1000 = masterBy 128 1000 /\
  divStage 0x007F037F 1000 = dividerBy 4 1000 /\
  contribution 0x007F037F 1000 = panBy 128 (multiplierBy 128 (dividerBy 4 1000)).
Proof.
  split; [repeat split; reflexivity|].
  destruct (C5_reinterpreted_factors 0x007F037F 0x7F 1000) as (H1 & H2 & H3 & H4 & H5 & _).
  split; [apply H1; reflexivity|].
  split; [apply H2; reflexivity|].
  split; [apply H3; reflexivity|].
  split; [apply H4; reflexivity|].
  apply H5; reflexivity.
Defined.

(** ** The control-register write *)

Lemma readAdpcmHeader_spec mem ch s :
  WF s -> (ch < 16)%nat ->
  let header := read_u32 mem (get (soundSad s) ch) in
  let s' := readAdpcmHeader mem ch s in
  get (adpcmValue s') ch = i16 header /\
  get (adpcmIndex s') ch = Z.min (Z.shiftr (Z.land header 0x007F0000) 16) 88 /\
  getb (adpcmToggle s') ch = false /\
  get (soundCurrent s') ch = u32 (get (soundCurrent s) ch + 4) /\
  soundTimers s' = soundTimers s /\ soundCnt s' = soundCnt s /\
  dutyCycles s' = dutyCycles s /\ noiseValues s' = noiseValues s.
Proof.
  intros [] Hch. cbv zeta. unfold readAdpcmHeader. cbv zeta. proj.
  rewrite (get_insert_eq (adpcmIndex s)) by lia.
  set (idx := Z.shiftr (Z.land (read_u32 mem (get (soundSad s) ch)) 0x007F0000) 16).
  destruct (Z.gtb_spec idx 88); proj;
    rewrite ?get_insert_eq, ?getb_insert_eq by (rewrite ?length_insert; lia);
    repeat split; lia.
Qed.

Lemma resetPsg_spec ch s :
  WF s -> (ch < 16)%nat ->
  let s' := resetPsg ch s in
  ((8 <= ch <= 13)%nat -> get (dutyCycles s') (ch - 8) = 0) /\
  ((14 <= ch)%nat -> get (noiseValues s') (ch - 14) = 0x7FFF) /\
  soundTimers s' = soundTimers s /\ soundCnt s' = soundCnt s /\
  soundCurrent s' = soundCurrent s /\ adpcmValue s' = adpcmValue s /\
  adpcmIndex s' = adpcmIndex s /\ adpcmToggle s' = adpcmToggle s.
Proof.
  intros [] Hch. cbv zeta. unfold resetPsg.
  destruct ((8 <=? ch)%nat && (ch <=? 13)%nat) eqn:E1.
  - apply andb_true_iff in E1 as [E1 E2]. apply Nat.leb_le in E1, E2. proj.
    repeat split; try done; [|lia]. intros _. apply get_insert_eq. lia.
  - apply andb_false_iff in E1.
    destruct (14 <=? ch)%nat eqn:E2.
    + apply Nat.leb_le in E2. proj. repeat split; try done; [lia|].
      intros _. apply get_insert_eq. lia.
    + apply Nat.leb_gt in E2. repeat split; try done; try lia.
      intros [H1 H2]. destruct E1 as [E1|E1]; apply Nat.leb_gt in E1; lia.
Qed.

(** The stored word after the masked write, and its enable bit when the
    caller's mask leaves bit 31 out. *)
Lemma masked_write_bit31 (old mask value : Z) :
  Z.testbit mask 31 = false ->
  Z.testbit (u32 (Z.lor (Z.land old (Z.lnot (Z.land mask 0xFF7F837F)))
                        (Z.land value (Z.land mask 0xFF7F837F)))) 31
  = Z.testbit old 31.
Proof.
  intros Hm. unfold u32. rewrite Z.mod_pow2_bits_low by lia.
  rewrite Z.lor_spec, !Z.land_spec, Z.lnot_spec, Z.land_spec by lia.
  rewrite Hm. cbn [andb negb]. by rewrite andb_false_r, andb_true_r, orb_false_r.
Qed.

Lemma writeSoundCnt_stored mem ch mask value s :
  WF s -> (ch < 16)%nat ->
  get (soundCnt (writeSoundCnt mem ch mask value s)) ch
  = u32 (Z.lor (Z.land (get (soundCnt s) ch) (Z.lnot (Z.land mask 0xFF7F837F)))
               (Z.land value (Z.land mask 0xFF7F837F))).
Proof.
  intros Hwf Hch. unfold writeSoundCnt. cbv zeta.
  match goal with |- context [set_soundCnt _ ?x] => set (s1 := x) end.
  assert (Hcnt : soundCnt s1 = soundCnt s).
  { subst s1. destruct (_ && _); [|done].
    unfold reloadRegisters. cbv zeta. proj.
    destruct (_ =? 2).
    - match goal with |- soundCnt (readAdpcmHeader ?m ?c ?x) = _ =>
        assert (Hx : WF x) by (destruct Hwf; split; proj; rewrite ?length_insert; done);
        destruct (readAdpcmHeader_spec m c x Hx Hch) as (_ & _ & _ & _ & _ & -> & _)
      end. done.
    - destruct (_ =? 3); [|done].
      match goal with |- soundCnt (resetPsg ?c ?x) = _ =>
        assert (Hx : WF x) by (destruct Hwf; split; proj; rewrite ?length_insert; done);
        destruct (resetPsg_spec c x Hx Hch) as (_ & _ & _ & -> & _)
      end. done. }
  proj. rewrite Hcnt. apply get_insert_eq. by rewrite (wf_soundCnt s Hwf).
Qed.

Lemma reloadRegisters_spec mem ch s :
  WF s -> (ch < 16)%nat ->
  let old := get (soundCnt s) ch in
  let header := read_u32 mem (get (soundSad s) ch) in
  let s' := reloadRegisters mem ch s in
  soundCnt s' = soundCnt s /\
  get (soundTimers s') ch = get (soundTmr s) ch /\
  (formatOf old = 2 ->
   get (soundCurrent s') ch = u32 (get (soundSad s) ch + 4) /\
   get (adpcmValue s') ch = i16 header /\
   get (adpcmIndex s') ch = Z.min (Z.shiftr (Z.land header 0x007F0000) 16) 88 /\
   getb (adpcmToggle s') ch = false) /\
  (formatOf old <> 2 ->
   get (soundCurrent s') ch = get (soundSad s) ch /\
   adpcmValue s' = adpcmValue s /\ adpcmIndex s' = adpcmIndex s /\
   adpcmToggle s' = adpcmToggle s) /\
  (formatOf old = 3 ->
   ((8 <= ch <= 13)%nat -> get (dutyCycles s') (ch - 8) = 0) /\
   ((14 <= ch)%nat -> get (noiseValues s') (ch - 14) = 0x7FFF)) /\
  (formatOf old <> 3 -> dutyCycles s' = dutyCycles s /\ noiseValues s' = noiseValues s).
Proof.
  intros Hwf Hch. cbv zeta. unfold reloadRegisters. cbv zeta. proj.
  fold (formatOf (get (soundCnt s) ch)).
  match goal with |- context [readAdpcmHeader mem ch ?x] => set (s2 := x) end.
  assert (Hwf2 : WF s2) by (subst s2; destruct Hwf; split; proj; rewrite ?length_insert; done).
  assert (Hcur : get (soundCurrent s2) ch = get (soundSad s) ch).
  { subst s2. proj. apply get_insert_eq. by rewrite (wf_soundCurrent s Hwf). }
  assert (Htim : get (soundTimers s2) ch = get (soundTmr s) ch).
  { subst s2. proj. apply get_insert_eq. by rewrite (wf_soundTimers s Hwf). }
  assert (Hsame : soundCnt s2 = soundCnt s /\ adpcmValue s2 = adpcmValue s /\
                  adpcmIndex s2 = adpcmIndex s /\ adpcmToggle s2 = adpcmToggle s /\
                  dutyCycles s2 = dutyCycles s /\ noiseValues s2 = noiseValues s /\
                  soundSad s2 = soundSad s) by (subst s2; done).
  destruct Hsame as (Hc & Hv & Hi & Ht & Hd & Hn & Hsad).
  clearbody s2.
  destruct (Z.eqb_spec (formatOf (get (soundCnt s) ch)) 2) as [E2|E2].
  - destruct (readAdpcmHeader_spec mem ch s2 Hwf2 Hch)
      as (Ha & Hb & Hcc & Hdd & He & Hf & Hg & Hh).
    rewrite Ha, Hb, Hcc, Hdd, He, Hf, Hg, Hh, Hcur, Hsad, Htim.
    repeat split; try done; lia.
  - destruct (Z.eqb_spec (formatOf (get (soundCnt s) ch)) 3) as [E3|E3].
    + destruct (resetPsg_spec ch s2 Hwf2 Hch) as (Ha & Hb & Hcc & Hdd & He & Hf & Hg & Hh).
      rewrite Hcc, Hdd, He, Hf, Hg, Hh.
      repeat split; try done.
    + repeat split; try done.
Qed.

(** C6: an enabling write to the control register of a disabled channel
    whose stored format is ADPCM and whose four header bytes are
    0x34, 0x12, 0x00, 0x00 leaves the predictor at 0x1234, the step index
    at 0, the current address four bytes after the source address, the
    nibble selector at the low nibble and the timer at the reload period. *)
Theorem C6_adpcm_header_scenario mem (ch : nat) (mask value : Z) (s : Spu) :
  wf s = true -> (ch < 16)%nat ->
  enabled (get (soundCnt s) ch) = false ->
  Z.testbit value 31 = true ->
  formatOf (get (soundCnt s) ch) = 2 ->
  mem (get (soundSad s) ch) = 0x34 ->
  mem (get (soundSad s) ch + 1) = 0x12 ->
  mem (get (soundSad s) ch + 2) = 0x00 ->
  mem (get (soundSad s) ch + 3) = 0x00 ->
  let s' := writeSoundCnt mem ch mask value s in
  get (adpcmValue s') ch = 0x1234 /\
  get (adpcmIndex s') ch = 0 /\
  get (soundCurrent s') ch = u32 (get (soundSad s) ch + 4) /\
  (0 <= get (soundSad s) ch <= 0x07FFFFFC ->
   get (soundCurrent s') ch = get (soundSad s) ch + 4) /\
  getb (adpcmToggle s') ch = false /\
  get (soundTimers s') ch = get (soundTmr s) ch.
Proof.
  intros Hwf Hch Hen Hval Hfmt B0 B1 B2 B3. cbv zeta.
  apply wf_WF in Hwf.
  destruct (reloadRegisters_spec mem ch s Hwf Hch) as (Hc & Ht & H2 & _).
  destruct (H2 Hfmt) as (Hcur & Hv & Hi & Htog). clear H2.
  assert (Hhdr : read_u32 mem (get (soundSad s) ch) = 0x1234).
  { unfold read_u32, read_u16, read_u8.
    replace (get (soundSad s) ch + 2 + 1) with (get (soundSad s) ch + 3) by lia.
    rewrite B0, B1, B2, B3. reflexivity. }
  rewrite Hhdr in Hv, Hi.
  unfold writeSoundCnt. cbv zeta. unfold enabled in Hen. rewrite Hen.
  rewrite nonzero_land_BIT, Hval by lia. cbn [negb andb]. proj.
  rewrite Hcur, Hv, Hi, Htog, Ht.
  repeat split; try done.
  intros Hsad. apply u32_small. lia.
Qed.

Lemma C6_witness :
  let s' := writeSoundCnt headerMemory 3 0xFFFFFFFF 0xC000007F adpcmSetup in
  get (adpcmValue s') 3 = 0x1234 /\
  get (adpcmIndex s') 3 = 0 /\
  get (soundCurrent s') 3 = u32 (get (soundSad adpcmSetup) 3 + 4) /\
  (0 <= get (soundSad adpcmSetup) 3 <= 0x07FFFFFC ->
   get (soundCurrent s') 3 = get (soundSad adpcmSetup) 3 + 4) /\
  getb (adpcmToggle s') 3 = false /\
  get (soundTimers s') 3 = get (soundTmr adpcmSetup) 3.
Proof.
  apply (C6_adpcm_header_scenario headerMemory 3 0xFFFFFFFF 0xC000007F adpcmSetup).
  - vm_compute. reflexivity.
  - lia.
  - vm_compute. reflexivity.
  - vm_compute. reflexivity.
  - vm_compute. reflexivity.
  - vm_compute. reflexivity.
  - vm_compute. reflexivity.
  - vm_compute. reflexivity.
  - vm_compute. reflexivity.
Defined.

(** C10: the reload of [writeSoundCnt] is decided by the stored enable bit
    and bit 31 of the raw value alone.  Whatever the mask, the timer is set
    to the reload period and the read pointer and format-specific state are
    reset as the format of the stored (pre-write) control word asks: for a
    stored ADPCM format the header is read, whatever format the write
    itself carries, and for any other stored format it is not.  When the
    mask leaves bit 31 out the stored enable flag stays 0. *)
Theorem C10_reload_ignores_mask mem (ch : nat) (mask value : Z) (s : Spu) :
  wf s = true -> (ch < 16)%nat ->
  enabled (get (soundCnt s) ch) = false ->
  Z.testbit value 31 = true ->
  let old := get (soundCnt s) ch in
  let header := read_u32 mem (get (soundSad s) ch) in
  let m := Z.land mask 0xFF7F837F in
  let s' := writeSoundCnt mem ch mask value s in
  get (soundTimers s') ch = get (soundTmr s) ch /\
  (formatOf old = 2 ->
   get (soundCurrent s') ch = u32 (get (soundSad s) ch + 4) /\
   get (adpcmValue s') ch = i16 header /\
   get (adpcmIndex s') ch = Z.min (Z.shiftr (Z.land header 0x007F0000) 16) 88 /\
   getb (adpcmToggle s') ch = false) /\
  (formatOf old <> 2 ->
   get (soundCurrent s') ch = get (soundSad s) ch /\
   adpcmValue s' = adpcmValue s /\ adpcmIndex s' = adpcmIndex s /\
   adpcmToggle s' = adpcmToggle s) /\
  (formatOf old = 3 ->
   ((8 <= ch <= 13)%nat -> get (dutyCycles s') (ch - 8) = 0) /\
   ((14 <= ch)%nat -> get (noiseValues s') (ch - 14) = 0x7FFF)) /\
  (formatOf old <> 3 -> dutyCycles s' = dutyCycles s /\ noiseValues s' = noiseValues s) /\
  get (soundCnt s') ch = u32 (Z.lor (Z.land old (Z.lnot m)) (Z.land value m)) /\
  (Z.testbit mask 31 = false -> enabled (get (soundCnt s') ch) = false).
Proof.
  intros Hwf Hch Hen Hval. cbv zeta.
  apply wf_WF in Hwf.
  pose proof (writeSoundCnt_stored mem ch mask value s Hwf Hch) as Hst.
  destruct (reloadRegisters_spec mem ch s Hwf Hch) as (Hc & Ht & H2 & H2n & H3 & H3n).
  split; [|split; [|split; [|split; [|split; [|split]]]]].
  7: { intros Hm. rewrite Hst, enabled_testbit, masked_write_bit31 by done.
       by rewrite <- enabled_testbit. }
  6: exact Hst.
  all: unfold writeSoundCnt; cbv zeta; unfold enabled in Hen; rewrite Hen;
    rewrite nonzero_land_BIT, Hval by lia; cbn [negb andb]; proj; done.
Qed.

Lemma C10_witness :
  let s := adpcmSetup in
  let old := get (soundCnt s) 3 in
  let header := read_u32 headerMemory (get (soundSad s) 3) in
  let m := Z.land 0x7FFFFFFF 0xFF7F837F in
  let s' := writeSoundCnt headerMemory 3 0x7FFFFFFF 0x8000007F s in
  (formatOf old = 2 /\ formatOf (get (soundCnt s') 3) = 0) /\
  get (soundTimers s') 3 = get (soundTmr s) 3 /\
  (formatOf old = 2 ->
   get (soundCurrent s') 3 = u32 (get (soundSad s) 3 + 4) /\
   get (adpcmValue s') 3 = i16 header /\
   get (adpcmIndex s') 3 = Z.min (Z.shiftr (Z.land header 0x007F0000) 16) 88 /\
   getb (adpcmToggle s') 3 = false) /\
  (formatOf old <> 2 ->
   get (soundCurrent s') 3 = get (soundSad s) 3 /\
   adpcmValue s' = adpcmValue s /\ adpcmIndex s' = adpcmIndex s /\
   adpcmToggle s' = adpcmToggle s) /\
  (formatOf old = 3 ->
   ((8 <= 3 <= 13)%nat -> get (dutyCycles s') (3 - 8) = 0) /\
   ((14 <= 3)%nat -> get (noiseValues s') (3 - 14) = 0x7FFF)) /\
  (formatOf old <> 3 -> dutyCycles s' = dutyCycles s /\ noiseValues s' = noiseValues s) /\
  get (soundCnt s') 3 = u32 (Z.lor (Z.land old (Z.lnot m)) (Z.land 0x8000007F m)) /\
  (Z.testbit 0x7FFFFFFF 31 = false -> enabled (get (soundCnt s') 3) = false).
Proof.
  cbv zeta. split; [split; vm_compute; reflexivity|].
  apply (C10_reload_ignores_mask headerMemory 3 0x7FFFFFFF 0x8000007F adpcmSetup).
  - vm_compute. reflexivity.
  - lia.
  - vm_compute. reflexivity.
  - vm_compute. reflexivity.
Defined.

(** ** The ADPCM decode step *)

Lemma adpcmTable_range (k : Z) : 0 <= tableAt adpcmTable k <= 0x7FFF.
Proof.
  unfold tableAt. destruct (k <? 0); [lia|].
  apply (get_Forall (fun x => 0 <= x <= 0x7FFF)); [|lia].
  unfold adpcmTable. repeat (constructor; [lia|]). constructor.
Qed.

Lemma tableAt_nth (t : list Z) (k : Z) : 0 <= k -> tableAt t k = nth (Z.to_nat k) t 0.
Proof.
  intros Hk. unfold tableAt, get. destruct (Z.ltb_spec k 0); [lia|].
  by rewrite nth_lookup.
Qed.

Lemma high_nibble (b : Z) : 0 <= b < 256 -> Z.shiftr (Z.land b 0xF0) 4 = b / 16.
Proof.
  intros Hb. rewrite Z.shiftr_land. change (Z.shiftr 0xF0 4) with (Z.ones 4).
  rewrite Z.land_ones by lia. rewrite Z.shiftr_div_pow2 by lia.
  change (2 ^ 4) with 16. apply Z.mod_small.
  split; [apply Z.div_pos; lia|]. apply Z.div_lt_upper_bound; lia.
Qed.

Lemma low_nibble (b : Z) : Z.land b 0x0F = b mod 16.
Proof. change 0x0F with (Z.ones 4). by rewrite Z.land_ones by lia. Qed.

Lemma adpcmNibble_spec mem i s :
  adpcmNibble mem i s
  = (if getb (adpcmToggle s) i then read_u8 mem (get (soundCurrent s) i) / 16
     else read_u8 mem (get (soundCurrent s) i) mod 16).
Proof.
  unfold adpcmNibble. cbv zeta. destruct (getb _ _).
  - apply high_nibble. apply u8_range.
  - apply low_nibble.
Qed.

Lemma adpcmDiff_spec i d s :
  0 <= get (adpcmIndex s) i ->
  let step := nth (Z.to_nat (get (adpcmIndex s) i)) adpcmTable 0 in
  adpcmDiff i d s
  = step / 8 + (if Z.testbit d 0 then step / 4 else 0)
             + (if Z.testbit d 1 then step / 2 else 0)
             + (if Z.testbit d 2 then step / 1 else 0).
Proof.
  intros Hi. cbv zeta. unfold adpcmDiff. cbv zeta.
  pose proof (adpcmTable_range (get (adpcmIndex s) i)) as Ht.
  rewrite <- tableAt_nth by done.
  rewrite !nonzero_land_BIT by lia.
  rewrite !Z.quot_div_nonneg by lia.
  destruct (Z.testbit d 0), (Z.testbit d 1), (Z.testbit d 2); lia.
Qed.

Lemma adpcmDiff_nonneg i d s : 0 <= adpcmDiff i d s.
Proof.
  unfold adpcmDiff. cbv zeta.
  pose proof (adpcmTable_range (get (adpcmIndex s) i)) as Ht.
  assert (H8 := Z.quot_pos (tableAt adpcmTable (get (adpcmIndex s) i)) 8 ltac:(lia) ltac:(lia)).
  assert (H4 := Z.quot_pos (tableAt adpcmTable (get (adpcmIndex s) i)) 4 ltac:(lia) ltac:(lia)).
  assert (H2 := Z.quot_pos (tableAt adpcmTable (get (adpcmIndex s) i)) 2 ltac:(lia) ltac:(lia)).
  assert (H1 := Z.quot_pos (tableAt adpcmTable (get (adpcmIndex s) i)) 1 ltac:(lia) ltac:(lia)).
  repeat match goal with |- context [if ?c then _ else _] => destruct c end; lia.
Qed.

Lemma applyDiff_value i d diff s :
  (i < length (adpcmValue s))%nat ->
  get (adpcmValue (applyDiff i d diff s)) i
  = (if Z.testbit d 3 then Z.min (get (adpcmValue s) i + diff) 32767
     else Z.max (get (adpcmValue s) i - diff) (- 32767)).
Proof.
  intros Hi. unfold applyDiff. rewrite nonzero_land_BIT by lia. cbv zeta. proj.
  rewrite !get_insert_eq by done.
  destruct (Z.testbit d 3).
  - destruct (Z.gtb_spec (get (adpcmValue s) i + diff) 0x7FFF); proj;
      rewrite ?get_insert_eq by (rewrite ?length_insert; done); lia.
  - destruct (Z.ltb_spec (get (adpcmValue s) i - diff) (- 0x7FFF)); proj;
      rewrite ?get_insert_eq by (rewrite ?length_insert; done); lia.
Qed.

Lemma nextIndex_index i d s :
  (i < length (adpcmIndex s))%nat ->
  get (adpcmIndex (nextIndex i d s)) i
  = Z.max 0 (Z.min 88 (get (adpcmIndex s) i + nth (Z.to_nat (d mod 8)) indexTable 0)).
Proof.
  intros Hi. unfold nextIndex. cbv zeta. proj.
  change 0x7 with (Z.ones 3). rewrite Z.land_ones by lia. change (2 ^ 3) with 8.
  pose proof (Z.mod_pos_bound d 8 ltac:(lia)) as Hd.
  rewrite tableAt_nth by lia.
  set (x := get (adpcmIndex s) i + nth (Z.to_nat (d mod 8)) indexTable 0).
  rewrite !get_insert_eq by done.
  destruct (Z.ltb_spec x 0); proj; rewrite ?get_insert_eq by (rewrite ?length_insert; done).
  - destruct (Z.gtb_spec 0 88); proj;
      rewrite ?get_insert_eq by (rewrite ?length_insert; done); lia.
  - destruct (Z.gtb_spec x 88); proj;
      rewrite ?get_insert_eq by (rewrite ?length_insert; done); lia.
Qed.

Ltac untouched := split_ifs; repeat split; reflexivity.

Lemma applyDiff_others i d diff s :
  let s' := applyDiff i d diff s in
  adpcmIndex s' = adpcmIndex s /\ adpcmToggle s' = adpcmToggle s /\
  soundCurrent s' = soundCurrent s /\ adpcmLoopValue s' = adpcmLoopValue s /\
  adpcmLoopIndex s' = adpcmLoopIndex s /\ soundSad s' = soundSad s /\
  soundPnt s' = soundPnt s /\ soundCnt s' = soundCnt s.
Proof. cbv zeta. unfold applyDiff. untouched. Qed.

Lemma nextIndex_others i d s :
  let s' := nextIndex i d s in
  adpcmValue s' = adpcmValue s /\ adpcmToggle s' = adpcmToggle s /\
  soundCurrent s' = soundCurrent s /\ adpcmLoopValue s' = adpcmLoopValue s /\
  adpcmLoopIndex s' = adpcmLoopIndex s /\ soundSad s' = soundSad s /\
  soundPnt s' = soundPnt s /\ soundCnt s' = soundCnt s.
Proof. cbv zeta. unfold nextIndex. untouched. Qed.

Lemma nextNibble_others i s :
  let s' := nextNibble i s in
  adpcmValue s' = adpcmValue s /\ adpcmIndex s' = adpcmIndex s /\
  adpcmLoopValue s' = adpcmLoopValue s /\
  adpcmLoopIndex s' = adpcmLoopIndex s /\ soundSad s' = soundSad s /\
  soundPnt s' = soundPnt s /\ soundCnt s' = soundCnt s.
Proof. cbv zeta. unfold nextNibble. untouched. Qed.

Lemma saveLoop_others i s :
  let s' := saveLoop i s in
  adpcmValue s' = adpcmValue s /\ adpcmIndex s' = adpcmIndex s /\
  adpcmToggle s' = adpcmToggle s /\ soundCurrent s' = soundCurrent s /\
  soundSad s' = soundSad s /\ soundPnt s' = soundPnt s /\ soundCnt s' = soundCnt s.
Proof. cbv zeta. unfold saveLoop. untouched. Qed.

Lemma nextNibble_spec i s :
  (i < length (adpcmToggle s))%nat -> (i < length (soundCurrent s))%nat ->
  let s' := nextNibble i s in
  getb (adpcmToggle s') i = negb (getb (adpcmToggle s) i) /\
  get (soundCurrent s') i
  = (if getb (adpcmToggle s) i then u32 (get (soundCurrent s) i + 1)
     else get (soundCurrent s) i).
Proof.
  intros H1 H2. cbv zeta. unfold nextNibble. cbv zeta. proj.
  rewrite !getb_insert_eq by done. rewrite negb_involutive.
  destruct (getb (adpcmToggle s) i); proj;
    rewrite ?getb_insert_eq, ?get_insert_eq by done; done.
Qed.

Lemma saveLoop_spec i s :
  (i < length (adpcmLoopValue s))%nat -> (i < length (adpcmLoopIndex s))%nat ->
  let s' := saveLoop i s in
  let atLoop := (get (soundCurrent s) i =? u32 (get (soundSad s) i + get (soundPnt s) i * 4))
                && negb (getb (adpcmToggle s) i) in
  get (adpcmLoopValue s') i
  = (if atLoop then get (adpcmValue s) i else get (adpcmLoopValue s) i) /\
  get (adpcmLoopIndex s') i
  = (if atLoop then get (adpcmIndex s) i else get (adpcmLoopIndex s) i).
Proof.
  intros H1 H2. cbv zeta. unfold saveLoop.
  destruct (_ && _); cbv zeta; proj; rewrite ?get_insert_eq by done; done.
Qed.

(** One ADPCM nibble, on the channel's own state. *)
Lemma adpcmStep_decodeNibble mem i s :
  WF s -> (i < 16)%nat -> 0 <= get (adpcmIndex s) i ->
  adpcmChannel i (adpcmStep mem i s)
  = decodeNibble (read_u8 mem (get (soundCurrent s) i))
      (get (soundSad s) i) (get (soundPnt s) i) (adpcmChannel i s).
Proof.
  intros Hwf Hi Hidx. unfold adpcmStep. cbv zeta.
  set (d := adpcmNibble mem i s). set (diff := adpcmDiff i d s).
  set (s1 := applyDiff i d diff s).
  set (s2 := nextIndex i d s1).
  set (s3 := nextNibble i s2).
  assert (W1 : WF s1) by (eapply WF_Frame; [exact Hwf|apply applyDiff_Frame]).
  assert (W2 : WF s2) by (eapply WF_Frame; [exact W1|apply nextIndex_Frame]).
  assert (W3 : WF s3) by (eapply WF_Frame; [exact W2|apply nextNibble_Frame]).
  destruct (applyDiff_others i d diff s) as (A1 & A2 & A3 & A4 & A5 & A6 & A7 & _).
  destruct (nextIndex_others i d s1) as (B1 & B2 & B3 & B4 & B5 & B6 & B7 & _).
  destruct (nextNibble_others i s2) as (C1 & C2 & C3 & C4 & C5 & C6 & _).
  destruct (saveLoop_others i s3) as (D1 & D2 & D3 & D4 & D5 & D6 & _).
  destruct (nextNibble_spec i s2) as (N1 & N2);
    [rewrite (wf_adpcmToggle _ W2); done|rewrite (wf_soundCurrent _ W2); done|].
  destruct (saveLoop_spec i s3) as (L1 & L2);
    [rewrite (wf_adpcmLoopValue _ W3); done|rewrite (wf_adpcmLoopIndex _ W3); done|].
  fold s1 s2 s3 in A1, A2, A3, A4, A5, A6, A7, B1, B2, B3, B4, B5, B6, B7,
    C1, C2, C3, C4, C5, C6, D1, D2, D3, D4, D5, D6, N1, N2, L1, L2.
  pose proof (applyDiff_value i d diff s) as V. fold s1 in V.
  rewrite (wf_adpcmValue _ Hwf) in V. specialize (V Hi).
  pose proof (nextIndex_index i d s1) as X. fold s2 in X.
  rewrite (wf_adpcmIndex _ W1) in X. specialize (X Hi).
  unfold adpcmChannel, decodeNibble. cbn [predictor stepIndex highNibble address
    loopPredictor loopStepIndex].
  rewrite L1, L2, D1, D2, D3, D4, C1, C2, C3, C4, C5, C6, N1, N2, B1, B2, B3, B4, B5, B6, B7,
    X, V, A1, A2, A3, A4, A5, A6, A7.
  subst diff. rewrite adpcmDiff_spec by done. cbv zeta.
  subst d. rewrite adpcmNibble_spec.
  rewrite negb_involutive. unfold u32.
  reflexivity.
Qed.


(** ** The ADPCM ranges *)

Section AdpcmRanges.

(** The lower end of the predictor range is -32768 or -32767, and the
    initial value of every header that [Header] admits is not below it. *)
Variable lo : Z.
Hypothesis lo_range : - 32768 <= lo <= - 32767.
Variable Header : Memory -> Z -> Prop.
Hypothesis header_range : forall mem a, Header mem a -> lo <= i16 (read_u32 mem a).

Lemma AdpcmInv_same (s s' : Spu) : sameAdpcm s s' -> AdpcmInv lo s -> AdpcmInv lo s'.
Proof. intros (H1 & H2 & H3 & H4) []. split; congruence. Qed.

Lemma Forall_agree (P : Z -> Prop) (i : nat) (a a' : list Z) :
  Forall P a -> agree 0 i a a' -> P (get a' i) -> Forall P a'.
Proof.
  intros Ha [Hlen Hag] Hi. apply Forall_lookup_2. intros j x Hj.
  destruct (decide (j = i)) as [->|Hne].
  - unfold get in Hi. by rewrite Hj in Hi.
  - rewrite Hag in Hj by lia. eapply Forall_lookup_1; eauto.
Qed.

(** After the pass of channel [i] the ranges hold when they hold for the
    entries of channel [i]. *)
Lemma AdpcmInv_Frame (i : nat) (s s' : Spu) :
  Frame i s s' -> AdpcmInv lo s ->
  idxOK (get (adpcmIndex s') i) -> idxOK (get (adpcmLoopIndex s') i) ->
  valOK lo (get (adpcmValue s') i) -> valOK lo (get (adpcmLoopValue s') i) ->
  AdpcmInv lo s'.
Proof.
  intros Hfr [] H1 H2 H3 H4. split.
  - exact (Forall_agree _ i _ _ inv_index0 (fr_adpcmIndex _ _ _ Hfr) H1).
  - exact (Forall_agree _ i _ _ inv_loopIndex0 (fr_adpcmLoopIndex _ _ _ Hfr) H2).
  - exact (Forall_agree _ i _ _ inv_value0 (fr_adpcmValue _ _ _ Hfr) H3).
  - exact (Forall_agree _ i _ _ inv_loopValue0 (fr_adpcmLoopValue _ _ _ Hfr) H4).
Qed.

Lemma AdpcmInv_get (s : Spu) (i : nat) :
  AdpcmInv lo s ->
  idxOK (get (adpcmIndex s) i) /\ idxOK (get (adpcmLoopIndex s) i) /\
  valOK lo (get (adpcmValue s) i) /\ valOK lo (get (adpcmLoopValue s) i).
Proof.
  intros [].
  split; [apply (get_Forall idxOK); [done|unfold idxOK; lia]|].
  split; [apply (get_Forall idxOK); [done|unfold idxOK; lia]|].
  split; apply (get_Forall (valOK lo)); (done || (unfold valOK; lia)).
Qed.

(** The decode step of the spec keeps the ranges. *)
Lemma decodeNibble_ranges (byte sad pnt : Z) (c : AdpcmChannel) :
  idxOK (stepIndex c) -> idxOK (loopStepIndex c) ->
  valOK lo (predictor c) -> valOK lo (loopPredictor c) ->
  let c' := decodeNibble byte sad pnt c in
  idxOK (stepIndex c') /\ idxOK (loopStepIndex c') /\
  valOK lo (predictor c') /\ valOK lo (loopPredictor c').
Proof.
  unfold idxOK, valOK. intros H1 H2 H3 H4. cbv zeta. unfold decodeNibble. cbv zeta.
  cbn [predictor stepIndex highNibble address loopPredictor loopStepIndex].
  set (nib := if highNibble c then _ else _).
  set (step := nth (Z.to_nat (stepIndex c)) adpcmTable 0).
  assert (Hstep : 0 <= step <= 0x7FFF).
  { subst step. rewrite <- tableAt_nth by lia. apply adpcmTable_range. }
  assert (H8 := Z.div_pos step 8 ltac:(lia) ltac:(lia)).
  assert (H4' := Z.div_pos step 4 ltac:(lia) ltac:(lia)).
  assert (H2' := Z.div_pos step 2 ltac:(lia) ltac:(lia)).
  assert (H1' := Z.div_pos step 1 ltac:(lia) ltac:(lia)).
  set (mag := _ + _ + _ + _).
  assert (Hmag : 0 <= mag).
  { subst mag. destruct (Z.testbit nib 0), (Z.testbit nib 1), (Z.testbit nib 2); lia. }
  clearbody mag.
  set (delta := nth _ indexTable 0). clearbody delta.
  destruct (Z.testbit nib 3), (_ && _); lia.
Qed.

Lemma adpcmChannel_fields (i : nat) (s : Spu) :
  stepIndex (adpcmChannel i s) = get (adpcmIndex s) i /\
  loopStepIndex (adpcmChannel i s) = get (adpcmLoopIndex s) i /\
  predictor (adpcmChannel i s) = get (adpcmValue s) i /\
  loopPredictor (adpcmChannel i s) = get (adpcmLoopValue s) i.
Proof. by repeat split. Qed.

Lemma adpcmStep_inv mem i s :
  WF s -> (i < 16)%nat -> AdpcmInv lo s -> AdpcmInv lo (adpcmStep mem i s).
Proof.
  intros Hwf Hi Hinv.
  destruct (AdpcmInv_get s i Hinv) as (G1 & G2 & G3 & G4).
  pose proof (adpcmStep_decodeNibble mem i s Hwf Hi (proj1 G1)) as Hdec.
  destruct (adpcmChannel_fields i s) as (F1 & F2 & F3 & F4).
  rewrite <- F1 in G1. rewrite <- F2 in G2. rewrite <- F3 in G3. rewrite <- F4 in G4.
  pose proof (decodeNibble_ranges (read_u8 mem (get (soundCurrent s) i))
                (get (soundSad s) i) (get (soundPnt s) i) (adpcmChannel i s) G1 G2 G3 G4)
    as HR.
  cbv zeta in HR. rewrite <- Hdec in HR.
  destruct (adpcmChannel_fields i (adpcmStep mem i s)) as (E1 & E2 & E3 & E4).
  rewrite E1, E2, E3, E4 in HR.
  destruct HR as (R1 & R2 & R3 & R4).
  exact (AdpcmInv_Frame i s _ (adpcmStep_Frame mem i s) Hinv R1 R2 R3 R4).
Qed.

Lemma psgStep_sameAdpcm i s : sameAdpcm s (psgStep i s).
Proof. unfold sameAdpcm, psgStep, noiseStep. untouched. Qed.

Lemma advance_inv mem i format s :
  WF s -> (i < 16)%nat -> AdpcmInv lo s -> AdpcmInv lo (advance mem i format s).
Proof.
  intros Hwf Hi Hinv. unfold advance.
  destruct ((format =? 0) || (format =? 1)); [by eapply AdpcmInv_same; [|exact Hinv]|].
  destruct (format =? 2); [by apply adpcmStep_inv|].
  destruct (format =? 3); [|done].
  eapply AdpcmInv_same; [apply psgStep_sameAdpcm|done].
Qed.

Lemma restoreLoop_spec i s :
  WF s -> (i < 16)%nat ->
  let s' := restoreLoop i s in
  get (adpcmValue s') i = get (adpcmLoopValue s) i /\
  get (adpcmIndex s') i = get (adpcmLoopIndex s) i /\
  getb (adpcmToggle s') i = false /\
  adpcmLoopValue s' = adpcmLoopValue s /\ adpcmLoopIndex s' = adpcmLoopIndex s /\
  soundCurrent s' = soundCurrent s /\ soundCnt s' = soundCnt s.
Proof.
  intros [] Hi. cbv zeta. unfold restoreLoop. cbv zeta. proj.
  rewrite ?get_insert_eq, ?getb_insert_eq by lia. done.
Qed.

Lemma endOfData_inv i format s :
  WF s -> (i < 16)%nat -> AdpcmInv lo s -> AdpcmInv lo (endOfData i format s).
Proof.
  intros Hwf Hi Hinv. unfold endOfData.
  destruct (negb (format =? 3) && _); [|done].
  destruct (_ =? 1); [|by eapply AdpcmInv_same; [|exact Hinv]].
  cbv zeta. destruct (format =? 2); [|by eapply AdpcmInv_same; [|exact Hinv]].
  match goal with |- AdpcmInv lo (restoreLoop i ?x) => set (s1 := x) end.
  assert (W1 : WF s1) by (subst s1; destruct Hwf; split; proj; rewrite ?length_insert; done).
  assert (I1 : AdpcmInv lo s1) by (by eapply AdpcmInv_same; [|exact Hinv]).
  clearbody s1.
  destruct (AdpcmInv_get s1 i I1) as (G1 & G2 & G3 & G4).
  destruct (restoreLoop_spec i s1 W1 Hi) as (R1 & R2 & _ & R4 & R5 & _).
  apply (AdpcmInv_Frame i s1); [apply restoreLoop_Frame|done|..].
  - by rewrite R2.
  - by rewrite R5.
  - by rewrite R1.
  - by rewrite R4.
Qed.

Lemma reloadStep_inv mem i format s :
  WF s -> (i < 16)%nat -> AdpcmInv lo s -> AdpcmInv lo (reloadStep mem i format s).1.
Proof.
  intros Hwf Hi Hinv. unfold reloadStep. cbn [fst].
  assert (W1 : WF (reloadTimer i s)) by (eapply WF_Frame; [exact Hwf|apply reloadTimer_Frame]).
  assert (I1 : AdpcmInv lo (reloadTimer i s)) by (by eapply AdpcmInv_same; [|exact Hinv]).
  apply endOfData_inv; [|done|by apply advance_inv].
  eapply WF_Frame; [exact W1|apply advance_Frame].
Qed.

Lemma reloadLoop_inv fuel mem i format s s' :
  WF s -> (i < 16)%nat -> AdpcmInv lo s ->
  reloadLoop fuel mem i format s = Some s' -> AdpcmInv lo s'.
Proof.
  revert s. induction fuel as [|fuel IH]; intros s Hwf Hi Hinv H; [discriminate|].
  cbn [reloadLoop] in H.
  pose proof (reloadStep_Frame mem i format s) as Hfr.
  pose proof (reloadStep_inv mem i format s Hwf Hi Hinv) as Hst.
  destruct (reloadStep mem i format s) as [s1 ov]. cbn [fst] in *.
  destruct ov.
  - eapply IH; [eapply WF_Frame; eauto|done|exact Hst|exact H].
  - apply (inj Some) in H. by subst.
Qed.

Lemma runChannel_inv mem i st st' :
  WF st.1 -> (i < 16)%nat -> AdpcmInv lo st.1 ->
  runChannel mem i st = Some st' -> AdpcmInv lo st'.1.
Proof.
  intros Hwf Hi Hinv. unfold runChannel.
  destruct (negb _); [intros H; apply (inj Some) in H; by subst|].
  cbv zeta. unfold runTimer. cbv zeta.
  assert (W1 : WF (tickTimer i st.1)) by (eapply WF_Frame; [exact Hwf|apply tickTimer_Frame]).
  assert (I1 : AdpcmInv lo (tickTimer i st.1)) by (by eapply AdpcmInv_same; [|exact Hinv]).
  destruct (_ <? 512).
  - destruct (reloadLoop _ _ _ _ _) as [s1|] eqn:E; [|discriminate].
    cbn [mbind option_bind]. intros H. apply (inj Some) in H. subst st'. cbn [fst].
    eapply reloadLoop_inv; [exact W1|done|exact I1|exact E].
  - cbn [mbind option_bind]. intros H. apply (inj Some) in H. by subst st'.
Qed.

Lemma runChannels_inv mem (n i : nat) st st' :
  WF st.1 -> (i + n <= 16)%nat -> AdpcmInv lo st.1 ->
  runChannels mem i n st = Some st' -> AdpcmInv lo st'.1.
Proof.
  revert i st. induction n as [|n IH]; intros i st Hwf Hn Hinv H; cbn [runChannels] in H.
  - apply (inj Some) in H. by subst.
  - destruct (runChannel mem i st) as [st1|] eqn:E; [|discriminate].
    cbn [mbind option_bind] in H.
    assert (W1 : WF st1.1).
    { eapply WF_Frame; [exact Hwf|]. eapply runChannel_Frame; eauto. }
    assert (I1 : AdpcmInv lo st1.1).
    { apply (runChannel_inv mem i st st1); [exact Hwf|lia|exact Hinv|exact E]. }
    assert (Hn1 : (S i + n <= 16)%nat) by lia.
    exact (IH (S i) st1 W1 Hn1 I1 H).
Qed.

(** ** Operations that leave the sound state alone *)

Lemma SameSound_refl (s : Spu) : SameSound s s.
Proof. by split. Qed.

Lemma SameSound_trans (s1 s2 s3 : Spu) : SameSound s1 s2 -> SameSound s2 s3 -> SameSound s1 s3.
Proof. intros [] []. split; etransitivity; eassumption. Qed.

Ltac rewrite_same s' :=
  repeat match goal with
         | H : ?f s' = _ |- context [?f s'] => rewrite H
         end.

Lemma WF_SameSound (s s' : Spu) : SameSound s s' -> WF s -> WF s'.
Proof. intros [] []. split; rewrite_same s'; assumption. Qed.

Lemma AdpcmInv_SameSound (s s' : Spu) : SameSound s s' -> AdpcmInv lo s -> AdpcmInv lo s'.
Proof. intros [] []. split; rewrite_same s'; assumption. Qed.

Lemma swapBuffers_SameSound (s : Spu) : SameSound s (swapBuffers s).
Proof. by split. Qed.

Lemma pushFrame_SameSound limitFps frame s s' :
  outcomeState (pushFrame limitFps frame s) = Some s' -> SameSound s s'.
Proof.
  unfold pushFrame. intros H.
  destruct (bufferIn s) as [a|]; [|done].
  destruct (heap s !! a) as [blk|]; [|done].
  destruct (_ && _); [|done]. cbv zeta in H. proj.
  destruct (_ =? _); [destruct (_ && _)|]; cbn in H; apply (inj Some) in H; by subst s'.
Qed.

Lemma resizeBuffers_SameSound count junkIn junkOut s :
  SameSound s (resizeBuffers count junkIn junkOut s).
Proof. unfold resizeBuffers. destruct (negb _); by split. Qed.

Lemma getSamples_SameSound polls junk count s out s' :
  getSamples polls junk count s = Some (out, s') -> SameSound s s'.
Proof.
  unfold getSamples. destruct (count <? 0); [done|].
  destruct junk as [[junkIn junkOut] junkRes]. cbv zeta.
  pose proof (resizeBuffers_SameSound count junkIn junkOut s) as Hr.
  set (s1 := resizeBuffers count junkIn junkOut s) in *. clearbody s1.
  unfold alloc. proj.
  match goal with |- (?m ≫= _) = _ -> _ => destruct m as [filled|] end; [|done].
  cbn [mbind option_bind]. intros H. apply (inj Some) in H.
  apply (f_equal snd) in H. cbn [snd] in H. subst s'.
  destruct Hr. by split.
Qed.

(** ** A tick keeps states well-formed and in range *)

Lemma runSample_sound mem limitFps s s' :
  outcomeState (runSample mem limitFps s) = Some s' ->
  exists s1 acc, runChannels mem 0 16 (s, (0, 0)) = Some (s1, acc) /\ SameSound s1 s'.
Proof.
  intros H.
  destruct (runSample_cases mem limitFps s) as (s1 & acc & Hch & Hrun).
  { intros E. by rewrite E in H. }
  exists s1, acc. split; [done|]. rewrite Hrun in H.
  destruct (_ =? 0).
  - cbn in H. apply (inj Some) in H. subst. apply SameSound_refl.
  - eapply pushFrame_SameSound; eauto.
Qed.

Lemma runSample_WF mem limitFps s s' :
  outcomeState (runSample mem limitFps s) = Some s' -> WF s -> WF s'.
Proof.
  intros H Hwf. destruct (runSample_sound _ _ _ _ H) as (s1 & acc & Hch & Hss).
  eapply WF_SameSound; [exact Hss|].
  exact (runChannels_WF mem 16 0 (s, (0, 0)) (s1, acc) Hch Hwf).
Qed.

Lemma runSample_inv mem limitFps s s' :
  outcomeState (runSample mem limitFps s) = Some s' -> WF s -> AdpcmInv lo s -> AdpcmInv lo s'.
Proof.
  intros H Hwf Hinv. destruct (runSample_sound _ _ _ _ H) as (s1 & acc & Hch & Hss).
  eapply AdpcmInv_SameSound; [exact Hss|].
  exact (runChannels_inv mem 16 0 (s, (0, 0)) (s1, acc) Hwf ltac:(lia) Hinv Hch).
Qed.

(** ** The register writes keep states well-formed and in range *)

Lemma writeSoundCnt_WF mem ch mask value s : WF s -> WF (writeSoundCnt mem ch mask value s).
Proof.
  intros Hwf. unfold writeSoundCnt. cbv zeta.
  match goal with |- context [set_soundCnt _ ?x] => set (s1 := x) end.
  assert (W1 : WF s1).
  { subst s1. destruct (_ && _); [|done].
    eapply WF_Frame; [exact Hwf|apply reloadRegisters_Frame]. }
  clearbody s1. destruct W1. split; proj; rewrite ?length_insert; done.
Qed.

Lemma readAdpcmHeader_inv mem ch s :
  WF s -> (ch < 16)%nat -> lo <= i16 (read_u32 mem (get (soundSad s) ch)) ->
  AdpcmInv lo s -> AdpcmInv lo (readAdpcmHeader mem ch s).
Proof.
  intros Hwf Hch Hhdr Hinv.
  destruct (readAdpcmHeader_spec mem ch s Hwf Hch) as (Hv & Hi & _).
  destruct (AdpcmInv_get s ch Hinv) as (G1 & G2 & G3 & G4).
  assert (Hloop : adpcmLoopValue (readAdpcmHeader mem ch s) = adpcmLoopValue s /\
                  adpcmLoopIndex (readAdpcmHeader mem ch s) = adpcmLoopIndex s).
  { unfold readAdpcmHeader. untouched. }
  destruct Hloop as (L1 & L2).
  apply (AdpcmInv_Frame ch s); [apply readAdpcmHeader_Frame|done|..].
  - rewrite Hi. unfold idxOK. split; [|lia].
    apply Z.min_glb; [|lia]. apply Z.shiftr_nonneg. apply Z.land_nonneg. lia.
  - by rewrite L2.
  - rewrite Hv. pose proof (i16_range (read_u32 mem (get (soundSad s) ch))).
    unfold valOK. lia.
  - by rewrite L1.
Qed.

Lemma resetPsg_sameAdpcm ch s : sameAdpcm s (resetPsg ch s).
Proof. unfold sameAdpcm, resetPsg. untouched. Qed.

Lemma writeSoundCnt_inv mem ch mask value s :
  WF s -> (ch < 16)%nat -> lo <= i16 (read_u32 mem (get (soundSad s) ch)) ->
  AdpcmInv lo s -> AdpcmInv lo (writeSoundCnt mem ch mask value s).
Proof.
  intros Hwf Hch Hhdr Hinv. unfold writeSoundCnt. cbv zeta.
  match goal with |- context [set_soundCnt _ ?x] => set (s1 := x) end.
  assert (I1 : AdpcmInv lo s1).
  { subst s1. destruct (_ && _); [|done].
    unfold reloadRegisters. cbv zeta.
    match goal with |- context [readAdpcmHeader mem ch ?x] => set (s2 := x) end.
    assert (W2 : WF s2) by (subst s2; destruct Hwf; split; proj; rewrite ?length_insert; done).
    assert (I2 : AdpcmInv lo s2) by (by eapply AdpcmInv_same; [|exact Hinv]).
    assert (H2 : lo <= i16 (read_u32 mem (get (soundSad s2) ch))) by (subst s2; exact Hhdr).
    clearbody s2.
    destruct (_ =? 2); [by apply readAdpcmHeader_inv|].
    destruct (_ =? 3); [|done].
    eapply AdpcmInv_same; [apply resetPsg_sameAdpcm|done]. }
  clearbody s1. by eapply AdpcmInv_same; [|exact I1].
Qed.

Lemma writeSoundTmr_WF ch mask value s : WF s -> WF (writeSoundTmr ch mask value s).
Proof.
  intros []. unfold writeSoundTmr. split; proj; rewrite ?length_insert; try done.
  apply Forall_insert; [done|]. apply u16_range.
Qed.

Lemma writeSoundSad_WF ch mask value s : WF s -> WF (writeSoundSad ch mask value s).
Proof. intros []. unfold writeSoundSad. split; proj; rewrite ?length_insert; done. Qed.

Lemma writeSoundPnt_WF ch mask value s : WF s -> WF (writeSoundPnt ch mask value s).
Proof. intros []. unfold writeSoundPnt. split; proj; rewrite ?length_insert; done. Qed.

Lemma writeSoundLen_WF ch mask value s : WF s -> WF (writeSoundLen ch mask value s).
Proof. intros []. unfold writeSoundLen. split; proj; rewrite ?length_insert; done. Qed.

(** ** Reachable states *)

Lemma Reachable_WF_inv (s : Spu) : Reachable Header s -> WF s /\ AdpcmInv lo s.
Proof.
  induction 1 as [ | mem ch mask value s Hch Hhdr _ [W I] | ch mask value s Hch _ [W I]
                   | ch mask value s Hch _ [W I] | ch mask value s Hch _ [W I]
                   | ch mask value s Hch _ [W I] | mask value s _ [W I] | mask value s _ [W I]
                   | mem limitFps s s' _ [W I] Hrun | s _ [W I]
                   | polls junk count s out s' _ [W I] Hget ].
  - split; [by apply wf_WF|].
    split; cbn; repeat constructor; unfold idxOK, valOK; lia.
  - split; [by apply writeSoundCnt_WF|].
    apply writeSoundCnt_inv; [done|done|by apply header_range|done].
  - split; [by apply writeSoundSad_WF|by eapply AdpcmInv_same; [|exact I]].
  - split; [by apply writeSoundTmr_WF|by eapply AdpcmInv_same; [|exact I]].
  - split; [by apply writeSoundPnt_WF|by eapply AdpcmInv_same; [|exact I]].
  - split; [by apply writeSoundLen_WF|by eapply AdpcmInv_same; [|exact I]].
  - split; [by destruct W|by eapply AdpcmInv_same; [|exact I]].
  - split; [by destruct W|by eapply AdpcmInv_same; [|exact I]].
  - split; [eapply runSample_WF; eauto|eapply runSample_inv; eauto].
  - split; [by destruct W|by eapply AdpcmInv_same; [|exact I]].
  - pose proof (getSamples_SameSound _ _ _ _ _ _ Hget) as Hss.
    split; [eapply WF_SameSound; eauto|eapply AdpcmInv_SameSound; eauto].
Qed.

End AdpcmRanges.

Lemma adpcmSetup_Reachable (H : Memory -> Z -> Prop) :
  H headerMemory 0x02000000 -> Reachable H adpcmSetup.
Proof.
  intros Hh. unfold adpcmSetup.
  apply reach_writeSoundTmr; [lia|]. apply reach_writeSoundCnt; [lia|exact Hh|].
  apply reach_writeSoundSad; [lia|]. apply reach_initial.
Qed.

(** C1, as the code has it: in every reachable state, for every channel
    (ADPCM or not), the step index lies in [0,88] and the predictor is a
    signed 16-bit value, i.e. lies in [-32768, 32767]; and the predictor
    lies in [-32767, 32767] as long as no control-register write found the
    initial value 0x8000 in the ADPCM header at the channel's source
    address, which [writeSoundCnt] stores as it is. *)
Theorem C1_adpcm_ranges (s : Spu) (i : nat) :
  (Reachable AnyHeader s ->
   0 <= get (adpcmIndex s) i <= 88 /\ - 32768 <= get (adpcmValue s) i <= 32767) /\
  (Reachable GoodHeader s ->
   0 <= get (adpcmIndex s) i <= 88 /\ - 32767 <= get (adpcmValue s) i <= 32767).
Proof.
  split; intros R.
  - destruct (Reachable_WF_inv (- 32768) ltac:(lia) AnyHeader) with (s := s) as [_ I];
      [|exact R|].
    + intros mem a _. apply i16_range.
    + destruct (AdpcmInv_get (- 32768) ltac:(lia) s i I) as (G1 & _ & G3 & _).
      split; [exact G1|exact G3].
  - destruct (Reachable_WF_inv (- 32767) ltac:(lia) GoodHeader) with (s := s) as [_ I];
      [|exact R|].
    + intros mem a Hg. unfold GoodHeader in Hg.
      pose proof (i16_range (read_u32 mem a)). lia.
    + destruct (AdpcmInv_get (- 32767) ltac:(lia) s i I) as (G1 & _ & G3 & _).
      split; [exact G1|exact G3].
Qed.

Lemma C1_witness :
  (Reachable AnyHeader (afterTick lowestHeaderMemory false lowestStart) /\
   Reachable GoodHeader (afterTick headerMemory false adpcmRunning)) /\
  (0 <= get (adpcmIndex (afterTick lowestHeaderMemory false lowestStart)) 3 <= 88 /\
   - 32768 <= get (adpcmValue (afterTick lowestHeaderMemory false lowestStart)) 3 <= 32767) /\
  (0 <= get (adpcmIndex (afterTick headerMemory false adpcmRunning)) 3 <= 88 /\
   - 32767 <= get (adpcmValue (afterTick headerMemory false adpcmRunning)) 3 <= 32767).
Proof.
  assert (R1 : Reachable AnyHeader (afterTick lowestHeaderMemory false lowestStart)).
  { apply (reach_runSample AnyHeader lowestHeaderMemory false lowestStart).
    - apply reach_writeSoundCnt; [lia|exact I|].
      apply reach_writeSoundTmr; [lia|]. apply adpcmSetup_Reachable. exact I.
    - vm_compute. reflexivity. }
  assert (R2 : Reachable GoodHeader (afterTick headerMemory false adpcmRunning)).
  { apply (reach_runSample GoodHeader headerMemory false adpcmRunning).
    - apply reach_writeSoundCnt; [lia|vm_compute; discriminate|].
      apply adpcmSetup_Reachable. vm_compute. discriminate.
    - vm_compute. reflexivity. }
  split; [split; [exact R1|exact R2]|].
  split.
  - exact (proj1 (C1_adpcm_ranges (afterTick lowestHeaderMemory false lowestStart) 3) R1).
  - exact (proj2 (C1_adpcm_ranges (afterTick headerMemory false adpcmRunning) 3) R2).
Defined.

(** The claim with the bound -32767 for every reachable state fails: a
    header value of 0x8000 puts the predictor of an ADPCM channel at
    -32768, and a tick that decodes 512 nibbles of value 8 (magnitude 0,
    added) leaves it there. *)
Lemma C1_counterexample :
  Reachable AnyHeader lowestStart /\
  Reachable AnyHeader (afterTick lowestHeaderMemory false lowestStart) /\
  formatOf (get (soundCnt lowestStart) 3) = 2 /\
  get (adpcmValue lowestStart) 3 = - 32768 /\
  formatOf (get (soundCnt (afterTick lowestHeaderMemory false lowestStart)) 3) = 2 /\
  get (adpcmValue (afterTick lowestHeaderMemory false lowestStart)) 3 = - 32768 /\
  get (soundCurrent (afterTick lowestHeaderMemory false lowestStart)) 3 = 0x02000104 /\
  ~ (- 32767 <= get (adpcmValue lowestStart) 3 <= 32767).
Proof.
  assert (R : Reachable AnyHeader lowestStart).
  { unfold lowestStart. apply reach_writeSoundCnt; [lia|exact I|].
    apply reach_writeSoundTmr; [lia|]. apply adpcmSetup_Reachable. exact I. }
  split; [exact R|].
  split.
  { apply (reach_runSample AnyHeader lowestHeaderMemory false lowestStart); [exact R|].
    vm_compute. reflexivity. }
  split; [vm_compute; reflexivity|].
  split; [vm_compute; reflexivity|].
  split; [vm_compute; reflexivity|].
  split; [vm_compute; reflexivity|].
  split; [vm_compute; reflexivity|].
  assert (E : get (adpcmValue lowestStart) 3 = - 32768) by (vm_compute; reflexivity).
  rewrite E. lia.
Qed.


(** ** One-shot channels *)

Lemma clear_enable (cnt : Z) : enabled (Z.land cnt (Z.lnot (BIT 31))) = false.
Proof.
  rewrite enabled_testbit, Z.land_spec, Z.lnot_spec by lia.
  unfold BIT. rewrite Z.shiftl_1_l, Z.pow2_bits_true by lia. apply andb_false_r.
Qed.

Lemma adpcmStep_soundCnt mem i s : soundCnt (adpcmStep mem i s) = soundCnt s.
Proof.
  unfold adpcmStep. cbv zeta.
  destruct (saveLoop_others i (nextNibble i (nextIndex i (adpcmNibble mem i s)
              (applyDiff i (adpcmNibble mem i s) (adpcmDiff i (adpcmNibble mem i s) s) s))))
    as (_ & _ & _ & _ & _ & _ & ->).
  destruct (nextNibble_others i (nextIndex i (adpcmNibble mem i s)
              (applyDiff i (adpcmNibble mem i s) (adpcmDiff i (adpcmNibble mem i s) s) s)))
    as (_ & _ & _ & _ & _ & _ & ->).
  destruct (nextIndex_others i (adpcmNibble mem i s)
              (applyDiff i (adpcmNibble mem i s) (adpcmDiff i (adpcmNibble mem i s) s) s))
    as (_ & _ & _ & _ & _ & _ & _ & ->).
  by destruct (applyDiff_others i (adpcmNibble mem i s)
                 (adpcmDiff i (adpcmNibble mem i s) s) s) as (_ & _ & _ & _ & _ & _ & _ & ->).
Qed.

Lemma psgStep_soundCnt i s : soundCnt (psgStep i s) = soundCnt s.
Proof. unfold psgStep, noiseStep. split_ifs; reflexivity. Qed.

Lemma advance_soundCnt mem i format s : soundCnt (advance mem i format s) = soundCnt s.
Proof.
  unfold advance.
  destruct ((format =? 0) || (format =? 1)); [reflexivity|].
  destruct (format =? 2); [apply adpcmStep_soundCnt|].
  destruct (format =? 3); [apply psgStep_soundCnt|reflexivity].
Qed.

(** The end-of-data handling never sets an enable flag. *)
Lemma endOfData_enabled i j format s :
  enabled (get (soundCnt (endOfData i format s)) j) = true ->
  enabled (get (soundCnt s) j) = true.
Proof.
  unfold endOfData.
  destruct (negb (format =? 3) && _); [|done].
  destruct (_ =? 1).
  - cbv zeta. destruct (format =? 2); [|done].
    unfold restoreLoop. cbv zeta. by proj.
  - proj. destruct (decide (i = j)) as [->|Hne].
    + destruct (decide (j < length (soundCnt s))%nat).
      * rewrite get_insert_eq by done. by rewrite clear_enable.
      * by rewrite list_insert_ge by lia.
    + by rewrite get_insert_ne by done.
Qed.

Lemma reloadStep_enabled mem i j format s :
  enabled (get (soundCnt (reloadStep mem i format s).1) j) = true ->
  enabled (get (soundCnt s) j) = true.
Proof.
  unfold reloadStep. cbn [fst]. intros H. apply endOfData_enabled in H.
  by rewrite advance_soundCnt in H.
Qed.

Lemma reloadLoop_enabled fuel mem i j format s s' :
  reloadLoop fuel mem i format s = Some s' ->
  enabled (get (soundCnt s') j) = true -> enabled (get (soundCnt s) j) = true.
Proof.
  revert s. induction fuel as [|fuel IH]; intros s H He; [discriminate|].
  cbn [reloadLoop] in H.
  pose proof (reloadStep_enabled mem i j format s) as Hst.
  destruct (reloadStep mem i format s) as [s1 ov]. cbn [fst] in Hst.
  destruct ov.
  - apply Hst. eapply IH; eauto.
  - apply (inj Some) in H. subst. by apply Hst.
Qed.

Lemma runChannel_enabled mem i j st st' :
  runChannel mem i st = Some st' ->
  enabled (get (soundCnt st'.1) j) = true -> enabled (get (soundCnt st.1) j) = true.
Proof.
  unfold runChannel. destruct (negb _); [intros H; apply (inj Some) in H; by subst|].
  cbv zeta. unfold runTimer. cbv zeta.
  destruct (_ <? 512).
  - destruct (reloadLoop _ _ _ _ _) as [s1|] eqn:E; [|discriminate].
    cbn [mbind option_bind]. intros H. apply (inj Some) in H. subst st'. cbn [fst].
    intros He. by apply (reloadLoop_enabled _ _ _ _ _ _ _ E) in He.
  - cbn [mbind option_bind]. intros H. apply (inj Some) in H. by subst st'.
Qed.

(** A pass of the reload loop on a one-shot channel that finds the current
    address at the end address leaves the channel disabled. *)
Lemma reloadStep_one_shot mem i format s :
  WF s -> (i < 16)%nat ->
  format <> 3 ->
  repeatOf (get (soundCnt s) i) <> 1 ->
  get (soundCurrent (advance mem i format (reloadTimer i s))) i
  = endAddress i (advance mem i format (reloadTimer i s)) ->
  enabled (get (soundCnt (reloadStep mem i format s).1) i) = false.
Proof.
  intros Hwf Hi Hfmt Hrep Hend. unfold reloadStep. cbn [fst].
  set (s2 := advance mem i format (reloadTimer i s)) in *.
  assert (Hcnt : soundCnt s2 = soundCnt s) by (subst s2; by rewrite advance_soundCnt).
  assert (W2 : WF s2).
  { subst s2. eapply WF_Frame; [|apply advance_Frame].
    eapply WF_Frame; [exact Hwf|apply reloadTimer_Frame]. }
  clearbody s2. unfold endOfData.
  apply Z.eqb_neq in Hfmt. rewrite Hfmt. cbn [negb andb].
  rewrite Hend, Z.eqb_refl.
  unfold repeatOf in Hrep. rewrite Hcnt. apply Z.eqb_neq in Hrep. rewrite Hrep.
  proj. rewrite get_insert_eq by (rewrite (wf_soundCnt s Hwf); done).
  apply clear_enable.
Qed.

(** A disabled channel is skipped: its pass changes neither the state nor
    the accumulators. *)
Lemma runChannel_disabled mem i st :
  enabled (get (soundCnt st.1) i) = false -> runChannel mem i st = Some st.
Proof. intros H. unfold runChannel. unfold enabled in H. by rewrite H. Qed.

(** Within a tick the pass of channel [i] starts in a state that has the
    entries of channel [i] as they were when the tick began; when the
    channel is disabled the pass is the identity, and the tick leaves the
    channel's entries as they were. *)
Lemma runSample_disabled mem limitFps i s s' :
  (i < 16)%nat ->
  enabled (get (soundCnt s) i) = false ->
  outcomeState (runSample mem limitFps s) = Some s' ->
  (exists st1, Keep i s st1.1 /\ runChannel mem i st1 = Some st1) /\
  get (soundCnt s') i = get (soundCnt s) i /\
  get (soundCurrent s') i = get (soundCurrent s) i /\
  get (soundTimers s') i = get (soundTimers s) i.
Proof.
  intros Hi Hdis Hrun.
  destruct (runSample_sound _ _ _ _ Hrun) as (s1 & acc & Hch & Hss).
  destruct (runChannels_split mem i _ _ Hi Hch) as (st1 & st2 & K1 & _ & Hpass & K2).
  cbn [fst] in K1, K2.
  assert (Hdis1 : enabled (get (soundCnt st1.1) i) = false)
    by (by rewrite (kp_soundCnt _ _ _ K1)).
  rewrite (runChannel_disabled mem i st1 Hdis1) in Hpass.
  apply (inj Some) in Hpass. subst st2.
  pose proof (Keep_trans _ _ _ _ K1 K2) as K.
  split; [exists st1; split; [done|by apply runChannel_disabled]|].
  destruct Hss. rewrite ss_soundCnt0, ss_soundCurrent0, ss_soundTimers0.
  by destruct K.
Qed.

(** No tick enables a channel. *)
Lemma runChannels_enabled mem (n i j : nat) st st' :
  runChannels mem i n st = Some st' ->
  enabled (get (soundCnt st'.1) j) = true -> enabled (get (soundCnt st.1) j) = true.
Proof.
  revert i st. induction n as [|n IH]; intros i st H He; cbn [runChannels] in H.
  - apply (inj Some) in H. by subst.
  - destruct (runChannel mem i st) as [st1|] eqn:E; [|discriminate].
    cbn [mbind option_bind] in H.
    eapply runChannel_enabled; [exact E|]. eapply IH; eauto.
Qed.

Lemma reloadStep_no_hit mem i format s :
  negb (format =? 3)
  && (get (soundCurrent (advance mem i format (reloadTimer i s))) i
      =? endAddress i (advance mem i format (reloadTimer i s))) = false ->
  soundCnt (reloadStep mem i format s).1 = soundCnt s.
Proof.
  intros H. unfold reloadStep. cbn [fst]. unfold endOfData. rewrite H.
  by rewrite advance_soundCnt.
Qed.

Lemma reloadLoop_one_shot fuel mem i format s s' :
  WF s -> (i < 16)%nat -> format <> 3 ->
  repeatOf (get (soundCnt s) i) <> 1 ->
  reloadLoop fuel mem i format s = Some s' ->
  reachesEnd fuel mem i format s = true ->
  enabled (get (soundCnt s') i) = false.
Proof.
  revert s. induction fuel as [|fuel IH]; intros s Hwf Hi Hfmt Hrep H Hr; [discriminate|].
  cbn [reloadLoop reachesEnd] in H, Hr. cbv zeta in Hr.
  pose proof (reloadStep_Frame mem i format s) as Hfr.
  pose proof (reloadStep_one_shot mem i format s Hwf Hi Hfmt Hrep) as Hone.
  pose proof (reloadStep_no_hit mem i format s) as Hno.
  set (hit := negb (format =? 3) && _) in *.
  destruct (reloadStep mem i format s) as [s2 ov]. cbn [fst snd] in *.
  destruct hit eqn:Ehit.
  - assert (Hdis : enabled (get (soundCnt s2) i) = false).
    { apply Hone. subst hit. apply andb_true_iff in Ehit as [_ E]. by apply Z.eqb_eq in E. }
    destruct ov.
    + destruct (enabled (get (soundCnt s') i)) eqn:E; [|done].
      apply (reloadLoop_enabled _ _ _ _ _ _ _ H) in E. congruence.
    + apply (inj Some) in H. by subst.
  - cbn [orb] in Hr. destruct ov; [|discriminate].
    apply (IH s2); try done.
    + eapply WF_Frame; eauto.
    + by rewrite Hno.
Qed.

Lemma runTicks_disabled (n : nat) mem limitFps (i : nat) s s' :
  (i < 16)%nat ->
  enabled (get (soundCnt s) i) = false ->
  runTicks n mem limitFps s = Returned s' ->
  get (soundCnt s') i = get (soundCnt s) i /\
  get (soundCurrent s') i = get (soundCurrent s) i /\
  get (soundTimers s') i = get (soundTimers s) i.
Proof.
  intros Hi. revert s. induction n as [|n IH]; intros s Hdis H; cbn [runTicks] in H.
  - injection H as <-. done.
  - destruct (runSample mem limitFps s) as [s1| |] eqn:E; try discriminate.
    destruct (runSample_disabled mem limitFps i s s1 Hi Hdis) as (_ & H1 & H2 & H3).
    { by rewrite E. }
    destruct (IH s1) as (J1 & J2 & J3); [by rewrite H1|done|].
    rewrite J1, J2, J3. done.
Qed.

(** C9: on a PCM or ADPCM channel that is not in loop mode, a reload pass
    that finds the current address at
    sourceAddress + (loopPoint + length) * 4 clears bit 31 of the control
    word, and the flag is still clear when the reload loop ends.  A channel
    whose flag is clear is skipped by the channel loop (state and
    accumulators pass through unchanged), a tick leaves its control word,
    address and timer as they are, and so it stays disabled and silent
    over any number of ticks. *)
Theorem C9_one_shot_ends_channel mem limitFps (i : nat) :
  (i < 16)%nat ->
  (forall format s,
     wf s = true -> format <> 3 -> repeatOf (get (soundCnt s) i) <> 1 ->
     get (soundCurrent (advance mem i format (reloadTimer i s))) i
     = endAddress i (advance mem i format (reloadTimer i s)) ->
     enabled (get (soundCnt (reloadStep mem i format s).1) i) = false) /\
  (forall fuel format s s',
     wf s = true -> format <> 3 -> repeatOf (get (soundCnt s) i) <> 1 ->
     reloadLoop fuel mem i format s = Some s' ->
     reachesEnd fuel mem i format s = true ->
     enabled (get (soundCnt s') i) = false) /\
  (forall st,
     enabled (get (soundCnt st.1) i) = false -> runChannel mem i st = Some st) /\
  (forall s s',
     enabled (get (soundCnt s) i) = false ->
     outcomeState (runSample mem limitFps s) = Some s' ->
     (exists st1, Keep i s st1.1 /\ runChannel mem i st1 = Some st1) /\
     get (soundCnt s') i = get (soundCnt s) i /\
     get (soundCurrent s') i = get (soundCurrent s) i /\
     get (soundTimers s') i = get (soundTimers s) i) /\
  (forall n s s',
     enabled (get (soundCnt s) i) = false ->
     runTicks n mem limitFps s = Returned s' ->
     enabled (get (soundCnt s') i) = false).
Proof.
  intros Hi.
  split; [intros format s Hwf; apply wf_WF in Hwf; by apply reloadStep_one_shot|].
  split; [intros fuel format s s' Hwf; apply wf_WF in Hwf; by apply reloadLoop_one_shot|].
  split; [apply runChannel_disabled|].
  split; [intros s s' Hdis Hrun; by apply (runSample_disabled mem limitFps i s s')|].
  intros n s s' Hdis Hrun.
  destruct (runTicks_disabled n mem limitFps i s s' Hi Hdis Hrun) as (-> & _). done.
Qed.

Lemma C9_witness :
  let s0 := tickTimer 0 oneShotStart in
  let s1 := default s0 (reloadLoop (reloadFuel 0 s0) zeroMemory 0 0 s0) in
  (enabled (get (soundCnt s0) 0) = true /\ repeatOf (get (soundCnt s0) 0) = 2 /\
   get (soundCurrent s1) 0 = 0x02000200 /\ endAddress 0 s0 = 0x02000004 /\
   enabled (get (soundCnt (afterTick zeroMemory false oneShotStart)) 0) = false) /\
  enabled (get (soundCnt s1) 0) = false /\
  runChannel zeroMemory 0 (s1, (0, 0)) = Some (s1, (0, 0)) /\
  (forall s', runTicks 3 zeroMemory false s1 = Returned s' ->
              enabled (get (soundCnt s') 0) = false).
Proof.
  cbv zeta.
  split; [repeat split; vm_compute; reflexivity|].
  destruct (C9_one_shot_ends_channel zeroMemory false 0 ltac:(lia))
    as (_ & Hloop & Hskip & _ & Hticks).
  assert (Hdis : enabled (get (soundCnt
            (default (tickTimer 0 oneShotStart)
               (reloadLoop (reloadFuel 0 (tickTimer 0 oneShotStart)) zeroMemory 0 0
                  (tickTimer 0 oneShotStart)))) 0) = false).
  { apply (Hloop (reloadFuel 0 (tickTimer 0 oneShotStart)) 0 (tickTimer 0 oneShotStart)).
    - vm_compute. reflexivity.
    - lia.
    - vm_compute. discriminate.
    - vm_compute. reflexivity.
    - vm_compute. reflexivity. }
  split; [exact Hdis|].
  split; [exact (Hskip (_, (0, 0)) Hdis)|].
  intros s' Hrun. exact (Hticks 3%nat _ s' Hdis Hrun).
Defined.

(** ** The timer of a PCM8 channel with reload period 0xFFFF *)

Lemma pcm8At_Keep (i : nat) (t c e : Z) (s s' : Spu) :
  Keep i s s' -> pcm8At i t c e s -> pcm8At i t c e s'.
Proof.
  intros [] (H1 & H2 & H3 & H4 & H5 & H6). unfold pcm8At, endAddress in *.
  rewrite kp_soundCnt0, kp_soundTmr0, kp_soundTimers0, kp_soundCurrent0,
    kp_soundSad0, kp_soundPnt0, kp_soundLen0. done.
Qed.

Lemma pcm8At_SameSound (i : nat) (t c e : Z) (s s' : Spu) :
  SameSound s s' -> pcm8At i t c e s -> pcm8At i t c e s'.
Proof.
  intros [] (H1 & H2 & H3 & H4 & H5 & H6). unfold pcm8At, endAddress in *.
  rewrite ss_soundCnt0, ss_soundTmr0, ss_soundTimers0, ss_soundCurrent0,
    ss_soundSad0, ss_soundPnt0, ss_soundLen0. done.
Qed.

Lemma runTimer_quiet mem i format s :
  WF s -> (i < 16)%nat ->
  0 <= get (soundTimers s) i -> get (soundTimers s) i + 512 < 65536 ->
  runTimer mem i format s = Some (tickTimer i s).
Proof.
  intros Hwf Hi H0 H1. unfold runTimer. cbv zeta.
  assert (E : get (soundTimers (tickTimer i s)) i = get (soundTimers s) i + 512).
  { unfold tickTimer. proj. rewrite get_insert_eq by (rewrite (wf_soundTimers s Hwf); done).
    apply u16_small. lia. }
  rewrite E. destruct (Z.ltb_spec (get (soundTimers s) i + 512) 512); [lia|done].
Qed.

Lemma runTimer_wrap_once mem i s :
  WF s -> (i < 16)%nat ->
  get (soundTimers s) i = 65024 -> get (soundTmr s) i = 0xFFFF ->
  u32 (get (soundCurrent s) i + 1) <> endAddress i s ->
  exists s', runTimer mem i 0 s = Some s' /\
             get (soundCurrent s') i = u32 (get (soundCurrent s) i + 1) /\
             get (soundTimers s') i = 0xFFFF /\
             soundCnt s' = soundCnt s /\ Frame i s s'.
Proof.
  intros Hwf Hi Ht Htmr Hend.
  pose proof Hwf as [].
  unfold runTimer. cbv zeta.
  assert (E : get (soundTimers (tickTimer i s)) i = 0).
  { unfold tickTimer. proj. rewrite get_insert_eq by lia. by rewrite Ht. }
  rewrite E. change (0 <? 512) with true. cbv iota.
  unfold reloadFuel. rewrite E. change (S (Z.to_nat 0)) with 1%nat.
  cbn [reloadLoop]. unfold reloadStep.
  set (s1 := reloadTimer i (tickTimer i s)).
  assert (T1 : get (soundTimers s1) i = 0xFFFF).
  { subst s1. unfold reloadTimer. proj. rewrite get_insert_eq
      by (unfold tickTimer; proj; rewrite length_insert; lia).
    rewrite E. unfold tickTimer. proj. by rewrite Htmr. }
  assert (R1 : get (soundTmr s1) i = 0xFFFF) by (subst s1; done).
  rewrite T1, R1. change (0xFFFF <? 0xFFFF) with false. cbv iota.
  assert (C1 : get (soundCurrent s1) i = get (soundCurrent s) i) by (subst s1; done).
  assert (A1 : endAddress i s1 = endAddress i s) by (subst s1; done).
  assert (L1 : length (soundCurrent s1) = 16%nat) by (subst s1; done).
  assert (N1 : soundCnt s1 = soundCnt s) by (subst s1; done).
  assert (F1 : Frame i s s1).
  { subst s1. eapply Frame_trans; [apply tickTimer_Frame|apply reloadTimer_Frame]. }
  clearbody s1.
  unfold advance. change ((0 =? 0) || (0 =? 1)) with true. cbv iota.
  set (s2 := set_soundCurrent _ s1).
  assert (C2 : get (soundCurrent s2) i = u32 (get (soundCurrent s) i + 1)).
  { subst s2. proj. rewrite get_insert_eq by lia. rewrite C1. f_equal; lia. }
  assert (A2 : endAddress i s2 = endAddress i s) by (subst s2; done).
  assert (T2 : get (soundTimers s2) i = 0xFFFF) by (subst s2; done).
  assert (N2 : soundCnt s2 = soundCnt s) by (subst s2; done).
  assert (F2 : Frame i s s2).
  { eapply Frame_trans; [exact F1|]. subst s2. frame_assign. }
  clearbody s2.
  unfold endOfData. rewrite C2, A2. change (negb (0 =? 3)) with true. cbn [andb].
  apply Z.eqb_neq in Hend. rewrite Hend.
  exists s2. done.
Qed.

(** What a tick does to channel [i]: its pass starts in a state [st1] with
    the channel's entries as at the start of the tick and ends in a state
    [st2] whose entries for the channel are those at the end of the tick. *)
Lemma runSample_channel mem limitFps (i : nat) s s' :
  (i < 16)%nat -> WF s ->
  outcomeState (runSample mem limitFps s) = Some s' ->
  exists st1 st2 s1,
    Keep i s st1.1 /\ WF st1.1 /\ runChannel mem i st1 = Some st2 /\
    Keep i st2.1 s1 /\ SameSound s1 s'.
Proof.
  intros Hi Hwf Hrun.
  destruct (runSample_sound _ _ _ _ Hrun) as (s1 & acc & Hch & Hss).
  destruct (runChannels_split mem i _ _ Hi Hch) as (st1 & st2 & K1 & W & Hpass & K2).
  exists st1, st2, s1. cbn [fst] in *. auto.
Qed.

Lemma runChannel_enabled_unfold mem i st :
  enabled (get (soundCnt st.1) i) = true ->
  runChannel mem i st
  = (s ← runTimer mem i (formatOf (get (soundCnt st.1) i)) st.1;
     Some (s, (st.2.1 + (contribution (get (soundCnt s) i)
                           (readData mem i (formatOf (get (soundCnt st.1) i)) st.1)).1,
               st.2.2 + (contribution (get (soundCnt s) i)
                           (readData mem i (formatOf (get (soundCnt st.1) i)) st.1)).2))).
Proof. intros H. unfold runChannel. unfold enabled in H. by rewrite H. Qed.

Lemma tick_quiet mem limitFps (i : nat) (t c e : Z) s s' :
  WF s -> (i < 16)%nat -> pcm8At i t c e s ->
  0 <= t -> t + 512 < 65536 ->
  outcomeState (runSample mem limitFps s) = Some s' ->
  pcm8At i (t + 512) c e s'.
Proof.
  intros Hwf Hi Hp H0 H1 Hrun.
  destruct (runSample_channel mem limitFps i s s' Hi Hwf Hrun)
    as (st1 & st2 & s1 & K1 & W1 & Hpass & K2 & Hss).
  pose proof (pcm8At_Keep _ _ _ _ _ _ K1 Hp) as (P1 & P2 & P3 & P4 & P5 & P6).
  rewrite (runChannel_enabled_unfold mem i st1 P1) in Hpass.
  rewrite runTimer_quiet in Hpass by (done || lia).
  cbn [mbind option_bind] in Hpass. apply (inj Some) in Hpass.
  apply (pcm8At_SameSound _ _ _ _ _ _ Hss). apply (pcm8At_Keep _ _ _ _ _ _ K2).
  subst st2. cbn [fst]. unfold pcm8At, endAddress, tickTimer in *. proj.
  rewrite get_insert_eq by (rewrite (wf_soundTimers _ W1); done).
  rewrite P4. repeat split; try done. apply u16_small. lia.
Qed.

Lemma tick_wrap mem limitFps (i : nat) (c e : Z) s s' :
  WF s -> (i < 16)%nat -> pcm8At i 65024 c e s ->
  u32 (c + 1) <> e ->
  outcomeState (runSample mem limitFps s) = Some s' ->
  pcm8At i 0xFFFF (u32 (c + 1)) e s'.
Proof.
  intros Hwf Hi Hp Hend Hrun.
  destruct (runSample_channel mem limitFps i s s' Hi Hwf Hrun)
    as (st1 & st2 & s1 & K1 & W1 & Hpass & K2 & Hss).
  pose proof (pcm8At_Keep _ _ _ _ _ _ K1 Hp) as (P1 & P2 & P3 & P4 & P5 & P6).
  rewrite (runChannel_enabled_unfold mem i st1 P1) in Hpass.
  rewrite P2 in Hpass.
  destruct (runTimer_wrap_once mem i st1.1 W1 Hi P4 P3) as (s2 & E & C2 & T2 & N2 & F2).
  { by rewrite P5, P6. }
  rewrite E in Hpass. cbn [mbind option_bind] in Hpass. apply (inj Some) in Hpass.
  apply (pcm8At_SameSound _ _ _ _ _ _ Hss). apply (pcm8At_Keep _ _ _ _ _ _ K2).
  subst st2. cbn [fst]. unfold pcm8At, endAddress in *.
  rewrite N2, C2, T2, (fr_soundTmr _ _ _ F2), (fr_soundSad _ _ _ F2),
    (fr_soundPnt _ _ _ F2), (fr_soundLen _ _ _ F2), P5. done.
Qed.

Lemma runTicks_snoc (k : nat) mem limitFps s s' :
  runTicks (S k) mem limitFps s = Returned s' ->
  exists s1, runTicks k mem limitFps s = Returned s1 /\ runSample mem limitFps s1 = Returned s'.
Proof.
  revert s. induction k as [|k IH]; intros s H.
  - cbn [runTicks] in H. exists s. split; [done|].
    destruct (runSample mem limitFps s) as [s1| |]; try discriminate.
    injection H as <-. done.
  - change (runTicks (S (S k)) mem limitFps s)
      with (match runSample mem limitFps s with
            | Returned s1 => runTicks (S k) mem limitFps s1
            | o => o
            end) in H.
    destruct (runSample mem limitFps s) as [s1| |] eqn:E; try discriminate.
    destruct (IH s1 H) as (s2 & H2 & H3).
    exists s2. split; [|done]. cbn [runTicks]. by rewrite E.
Qed.

Lemma runTicks_WF (k : nat) mem limitFps s s' :
  WF s -> runTicks k mem limitFps s = Returned s' -> WF s'.
Proof.
  revert s. induction k as [|k IH]; intros s Hwf H; cbn [runTicks] in H.
  - injection H as <-. done.
  - destruct (runSample mem limitFps s) as [s1| |] eqn:E; try discriminate.
    apply (IH s1); [|done]. apply (runSample_WF mem limitFps s s1); [|done]. by rewrite E.
Qed.

Lemma runTicks_quiet (k : nat) mem limitFps (i : nat) (t c e : Z) s s' :
  WF s -> (i < 16)%nat -> pcm8At i t c e s ->
  0 <= t -> t + 512 * Z.of_nat k <= 65024 ->
  runTicks k mem limitFps s = Returned s' ->
  pcm8At i (t + 512 * Z.of_nat k) c e s'.
Proof.
  intros Hwf Hi. revert s t Hwf. induction k as [|k IH]; intros s t Hwf Hp H0 H1 H.
  - cbn [runTicks] in H. injection H as <-.
    by replace (t + 512 * Z.of_nat 0) with t by lia.
  - cbn [runTicks] in H.
    destruct (runSample mem limitFps s) as [s1| |] eqn:E; try discriminate.
    assert (Hout : outcomeState (runSample mem limitFps s) = Some s1) by (by rewrite E).
    pose proof (tick_quiet mem limitFps i t c e s s1 Hwf Hi Hp H0 ltac:(lia) Hout) as Hp1.
    pose proof (runSample_WF mem limitFps s s1 Hout Hwf) as W1.
    replace (t + 512 * Z.of_nat (S k)) with ((t + 512) + 512 * Z.of_nat k) by lia.
    apply (IH s1); [done|done|lia|lia|done].
Qed.

(** C2, as the code has it: a PCM8 channel with reload period 0xFFFF
    whose accumulator is 0 when the ticks start (and whose end address is
    not the next byte) has its current address unchanged after each of the
    first 127 ticks and incremented exactly once after 128 ticks. *)
Theorem C2_reload_scenario mem limitFps (i : nat) (s : Spu) :
  wf s = true -> (i < 16)%nat ->
  enabled (get (soundCnt s) i) = true ->
  formatOf (get (soundCnt s) i) = 0 ->
  get (soundTmr s) i = 0xFFFF ->
  get (soundTimers s) i = 0 ->
  u32 (get (soundCurrent s) i + 1) <> endAddress i s ->
  forall (k : nat) (s' : Spu),
    (k <= 128)%nat ->
    runTicks k mem limitFps s = Returned s' ->
    get (soundCurrent s') i
    = (if (k =? 128)%nat then u32 (get (soundCurrent s) i + 1) else get (soundCurrent s) i).
Proof.
  intros Hwf Hi Hen Hfmt Htmr Ht Hend k s' Hk Hrun. apply wf_WF in Hwf.
  assert (Hp : pcm8At i 0 (get (soundCurrent s) i) (endAddress i s) s) by done.
  destruct (Nat.eqb_spec k 128) as [->|Hne].
  - change 128%nat with (S 127) in Hrun.
    destruct (runTicks_snoc 127 mem limitFps s s' Hrun) as (s1 & H127 & Hlast).
    pose proof (runTicks_quiet 127 mem limitFps i 0 _ _ s s1 Hwf Hi Hp
                  ltac:(lia) ltac:(lia) H127) as Hp1.
    pose proof (runTicks_WF 127 mem limitFps s s1 Hwf H127) as W1.
    change (0 + 512 * Z.of_nat 127) with 65024 in Hp1.
    assert (Hout : outcomeState (runSample mem limitFps s1) = Some s') by (by rewrite Hlast).
    pose proof (tick_wrap mem limitFps i _ _ s1 s' W1 Hi Hp1 Hend Hout)
      as (_ & _ & _ & _ & Hcur & _).
    exact Hcur.
  - pose proof (runTicks_quiet k mem limitFps i 0 _ _ s s' Hwf Hi Hp
                  ltac:(lia) ltac:(lia) Hrun) as (_ & _ & _ & _ & Hcur & _).
    exact Hcur.
Qed.

Lemma C2_witness :
  get (soundCurrent (afterTicks 128 zeroMemory false enableThenReload)) 0
  = (if (128 =? 128)%nat then u32 (get (soundCurrent enableThenReload) 0 + 1)
     else get (soundCurrent enableThenReload) 0).
Proof.
  apply (C2_reload_scenario zeroMemory false 0 enableThenReload).
  - vm_compute. reflexivity.
  - lia.
  - vm_compute. reflexivity.
  - vm_compute. reflexivity.
  - vm_compute. reflexivity.
  - vm_compute. reflexivity.
  - vm_compute. discriminate.
  - lia.
  - vm_compute. reflexivity.
Defined.

(** When the reload period 0xFFFF is in place before the channel is
    enabled, the enabling write leaves the accumulator at 0xFFFF, every
    tick runs 512 reload passes, and after 128 ticks the current address
    has been incremented 65536 times, not once. *)
Lemma C2_counterexample :
  enabled (get (soundCnt reloadThenEnable) 0) = true /\
  formatOf (get (soundCnt reloadThenEnable) 0) = 0 /\
  get (soundTmr reloadThenEnable) 0 = 0xFFFF /\
  get (soundTimers reloadThenEnable) 0 = 0xFFFF /\
  get (soundCurrent reloadThenEnable) 0 = 0 /\
  get (soundCurrent (afterTicks 1 zeroMemory false reloadThenEnable)) 0 = 512 /\
  exists s',
    runTicks 128 zeroMemory false reloadThenEnable = Returned s' /\
    get (soundCurrent s') 0 = 65536 /\
    get (soundCurrent s') 0 <> get (soundCurrent reloadThenEnable) 0 + 1.
Proof.
  split; [vm_compute; reflexivity|].
  split; [vm_compute; reflexivity|].
  split; [vm_compute; reflexivity|].
  split; [vm_compute; reflexivity|].
  split; [vm_compute; reflexivity|].
  split; [vm_compute; reflexivity|].
  eexists. split; [vm_compute; reflexivity|].
  split; [vm_compute; reflexivity|].
  vm_compute. discriminate.
Qed.

(** ** The buffer exchange *)

Lemma bufferOk_spec (s : Spu) :
  bufferOk s = true -> bufferSize s <> 0 ->
  exists a b la lb,
    bufferIn s = Some a /\ bufferOut s = Some b /\ a <> b /\
    heap s !! a = Some la /\ heap s !! b = Some lb /\
    Z.of_nat (length la) = bufferSize s /\ Z.of_nat (length lb) = bufferSize s /\
    0 <= bufferPointer s < bufferSize s.
Proof.
  unfold bufferOk. intros H Hs.
  destruct (Z.eqb_spec (bufferSize s) 0); [done|]. cbn [orb] in H.
  destruct (bufferIn s) as [a|]; [|done]. destruct (bufferOut s) as [b|]; [|done].
  destruct (heap s !! a) as [la|] eqn:Ea; [|by rewrite andb_false_r in H].
  destruct (heap s !! b) as [lb|] eqn:Eb; [|by rewrite andb_false_r in H].
  rewrite !andb_true_iff in H. destruct H as [[[H1 [H2 H3]] H4] H5].
  apply negb_true_iff, Nat.eqb_neq in H1. apply Z.eqb_eq in H2, H3.
  apply Z.leb_le in H4. apply Z.ltb_lt in H5.
  exists a, b, la, lb.
  split; [done|]. split; [done|]. split; [exact H1|]. split; [exact Ea|]. split; [exact Eb|].
  split; [exact H2|]. split; [exact H3|]. lia.
Qed.

Lemma pushFrame_more limitFps frame s a blk :
  bufferIn s = Some a -> heap s !! a = Some blk ->
  0 <= bufferPointer s < Z.of_nat (length blk) ->
  bufferPointer s + 1 <> bufferSize s ->
  pushFrame limitFps frame s
  = Returned (set_bufferPointer (bufferPointer s + 1)
                (set_heap (<[a := <[Z.to_nat (bufferPointer s) := frame]> blk]> (heap s)) s)).
Proof.
  intros Ha Hb Hp Hne. unfold pushFrame. rewrite Ha, Hb.
  destruct (Z.leb_spec 0 (bufferPointer s)); [|lia].
  destruct (Z.ltb_spec (bufferPointer s) (Z.of_nat (length blk))); [|lia].
  cbn [andb]. cbv zeta. proj.
  destruct (Z.eqb_spec (bufferPointer s + 1) (bufferSize s)); [done|reflexivity].
Qed.

Lemma pushFrame_full limitFps frame s a blk :
  bufferIn s = Some a -> heap s !! a = Some blk ->
  0 <= bufferPointer s < Z.of_nat (length blk) ->
  bufferPointer s + 1 = bufferSize s ->
  limitFps && ready s = false ->
  pushFrame limitFps frame s
  = Returned (swapBuffers
                (set_bufferPointer (bufferPointer s + 1)
                   (set_heap (<[a := <[Z.to_nat (bufferPointer s) := frame]> blk]> (heap s)) s))).
Proof.
  intros Ha Hb Hp He Hr. unfold pushFrame. rewrite Ha, Hb.
  destruct (Z.leb_spec 0 (bufferPointer s)); [|lia].
  destruct (Z.ltb_spec (bufferPointer s) (Z.of_nat (length blk))); [|lia].
  cbn [andb]. cbv zeta. proj.
  destruct (Z.eqb_spec (bufferPointer s + 1) (bufferSize s)); [|done].
  by rewrite Hr.
Qed.

Lemma insert_last_take (blk : list Z) (p : nat) (f : Z) :
  length blk = S p -> <[p := f]> blk = take p blk ++ [f].
Proof.
  intros H. rewrite <- (take_ge (<[p := f]> blk) (S p)) by (rewrite length_insert; lia).
  rewrite (take_S_r _ p f) by (apply list_lookup_insert_eq; lia).
  by rewrite take_insert_ge by lia.
Qed.

Lemma take_insert_S (blk : list Z) (p : nat) (f : Z) :
  (p < length blk)%nat -> take (S p) (<[p := f]> blk) = take p blk ++ [f].
Proof.
  intros H. rewrite (take_S_r _ p f) by (apply list_lookup_insert_eq; lia).
  by rewrite take_insert_ge by lia.
Qed.

(** A tick of a well-formed unit with room in its in buffer. *)
Lemma runSample_push mem limitFps s a blk :
  WF s -> bufferSize s <> 0 -> bufferIn s = Some a -> heap s !! a = Some blk ->
  0 <= bufferPointer s < Z.of_nat (length blk) ->
  exists s1 acc,
    runChannels mem 0 16 (s, (0, 0)) = Some (s1, acc) /\
    Keep 16 s s1 /\ WF s1 /\
    runSample mem limitFps s = pushFrame limitFps (frameOf s1 acc) s1.
Proof.
  intros Hwf Hs Ha Hb Hp.
  destruct (runChannels_total mem 16 0 (s, (0, 0)) Hwf ltac:(lia)) as [[s1 acc] Hch].
  pose proof (runChannels_Keep mem 16 0 16 _ _ Hch ltac:(lia)) as K.
  pose proof (runChannels_WF mem 16 0 _ _ Hch Hwf) as W.
  cbn [fst] in K, W.
  exists s1, acc. split; [exact Hch|]. split; [exact K|]. split; [exact W|].
  unfold runSample. rewrite Hch. rewrite (kp_bufferSize _ _ _ K).
  by destruct (Z.eqb_spec (bufferSize s) 0).
Qed.

Lemma produce_fill (k : nat) mem limitFps :
  forall (s : Spu) (a b : nat) (blk : list Z) (p : nat),
    WF s -> (0 < k)%nat -> bufferSize s = Z.of_nat (p + k) ->
    bufferIn s = Some a -> bufferOut s = Some b ->
    heap s !! a = Some blk -> length blk = (p + k)%nat ->
    bufferPointer s = Z.of_nat p ->
    limitFps && ready s = false ->
    exists frames s1,
      produce k mem limitFps s = Some (frames, s1) /\ length frames = k /\
      ready s1 = true /\ bufferOut s1 = Some a /\ bufferIn s1 = Some b /\
      heap s1 = <[a := take p blk ++ frames]> (heap s) /\
      bufferSize s1 = bufferSize s /\ bufferPointer s1 = 0 /\ WF s1.
Proof.
  induction k as [|k IH]; intros s a b blk p Hwf Hk Hsize Ha Hb Hblk Hlen Hptr Hrdy; [lia|].
  destruct (runSample_push mem limitFps s a blk Hwf) as (s1 & acc & Hch & K & W1 & Hrun);
    [lia|done|done|lia|].
  cbn [produce]. rewrite Hch, Hrun.
  assert (Ha1 : bufferIn s1 = Some a) by (by rewrite (kp_bufferIn _ _ _ K)).
  assert (Hb1 : heap s1 !! a = Some blk) by (by rewrite (kp_heap _ _ _ K)).
  assert (Hp1 : bufferPointer s1 = Z.of_nat p) by (by rewrite (kp_bufferPointer _ _ _ K)).
  assert (Hs1 : bufferSize s1 = Z.of_nat (p + S k)) by (by rewrite (kp_bufferSize _ _ _ K)).
  assert (Hr1 : ready s1 = ready s) by apply K.
  destruct k as [|k].
  - rewrite (pushFrame_full limitFps _ s1 a blk) by (done || lia || by rewrite Hr1).
    cbn [produce mbind option_bind fst snd].
    eexists _, _. split; [reflexivity|].
    unfold swapBuffers. proj.
    rewrite Hp1, Nat2Z.id, (kp_heap _ _ _ K), (kp_bufferOut _ _ _ K),
      (kp_bufferSize _ _ _ K), Ha1.
    rewrite insert_last_take by lia.
    split; [done|]. split; [done|]. split; [done|]. split; [done|]. split; [done|].
    split; [done|]. split; [done|].
    destruct W1. split; proj; done.
  - rewrite (pushFrame_more limitFps _ s1 a blk) by (done || lia).
    set (s2 := set_bufferPointer _ _).
    destruct (IH s2 a b (<[p := frameOf s1 acc]> blk) (S p))
      as (frames & s3 & Hprod & Hlenf & R3 & O3 & I3 & H3 & S3 & P3 & W3).
    + subst s2. destruct W1. split; proj; done.
    + lia.
    + subst s2. proj. rewrite Hs1. lia.
    + subst s2. by proj.
    + subst s2. proj. by rewrite (kp_bufferOut _ _ _ K).
    + subst s2. proj. rewrite Hp1, Nat2Z.id. apply lookup_insert_eq.
    + rewrite length_insert. lia.
    + subst s2. proj. rewrite Hp1. lia.
    + subst s2. proj. by rewrite Hr1.
    + rewrite Hprod. cbn [mbind option_bind fst snd].
      eexists _, _. split; [reflexivity|].
      rewrite H3, S3. subst s2. proj.
      rewrite Hp1, Nat2Z.id, (kp_heap _ _ _ K), (kp_bufferSize _ _ _ K).
      rewrite insert_insert_eq, take_insert_S by lia.
      rewrite <- app_assoc. cbn [app length].
      split; [by rewrite Hlenf|]. split; [done|]. split; [done|]. split; [done|].
      split; [done|]. split; [done|]. split; [done|]. exact W3.
Qed.

Lemma waitReady_spec (polls : nat) (s : Spu) : waitReady polls s = negb (ready s).
Proof. induction polls as [|polls IH]; cbn [waitReady]; destruct (ready s); done. Qed.



(** The two ways [getSamples] fills its result block, once the buffers are
    in place: [blk] is the out buffer. *)
Lemma getSamples_result polls (junkIn junkOut junkRes : list Z) (count : Z) s b blk :
  0 <= count ->
  let s0 := resizeBuffers count junkIn junkOut s in
  (count <> 0 -> bufferOut s0 = Some b /\ heap s0 !! b = Some blk /\
                 length blk = Z.to_nat count) ->
  let out := fresh (dom (heap s0)) in
  let filled :=
    if count =? 0 then []
    else if ready s0 then blk
         else replicate (Z.to_nat count) (default 0 (blk !! Z.to_nat (count - 1))) in
  getSamples polls (junkIn, junkOut, junkRes) count s
  = Some (out, set_ready false (set_heap (<[out := filled]> (heap s0)) s0)).
Proof.
  intros Hc s0 Hblk out filled. unfold getSamples.
  destruct (Z.ltb_spec count 0); [lia|]. cbv zeta. fold s0.
  rewrite waitReady_spec. unfold alloc. fold out. proj.
  subst filled.
  destruct (Z.eqb_spec count 0) as [E|E].
  - cbn [mbind option_bind]. proj. by rewrite insert_insert_eq.
  - destruct (Hblk E) as (Hb & Hl & Hlen).
    assert (Hout : out <> b).
    { intros Heq. pose proof (is_fresh (dom (heap s0))) as Hf. fold out in Hf. apply Hf.
      rewrite Heq. apply elem_of_dom. by rewrite Hl. }
    rewrite Hb. cbn [mbind option_bind]. rewrite lookup_insert_ne by done. rewrite Hl.
    cbn [mbind option_bind].
    destruct (ready s0); cbn [negb].
    + rewrite Hlen, Nat.leb_refl. cbn [mbind option_bind]. proj.
      rewrite take_ge by lia. by rewrite insert_insert_eq.
    + destruct (blk !! Z.to_nat (count - 1)) as [last|] eqn:El.
      * cbn [mbind option_bind default]. proj. by rewrite insert_insert_eq.
      * apply lookup_ge_None in El. lia.
Qed.

(** A tick of a well-formed unit with sound buffers never leaves defined
    behaviour: the reload loops end within their fuel and the push stays
    inside the in buffer. *)
Lemma runSample_defined mem limitFps s :
  wf s = true -> bufferOk s = true -> runSample mem limitFps s <> Undefined.
Proof.
  intros Hwf Hok. apply wf_WF in Hwf.
  destruct (Z.eq_dec (bufferSize s) 0) as [E|E].
  - destruct (runChannels_total mem 16 0 (s, (0, 0)) Hwf ltac:(lia)) as [[s1 acc] Hch].
    pose proof (runChannels_Keep mem 16 0 16 _ _ Hch ltac:(lia)) as K. cbn [fst] in K.
    unfold runSample. rewrite Hch, (kp_bufferSize _ _ _ K), E. done.
  - destruct (bufferOk_spec s Hok E) as (a & b & la & lb & Ha & Hb & _ & Hla & _ & La & _ & Hp).
    destruct (runSample_push mem limitFps s a la Hwf E Ha Hla ltac:(lia))
      as (s1 & acc & Hch & K & W1 & ->).
    unfold pushFrame.
    rewrite (kp_bufferIn _ _ _ K), Ha, (kp_heap _ _ _ K), Hla, (kp_bufferPointer _ _ _ K).
    destruct (Z.leb_spec 0 (bufferPointer s)); [|lia].
    destruct (Z.ltb_spec (bufferPointer s) (Z.of_nat (length la))); [|lia].
    cbn [andb]. cbv zeta. destruct (_ =? _); [destruct (_ && _)|]; done.
Qed.

Lemma produce_packed (n : nat) mem limitFps s frames s1 :
  produce n mem limitFps s = Some (frames, s1) ->
  Forall (fun f => exists l r, f = u32 (Z.lor (Z.shiftl r 16) (Z.land l 0xFFFF))) frames.
Proof.
  revert s frames s1. induction n as [|n IH]; intros s frames s1 H; cbn [produce] in H.
  - apply (inj Some) in H. apply (f_equal fst) in H. cbn [fst] in H. subst. constructor.
  - destruct (runChannels mem 0 16 (s, (0, 0))) as [[sa acc]|]; [|done].
    destruct (runSample mem limitFps s) as [s'| |]; try done.
    destruct (produce n mem limitFps s') as [[fs sb]|] eqn:E; [|done].
    cbn [mbind option_bind fst snd] in H. apply (inj Some) in H.
    apply (f_equal fst) in H. cbn [fst] in H. subst frames.
    constructor; [|by eapply IH].
    eexists _, _. reflexivity.
Qed.

(** The frames of [produce], one by one: the [k]-th is the frame of the
    tick that starts in the state [k] ticks have left. *)
Lemma produce_frames (n : nat) mem limitFps :
  forall s frames s1,
    produce n mem limitFps s = Some (frames, s1) ->
    forall k, (k < n)%nat ->
      exists sk s' acc,
        runTicks k mem limitFps s = Returned sk /\
        runChannels mem 0 16 (sk, (0, 0)) = Some (s', acc) /\
        frames !! k = Some (frameOf s' acc).
Proof.
  induction n as [|n IH]; intros s frames s1 Hp k Hk; [lia|].
  cbn [produce] in Hp.
  destruct (runChannels mem 0 16 (s, (0, 0))) as [[sa acc]|] eqn:Hch; [|done].
  destruct (runSample mem limitFps s) as [s''| |] eqn:Hrun; try done.
  destruct (produce n mem limitFps s'') as [[fs sb]|] eqn:E; [|done].
  cbn [mbind option_bind fst snd] in Hp. apply (inj Some) in Hp.
  apply (f_equal fst) in Hp. cbn [fst] in Hp. subst frames.
  destruct k as [|k].
  - exists s, sa, acc. cbn [runTicks]. done.
  - destruct (IH s'' fs sb E k ltac:(lia)) as (sk & s' & acc' & R & C & F).
    exists sk, s', acc'. cbn [runTicks]. rewrite Hrun. done.
Qed.

(** C4: when the producer pushes the frames F1..Fn of [n] ticks into an
    empty in buffer of capacity [n], the last push swaps the buffers and
    sets the ready flag, and a [getSamples n] that follows returns a block
    at an address not in use before, different from both buffers, that
    holds exactly F1..Fn in order.  The [k]-th frame is the word
    [(right << 16) | (left & 0xFFFF)] of the two samples the [k]-th tick
    computes, and its two halves read back as those samples; the ready
    flag is cleared. *)
Theorem C4_buffer_round_trip mem limitFps (polls : nat) (junk : list Z * list Z * list Z)
    (n : nat) (s : Spu) :
  wf s = true -> bufferOk s = true ->
  (0 < n)%nat -> bufferSize s = Z.of_nat n -> bufferPointer s = 0 ->
  limitFps && ready s = false ->
  exists frames s1 out s2,
    produce n mem limitFps s = Some (frames, s1) /\
    length frames = n /\
    Forall (fun f => exists l r, f = u32 (Z.lor (Z.shiftl r 16) (Z.land l 0xFFFF))) frames /\
    (forall k, (k < n)%nat ->
       exists sk s' acc f,
         runTicks k mem limitFps s = Returned sk /\
         runChannels mem 0 16 (sk, (0, 0)) = Some (s', acc) /\
         frames !! k = Some f /\
         let l := finalSample s' acc.1 in
         let r := finalSample s' acc.2 in
         f = u32 (Z.lor (Z.shiftl r 16) (Z.land l 0xFFFF)) /\
         frameLeft f = l /\ frameRight f = r) /\
    ready s1 = true /\ bufferOut s1 = bufferIn s /\ bufferIn s1 = bufferOut s /\
    getSamples polls junk (Z.of_nat n) s1 = Some (out, s2) /\
    heap s2 !! out = Some frames /\
    (out ∉ dom (heap s1)) /\ bufferIn s2 <> Some out /\ bufferOut s2 <> Some out /\
    ready s2 = false.
Proof.
  intros Hwf Hok Hn Hsize Hptr Hrdy. apply wf_WF in Hwf.
  destruct (bufferOk_spec s Hok) as (a & b & la & lb & Ha & Hb & Hab & Hla & Hlb & La & Lb & _);
    [lia|].
  destruct (produce_fill n mem limitFps s a b la 0 Hwf Hn) as
    (frames & s1 & Hprod & Hlen & R1 & O1 & I1 & H1 & S1 & P1 & W1);
    [by rewrite Hsize|done|done|done|lia|by rewrite Hptr|done|].
  cbn [take app] in H1.
  destruct junk as [[junkIn junkOut] junkRes].
  assert (E0 : resizeBuffers (Z.of_nat n) junkIn junkOut s1 = s1).
  { unfold resizeBuffers. rewrite S1, Hsize, Z.eqb_refl. done. }
  pose proof (getSamples_result polls junkIn junkOut junkRes (Z.of_nat n) s1 a frames
                ltac:(lia)) as Hget.
  cbv zeta in Hget. rewrite E0 in Hget.
  assert (Hblk : Z.of_nat n <> 0 ->
                 bufferOut s1 = Some a /\ heap s1 !! a = Some frames /\
                 length frames = Z.to_nat (Z.of_nat n)).
  { intros _. split; [done|]. split; [rewrite H1; apply lookup_insert_eq|].
    by rewrite Nat2Z.id. }
  specialize (Hget Hblk).
  destruct (Z.eqb_spec (Z.of_nat n) 0) as [|_]; [lia|]. rewrite R1 in Hget.
  pose proof (is_fresh (dom (heap s1))) as Hfresh.
  set (out := fresh (dom (heap s1))) in *.
  assert (Hina : a ∈ dom (heap s1)).
  { apply elem_of_dom. rewrite H1. by rewrite lookup_insert_eq. }
  assert (Hinb : b ∈ dom (heap s1)).
  { apply elem_of_dom. rewrite H1. rewrite lookup_insert_ne by done. by rewrite Hlb. }
  exists frames, s1, out, (set_ready false (set_heap (<[out := frames]> (heap s1)) s1)).
  split; [done|]. split; [done|]. split; [by eapply produce_packed|].
  split.
  { intros k Hk.
    destruct (produce_frames n mem limitFps s frames s1 Hprod k Hk)
      as (sk & s' & acc & Rk & Ck & Fk).
    exists sk, s', acc, (frameOf s' acc).
    split; [exact Rk|]. split; [exact Ck|]. split; [exact Fk|]. cbv zeta.
    pose proof (finalSample_range s' acc.1). pose proof (finalSample_range s' acc.2).
    split; [reflexivity|]. unfold frameOf.
    split; [apply frameLeft_packFrame; lia|apply frameRight_packFrame; lia]. }
  split; [done|]. split; [by rewrite O1, Ha|]. split; [by rewrite I1, Hb|].
  split; [done|]. proj.
  split; [apply lookup_insert_eq|]. split; [done|].
  split; [rewrite I1; intros E; injection E as E; by subst|].
  split; [rewrite O1; intros E; injection E as E; by subst|done].
Qed.

Lemma C4_witness :
  exists frames s1 out s2,
    produce 2 zeroMemory false pulsingUnit = Some (frames, s1) /\
    length frames = 2%nat /\
    Forall (fun f => exists l r, f = u32 (Z.lor (Z.shiftl r 16) (Z.land l 0xFFFF))) frames /\
    (forall k, (k < 2)%nat ->
       exists sk s' acc f,
         runTicks k zeroMemory false pulsingUnit = Returned sk /\
         runChannels zeroMemory 0 16 (sk, (0, 0)) = Some (s', acc) /\
         frames !! k = Some f /\
         let l := finalSample s' acc.1 in
         let r := finalSample s' acc.2 in
         f = u32 (Z.lor (Z.shiftl r 16) (Z.land l 0xFFFF)) /\
         frameLeft f = l /\ frameRight f = r) /\
    ready s1 = true /\ bufferOut s1 = bufferIn pulsingUnit /\
    bufferIn s1 = bufferOut pulsingUnit /\
    getSamples 5 ([1; 2], [3; 4], [5; 6]) (Z.of_nat 2) s1 = Some (out, s2) /\
    heap s2 !! out = Some frames /\
    (out ∉ dom (heap s1)) /\ bufferIn s2 <> Some out /\ bufferOut s2 <> Some out /\
    ready s2 = false.
Proof.
  apply (C4_buffer_round_trip zeroMemory false 5 ([1; 2], [3; 4], [5; 6]) 2 pulsingUnit).
  - vm_compute. reflexivity.
  - vm_compute. reflexivity.
  - lia.
  - vm_compute. reflexivity.
  - vm_compute. reflexivity.
  - vm_compute. reflexivity.
Defined.

(** The two frames of the pulsing unit: the low level and then the high
    level, the same in both halves. *)
Lemma pulsingUnit_frames :
  fst <$> produce 2 zeroMemory false pulsingUnit = Some [0xE000E000; 0x1FE01FE0].
Proof. vm_compute. reflexivity. Qed.



(** ** The example states are reachable *)

Lemma reloadThenEnable_Reachable : Reachable AnyHeader reloadThenEnable.
Proof.
  unfold reloadThenEnable. apply reach_writeSoundCnt; [lia|exact I|].
  apply reach_writeSoundTmr; [lia|]. apply reach_initial.
Qed.

Lemma loopStart_Reachable : Reachable AnyHeader loopStart.
Proof.
  unfold loopStart. apply reach_writeSoundCnt; [lia|exact I|].
  apply reach_writeSoundTmr; [lia|]. apply reach_writeSoundLen; [lia|].
  apply reach_writeSoundSad; [lia|]. apply reach_initial.
Qed.

Lemma pulseStart_Reachable : Reachable AnyHeader pulseStart.
Proof.
  unfold pulseStart. do 2 (apply reach_writeSoundCnt; [lia|exact I|]).
  apply reach_writeSoundTmr; [lia|]. apply reach_initial.
Qed.

Lemma noiseStart_Reachable : Reachable AnyHeader noiseStart.
Proof.
  unfold noiseStart. do 2 (apply reach_writeSoundCnt; [lia|exact I|]).
  apply reach_writeSoundTmr; [lia|]. apply reach_initial.
Qed.

Lemma twoFrameUnit_Reachable : Reachable AnyHeader twoFrameUnit.
Proof.
  apply (reach_getSamples AnyHeader 0 ([], [], []) 2 initial 2%nat twoFrameUnit).
  - apply reach_initial.
  - vm_compute. reflexivity.
Qed.

Lemma readyUnit_Reachable : Reachable AnyHeader readyUnit.
Proof.
  apply (reach_runSample AnyHeader zeroMemory false
           (afterTick zeroMemory false twoFrameUnit) readyUnit).
  - apply (reach_runSample AnyHeader zeroMemory false twoFrameUnit).
    + apply twoFrameUnit_Reachable.
    + vm_compute. reflexivity.
  - vm_compute. reflexivity.
Qed.

Lemma adpcmLoopStart_Reachable : Reachable AnyHeader adpcmLoopStart.
Proof.
  unfold adpcmLoopStart. do 2 (apply reach_writeSoundCnt; [lia|exact I|]).
  apply reach_writeSoundLen; [lia|]. apply reach_writeSoundPnt; [lia|].
  apply reach_writeSoundSad; [lia|]. apply reach_initial.
Qed.

(** ** Registers and counters hold values of their width *)

Lemma onlyBits_0 (m : Z) : onlyBits m 0.
Proof. reflexivity. Qed.

Lemma onlyBits_land (m x : Z) : onlyBits m (Z.land x m).
Proof. unfold onlyBits. rewrite <- Z.land_assoc, Z.land_diag. reflexivity. Qed.

Lemma onlyBits_land_l (m x y : Z) : onlyBits m x -> onlyBits m (Z.land x y).
Proof.
  unfold onlyBits. intros H.
  rewrite <- Z.land_assoc, (Z.land_comm y m), Z.land_assoc, H. reflexivity.
Qed.

Lemma onlyBits_mod (m x k : Z) : 0 <= k -> onlyBits m x -> onlyBits m (x mod 2 ^ k).
Proof.
  intros Hk H. rewrite <- Z.land_ones by assumption. apply onlyBits_land_l, H.
Qed.

Lemma onlyBits_ones (k x : Z) : 0 <= k -> onlyBits (Z.ones k) x <-> 0 <= x < 2 ^ k.
Proof.
  intros Hk. unfold onlyBits. rewrite Z.land_ones by assumption. split.
  - intros <-. apply Z.mod_pos_bound. lia.
  - intros H. apply Z.mod_small, H.
Qed.

Lemma onlyBits_u16 (x : Z) : onlyBits 0xFFFF (u16 x).
Proof. apply (onlyBits_ones 16); [lia|]. apply u16_range. Qed.

Lemma onlyBits_u32 (x : Z) : onlyBits 0xFFFFFFFF (u32 x).
Proof. apply (onlyBits_ones 32); [lia|]. apply u32_range. Qed.

Lemma onlyBits_16 (x : Z) : onlyBits 0xFFFF x <-> 0 <= x < 65536.
Proof. apply (onlyBits_ones 16). lia. Qed.

Lemma onlyBits_32 (x : Z) : onlyBits 0xFFFFFFFF x <-> 0 <= x < 4294967296.
Proof. apply (onlyBits_ones 32). lia. Qed.

(** A value inside a mask is inside every wider mask. *)
Lemma onlyBits_weaken (m m' x : Z) : onlyBits m' m -> onlyBits m x -> onlyBits m' x.
Proof.
  unfold onlyBits. intros Hm Hx.
  rewrite <- Hx, <- Z.land_assoc, Hm. reflexivity.
Qed.

Lemma onlyBits_le (m x : Z) : 0 <= m -> onlyBits m x -> 0 <= x <= m.
Proof.
  unfold onlyBits. intros Hm Hx.
  assert (H0 : 0 <= x) by (rewrite <- Hx; apply Z.land_nonneg; right; exact Hm).
  split; [exact H0|].
  assert (Hr : 0 <= Z.land m (Z.lnot x)) by (apply Z.land_nonneg; left; exact Hm).
  assert (Hd : Z.land x (Z.land m (Z.lnot x)) = 0).
  { rewrite (Z.land_comm m), Z.land_assoc, Z.land_lnot_diag. reflexivity. }
  apply Z.add_nocarry_lor in Hd.
  assert (He : Z.lor x (Z.land m (Z.lnot x)) = m).
  { apply Z.bits_inj'. intros n Hn.
    rewrite Z.lor_spec, Z.land_spec, Z.lnot_spec by assumption.
    rewrite <- Hx at 1. rewrite Z.land_spec.
    destruct (Z.testbit x n), (Z.testbit m n); reflexivity. }
  lia.
Qed.

(** The word a masked register write stores has no bit outside the
    writable ones when the old word has none. *)
Lemma onlyBits_masked (w old mask value : Z) :
  onlyBits w old ->
  onlyBits w (Z.lor (Z.land old (Z.lnot (Z.land mask w))) (Z.land value (Z.land mask w))).
Proof.
  unfold onlyBits. intros H. apply Z.bits_inj'. intros n Hn.
  assert (Ho : Z.testbit old n = Z.testbit old n && Z.testbit w n)
    by (rewrite <- Z.land_spec, H; reflexivity).
  rewrite !Z.land_spec, !Z.lor_spec, !Z.land_spec, Z.lnot_spec, !Z.land_spec by assumption.
  rewrite Ho.
  destruct (Z.testbit old n), (Z.testbit w n), (Z.testbit mask n), (Z.testbit value n);
    reflexivity.
Qed.

Lemma onlyBits_get (m : Z) (a : list Z) (i : nat) : Forall (onlyBits m) a -> onlyBits m (get a i).
Proof. intros H. apply get_Forall; [exact H|apply onlyBits_0]. Qed.

Lemma onlyBits_reserved (w r x : Z) : Z.land w r = 0 -> onlyBits w x -> Z.land x r = 0.
Proof.
  unfold onlyBits. intros Hw Hx.
  rewrite <- Hx, <- Z.land_assoc, Hw. apply Z.land_0_r.
Qed.

Lemma onlyBits_aligned (w x : Z) : Z.land w 3 = 0 -> onlyBits w x -> x mod 4 = 0.
Proof.
  intros Hw Hx. change 4 with (2 ^ 2). rewrite <- Z.land_ones by lia.
  exact (onlyBits_reserved w (Z.ones 2) x Hw Hx).
Qed.

Lemma onlyBits_clear (w x : Z) : onlyBits w x -> Z.land x (Z.lnot w) = 0.
Proof.
  unfold onlyBits. intros H. rewrite <- H, <- Z.land_assoc, Z.land_lnot_diag. apply Z.land_0_r.
Qed.

Ltac typed_same := intros []; split_ifs; split; proj; assumption.

Lemma tickTimer_Typed i s : Typed s -> Typed (tickTimer i s).
Proof.
  intros []. unfold tickTimer. split; proj; try assumption.
  apply Forall_insert; [assumption|apply onlyBits_u16].
Qed.

Lemma reloadTimer_Typed i s : Typed s -> Typed (reloadTimer i s).
Proof.
  intros []. unfold reloadTimer. split; proj; try assumption.
  apply Forall_insert; [assumption|apply onlyBits_u16].
Qed.

Lemma applyDiff_Typed i d diff s : Typed s -> Typed (applyDiff i d diff s).
Proof. unfold applyDiff. typed_same. Qed.

Lemma nextIndex_Typed i d s : Typed s -> Typed (nextIndex i d s).
Proof. unfold nextIndex. typed_same. Qed.

Lemma saveLoop_Typed i s : Typed s -> Typed (saveLoop i s).
Proof. unfold saveLoop. typed_same. Qed.

Lemma restoreLoop_Typed i s : Typed s -> Typed (restoreLoop i s).
Proof. unfold restoreLoop. typed_same. Qed.

Lemma nextNibble_Typed i s : Typed s -> Typed (nextNibble i s).
Proof.
  intros []. unfold nextNibble. split_ifs; split; proj; try assumption.
  apply Forall_insert; [assumption|apply onlyBits_u32].
Qed.

Lemma adpcmStep_Typed mem i s : Typed s -> Typed (adpcmStep mem i s).
Proof.
  intros H. unfold adpcmStep. cbv zeta.
  apply saveLoop_Typed, nextNibble_Typed, nextIndex_Typed, applyDiff_Typed, H.
Qed.

Lemma noiseStep_Typed j s : Typed s -> Typed (noiseStep j s).
Proof.
  intros []. unfold noiseStep. cbv zeta. proj.
  assert (H1 : Forall (onlyBits 0xFFFF)
                 (<[j := u16 (Z.land (get (noiseValues s) j) (Z.lnot (BIT 15)))]> (noiseValues s)))
    by (apply Forall_insert; [assumption|apply onlyBits_u16]).
  destruct (nonzero _); split; proj; try assumption.
  - apply Forall_insert; [assumption|apply onlyBits_u16].
  - apply Forall_insert; [assumption|].
    apply onlyBits_16. apply (onlyBits_get _ _ j), onlyBits_16 in H1.
    rewrite Z.shiftr_div_pow2 by lia. split.
    + apply Z.div_pos; lia.
    + apply Z.div_lt_upper_bound; lia.
Qed.

Lemma psgStep_Typed i s : Typed s -> Typed (psgStep i s).
Proof.
  intros H. unfold psgStep.
  destruct (_ && _).
  - destruct H. split; proj; try assumption.
    apply Forall_insert; [assumption|].
    assert (H0 : 0 <= get (dutyCycles s) (i - 8) <= 7)
      by (apply (get_Forall (fun x => 0 <= x <= 7)); [assumption|lia]).
    rewrite Z.rem_mod_nonneg by lia.
    pose proof (Z.mod_pos_bound (get (dutyCycles s) (i - 8) + 1) 8). lia.
  - destruct (14 <=? i)%nat; [apply noiseStep_Typed, H|exact H].
Qed.

Lemma advance_Typed mem i format s : Typed s -> Typed (advance mem i format s).
Proof.
  intros H. unfold advance.
  destruct (_ || _).
  - destruct H. split; proj; try assumption.
    apply Forall_insert; [assumption|apply onlyBits_u32].
  - destruct (format =? 2); [apply adpcmStep_Typed, H|].
    destruct (format =? 3); [apply psgStep_Typed, H|exact H].
Qed.

Lemma endOfData_Typed i format s : Typed s -> Typed (endOfData i format s).
Proof.
  intros H. unfold endOfData.
  destruct (negb (format =? 3) && _); [|exact H].
  destruct (_ =? 1).
  - cbv zeta.
    assert (H1 : Typed (set_soundCurrent (<[i := loopAddress i s]> (soundCurrent s)) s)).
    { destruct H. split; proj; try assumption.
      apply Forall_insert; [assumption|apply onlyBits_u32]. }
    destruct (format =? 2); [apply restoreLoop_Typed, H1|exact H1].
  - destruct H. split; proj; try assumption.
    apply Forall_insert; [assumption|].
    apply onlyBits_land_l, onlyBits_get. assumption.
Qed.

Lemma reloadStep_Typed mem i format s : Typed s -> Typed (reloadStep mem i format s).1.
Proof.
  intros H. unfold reloadStep. cbv zeta. cbn [fst].
  apply endOfData_Typed, advance_Typed, reloadTimer_Typed, H.
Qed.

Lemma reloadLoop_Typed fuel mem i format s s' :
  Typed s -> reloadLoop fuel mem i format s = Some s' -> Typed s'.
Proof.
  revert s. induction fuel as [|fuel IH]; intros s H; cbn [reloadLoop]; [discriminate|].
  pose proof (reloadStep_Typed mem i format s H) as H1.
  destruct (reloadStep mem i format s) as [s1 ov]. cbn [fst] in H1.
  destruct ov.
  - apply IH, H1.
  - intros E. apply (inj Some) in E. subst. exact H1.
Qed.

Lemma runTimer_Typed mem i format s s' :
  Typed s -> runTimer mem i format s = Some s' -> Typed s'.
Proof.
  intros H. unfold runTimer. cbv zeta.
  pose proof (tickTimer_Typed i s H) as H1.
  destruct (_ <? 512).
  - apply reloadLoop_Typed, H1.
  - intros E. apply (inj Some) in E. subst. exact H1.
Qed.

Lemma runChannel_Typed mem i st st' :
  Typed st.1 -> runChannel mem i st = Some st' -> Typed st'.1.
Proof.
  intros H. unfold runChannel.
  destruct (negb _).
  - intros E. apply (inj Some) in E. subst. exact H.
  - cbv zeta.
    destruct (runTimer mem i _ st.1) as [s1|] eqn:E1; cbn; [|discriminate].
    intros E. apply (inj Some) in E. subst. cbn [fst].
    eapply runTimer_Typed; [exact H|exact E1].
Qed.

Lemma runChannels_Typed mem (n i : nat) st st' :
  Typed st.1 -> runChannels mem i n st = Some st' -> Typed st'.1.
Proof.
  revert i st. induction n as [|n IH]; intros i st H; cbn [runChannels].
  - intros E. apply (inj Some) in E. subst. exact H.
  - destruct (runChannel mem i st) as [st1|] eqn:E1; cbn; [|discriminate].
    apply IH. eapply runChannel_Typed; [exact H|exact E1].
Qed.

Ltac rewrite_fields s' :=
  repeat match goal with
         | H : ?f s' = _ |- context [?f s'] => rewrite H
         end.

Lemma Typed_SameSound (s s' : Spu) : SameSound s s' -> Typed s -> Typed s'.
Proof. intros [] []. split; rewrite_fields s'; assumption. Qed.

Lemma runSample_Typed mem limitFps s s' :
  outcomeState (runSample mem limitFps s) = Some s' -> Typed s -> Typed s'.
Proof.
  intros E H. apply runSample_sound in E as (s1 & acc & E1 & Hs).
  apply (Typed_SameSound s1); [exact Hs|].
  apply (runChannels_Typed mem 16 0 (s, (0, 0)) (s1, acc)); [exact H|exact E1].
Qed.

Lemma readAdpcmHeader_Typed mem ch s : Typed s -> Typed (readAdpcmHeader mem ch s).
Proof.
  intros []. unfold readAdpcmHeader. cbv zeta. split_ifs; split; proj; try assumption.
  all: apply Forall_insert; [assumption|apply onlyBits_u32].
Qed.

Lemma resetPsg_Typed ch s : Typed s -> Typed (resetPsg ch s).
Proof.
  intros []. unfold resetPsg. split_ifs; split; proj; try assumption.
  - apply Forall_insert; [assumption|lia].
  - apply Forall_insert; [assumption|reflexivity].
Qed.

Lemma reloadRegisters_Typed mem ch s : Typed s -> Typed (reloadRegisters mem ch s).
Proof.
  intros H. unfold reloadRegisters. cbv zeta.
  match goal with |- context [readAdpcmHeader mem ch ?x] => set (s1 := x) end.
  assert (H1 : Typed s1).
  { subst s1. destruct H. split; proj; try assumption.
    - apply Forall_insert; [assumption|]. by apply onlyBits_get.
    - apply Forall_insert; [assumption|].
      apply (onlyBits_weaken 0x07FFFFFC); [reflexivity|]. by apply onlyBits_get. }
  clearbody s1.
  destruct (_ =? 2); [apply readAdpcmHeader_Typed, H1|].
  destruct (_ =? 3); [apply resetPsg_Typed, H1|exact H1].
Qed.

Lemma writeSoundCnt_Typed mem ch mask value s :
  Typed s -> Typed (writeSoundCnt mem ch mask value s).
Proof.
  intros H. unfold writeSoundCnt. cbv zeta.
  match goal with |- context [set_soundCnt _ ?x] => set (s1 := x) end.
  assert (H1 : Typed s1).
  { subst s1. destruct (_ && _); [apply reloadRegisters_Typed, H|exact H]. }
  clearbody s1. destruct H1. split; proj; try assumption.
  apply Forall_insert; [assumption|].
  apply (onlyBits_mod _ _ 32); [lia|]. apply onlyBits_masked. by apply onlyBits_get.
Qed.

Lemma writeSoundSad_Typed ch mask value s : Typed s -> Typed (writeSoundSad ch mask value s).
Proof.
  intros []. unfold writeSoundSad. split; proj; try assumption.
  apply Forall_insert; [assumption|].
  apply (onlyBits_mod _ _ 32); [lia|]. apply onlyBits_masked. by apply onlyBits_get.
Qed.

Lemma writeSoundLen_Typed ch mask value s : Typed s -> Typed (writeSoundLen ch mask value s).
Proof.
  intros []. unfold writeSoundLen. split; proj; try assumption.
  apply Forall_insert; [assumption|].
  apply (onlyBits_mod _ _ 32); [lia|]. apply onlyBits_masked. by apply onlyBits_get.
Qed.

Lemma writeSoundTmr_Typed ch mask value s : Typed s -> Typed (writeSoundTmr ch mask value s).
Proof.
  intros []. unfold writeSoundTmr. split; proj; try assumption.
  apply Forall_insert; [assumption|apply onlyBits_u16].
Qed.

Lemma writeSoundPnt_Typed ch mask value s : Typed s -> Typed (writeSoundPnt ch mask value s).
Proof.
  intros []. unfold writeSoundPnt. split; proj; try assumption.
  apply Forall_insert; [assumption|apply onlyBits_u16].
Qed.

Lemma writeMainSoundCnt_Typed mask value s : Typed s -> Typed (writeMainSoundCnt mask value s).
Proof.
  intros []. unfold writeMainSoundCnt. split; proj; try assumption.
  apply (onlyBits_mod _ _ 16); [lia|]. by apply onlyBits_masked.
Qed.

Lemma writeSoundBias_Typed mask value s : Typed s -> Typed (writeSoundBias mask value s).
Proof.
  intros []. unfold writeSoundBias. split; proj; try assumption.
  apply (onlyBits_mod _ _ 16); [lia|]. by apply onlyBits_masked.
Qed.

Lemma initial_Typed : Typed initial.
Proof.
  split; cbn [initial soundCnt soundSad soundTmr soundPnt soundLen mainSoundCnt soundBias
              soundTimers soundCurrent dutyCycles noiseValues];
    try reflexivity; apply Forall_replicate; first [reflexivity|lia].
Qed.

Lemma Reachable_Typed (H : Memory -> Z -> Prop) (s : Spu) : Reachable H s -> Typed s.
Proof.
  induction 1 as [|mem ch mask value s Hch Hh _ IH|ch mask value s Hch _ IH
                  |ch mask value s Hch _ IH|ch mask value s Hch _ IH|ch mask value s Hch _ IH
                  |mask value s _ IH|mask value s _ IH|mem limitFps s s' _ IH E
                  |s _ IH|polls junk count s out s' _ IH E].
  - apply initial_Typed.
  - by apply writeSoundCnt_Typed.
  - by apply writeSoundSad_Typed.
  - by apply writeSoundTmr_Typed.
  - by apply writeSoundPnt_Typed.
  - by apply writeSoundLen_Typed.
  - by apply writeMainSoundCnt_Typed.
  - by apply writeSoundBias_Typed.
  - eapply runSample_Typed; [exact E|exact IH].
  - eapply Typed_SameSound; [apply swapBuffers_SameSound|exact IH].
  - eapply Typed_SameSound; [eapply getSamples_SameSound, E|exact IH].
Qed.

Lemma Reachable_WF (H : Memory -> Z -> Prop) (s : Spu) : Reachable H s -> WF s.
Proof.
  intros Hr.
  refine (proj1 (Reachable_WF_inv (- 32768) _ H _ s Hr)); [lia|].
  intros mem a _. apply i16_range.
Qed.

(** X1: in every state the unit can reach, the registers hold only their
    writable bits.  A channel's control word is a 32-bit value whose
    reserved bits (0x00807C80) are 0; its source address is at most
    0x07FFFFFC and a multiple of 4; its reload period and its loop start
    are 16-bit values; its length is at most 0x003FFFFF; the main control
    word is a 16-bit value whose reserved bits (0x4080) are 0; the bias is
    at most 0x03FF. *)
Theorem X1_registers_hold_writable_bits (H : Memory -> Z -> Prop) (s : Spu) (i : nat) :
  Reachable H s ->
  (0 <= get (soundCnt s) i < 2 ^ 32 /\ Z.land (get (soundCnt s) i) 0x00807C80 = 0) /\
  (0 <= get (soundSad s) i <= 0x07FFFFFC /\ get (soundSad s) i mod 4 = 0) /\
  0 <= get (soundTmr s) i <= 0xFFFF /\
  0 <= get (soundPnt s) i <= 0xFFFF /\
  0 <= get (soundLen s) i <= 0x003FFFFF /\
  (0 <= mainSoundCnt s < 2 ^ 16 /\ Z.land (mainSoundCnt s) 0x4080 = 0) /\
  0 <= soundBias s <= 0x03FF.
Proof.
  intros Hr. apply Reachable_Typed in Hr.
  destruct Hr as [Tcnt Tsad Ttmr Tpnt Tlen Tmain Tbias Ttim Tcur Tduty Tnoise].
  pose proof (onlyBits_get _ _ i Tcnt) as Hcnt.
  pose proof (onlyBits_get _ _ i Tsad) as Hsad.
  pose proof (onlyBits_get _ _ i Ttmr) as Htmr.
  pose proof (onlyBits_get _ _ i Tpnt) as Hpnt.
  pose proof (onlyBits_get _ _ i Tlen) as Hlen.
  split; [split|].
  { apply onlyBits_32, (onlyBits_weaken 0xFF7F837F); [reflexivity|exact Hcnt]. }
  { apply (onlyBits_reserved 0xFF7F837F); [reflexivity|exact Hcnt]. }
  split; [split|].
  { apply onlyBits_le; [lia|exact Hsad]. }
  { apply (onlyBits_aligned 0x07FFFFFC); [reflexivity|exact Hsad]. }
  split; [apply onlyBits_le; [lia|exact Htmr]|].
  split; [apply onlyBits_le; [lia|exact Hpnt]|].
  split; [apply onlyBits_le; [lia|exact Hlen]|].
  split; [split|].
  { apply onlyBits_16, (onlyBits_weaken 0xBF7F); [reflexivity|assumption]. }
  { apply (onlyBits_reserved 0xBF7F); [reflexivity|exact Tmain]. }
  apply onlyBits_le; [lia|assumption].
Qed.

Lemma X1_witness :
  Reachable AnyHeader adpcmSetup /\
  (0 <= get (soundCnt adpcmSetup) 3 < 2 ^ 32 /\
   Z.land (get (soundCnt adpcmSetup) 3) 0x00807C80 = 0) /\
  (0 <= get (soundSad adpcmSetup) 3 <= 0x07FFFFFC /\ get (soundSad adpcmSetup) 3 mod 4 = 0) /\
  0 <= get (soundTmr adpcmSetup) 3 <= 0xFFFF /\
  0 <= get (soundPnt adpcmSetup) 3 <= 0xFFFF /\
  0 <= get (soundLen adpcmSetup) 3 <= 0x003FFFFF /\
  (0 <= mainSoundCnt adpcmSetup < 2 ^ 16 /\ Z.land (mainSoundCnt adpcmSetup) 0x4080 = 0) /\
  0 <= soundBias adpcmSetup <= 0x03FF.
Proof.
  split; [apply adpcmSetup_Reachable; exact I|].
  apply (X1_registers_hold_writable_bits AnyHeader adpcmSetup 3).
  apply adpcmSetup_Reachable. exact I.
Defined.

(** X2: in every state the unit can reach, the working members are values
    of their C++ type, so that the truncations of the model never cut a
    stored value: the timer accumulators and the noise generators are
    16-bit values, the current addresses 32-bit values, and every duty
    counter is between 0 and 7. *)
Theorem X2_counters_keep_their_types (H : Memory -> Z -> Prop) (s : Spu) (i : nat) :
  Reachable H s ->
  0 <= get (soundTimers s) i < 2 ^ 16 /\
  0 <= get (soundCurrent s) i < 2 ^ 32 /\
  0 <= get (dutyCycles s) i <= 7 /\
  0 <= get (noiseValues s) i < 2 ^ 16.
Proof.
  intros Hr. apply Reachable_Typed in Hr.
  destruct Hr as [Tcnt Tsad Ttmr Tpnt Tlen Tmain Tbias Ttim Tcur Tduty Tnoise].
  split; [apply onlyBits_16, onlyBits_get, Ttim|].
  split; [apply onlyBits_32, onlyBits_get, Tcur|].
  split; [apply (get_Forall (fun x => 0 <= x <= 7)); [exact Tduty|lia]|].
  apply onlyBits_16, onlyBits_get, Tnoise.
Qed.

Lemma X2_witness :
  0 <= get (soundTimers (afterTick zeroMemory false reloadThenEnable)) 0 < 2 ^ 16 /\
  0 <= get (soundCurrent (afterTick zeroMemory false reloadThenEnable)) 0 < 2 ^ 32 /\
  0 <= get (dutyCycles (afterTick zeroMemory false reloadThenEnable)) 0 <= 7 /\
  0 <= get (noiseValues (afterTick zeroMemory false reloadThenEnable)) 0 < 2 ^ 16.
Proof.
  apply (X2_counters_keep_their_types AnyHeader
           (afterTick zeroMemory false reloadThenEnable) 0).
  apply (reach_runSample AnyHeader zeroMemory false reloadThenEnable).
  - apply reloadThenEnable_Reachable.
  - vm_compute. reflexivity.
Defined.

(** X3: the [uint32_t] sums of the address computations never wrap.  In
    every reachable state the loop address of a channel is exactly
    [soundSad + soundPnt * 4] and its end address exactly
    [soundSad + (soundPnt + soundLen) * 4]; both are multiples of 4, the
    loop address is between the source address and the end address, and
    the end address is at most 0x0903FFF4. *)
Theorem X3_addresses_never_wrap (H : Memory -> Z -> Prop) (s : Spu) (i : nat) :
  Reachable H s ->
  loopAddress i s = get (soundSad s) i + get (soundPnt s) i * 4 /\
  endAddress i s = get (soundSad s) i + (get (soundPnt s) i + get (soundLen s) i) * 4 /\
  loopAddress i s mod 4 = 0 /\ endAddress i s mod 4 = 0 /\
  get (soundSad s) i <= loopAddress i s <= endAddress i s /\
  endAddress i s <= 0x0903FFF4.
Proof.
  intros Hr. apply Reachable_Typed in Hr.
  destruct Hr as [Tcnt Tsad Ttmr Tpnt Tlen Tmain Tbias Ttim Tcur Tduty Tnoise].
  pose proof (onlyBits_get _ _ i Tsad) as Hsad.
  assert (Hal : get (soundSad s) i mod 4 = 0)
    by (apply (onlyBits_aligned 0x07FFFFFC); [reflexivity|exact Hsad]).
  apply onlyBits_le in Hsad; [|lia].
  pose proof (onlyBits_get _ _ i Tpnt) as Hpnt. apply onlyBits_le in Hpnt; [|lia].
  pose proof (onlyBits_get _ _ i Tlen) as Hlen. apply onlyBits_le in Hlen; [|lia].
  unfold loopAddress, endAddress.
  rewrite !u32_small by lia.
  split; [reflexivity|]. split; [reflexivity|].
  split; [rewrite Z.add_mod, Z.mod_mul, Hal by lia; reflexivity|].
  split; [rewrite Z.add_mod, Z.mod_mul, Hal by lia; reflexivity|].
  lia.
Qed.

Lemma X3_witness :
  loopAddress 3 adpcmSetup = get (soundSad adpcmSetup) 3 + get (soundPnt adpcmSetup) 3 * 4 /\
  endAddress 3 adpcmSetup
  = get (soundSad adpcmSetup) 3
    + (get (soundPnt adpcmSetup) 3 + get (soundLen adpcmSetup) 3) * 4 /\
  loopAddress 3 adpcmSetup mod 4 = 0 /\ endAddress 3 adpcmSetup mod 4 = 0 /\
  get (soundSad adpcmSetup) 3 <= loopAddress 3 adpcmSetup <= endAddress 3 adpcmSetup /\
  endAddress 3 adpcmSetup <= 0x0903FFF4.
Proof.
  apply (X3_addresses_never_wrap AnyHeader adpcmSetup 3).
  apply adpcmSetup_Reachable. exact I.
Defined.

(** ** Reading a register back *)

(** The merge of a masked write, bit by bit. *)
Lemma masked_testbit (old m value n : Z) :
  0 <= n ->
  Z.testbit (Z.lor (Z.land old (Z.lnot m)) (Z.land value m)) n
  = if Z.testbit m n then Z.testbit value n else Z.testbit old n.
Proof.
  intros Hn. rewrite Z.lor_spec, !Z.land_spec, Z.lnot_spec by assumption.
  destruct (Z.testbit m n), (Z.testbit value n), (Z.testbit old n); reflexivity.
Qed.

(** Two masked writes of the same value, one after the other, store what
    one write under the union of the masks stores. *)
Lemma masked_twice (k old a b value : Z) :
  0 <= k ->
  (Z.lor (Z.land ((Z.lor (Z.land old (Z.lnot a)) (Z.land value a)) mod 2 ^ k) (Z.lnot b))
         (Z.land value b)) mod 2 ^ k
  = (Z.lor (Z.land old (Z.lnot (Z.lor a b))) (Z.land value (Z.lor a b))) mod 2 ^ k.
Proof.
  intros Hk. apply Z.bits_inj'. intros n Hn.
  rewrite !Z.testbit_mod_pow2, !masked_testbit, Z.testbit_mod_pow2, masked_testbit,
    Z.lor_spec by assumption.
  destruct (n <? k), (Z.testbit a n), (Z.testbit b n), (Z.testbit value n),
    (Z.testbit old n); reflexivity.
Qed.

Lemma masked_twice_w (k w old m1 m2 value : Z) :
  0 <= k ->
  (Z.lor (Z.land ((Z.lor (Z.land old (Z.lnot (Z.land m1 w))) (Z.land value (Z.land m1 w)))
                    mod 2 ^ k) (Z.lnot (Z.land m2 w)))
         (Z.land value (Z.land m2 w))) mod 2 ^ k
  = (Z.lor (Z.land old (Z.lnot (Z.land (Z.lor m1 m2) w)))
           (Z.land value (Z.land (Z.lor m1 m2) w))) mod 2 ^ k.
Proof.
  intros Hk. rewrite masked_twice by assumption.
  rewrite <- Z.land_lor_distr_l. reflexivity.
Qed.

Lemma insert_twice (l : list Z) (i : nat) (f : Z -> Z) (g h : Z -> Z) :
  (forall x, g (f x) = h x) ->
  <[i := g (get (<[i := f (get l i)]> l) i)]> (<[i := f (get l i)]> l)
  = <[i := h (get l i)]> l.
Proof.
  intros Hgh. rewrite list_insert_insert_eq.
  destruct (decide (i < length l)%nat) as [Hi|Hi].
  - rewrite get_insert_eq by exact Hi. rewrite Hgh. reflexivity.
  - rewrite !list_insert_ge by lia. reflexivity.
Qed.

Lemma writeSoundCnt_store mem ch mask value s :
  writeSoundCnt mem ch mask value s
  = storeSoundCnt ch mask value
      (if reloads ch value s then reloadRegisters mem ch s else s).
Proof.
  unfold writeSoundCnt, storeSoundCnt, reloads, enabled.
  rewrite (nonzero_land_BIT value 31) by lia. reflexivity.
Qed.

Lemma storeSoundCnt_twice ch m1 m2 value s :
  storeSoundCnt ch m2 value (storeSoundCnt ch m1 value s)
  = storeSoundCnt ch (Z.lor m1 m2) value s.
Proof.
  unfold storeSoundCnt. cbv zeta. proj. unfold set_soundCnt at 1 3. proj. f_equal.
  apply (insert_twice (soundCnt s) ch
           (fun x => u32 (Z.lor (Z.land x (Z.lnot (Z.land m1 0xFF7F837F)))
                                (Z.land value (Z.land m1 0xFF7F837F))))
           (fun x => u32 (Z.lor (Z.land x (Z.lnot (Z.land m2 0xFF7F837F)))
                                (Z.land value (Z.land m2 0xFF7F837F))))
           (fun x => u32 (Z.lor (Z.land x (Z.lnot (Z.land (Z.lor m1 m2) 0xFF7F837F)))
                                (Z.land value (Z.land (Z.lor m1 m2) 0xFF7F837F))))).
  intros x. apply (masked_twice_w 32). lia.
Qed.

Lemma storeSoundCnt_get ch mask value s :
  (ch < length (soundCnt s))%nat ->
  get (soundCnt (storeSoundCnt ch mask value s)) ch
  = u32 (Z.lor (Z.land (get (soundCnt s) ch) (Z.lnot (Z.land mask 0xFF7F837F)))
               (Z.land value (Z.land mask 0xFF7F837F))).
Proof. intros H. unfold storeSoundCnt. proj. by rewrite get_insert_eq. Qed.

(** Bit [n] of the stored control word. *)
Lemma storeSoundCnt_testbit ch mask value s n :
  (ch < length (soundCnt s))%nat -> 0 <= n < 32 ->
  Z.testbit (get (soundCnt (storeSoundCnt ch mask value s)) ch) n
  = if Z.testbit mask n && Z.testbit 0xFF7F837F n then Z.testbit value n
    else Z.testbit (get (soundCnt s) ch) n.
Proof.
  intros H Hn. rewrite storeSoundCnt_get by exact H. unfold u32.
  rewrite Z.testbit_mod_pow2, masked_testbit, Z.land_spec by lia.
  destruct (Z.ltb_spec n 32); [reflexivity|lia].
Qed.

Lemma formatOf_bits (x y : Z) :
  Z.testbit x 29 = Z.testbit y 29 -> Z.testbit x 30 = Z.testbit y 30 ->
  formatOf x = formatOf y.
Proof.
  intros H29 H30. unfold formatOf. f_equal. apply Z.bits_inj'. intros n Hn.
  rewrite !Z.land_spec. change 0x60000000 with (Z.lor (2 ^ 29) (2 ^ 30)).
  rewrite Z.lor_spec, !Z.pow2_bits_eqb by lia.
  destruct (Z.eqb_spec 29 n) as [<-|]; [by rewrite H29|].
  destruct (Z.eqb_spec 30 n) as [<-|]; [by rewrite H30|].
  by rewrite !andb_false_r.
Qed.

(** What a masked write stores on top of a word that has only writable
    bits: no truncation takes place, and under the full mask the stored
    word is the writable part of the value. *)
Lemma masked_write_stored (w k old mask value : Z) :
  0 <= k -> onlyBits (Z.ones k) w -> onlyBits w old ->
  let m := Z.land mask w in
  (Z.lor (Z.land old (Z.lnot m)) (Z.land value m)) mod 2 ^ k
  = Z.lor (Z.land old (Z.lnot m)) (Z.land value m).
Proof.
  intros Hk Hw Ho m. apply Z.mod_small. apply onlyBits_ones; [exact Hk|].
  apply (onlyBits_weaken w); [exact Hw|]. apply onlyBits_masked, Ho.
Qed.

Lemma masked_write_full (w old : Z) (value : Z) :
  onlyBits w old ->
  Z.lor (Z.land old (Z.lnot w)) (Z.land value w) = Z.land value w.
Proof. intros Ho. rewrite onlyBits_clear by exact Ho. apply Z.lor_0_l. Qed.

(** X4: what a register reads back after a write.  [readSoundCnt] after
    [writeSoundCnt] on the same channel gives the old word with the masked
    writable bits replaced by those of the value, with nothing truncated,
    and on another channel the word that was there; under the full mask it
    gives the writable bits of the value, [value & 0xFF7F837F].  The same
    holds of [readMainSoundCnt] after [writeMainSoundCnt] (writable bits
    0xBF7F) and of [readSoundBias] after [writeSoundBias] (0x03FF). *)
Theorem X4_register_read_back (H : Memory -> Z -> Prop) mem (ch ch' : nat)
    (mask value : Z) (s : Spu) :
  Reachable H s -> (ch < 16)%nat -> (ch' < 16)%nat ->
  readSoundCnt ch' (writeSoundCnt mem ch mask value s)
  = (if decide (ch' = ch)
     then Z.lor (Z.land (readSoundCnt ch s) (Z.lnot (Z.land mask 0xFF7F837F)))
                (Z.land value (Z.land mask 0xFF7F837F))
     else readSoundCnt ch' s) /\
  readSoundCnt ch (writeSoundCnt mem ch 0xFFFFFFFF value s) = Z.land value 0xFF7F837F /\
  readMainSoundCnt (writeMainSoundCnt mask value s)
  = Z.lor (Z.land (readMainSoundCnt s) (Z.lnot (Z.land mask 0xBF7F)))
          (Z.land value (Z.land mask 0xBF7F)) /\
  readMainSoundCnt (writeMainSoundCnt 0xFFFF value s) = Z.land value 0xBF7F /\
  readSoundBias (writeSoundBias mask value s)
  = Z.lor (Z.land (readSoundBias s) (Z.lnot (Z.land mask 0x03FF)))
          (Z.land value (Z.land mask 0x03FF)) /\
  readSoundBias (writeSoundBias 0xFFFF value s) = Z.land value 0x03FF.
Proof.
  intros Hr Hch Hch'.
  pose proof (Reachable_WF H s Hr) as Hwf.
  apply Reachable_Typed in Hr.
  destruct Hr as [Tcnt Tsad Ttmr Tpnt Tlen Tmain Tbias Ttim Tcur Tduty Tnoise].
  pose proof (onlyBits_get _ _ ch Tcnt) as Hcnt.
  assert (Hst : forall mask',
             get (soundCnt (writeSoundCnt mem ch mask' value s)) ch
             = Z.lor (Z.land (get (soundCnt s) ch) (Z.lnot (Z.land mask' 0xFF7F837F)))
                     (Z.land value (Z.land mask' 0xFF7F837F))).
  { intros mask'. rewrite writeSoundCnt_stored by assumption.
    apply (masked_write_stored 0xFF7F837F 32); [lia|reflexivity|exact Hcnt]. }
  unfold readSoundCnt, readMainSoundCnt, readSoundBias.
  split; [|split; [|split; [|split; [|split]]]].
  - destruct (decide (ch' = ch)) as [->|Hne]; [apply Hst|].
    rewrite writeSoundCnt_store. unfold storeSoundCnt. proj.
    rewrite get_insert_ne by congruence.
    destruct (reloads ch value s); [|reflexivity].
    by destruct (reloadRegisters_spec mem ch s Hwf Hch) as (-> & _).
  - rewrite Hst. change (Z.land 0xFFFFFFFF 0xFF7F837F) with 0xFF7F837F.
    apply masked_write_full, Hcnt.
  - unfold writeMainSoundCnt. proj.
    apply (masked_write_stored 0xBF7F 16); [lia|reflexivity|exact Tmain].
  - unfold writeMainSoundCnt. proj. change (Z.land 0xFFFF 0xBF7F) with 0xBF7F.
    rewrite (masked_write_full 0xBF7F) by exact Tmain.
    apply Z.mod_small, (onlyBits_ones 16); [lia|].
    apply (onlyBits_weaken 0xBF7F); [reflexivity|apply onlyBits_land].
  - unfold writeSoundBias. proj.
    apply (masked_write_stored 0x03FF 16); [lia|reflexivity|exact Tbias].
  - unfold writeSoundBias. proj. change (Z.land 0xFFFF 0x03FF) with 0x03FF.
    rewrite (masked_write_full 0x03FF) by exact Tbias.
    apply Z.mod_small, (onlyBits_ones 16); [lia|].
    apply (onlyBits_weaken 0x03FF); [reflexivity|apply onlyBits_land].
Qed.

Lemma X4_witness :
  readSoundCnt 3 (writeSoundCnt headerMemory 3 0x7F 0x20 adpcmSetup)
  = (if decide (3%nat = 3%nat)
     then Z.lor (Z.land (readSoundCnt 3 adpcmSetup) (Z.lnot (Z.land 0x7F 0xFF7F837F)))
                (Z.land 0x20 (Z.land 0x7F 0xFF7F837F))
     else readSoundCnt 3 adpcmSetup) /\
  readSoundCnt 3 (writeSoundCnt headerMemory 3 0xFFFFFFFF 0x20 adpcmSetup)
  = Z.land 0x20 0xFF7F837F /\
  readMainSoundCnt (writeMainSoundCnt 0x7F 0x20 adpcmSetup)
  = Z.lor (Z.land (readMainSoundCnt adpcmSetup) (Z.lnot (Z.land 0x7F 0xBF7F)))
          (Z.land 0x20 (Z.land 0x7F 0xBF7F)) /\
  readMainSoundCnt (writeMainSoundCnt 0xFFFF 0x20 adpcmSetup) = Z.land 0x20 0xBF7F /\
  readSoundBias (writeSoundBias 0x7F 0x20 adpcmSetup)
  = Z.lor (Z.land (readSoundBias adpcmSetup) (Z.lnot (Z.land 0x7F 0x03FF)))
          (Z.land 0x20 (Z.land 0x7F 0x03FF)) /\
  readSoundBias (writeSoundBias 0xFFFF 0x20 adpcmSetup) = Z.land 0x20 0x03FF.
Proof.
  apply (X4_register_read_back AnyHeader headerMemory 3 3 0x7F 0x20 adpcmSetup); [|lia|lia].
  apply adpcmSetup_Reachable. exact I.
Defined.

(** ** Registers written in parts *)

(** X5: a register written in two parts.  For the source address, the
    reload period, the loop start, the length, the main control word and
    the bias, writing the same value under a mask [m1] and then under a
    mask [m2] leaves the unit in the state one write under [m1 | m2]
    leaves it in. *)
Theorem X5_split_writes_compose (ch : nat) (m1 m2 value : Z) (s : Spu) :
  wf s = true -> (ch < 16)%nat ->
  writeSoundSad ch m2 value (writeSoundSad ch m1 value s)
  = writeSoundSad ch (Z.lor m1 m2) value s /\
  writeSoundTmr ch m2 value (writeSoundTmr ch m1 value s)
  = writeSoundTmr ch (Z.lor m1 m2) value s /\
  writeSoundPnt ch m2 value (writeSoundPnt ch m1 value s)
  = writeSoundPnt ch (Z.lor m1 m2) value s /\
  writeSoundLen ch m2 value (writeSoundLen ch m1 value s)
  = writeSoundLen ch (Z.lor m1 m2) value s /\
  writeMainSoundCnt m2 value (writeMainSoundCnt m1 value s)
  = writeMainSoundCnt (Z.lor m1 m2) value s /\
  writeSoundBias m2 value (writeSoundBias m1 value s)
  = writeSoundBias (Z.lor m1 m2) value s.
Proof.
  intros _ _.
  split; [|split; [|split; [|split; [|split]]]].
  - unfold writeSoundSad. cbv zeta. proj. unfold set_soundSad at 1 3. proj. f_equal.
    apply (insert_twice (soundSad s) ch
             (fun x => u32 (Z.lor (Z.land x (Z.lnot (Z.land m1 0x07FFFFFC))) (Z.land value (Z.land m1 0x07FFFFFC))))
             (fun x => u32 (Z.lor (Z.land x (Z.lnot (Z.land m2 0x07FFFFFC))) (Z.land value (Z.land m2 0x07FFFFFC))))
             (fun x => u32 (Z.lor (Z.land x (Z.lnot (Z.land (Z.lor m1 m2) 0x07FFFFFC))) (Z.land value (Z.land (Z.lor m1 m2) 0x07FFFFFC))))).
    intros x. apply (masked_twice_w 32). lia.
  - unfold writeSoundTmr. proj. unfold set_soundTmr at 1 3. proj. f_equal.
    apply (insert_twice (soundTmr s) ch
             (fun x => u16 (Z.lor (Z.land x (Z.lnot m1)) (Z.land value m1)))
             (fun x => u16 (Z.lor (Z.land x (Z.lnot m2)) (Z.land value m2)))
             (fun x => u16 (Z.lor (Z.land x (Z.lnot (Z.lor m1 m2))) (Z.land value (Z.lor m1 m2))))).
    intros x. apply (masked_twice 16). lia.
  - unfold writeSoundPnt. proj. unfold set_soundPnt at 1 3. proj. f_equal.
    apply (insert_twice (soundPnt s) ch
             (fun x => u16 (Z.lor (Z.land x (Z.lnot m1)) (Z.land value m1)))
             (fun x => u16 (Z.lor (Z.land x (Z.lnot m2)) (Z.land value m2)))
             (fun x => u16 (Z.lor (Z.land x (Z.lnot (Z.lor m1 m2))) (Z.land value (Z.lor m1 m2))))).
    intros x. apply (masked_twice 16). lia.
  - unfold writeSoundLen. cbv zeta. proj. unfold set_soundLen at 1 3. proj. f_equal.
    apply (insert_twice (soundLen s) ch
             (fun x => u32 (Z.lor (Z.land x (Z.lnot (Z.land m1 0x003FFFFF))) (Z.land value (Z.land m1 0x003FFFFF))))
             (fun x => u32 (Z.lor (Z.land x (Z.lnot (Z.land m2 0x003FFFFF))) (Z.land value (Z.land m2 0x003FFFFF))))
             (fun x => u32 (Z.lor (Z.land x (Z.lnot (Z.land (Z.lor m1 m2) 0x003FFFFF))) (Z.land value (Z.land (Z.lor m1 m2) 0x003FFFFF))))).
    intros x. apply (masked_twice_w 32). lia.
  - unfold writeMainSoundCnt. cbv zeta. proj. unfold set_mainSoundCnt at 1 3. proj. f_equal.
    apply (masked_twice_w 16). lia.
  - unfold writeSoundBias. cbv zeta. proj. unfold set_soundBias at 1 3. proj. f_equal.
    apply (masked_twice_w 16). lia.
Qed.

Lemma X5_witness :
  writeSoundSad 3 0xFF00 0x12345678 (writeSoundSad 3 0xFF 0x12345678 adpcmSetup)
  = writeSoundSad 3 (Z.lor 0xFF 0xFF00) 0x12345678 adpcmSetup /\
  writeSoundTmr 3 0xFF00 0x12345678 (writeSoundTmr 3 0xFF 0x12345678 adpcmSetup)
  = writeSoundTmr 3 (Z.lor 0xFF 0xFF00) 0x12345678 adpcmSetup /\
  writeSoundPnt 3 0xFF00 0x12345678 (writeSoundPnt 3 0xFF 0x12345678 adpcmSetup)
  = writeSoundPnt 3 (Z.lor 0xFF 0xFF00) 0x12345678 adpcmSetup /\
  writeSoundLen 3 0xFF00 0x12345678 (writeSoundLen 3 0xFF 0x12345678 adpcmSetup)
  = writeSoundLen 3 (Z.lor 0xFF 0xFF00) 0x12345678 adpcmSetup /\
  writeMainSoundCnt 0xFF00 0x12345678 (writeMainSoundCnt 0xFF 0x12345678 adpcmSetup)
  = writeMainSoundCnt (Z.lor 0xFF 0xFF00) 0x12345678 adpcmSetup /\
  writeSoundBias 0xFF00 0x12345678 (writeSoundBias 0xFF 0x12345678 adpcmSetup)
  = writeSoundBias (Z.lor 0xFF 0xFF00) 0x12345678 adpcmSetup.
Proof.
  apply (X5_split_writes_compose 3 0xFF 0xFF00 0x12345678 adpcmSetup).
  - vm_compute. reflexivity.
  - lia.
Defined.

(** Two states with the same members are the same state. *)
Lemma Spu_ext (s s' : Spu) :
  heap s = heap s' -> bufferIn s = bufferIn s' -> bufferOut s = bufferOut s' ->
  bufferSize s = bufferSize s' -> bufferPointer s = bufferPointer s' -> ready s = ready s' ->
  adpcmValue s = adpcmValue s' -> adpcmLoopValue s = adpcmLoopValue s' ->
  adpcmIndex s = adpcmIndex s' -> adpcmLoopIndex s = adpcmLoopIndex s' ->
  adpcmToggle s = adpcmToggle s' -> dutyCycles s = dutyCycles s' ->
  noiseValues s = noiseValues s' -> soundCurrent s = soundCurrent s' ->
  soundTimers s = soundTimers s' -> soundCnt s = soundCnt s' -> soundSad s = soundSad s' ->
  soundTmr s = soundTmr s' -> soundPnt s = soundPnt s' -> soundLen s = soundLen s' ->
  mainSoundCnt s = mainSoundCnt s' -> soundBias s = soundBias s' -> s = s'.
Proof.
  destruct s, s'. cbn. intros. subst. reflexivity.
Qed.

Ltac spu_ext := apply Spu_ext; proj; try reflexivity.

Lemma reloadRegisters_format mem ch s :
  reloadRegisters mem ch s
  = let s2 := set_soundTimers (<[ch := get (soundTmr s) ch]> (soundTimers s))
                (set_soundCurrent (<[ch := get (soundSad s) ch]> (soundCurrent s)) s) in
    if formatOf (get (soundCnt s) ch) =? 2 then readAdpcmHeader mem ch s2
    else if formatOf (get (soundCnt s) ch) =? 3 then resetPsg ch s2
    else s2.
Proof. reflexivity. Qed.

Lemma reloadRegisters_store mem ch mask value s :
  formatOf (get (soundCnt (storeSoundCnt ch mask value s)) ch) = formatOf (get (soundCnt s) ch) ->
  reloadRegisters mem ch (storeSoundCnt ch mask value s)
  = storeSoundCnt ch mask value (reloadRegisters mem ch s).
Proof.
  intros Hf. rewrite !reloadRegisters_format. cbv zeta. rewrite Hf.
  destruct (_ =? 2).
  - unfold readAdpcmHeader, storeSoundCnt. cbv zeta. proj. split_ifs; spu_ext.
  - destruct (_ =? 3); [|unfold storeSoundCnt; spu_ext].
    unfold resetPsg, storeSoundCnt. cbv zeta. proj. split_ifs; spu_ext.
Qed.

Ltac insert_simpl :=
  repeat first
    [ rewrite list_insert_insert_eq
    | rewrite get_insert_eq by (rewrite ?length_insert; lia)
    | rewrite getb_insert_eq by (rewrite ?length_insert; lia) ].

(** The header read without its conditional: the index stored is the
    smaller of the header's index field and 88. *)
Lemma readAdpcmHeader_closed mem ch s :
  (ch < length (adpcmIndex s))%nat ->
  readAdpcmHeader mem ch s
  = let header := read_u32 mem (get (soundSad s) ch) in
    set_soundCurrent (<[ch := u32 (get (soundCurrent s) ch + 4)]> (soundCurrent s))
      (set_adpcmToggle (<[ch := false]> (adpcmToggle s))
         (set_adpcmIndex
            (<[ch := Z.min (Z.shiftr (Z.land header 0x007F0000) 16) 88]> (adpcmIndex s))
            (set_adpcmValue (<[ch := i16 header]> (adpcmValue s)) s))).
Proof.
  intros Hch. unfold readAdpcmHeader. cbv zeta. proj.
  rewrite get_insert_eq by exact Hch.
  destruct (Z.gtb_spec (Z.shiftr (Z.land (read_u32 mem (get (soundSad s) ch)) 0x007F0000) 16) 88).
  - rewrite Z.min_r by lia. spu_ext. apply list_insert_insert_eq.
  - rewrite Z.min_l by lia. spu_ext.
Qed.

Lemma reloadRegisters_twice mem ch s :
  WF s -> (ch < 16)%nat ->
  reloadRegisters mem ch (reloadRegisters mem ch s) = reloadRegisters mem ch s.
Proof.
  intros Hwf Hch.
  destruct (reloadRegisters_spec mem ch s Hwf Hch) as (Hc & _).
  rewrite (reloadRegisters_format mem ch (reloadRegisters mem ch s)). cbv zeta.
  rewrite Hc. rewrite (reloadRegisters_format mem ch s). cbv zeta.
  destruct Hwf.
  destruct (_ =? 2) eqn:E2.
  - rewrite (readAdpcmHeader_closed mem ch (set_soundTimers _ (set_soundCurrent _ s)))
      by (proj; lia).
    cbv zeta. proj.
    rewrite readAdpcmHeader_closed by (proj; rewrite ?length_insert; lia).
    cbv zeta. proj. spu_ext; insert_simpl; reflexivity.
  - destruct (_ =? 3) eqn:E3.
    + unfold resetPsg. split_ifs; proj; spu_ext; insert_simpl; reflexivity.
    + proj. spu_ext; insert_simpl; reflexivity.
Qed.

Lemma storeSoundCnt_WF ch mask value s : WF s -> WF (storeSoundCnt ch mask value s).
Proof. intros []. unfold storeSoundCnt. split; proj; rewrite ?length_insert; done. Qed.

Lemma reloadRegisters_WF mem ch s : WF s -> WF (reloadRegisters mem ch s).
Proof. intros H. eapply WF_Frame; [exact H|apply reloadRegisters_Frame]. Qed.

Lemma reloads_store ch mask value s :
  WF s -> (ch < 16)%nat ->
  reloads ch value (storeSoundCnt ch mask value s)
  = reloads ch value s && negb (Z.testbit mask 31).
Proof.
  intros Hwf Hch. unfold reloads. rewrite !enabled_testbit.
  rewrite storeSoundCnt_testbit by (destruct Hwf; lia).
  change (Z.testbit 0xFF7F837F 31) with true. rewrite andb_true_r.
  destruct (Z.testbit mask 31), (Z.testbit value 31), (Z.testbit (get (soundCnt s) ch) 31);
    reflexivity.
Qed.

Lemma reloads_reload mem ch value s :
  WF s -> (ch < 16)%nat ->
  reloads ch value (reloadRegisters mem ch s) = reloads ch value s.
Proof.
  intros Hwf Hch. unfold reloads.
  destruct (reloadRegisters_spec mem ch s Hwf Hch) as (-> & _). reflexivity.
Qed.

Lemma land_format_bits (m : Z) :
  Z.land m 0x60000000 = 0 -> Z.testbit m 29 = false /\ Z.testbit m 30 = false.
Proof.
  intros H.
  assert (H29 : Z.testbit (Z.land m 0x60000000) 29 = false) by (rewrite H; reflexivity).
  assert (H30 : Z.testbit (Z.land m 0x60000000) 30 = false) by (rewrite H; reflexivity).
  rewrite Z.land_spec in H29, H30.
  change (Z.testbit 0x60000000 29) with true in H29.
  change (Z.testbit 0x60000000 30) with true in H30.
  rewrite andb_true_r in H29, H30. split; assumption.
Qed.

(** X6: a control word written in two parts.  Two writes of the same value
    to a channel's control register, under [m1] and then under [m2], leave
    the unit in the state of one write under [m1 | m2], as long as the
    first mask covers the enable bit or leaves the two format bits alone.
    (Otherwise the first write may change the format while the channel
    stays disabled, and the reload of the second write is carried out for
    the new format.) *)
Theorem X6_control_word_split_writes mem (ch : nat) (m1 m2 value : Z) (s : Spu) :
  wf s = true -> (ch < 16)%nat ->
  Z.testbit m1 31 = true \/ Z.land m1 0x60000000 = 0 ->
  writeSoundCnt mem ch m2 value (writeSoundCnt mem ch m1 value s)
  = writeSoundCnt mem ch (Z.lor m1 m2) value s.
Proof.
  intros Hwf Hch Hm. apply wf_WF in Hwf.
  rewrite (writeSoundCnt_store mem ch m1), (writeSoundCnt_store mem ch (Z.lor m1 m2)).
  set (s1 := if reloads ch value s then reloadRegisters mem ch s else s).
  assert (W1 : WF s1) by (subst s1; destruct (reloads _ _ _); [by apply reloadRegisters_WF|done]).
  assert (R1 : reloads ch value s1 = reloads ch value s)
    by (subst s1; destruct (reloads _ _ _) eqn:E; [by rewrite reloads_reload|done]).
  rewrite writeSoundCnt_store, reloads_store, R1 by assumption.
  destruct (reloads ch value s) eqn:E; cbn [andb]; [|apply storeSoundCnt_twice].
  destruct (Z.testbit m1 31) eqn:E31; cbn [negb]; [apply storeSoundCnt_twice|].
  destruct Hm as [Hm|Hm]; [discriminate|].
  apply land_format_bits in Hm as [H29 H30].
  rewrite reloadRegisters_store.
  - subst s1. rewrite reloadRegisters_twice by assumption. apply storeSoundCnt_twice.
  - apply formatOf_bits; rewrite storeSoundCnt_testbit by (destruct W1; lia).
    + by rewrite H29.
    + by rewrite H30.
Qed.

Lemma X6_witness :
  writeSoundCnt headerMemory 3 0xFFFFFF00 0xC000007F
    (writeSoundCnt headerMemory 3 0xFF 0xC000007F adpcmSetup)
  = writeSoundCnt headerMemory 3 (Z.lor 0xFF 0xFFFFFF00) 0xC000007F adpcmSetup.
Proof.
  apply (X6_control_word_split_writes headerMemory 3 0xFF 0xFFFFFF00 0xC000007F adpcmSetup).
  - vm_compute. reflexivity.
  - lia.
  - right. reflexivity.
Defined.

(** X7: a write to the control register of a channel that is already
    enabled, or a write of a value with bit 31 clear, restarts nothing: it
    is the masked store alone.  The current address, the timer, the ADPCM
    predictor, index and nibble selector, the duty counters and the noise
    generators are what they were, and so is every other channel's control
    word. *)
Theorem X7_no_restart_without_rising_enable mem (ch : nat) (mask value : Z) (s : Spu) :
  wf s = true -> (ch < 16)%nat ->
  enabled (get (soundCnt s) ch) = true \/ Z.testbit value 31 = false ->
  let s' := writeSoundCnt mem ch mask value s in
  s' = storeSoundCnt ch mask value s /\
  soundCurrent s' = soundCurrent s /\ soundTimers s' = soundTimers s /\
  adpcmValue s' = adpcmValue s /\ adpcmIndex s' = adpcmIndex s /\
  adpcmToggle s' = adpcmToggle s /\
  dutyCycles s' = dutyCycles s /\ noiseValues s' = noiseValues s /\
  (forall j, j <> ch -> get (soundCnt s') j = get (soundCnt s) j).
Proof.
  intros _ _ Hc s'. subst s'. rewrite writeSoundCnt_store.
  replace (reloads ch value s) with false.
  - unfold storeSoundCnt. proj. repeat (split; [reflexivity|]).
    intros j Hj. by apply get_insert_ne.
  - unfold reloads. destruct Hc as [-> | ->]; [reflexivity|by rewrite andb_false_r].
Qed.

Lemma X7_witness :
  let s' := writeSoundCnt headerMemory 3 0x7F 0x20 adpcmRunning in
  s' = storeSoundCnt 3 0x7F 0x20 adpcmRunning /\
  soundCurrent s' = soundCurrent adpcmRunning /\ soundTimers s' = soundTimers adpcmRunning /\
  adpcmValue s' = adpcmValue adpcmRunning /\ adpcmIndex s' = adpcmIndex adpcmRunning /\
  adpcmToggle s' = adpcmToggle adpcmRunning /\
  dutyCycles s' = dutyCycles adpcmRunning /\ noiseValues s' = noiseValues adpcmRunning /\
  (forall j, j <> 3%nat -> get (soundCnt s') j = get (soundCnt adpcmRunning) j).
Proof.
  apply (X7_no_restart_without_rising_enable headerMemory 3 0x7F 0x20 adpcmRunning).
  - vm_compute. reflexivity.
  - lia.
  - left. vm_compute. reflexivity.
Defined.

(** ** The timer and the read pointer in closed form *)

Lemma reloadTimer_spec i s :
  WF s -> (i < 16)%nat ->
  get (soundTimers (reloadTimer i s)) i = u16 (get (soundTimers s) i + get (soundTmr s) i) /\
  soundTmr (reloadTimer i s) = soundTmr s /\ soundCurrent (reloadTimer i s) = soundCurrent s /\
  soundCnt (reloadTimer i s) = soundCnt s /\ endAddress i (reloadTimer i s) = endAddress i s.
Proof.
  intros Hwf Hi. unfold reloadTimer, endAddress. proj.
  rewrite get_insert_eq by (rewrite (wf_soundTimers s Hwf); done). done.
Qed.

(** The reload loop entered with the accumulator at [r]: it ends, and
    leaves the accumulator at [tmr + r mod (65536 - tmr)]. *)
Lemma reloadLoop_timer (fuel : nat) mem i format s :
  WF s -> (i < 16)%nat ->
  0 <= get (soundTimers s) i < 65536 ->
  (Z.to_nat (get (soundTimers s) i) < fuel)%nat ->
  exists s', reloadLoop fuel mem i format s = Some s' /\
    get (soundTimers s') i
    = get (soundTmr s) i + get (soundTimers s) i mod (65536 - get (soundTmr s) i).
Proof.
  revert s. induction fuel as [|fuel IH]; intros s Hwf Hi Ht Hfuel; [lia|].
  cbn [reloadLoop].
  pose proof (reloadStep_Frame mem i format s) as Hfr.
  pose proof (reloadStep_soundTimers mem i format s) as Htm.
  assert (Hov : (reloadStep mem i format s).2
                = (get (soundTimers (reloadTimer i s)) i <? get (soundTmr (reloadTimer i s)) i))
    by reflexivity.
  destruct (reloadTimer_spec i s Hwf Hi) as (T1 & R1 & _).
  rewrite T1, R1 in Hov.
  destruct (reloadStep mem i format s) as [s1 ov]. cbn [fst snd] in *.
  assert (Ht1 : get (soundTimers s1) i = u16 (get (soundTimers s) i + get (soundTmr s) i))
    by (rewrite Htm; exact T1).
  pose proof (WF_tmr s i Hwf) as Htmr.
  set (t := get (soundTimers s) i) in *. set (tmr := get (soundTmr s) i) in *.
  unfold u16 in *. change (2 ^ 16) with 65536 in *.
  destruct (Z_lt_le_dec (t + tmr) 65536) as [Hlt|Hge].
  - rewrite Z.mod_small in Hov, Ht1 by lia.
    destruct (Z.ltb_spec (t + tmr) tmr); [lia|]. subst ov.
    exists s1. split; [reflexivity|]. rewrite Ht1, Z.mod_small by lia. lia.
  - assert (Hm : (t + tmr) mod 65536 = t - (65536 - tmr)).
    { replace (t + tmr) with ((t + tmr - 65536) + 1 * 65536) by lia.
      rewrite Z.mod_add by lia. rewrite Z.mod_small by lia. lia. }
    rewrite Hm in Hov, Ht1.
    destruct (Z.ltb_spec (t - (65536 - tmr)) tmr); [|lia]. subst ov.
    destruct (IH s1) as (s' & E & Hs'); [eapply WF_Frame; eauto|done|lia|lia|].
    exists s'. split; [exact E|]. rewrite Hs', Ht1, (fr_soundTmr _ _ _ Hfr). fold tmr.
    f_equal. replace (t - (65536 - tmr)) with (t + (-1) * (65536 - tmr)) by lia.
    apply Z.mod_add. lia.
Qed.

Lemma tickTimer_spec i s :
  WF s -> (i < 16)%nat ->
  get (soundTimers (tickTimer i s)) i = u16 (get (soundTimers s) i + 512) /\
  soundTmr (tickTimer i s) = soundTmr s /\ soundCurrent (tickTimer i s) = soundCurrent s /\
  soundCnt (tickTimer i s) = soundCnt s /\ endAddress i (tickTimer i s) = endAddress i s.
Proof.
  intros Hwf Hi. unfold tickTimer, endAddress. proj.
  rewrite get_insert_eq by (rewrite (wf_soundTimers s Hwf); done). done.
Qed.

Lemma u16_wrap (x : Z) : 65536 <= x < 131072 -> u16 x = x - 65536.
Proof.
  intros H. unfold u16. change (2 ^ 16) with 65536.
  replace x with ((x - 65536) + 1 * 65536) at 1 by lia.
  rewrite Z.mod_add by lia. apply Z.mod_small. lia.
Qed.

(** The timer handling of one channel in closed form. *)
Lemma runTimer_timer mem i format s :
  WF s -> (i < 16)%nat -> 0 <= get (soundTimers s) i < 65536 ->
  exists s', runTimer mem i format s = Some s' /\
    get (soundTimers s') i = timerAfter (get (soundTimers s) i) (get (soundTmr s) i).
Proof.
  intros Hwf Hi Ht. unfold runTimer, timerAfter. cbv zeta.
  destruct (tickTimer_spec i s Hwf Hi) as (T1 & R1 & _).
  assert (W1 : WF (tickTimer i s)) by (eapply WF_Frame; [exact Hwf|apply tickTimer_Frame]).
  rewrite T1.
  destruct (Z.ltb_spec (get (soundTimers s) i + 512) 65536) as [Hlt|Hge].
  - rewrite u16_small by lia.
    destruct (Z.ltb_spec (get (soundTimers s) i + 512) 512); [lia|].
    exists (tickTimer i s). split; [reflexivity|]. rewrite T1. apply u16_small. lia.
  - rewrite u16_wrap by lia.
    destruct (Z.ltb_spec (get (soundTimers s) i + 512 - 65536) 512); [|lia].
    destruct (reloadLoop_timer (reloadFuel i (tickTimer i s)) mem i format (tickTimer i s))
      as (s' & E & Hs'); [done|done|rewrite T1, u16_wrap by lia; lia|unfold reloadFuel; lia|].
    exists s'. split; [exact E|].
    rewrite Hs', T1, R1, u16_wrap by lia. reflexivity.
Qed.

(** One pass of the reload loop on a PCM channel that does not arrive at
    the end address. *)
Lemma reloadStep_pcm mem i format s :
  WF s -> (i < 16)%nat -> format = 0 \/ format = 1 ->
  u32 (get (soundCurrent s) i + (1 + format)) <> endAddress i s ->
  get (soundCurrent (reloadStep mem i format s).1) i
  = u32 (get (soundCurrent s) i + (1 + format)) /\
  soundCnt (reloadStep mem i format s).1 = soundCnt s /\
  endAddress i (reloadStep mem i format s).1 = endAddress i s.
Proof.
  intros Hwf Hi Hf Hend. unfold reloadStep. cbv zeta. cbn [fst].
  destruct (reloadTimer_spec i s Hwf Hi) as (_ & _ & C1 & N1 & A1).
  assert (L1 : length (soundCurrent (reloadTimer i s)) = 16%nat)
    by (rewrite C1; apply (wf_soundCurrent s Hwf)).
  set (s1 := reloadTimer i s) in *. clearbody s1.
  unfold advance.
  replace ((format =? 0) || (format =? 1)) with true by (destruct Hf; subst; reflexivity).
  set (s2 := set_soundCurrent _ s1).
  assert (C2 : get (soundCurrent s2) i = u32 (get (soundCurrent s) i + (1 + format))).
  { subst s2. proj. rewrite get_insert_eq by lia. by rewrite C1. }
  assert (A2 : endAddress i s2 = endAddress i s) by (subst s2; exact A1).
  assert (N2 : soundCnt s2 = soundCnt s) by (subst s2; exact N1).
  clearbody s2.
  unfold endOfData. rewrite C2, A2.
  apply Z.eqb_neq in Hend. rewrite Hend, andb_false_r. done.
Qed.

Lemma u32_add_l (a b : Z) : u32 (u32 a + b) = u32 (a + b).
Proof. unfold u32. apply Zplus_mod_idemp_l. Qed.

(** The reload loop on a PCM channel, entered with the accumulator at [r]:
    it makes [r / (65536 - tmr) + 1] passes, each moving the current
    address by the size of a sample, as long as none of them arrives at
    the end address. *)
Lemma reloadLoop_pcm (fuel : nat) mem i format s :
  WF s -> (i < 16)%nat -> format = 0 \/ format = 1 ->
  0 <= get (soundTimers s) i < 65536 ->
  (Z.to_nat (get (soundTimers s) i) < fuel)%nat ->
  (forall j, 1 <= j <= get (soundTimers s) i / (65536 - get (soundTmr s) i) + 1 ->
             u32 (get (soundCurrent s) i + j * (1 + format)) <> endAddress i s) ->
  exists s', reloadLoop fuel mem i format s = Some s' /\
    get (soundCurrent s') i
    = u32 (get (soundCurrent s) i
           + (get (soundTimers s) i / (65536 - get (soundTmr s) i) + 1) * (1 + format)) /\
    soundCnt s' = soundCnt s.
Proof.
  revert s. induction fuel as [|fuel IH]; intros s Hwf Hi Hf Ht Hfuel Hend; [lia|].
  cbn [reloadLoop].
  pose proof (reloadStep_Frame mem i format s) as Hfr.
  pose proof (reloadStep_soundTimers mem i format s) as Htm.
  assert (Hov : (reloadStep mem i format s).2
                = (get (soundTimers (reloadTimer i s)) i <? get (soundTmr (reloadTimer i s)) i))
    by reflexivity.
  destruct (reloadTimer_spec i s Hwf Hi) as (T1 & R1 & _).
  rewrite T1, R1 in Hov.
  pose proof (WF_tmr s i Hwf) as Htmr.
  assert (Hq : 0 <= get (soundTimers s) i / (65536 - get (soundTmr s) i))
    by (apply Z.div_pos; lia).
  destruct (reloadStep_pcm mem i format s Hwf Hi Hf) as (C1 & N1 & A1).
  { specialize (Hend 1). rewrite Z.mul_1_l in Hend. apply Hend. lia. }
  destruct (reloadStep mem i format s) as [s1 ov]. cbn [fst snd] in *.
  assert (Ht1 : get (soundTimers s1) i = u16 (get (soundTimers s) i + get (soundTmr s) i))
    by (rewrite Htm; exact T1).
  set (t := get (soundTimers s) i) in *. set (tmr := get (soundTmr s) i) in *.
  destruct (Z_lt_le_dec (t + tmr) 65536) as [Hlt|Hge].
  - rewrite u16_small in Hov by lia.
    destruct (Z.ltb_spec (t + tmr) tmr); [lia|]. subst ov.
    exists s1. split; [reflexivity|]. split; [|exact N1].
    rewrite C1, Z.div_small by lia. f_equal. lia.
  - rewrite u16_wrap in Hov, Ht1 by lia.
    destruct (Z.ltb_spec (t + tmr - 65536) tmr); [|lia]. subst ov.
    assert (Hd : (t + tmr - 65536) / (65536 - tmr) = t / (65536 - tmr) - 1).
    { replace (t + tmr - 65536) with (t + (-1) * (65536 - tmr)) by lia.
      rewrite Z.div_add by lia. lia. }
    destruct (IH s1) as (s' & E & Cs' & Ns');
      [eapply WF_Frame; eauto|done|done|lia|lia| |].
    { intros j Hj. rewrite Ht1, (fr_soundTmr _ _ _ Hfr) in Hj. fold tmr in Hj.
      rewrite Hd in Hj. rewrite C1, A1, u32_add_l.
      replace (get (soundCurrent s) i + (1 + format) + j * (1 + format))
        with (get (soundCurrent s) i + (j + 1) * (1 + format)) by lia.
      apply Hend. lia. }
    exists s'. split; [exact E|]. split; [|by rewrite Ns'].
    rewrite Cs', Ht1, (fr_soundTmr _ _ _ Hfr), C1, u32_add_l. fold tmr. rewrite Hd.
    f_equal. lia.
Qed.

(** The timer handling of one PCM channel in closed form: where the
    current address is afterwards. *)
Lemma runTimer_pcm mem i format s :
  WF s -> (i < 16)%nat -> format = 0 \/ format = 1 ->
  0 <= get (soundTimers s) i < 65536 ->
  0 <= get (soundCurrent s) i < 4294967296 ->
  (forall j, 1 <= j <= reloadPasses (get (soundTimers s) i) (get (soundTmr s) i) ->
             u32 (get (soundCurrent s) i + j * (1 + format)) <> endAddress i s) ->
  exists s', runTimer mem i format s = Some s' /\
    get (soundCurrent s') i
    = u32 (get (soundCurrent s) i
           + reloadPasses (get (soundTimers s) i) (get (soundTmr s) i) * (1 + format)) /\
    soundCnt s' = soundCnt s.
Proof.
  intros Hwf Hi Hf Ht Hc. unfold runTimer, reloadPasses. cbv zeta.
  destruct (tickTimer_spec i s Hwf Hi) as (T1 & R1 & C1 & N1 & A1).
  assert (W1 : WF (tickTimer i s)) by (eapply WF_Frame; [exact Hwf|apply tickTimer_Frame]).
  rewrite T1.
  destruct (Z.ltb_spec (get (soundTimers s) i + 512) 65536) as [Hlt|Hge]; intros Hend.
  - rewrite u16_small by lia.
    destruct (Z.ltb_spec (get (soundTimers s) i + 512) 512); [lia|].
    exists (tickTimer i s). split; [reflexivity|]. rewrite C1, N1. split; [|done].
    rewrite Z.mul_0_l, Z.add_0_r. symmetry. apply u32_small, Hc.
  - rewrite u16_wrap by lia.
    destruct (Z.ltb_spec (get (soundTimers s) i + 512 - 65536) 512); [|lia].
    destruct (reloadLoop_pcm (reloadFuel i (tickTimer i s)) mem i format (tickTimer i s))
      as (s' & E & Cs' & Ns');
      [done|done|done|rewrite T1, u16_wrap by lia; lia|unfold reloadFuel; lia| |].
    { intros j. rewrite T1, R1, C1, A1, u16_wrap by lia. apply Hend. }
    exists s'. split; [exact E|].
    rewrite Cs', Ns', T1, R1, C1, N1, u16_wrap by lia. done.
Qed.

Lemma endAddress_Keep (i : nat) (s s' : Spu) : Keep i s s' -> endAddress i s' = endAddress i s.
Proof.
  intros K. unfold endAddress.
  by rewrite (kp_soundSad _ _ _ K), (kp_soundPnt _ _ _ K), (kp_soundLen _ _ _ K).
Qed.

Lemma reloadPasses_range (t tmr : Z) :
  0 <= t < 65536 -> 0 <= tmr < 65536 -> 0 <= reloadPasses t tmr <= 512.
Proof.
  intros Ht Htmr. unfold reloadPasses.
  destruct (Z.ltb_spec (t + 512) 65536); [lia|].
  assert (H0 : 0 <= (t + 512 - 65536) / (65536 - tmr)) by (apply Z.div_pos; lia).
  assert (H1 : (t + 512 - 65536) / (65536 - tmr) <= 511).
  { apply Z.div_le_upper_bound; [lia|]. nia. }
  lia.
Qed.

(** X8: the timer of an enabled channel after one tick, in closed form.
    From an accumulator [t] and a reload period [tmr] the tick leaves
    [t + 512] if that is below 65536, and otherwise
    [tmr + (t + 512 - 65536) mod (65536 - tmr)]: after an overflow the
    accumulator is again between the reload period and 65535. *)
Theorem X8_timer_after_tick (H : Memory -> Z -> Prop) mem limitFps (i : nat) (s s' : Spu) :
  Reachable H s -> (i < 16)%nat ->
  enabled (get (soundCnt s) i) = true ->
  outcomeState (runSample mem limitFps s) = Some s' ->
  get (soundTimers s') i = timerAfter (get (soundTimers s) i) (get (soundTmr s) i) /\
  (65536 <= get (soundTimers s) i + 512 ->
   get (soundTmr s) i <= get (soundTimers s') i < 65536).
Proof.
  intros Hr Hi Hen Hrun.
  pose proof (Reachable_WF H s Hr) as Hwf.
  pose proof (Reachable_Typed H s Hr) as Hty.
  pose proof (proj1 (onlyBits_16 _) (onlyBits_get _ _ i (ty_soundTimers s Hty))) as Ht.
  pose proof (WF_tmr s i Hwf) as Htmr.
  destruct (runSample_channel mem limitFps i s s' Hi Hwf Hrun)
    as (st1 & st2 & s1 & K1 & W1 & Hpass & K2 & Hss).
  rewrite runChannel_enabled_unfold in Hpass by (by rewrite (kp_soundCnt _ _ _ K1)).
  destruct (runTimer_timer mem i (formatOf (get (soundCnt st1.1) i)) st1.1 W1 Hi)
    as (s2 & E & T2); [by rewrite (kp_soundTimers _ _ _ K1)|].
  rewrite E in Hpass. cbn [mbind option_bind] in Hpass. apply (inj Some) in Hpass.
  subst st2. cbn [fst] in K2.
  assert (Hs' : get (soundTimers s') i
                = timerAfter (get (soundTimers s) i) (get (soundTmr s) i)).
  { rewrite (ss_soundTimers _ _ Hss), (kp_soundTimers _ _ _ K2), T2,
      (kp_soundTimers _ _ _ K1), (kp_soundTmr _ _ _ K1). reflexivity. }
  split; [exact Hs'|]. intros Hge. rewrite Hs'. unfold timerAfter.
  destruct (Z.ltb_spec (get (soundTimers s) i + 512) 65536); [lia|].
  pose proof (Z.mod_pos_bound (get (soundTimers s) i + 512 - 65536)
                (65536 - get (soundTmr s) i)). lia.
Qed.

Lemma X8_witness :
  get (soundTimers (afterTick zeroMemory false reloadThenEnable)) 0
  = timerAfter (get (soundTimers reloadThenEnable) 0) (get (soundTmr reloadThenEnable) 0) /\
  (65536 <= get (soundTimers reloadThenEnable) 0 + 512 ->
   get (soundTmr reloadThenEnable) 0
   <= get (soundTimers (afterTick zeroMemory false reloadThenEnable)) 0 < 65536).
Proof.
  apply (X8_timer_after_tick AnyHeader zeroMemory false 0 reloadThenEnable).
  - apply reloadThenEnable_Reachable.
  - lia.
  - vm_compute. reflexivity.
  - vm_compute. reflexivity.
Defined.

(** X9: the read pointer of an enabled PCM channel after one tick, in
    closed form.  The tick makes [reloadPasses t tmr] passes through the
    reload loop (none without an overflow, at most 512), and if none of
    them arrives at the end address the current address has moved by that
    many samples of 1 byte (PCM8) or 2 bytes (PCM16), computed in
    [uint32_t]; the control word is unchanged. *)
Theorem X9_pcm_address_after_tick (H : Memory -> Z -> Prop) mem limitFps (i : nat)
    (s s' : Spu) :
  Reachable H s -> (i < 16)%nat ->
  enabled (get (soundCnt s) i) = true ->
  formatOf (get (soundCnt s) i) = 0 \/ formatOf (get (soundCnt s) i) = 1 ->
  (forall j, 1 <= j <= reloadPasses (get (soundTimers s) i) (get (soundTmr s) i) ->
             u32 (get (soundCurrent s) i + j * (1 + formatOf (get (soundCnt s) i)))
             <> endAddress i s) ->
  outcomeState (runSample mem limitFps s) = Some s' ->
  get (soundCurrent s') i
  = u32 (get (soundCurrent s) i
         + reloadPasses (get (soundTimers s) i) (get (soundTmr s) i)
           * (1 + formatOf (get (soundCnt s) i))) /\
  get (soundCnt s') i = get (soundCnt s) i /\
  0 <= reloadPasses (get (soundTimers s) i) (get (soundTmr s) i) <= 512.
Proof.
  intros Hr Hi Hen Hf Hend Hrun.
  pose proof (Reachable_WF H s Hr) as Hwf.
  pose proof (Reachable_Typed H s Hr) as Hty.
  pose proof (proj1 (onlyBits_16 _) (onlyBits_get _ _ i (ty_soundTimers s Hty))) as Ht.
  pose proof (proj1 (onlyBits_32 _) (onlyBits_get _ _ i (ty_soundCurrent s Hty))) as Hc.
  destruct (runSample_channel mem limitFps i s s' Hi Hwf Hrun)
    as (st1 & st2 & s1 & K1 & W1 & Hpass & K2 & Hss).
  rewrite runChannel_enabled_unfold in Hpass by (by rewrite (kp_soundCnt _ _ _ K1)).
  destruct (runTimer_pcm mem i (formatOf (get (soundCnt st1.1) i)) st1.1 W1 Hi)
    as (s2 & E & C2 & N2).
  { by rewrite (kp_soundCnt _ _ _ K1). }
  { by rewrite (kp_soundTimers _ _ _ K1). }
  { by rewrite (kp_soundCurrent _ _ _ K1). }
  { rewrite (kp_soundTimers _ _ _ K1), (kp_soundTmr _ _ _ K1), (kp_soundCurrent _ _ _ K1),
      (kp_soundCnt _ _ _ K1), (endAddress_Keep _ _ _ K1). exact Hend. }
  rewrite E in Hpass. cbn [mbind option_bind] in Hpass. apply (inj Some) in Hpass.
  subst st2. cbn [fst] in K2.
  split; [|split].
  - rewrite (ss_soundCurrent _ _ Hss), (kp_soundCurrent _ _ _ K2), C2,
      (kp_soundTimers _ _ _ K1), (kp_soundTmr _ _ _ K1), (kp_soundCurrent _ _ _ K1),
      (kp_soundCnt _ _ _ K1). reflexivity.
  - rewrite (ss_soundCnt _ _ Hss), (kp_soundCnt _ _ _ K2), N2. apply (kp_soundCnt _ _ _ K1).
  - apply reloadPasses_range; [exact Ht|apply (WF_tmr s i Hwf)].
Qed.

Lemma X9_witness :
  get (soundCurrent (afterTick zeroMemory false reloadThenEnable)) 0
  = u32 (get (soundCurrent reloadThenEnable) 0
         + reloadPasses (get (soundTimers reloadThenEnable) 0)
             (get (soundTmr reloadThenEnable) 0)
           * (1 + formatOf (get (soundCnt reloadThenEnable) 0))) /\
  get (soundCnt (afterTick zeroMemory false reloadThenEnable)) 0
  = get (soundCnt reloadThenEnable) 0 /\
  0 <= reloadPasses (get (soundTimers reloadThenEnable) 0)
         (get (soundTmr reloadThenEnable) 0) <= 512.
Proof.
  apply (X9_pcm_address_after_tick AnyHeader zeroMemory false 0 reloadThenEnable).
  - apply reloadThenEnable_Reachable.
  - lia.
  - vm_compute. reflexivity.
  - left. vm_compute. reflexivity.
  - intros j Hj.
    change (reloadPasses (get (soundTimers reloadThenEnable) 0)
              (get (soundTmr reloadThenEnable) 0)) with 512 in Hj.
    change (get (soundCurrent reloadThenEnable) 0) with 0.
    change (formatOf (get (soundCnt reloadThenEnable) 0)) with 0.
    change (endAddress 0 reloadThenEnable) with 0.
    rewrite u32_small by lia. lia.
  - vm_compute. reflexivity.
Defined.

(** The end-of-data handling of a channel in loop mode, or of a
    pulse/noise channel, leaves every control word alone. *)
Lemma endOfData_keeps_cnt i format s :
  format = 3 \/ repeatOf (get (soundCnt s) i) = 1 ->
  soundCnt (endOfData i format s) = soundCnt s.
Proof.
  intros Hc. unfold endOfData.
  destruct (negb (format =? 3)) eqn:E3; cbn [andb]; [|reflexivity].
  destruct (_ =? endAddress i s); [|reflexivity].
  destruct Hc as [->|Hc]; [discriminate|].
  unfold repeatOf in Hc. rewrite Hc. change (1 =? 1) with true. cbv iota zeta.
  unfold restoreLoop. split_ifs; reflexivity.
Qed.

Lemma reloadStep_keeps_cnt mem i format s :
  format = 3 \/ repeatOf (get (soundCnt s) i) = 1 ->
  soundCnt (reloadStep mem i format s).1 = soundCnt s.
Proof.
  intros Hc. unfold reloadStep. cbv zeta. cbn [fst].
  rewrite endOfData_keeps_cnt; rewrite advance_soundCnt; [reflexivity|exact Hc].
Qed.

Lemma reloadLoop_keeps_cnt fuel mem i format s s' :
  format = 3 \/ repeatOf (get (soundCnt s) i) = 1 ->
  reloadLoop fuel mem i format s = Some s' -> soundCnt s' = soundCnt s.
Proof.
  revert s. induction fuel as [|fuel IH]; intros s Hc; cbn [reloadLoop]; [discriminate|].
  pose proof (reloadStep_keeps_cnt mem i format s Hc) as H1.
  destruct (reloadStep mem i format s) as [s1 ov]. cbn [fst] in H1.
  destruct ov.
  - intros E. rewrite (IH s1); [exact H1| |exact E]. by rewrite H1.
  - intros E. apply (inj Some) in E. subst. exact H1.
Qed.

Lemma runTimer_keeps_cnt mem i format s s' :
  format = 3 \/ repeatOf (get (soundCnt s) i) = 1 ->
  runTimer mem i format s = Some s' -> soundCnt s' = soundCnt s.
Proof.
  intros Hc. unfold runTimer. cbv zeta.
  destruct (_ <? 512).
  - intros E. apply reloadLoop_keeps_cnt in E; [exact E|exact Hc].
  - intros E. apply (inj Some) in E. by subst.
Qed.

(** X10: a tick never switches off a channel in loop mode (repeat mode 1),
    nor a pulse or noise channel (format 3): its control word is the same
    after the tick, with the enable bit still set. *)
Theorem X10_looping_and_psg_channels_keep_playing mem limitFps (i : nat) (s s' : Spu) :
  wf s = true -> (i < 16)%nat ->
  enabled (get (soundCnt s) i) = true ->
  formatOf (get (soundCnt s) i) = 3 \/ repeatOf (get (soundCnt s) i) = 1 ->
  outcomeState (runSample mem limitFps s) = Some s' ->
  get (soundCnt s') i = get (soundCnt s) i /\ enabled (get (soundCnt s') i) = true.
Proof.
  intros Hwf Hi Hen Hc Hrun. apply wf_WF in Hwf.
  destruct (runSample_channel mem limitFps i s s' Hi Hwf Hrun)
    as (st1 & st2 & s1 & K1 & W1 & Hpass & K2 & Hss).
  rewrite runChannel_enabled_unfold in Hpass by (by rewrite (kp_soundCnt _ _ _ K1)).
  destruct (runTimer mem i _ st1.1) as [s2|] eqn:E; [|discriminate].
  cbn [mbind option_bind] in Hpass. apply (inj Some) in Hpass.
  subst st2. cbn [fst] in K2.
  apply runTimer_keeps_cnt in E; [|by rewrite (kp_soundCnt _ _ _ K1)].
  assert (Hs' : get (soundCnt s') i = get (soundCnt s) i).
  { rewrite (ss_soundCnt _ _ Hss), (kp_soundCnt _ _ _ K2), E. apply (kp_soundCnt _ _ _ K1). }
  split; [exact Hs'|]. by rewrite Hs'.
Qed.

Lemma X10_witness :
  get (soundCnt (afterTick zeroMemory false loopStart)) 0 = get (soundCnt loopStart) 0 /\
  enabled (get (soundCnt (afterTick zeroMemory false loopStart)) 0) = true.
Proof.
  apply (X10_looping_and_psg_channels_keep_playing zeroMemory false 0 loopStart).
  - vm_compute. reflexivity.
  - lia.
  - vm_compute. reflexivity.
  - right. vm_compute. reflexivity.
  - vm_compute. reflexivity.
Defined.

(** ** The pulse and noise generators *)

Lemma advance_psg mem i s : advance mem i 3 s = psgStep i s.
Proof. reflexivity. Qed.

Lemma psgStep_pulse i s :
  (8 <= i <= 13)%nat ->
  psgStep i s
  = set_dutyCycles
      (<[(i - 8)%nat := Z.rem (get (dutyCycles s) (i - 8)%nat + 1) 8]> (dutyCycles s)) s.
Proof.
  intros Hi. unfold psgStep.
  destruct (Nat.leb_spec 8 i); [|lia]. destruct (Nat.leb_spec i 13); [|lia]. reflexivity.
Qed.

(** A reload pass of a channel in format 3: the timer reload and the step
    of the generator; the end-of-data test does not apply. *)
Lemma reloadPass_psg mem i s :
  formatOf (get (soundCnt s) i) = 3 -> reloadPass mem i s = psgStep i (reloadTimer i s).
Proof. intros Hf. unfold reloadPass. rewrite Hf. reflexivity. Qed.

Lemma u16_add_l (a b : Z) : u16 (u16 a + b) = u16 (a + b).
Proof. unfold u16. apply Zplus_mod_idemp_l. Qed.

(** [k] reload passes of a pulse channel: the duty counter has made [k]
    steps round its cycle and the timer has been reloaded [k] times. *)
Lemma reloadPass_pulse_iter (k : nat) mem i s :
  WF s -> (8 <= i <= 13)%nat -> formatOf (get (soundCnt s) i) = 3 ->
  0 <= get (dutyCycles s) (i - 8)%nat <= 7 -> 0 <= get (soundTimers s) i < 65536 ->
  Nat.iter k (reloadPass mem i) s
  = set_dutyCycles
      (<[(i - 8)%nat := (get (dutyCycles s) (i - 8)%nat + Z.of_nat k) mod 8]> (dutyCycles s))
      (set_soundTimers
         (<[i := u16 (get (soundTimers s) i + Z.of_nat k * get (soundTmr s) i)]>
            (soundTimers s)) s).
Proof.
  intros Hwf Hi Hf Hc Ht. destruct Hwf. induction k as [|k IH].
  - change (Nat.iter 0 (reloadPass mem i) s) with s.
    rewrite Z.add_0_r, Z.mul_0_l, Z.add_0_r, Z.mod_small, u16_small by lia.
    spu_ext.
    + symmetry. apply list_insert_id. unfold get in *.
      destruct (dutyCycles s !! (i - 8)%nat) eqn:E; [reflexivity|].
      apply lookup_ge_None in E. lia.
    + symmetry. apply list_insert_id. unfold get in *.
      destruct (soundTimers s !! i) eqn:E; [reflexivity|].
      apply lookup_ge_None in E. lia.
  - rewrite Nat.iter_succ, IH. clear IH.
    rewrite reloadPass_psg by (proj; exact Hf).
    rewrite psgStep_pulse by exact Hi. unfold reloadTimer. proj.
    rewrite !get_insert_eq by lia. spu_ext.
    + rewrite list_insert_insert_eq. f_equal.
      pose proof (Z.mod_pos_bound (get (dutyCycles s) (i - 8)%nat + Z.of_nat k) 8).
      rewrite Z.rem_mod_nonneg by lia. rewrite Zplus_mod_idemp_l. f_equal. lia.
    + rewrite list_insert_insert_eq. f_equal. rewrite u16_add_l. f_equal. lia.
Qed.

(** X11: the pulse wave of channels 8 to 13.  In a reachable state a
    reload pass of a pulse channel in format 3 moves its duty counter one
    step round the cycle of 8 and adds the reload period to its timer, and
    changes nothing else: after [k] passes a counter that was [c] is
    [(c + k) mod 8] and the timer has grown by [k] reload periods modulo
    2^16.  The data of the channel is -0x7FFF while the counter is below
    7 minus the duty field (bits 24-26 of the control word) and 0x7FFF
    otherwise.  Eight passes bring the duty counter back: the state after
    them differs from the one before in the channel's timer only. *)
Theorem X11_pulse_wave (H : Memory -> Z -> Prop) mem (i : nat) (k : nat) (s : Spu) :
  Reachable H s -> (8 <= i <= 13)%nat ->
  formatOf (get (soundCnt s) i) = 3 ->
  let c := get (dutyCycles s) (i - 8)%nat in
  let duty := 7 - Z.shiftr (Z.land (get (soundCnt s) i) 0x07000000) 24 in
  let sk := Nat.iter k (reloadPass mem i) s in
  get (dutyCycles sk) (i - 8)%nat = (c + Z.of_nat k) mod 8 /\
  readData mem i 3 sk = (if (c + Z.of_nat k) mod 8 <? duty then - 0x7FFF else 0x7FFF) /\
  sk = set_dutyCycles (<[(i - 8)%nat := (c + Z.of_nat k) mod 8]> (dutyCycles s))
         (set_soundTimers
            (<[i := u16 (get (soundTimers s) i + Z.of_nat k * get (soundTmr s) i)]>
               (soundTimers s)) s) /\
  Nat.iter 8 (reloadPass mem i) s
  = set_soundTimers
      (<[i := u16 (get (soundTimers s) i + 8 * get (soundTmr s) i)]> (soundTimers s)) s.
Proof.
  intros Hr Hi Hf c duty sk.
  pose proof (Reachable_WF H s Hr) as Hwf.
  pose proof (Reachable_Typed H s Hr) as Hty.
  assert (Hc : 0 <= c <= 7)
    by (apply (get_Forall (fun x => 0 <= x <= 7)); [apply Hty|lia]).
  pose proof (proj1 (onlyBits_16 _) (onlyBits_get _ _ i (ty_soundTimers s Hty))) as Ht.
  assert (Hk : forall n, Nat.iter n (reloadPass mem i) s
               = set_dutyCycles (<[(i - 8)%nat := (c + Z.of_nat n) mod 8]> (dutyCycles s))
                   (set_soundTimers
                      (<[i := u16 (get (soundTimers s) i + Z.of_nat n * get (soundTmr s) i)]>
                         (soundTimers s)) s))
    by (intros n; by apply reloadPass_pulse_iter).
  assert (Hd : get (dutyCycles sk) (i - 8)%nat = (c + Z.of_nat k) mod 8).
  { subst sk. rewrite Hk. proj. apply get_insert_eq. destruct Hwf. lia. }
  split; [exact Hd|]. split; [|split; [apply Hk|]].
  - unfold readData. change (3 =? 0) with false. change (3 =? 1) with false.
    change (3 =? 2) with false. change (3 =? 3) with true. cbv iota.
    destruct (Nat.leb_spec 8 i); [|lia]. destruct (Nat.leb_spec i 13); [|lia].
    cbn [andb]. cbv zeta. rewrite Hd. subst sk. rewrite Hk. proj. reflexivity.
  - rewrite Hk. change (Z.of_nat 8) with 8.
    replace (c + 8) with (c + 1 * 8) by lia. rewrite Z.mod_add, Z.mod_small by lia.
    spu_ext. apply list_insert_id. subst c. unfold get. destruct Hwf.
    destruct (dutyCycles s !! (i - 8)%nat) eqn:E; [reflexivity|].
    apply lookup_ge_None in E. lia.
Qed.

Lemma X11_witness :
  let c := get (dutyCycles pulseStart) (8 - 8)%nat in
  let duty := 7 - Z.shiftr (Z.land (get (soundCnt pulseStart) 8) 0x07000000) 24 in
  let sk := Nat.iter 11 (reloadPass zeroMemory 8) pulseStart in
  get (dutyCycles sk) (8 - 8)%nat = (c + Z.of_nat 11) mod 8 /\
  readData zeroMemory 8 3 sk
  = (if (c + Z.of_nat 11) mod 8 <? duty then - 0x7FFF else 0x7FFF) /\
  sk = set_dutyCycles (<[(8 - 8)%nat := (c + Z.of_nat 11) mod 8]> (dutyCycles pulseStart))
         (set_soundTimers
            (<[8%nat := u16 (get (soundTimers pulseStart) 8
                             + Z.of_nat 11 * get (soundTmr pulseStart) 8)]>
               (soundTimers pulseStart)) pulseStart) /\
  Nat.iter 8 (reloadPass zeroMemory 8) pulseStart
  = set_soundTimers
      (<[8%nat := u16 (get (soundTimers pulseStart) 8 + 8 * get (soundTmr pulseStart) 8)]>
         (soundTimers pulseStart)) pulseStart.
Proof.
  apply (X11_pulse_wave AnyHeader zeroMemory 8 11 pulseStart).
  - apply pulseStart_Reachable.
  - lia.
  - vm_compute. reflexivity.
Defined.

Lemma psgStep_noise i s : (14 <= i)%nat -> psgStep i s = noiseStep (i - 14) s.
Proof.
  intros Hi. unfold psgStep.
  destruct (Nat.leb_spec 8 i); [|lia]. destruct (Nat.leb_spec i 13); [lia|].
  destruct (Nat.leb_spec 14 i); [|lia]. reflexivity.
Qed.

Lemma testbit_above (a k n : Z) : 0 <= k <= n -> 0 <= a < 2 ^ k -> Z.testbit a n = false.
Proof.
  intros Hk Ha. rewrite <- (Z.mod_small a (2 ^ k)) by lia. apply Z.mod_pow2_bits_high. lia.
Qed.

Lemma low15 (x : Z) : Z.land x 0x7FFF = x mod 2 ^ 15.
Proof. apply (Z.land_ones x 15). lia. Qed.

Lemma clear_bit15 (x : Z) : u16 (Z.land x (Z.lnot (BIT 15))) = Z.land x 0x7FFF.
Proof.
  unfold u16. apply Z.bits_inj'. intros n Hn.
  rewrite Z.testbit_mod_pow2, !Z.land_spec, Z.lnot_spec by lia.
  unfold BIT. rewrite Z.shiftl_1_l, Z.pow2_bits_eqb by lia.
  change 0x7FFF with (Z.ones 15). rewrite Z.testbit_ones_nonneg by lia.
  destruct (Z.ltb_spec n 16), (Z.ltb_spec n 15), (Z.eqb_spec 15 n); try lia;
    cbn [andb negb]; rewrite ?andb_true_r, ?andb_false_r; reflexivity.
Qed.

(** One step of the noise generator on its own channel entry. *)
Lemma noiseStep_spec j s :
  (j < length (noiseValues s))%nat -> 0 <= get (noiseValues s) j < 65536 ->
  let y := Z.land (get (noiseValues s) j) 0x7FFF in
  get (noiseValues (noiseStep j s)) j
  = (if Z.testbit y 0 then Z.lor 0x8000 (lfsr15 y) else lfsr15 y) /\
  0 <= lfsr15 y < 32768.
Proof.
  intros Hj Hx y.
  assert (Hy : 0 <= y < 32768) by (subst y; rewrite low15; apply Z.mod_pos_bound; lia).
  assert (Hs : 0 <= Z.shiftr y 1 < 16384).
  { rewrite Z.shiftr_div_pow2 by lia. change (2 ^ 1) with 2. split.
    - apply Z.div_pos; lia.
    - apply Z.div_lt_upper_bound; lia. }
  assert (Hl : 0 <= lfsr15 y < 32768).
  { unfold lfsr15. destruct (Z.testbit y 0); [|lia].
    assert (Hb : onlyBits (Z.ones 15) (Z.lxor (Z.shiftr y 1) 0x6000)).
    { unfold onlyBits. apply Z.bits_inj'. intros n Hn.
      rewrite Z.land_spec, Z.lxor_spec, Z.testbit_ones_nonneg by lia.
      destruct (Z.ltb_spec n 15); [by rewrite andb_true_r|].
      rewrite andb_false_r.
      rewrite (testbit_above (Z.shiftr y 1) 15 n), (testbit_above 0x6000 15 n) by lia.
      reflexivity. }
    apply (onlyBits_ones 15) in Hb; lia. }
  split; [|exact Hl].
  unfold noiseStep. cbv zeta. proj. rewrite !get_insert_eq by exact Hj.
  rewrite clear_bit15. fold y.
  rewrite (nonzero_land_BIT y 0) by lia.
  unfold lfsr15 in *. destruct (Z.testbit y 0); proj.
  - rewrite get_insert_eq by (rewrite length_insert; exact Hj).
    unfold BIT. change (Z.shiftl 1 15) with 0x8000.
    apply u16_small.
    assert (Hd : Z.land 0x8000 (Z.lxor (Z.shiftr y 1) 0x6000) = 0).
    { apply Z.bits_inj'. intros n Hn. rewrite Z.land_spec, Z.bits_0.
      change 0x8000 with (2 ^ 15). rewrite Z.pow2_bits_eqb by lia.
      destruct (Z.eqb_spec 15 n) as [<-|]; [|reflexivity]. cbn [andb].
      apply (testbit_above _ 15); lia. }
    rewrite <- (Z.add_nocarry_lor _ _ Hd). lia.
  - rewrite get_insert_eq by (rewrite length_insert; exact Hj). reflexivity.
Qed.

Lemma lfsr15_range (y : Z) : 0 <= y < 32768 -> 0 <= lfsr15 y < 32768.
Proof.
  intros Hy.
  assert (Hs : 0 <= Z.shiftr y 1 < 16384).
  { rewrite Z.shiftr_div_pow2 by lia. change (2 ^ 1) with 2. split.
    - apply Z.div_pos; lia.
    - apply Z.div_lt_upper_bound; lia. }
  unfold lfsr15. destruct (Z.testbit y 0); [|lia].
  apply (onlyBits_ones 15); [lia|].
  unfold onlyBits. apply Z.bits_inj'. intros n Hn.
  rewrite Z.land_spec, Z.lxor_spec, Z.testbit_ones_nonneg by lia.
  destruct (Z.ltb_spec n 15); [by rewrite andb_true_r|].
  rewrite andb_false_r.
  rewrite (testbit_above (Z.shiftr y 1) 15 n), (testbit_above 0x6000 15 n) by lia.
  reflexivity.
Qed.

(** The shift register never falls into the all-zero state. *)
Lemma lfsr15_nonzero (y : Z) : 0 <= y < 32768 -> y <> 0 -> lfsr15 y <> 0.
Proof.
  intros Hy Hne. unfold lfsr15. destruct (Z.testbit y 0) eqn:E0.
  - intros H0.
    assert (H14 : Z.testbit (Z.lxor (Z.shiftr y 1) 0x6000) 14 = false)
      by (rewrite H0; apply Z.bits_0).
    rewrite Z.lxor_spec, Z.shiftr_spec in H14 by lia.
    rewrite (testbit_above y 15 (14 + 1)) in H14 by lia. discriminate.
  - rewrite Z.shiftr_div_pow2 by lia. change (2 ^ 1) with 2.
    rewrite Z.bit0_odd in E0.
    rewrite (Zodd_even_bool y) in E0. apply negb_false_iff in E0.
    apply Zeven_bool_iff in E0. destruct (Zeven_ex y E0) as [m ->].
    rewrite Z.mul_comm, Z.div_mul by lia. lia.
Qed.

Lemma land_low15 (l : Z) : 0 <= l < 32768 -> Z.land l 0x7FFF = l.
Proof. intros H. rewrite low15. apply Z.mod_small. lia. Qed.

Lemma lor_bit15 (l : Z) :
  0 <= l < 32768 ->
  Z.land (Z.lor 0x8000 l) 0x7FFF = l /\ Z.testbit (Z.lor 0x8000 l) 15 = true /\
  Z.land (Z.lor 0x8000 l) (BIT 15) = 0x8000.
Proof.
  intros H. split; [|split].
  - rewrite Z.land_lor_distr_l. change (Z.land 0x8000 0x7FFF) with 0.
    rewrite Z.lor_0_l. by apply land_low15.
  - rewrite Z.lor_spec. reflexivity.
  - rewrite Z.land_lor_distr_l. unfold BIT. change (Z.shiftl 1 15) with 0x8000.
    change (Z.land 0x8000 0x8000) with 0x8000.
    replace (Z.land l 0x8000) with 0; [reflexivity|].
    symmetry. apply Z.bits_inj'. intros n Hn. rewrite Z.land_spec, Z.bits_0.
    change 0x8000 with (2 ^ 15). rewrite Z.pow2_bits_eqb by lia.
    destruct (Z.eqb_spec 15 n) as [<-|]; [|apply andb_false_r].
    rewrite (testbit_above l 15 15) by lia. reflexivity.
Qed.

(** X12: one step of the noise generator of channels 14 and 15.  On the 15
    low bits of the generator a reload pass is the shift register
    [lfsr15]: a shift right by one, with 0x6000 XORed in when the bit
    shifted out was set.  Bit 15 of the stored value is that carry bit,
    and the data of the channel is -0x7FFF when it is set and 0x7FFF
    otherwise.  A generator that is not 0 does not become 0. *)
Theorem X12_noise_generator_step (H : Memory -> Z -> Prop) mem (i : nat) (s : Spu) :
  Reachable H s -> (14 <= i < 16)%nat ->
  let y := Z.land (get (noiseValues s) (i - 14)%nat) 0x7FFF in
  let s1 := advance mem i 3 s in
  Z.land (get (noiseValues s1) (i - 14)%nat) 0x7FFF = lfsr15 y /\
  Z.testbit (get (noiseValues s1) (i - 14)%nat) 15 = Z.testbit y 0 /\
  readData mem i 3 s1 = (if Z.testbit y 0 then - 0x7FFF else 0x7FFF) /\
  (y <> 0 -> Z.land (get (noiseValues s1) (i - 14)%nat) 0x7FFF <> 0).
Proof.
  intros Hr Hi y s1.
  pose proof (Reachable_WF H s Hr) as Hwf.
  pose proof (Reachable_Typed H s Hr) as Hty.
  pose proof (proj1 (onlyBits_16 _) (onlyBits_get _ _ (i - 14)%nat (ty_noiseValues s Hty)))
    as Hx.
  assert (Hy : 0 <= y < 32768) by (subst y; rewrite low15; apply Z.mod_pos_bound; lia).
  destruct (noiseStep_spec (i - 14)%nat s) as [Hv Hl];
    [rewrite (wf_noiseValues s Hwf); lia|exact Hx|]. fold y in Hv, Hl.
  assert (Es : s1 = noiseStep (i - 14)%nat s)
    by (subst s1; rewrite advance_psg; apply psgStep_noise; lia).
  destruct (lor_bit15 (lfsr15 y) Hl) as (L1 & L2 & L3).
  assert (Hlow : Z.land (get (noiseValues s1) (i - 14)%nat) 0x7FFF = lfsr15 y).
  { rewrite Es, Hv. destruct (Z.testbit y 0); [exact L1|by apply land_low15]. }
  split; [exact Hlow|]. split; [|split].
  - rewrite Es, Hv. destruct (Z.testbit y 0); [exact L2|].
    apply (testbit_above _ 15); lia.
  - unfold readData. change (3 =? 0) with false. change (3 =? 1) with false.
    change (3 =? 2) with false. change (3 =? 3) with true. cbv iota.
    destruct (Nat.leb_spec 8 i); [|lia]. destruct (Nat.leb_spec i 13); [lia|].
    destruct (Nat.leb_spec 14 i); [|lia]. cbn [andb].
    rewrite (nonzero_land_BIT _ 15) by lia. rewrite Es, Hv.
    destruct (Z.testbit y 0); [by rewrite L2|].
    by rewrite (testbit_above (lfsr15 y) 15 15) by lia.
  - intros Hne. rewrite Hlow. by apply lfsr15_nonzero.
Qed.

Lemma X12_witness :
  let y := Z.land (get (noiseValues noiseStart) (14 - 14)%nat) 0x7FFF in
  let s1 := advance zeroMemory 14 3 noiseStart in
  Z.land (get (noiseValues s1) (14 - 14)%nat) 0x7FFF = lfsr15 y /\
  Z.testbit (get (noiseValues s1) (14 - 14)%nat) 15 = Z.testbit y 0 /\
  readData zeroMemory 14 3 s1 = (if Z.testbit y 0 then - 0x7FFF else 0x7FFF) /\
  (y <> 0 -> Z.land (get (noiseValues s1) (14 - 14)%nat) 0x7FFF <> 0).
Proof.
  apply (X12_noise_generator_step AnyHeader zeroMemory 14 noiseStart).
  - apply noiseStart_Reachable.
  - lia.
Defined.

Lemma returnsWithin_false (n : nat) (y0 y : Z) :
  returnsWithin n y0 y = false ->
  forall k, (0 < k <= n)%nat -> Nat.iter k lfsr15 y <> y0.
Proof.
  revert y. induction n as [|n IH]; intros y Hr k Hk; [lia|].
  cbn [returnsWithin] in Hr. apply orb_false_iff in Hr as [H1 H2].
  destruct k as [|k]; [lia|]. rewrite Nat.iter_succ_r.
  destruct k as [|k].
  - cbn. by apply Z.eqb_neq.
  - apply IH; [exact H2|lia].
Qed.

Lemma lfsr15_period :
  returnsWithin (Z.to_nat 32766) 0x7FFF 0x7FFF = false /\
  Nat.iter (Z.to_nat 32767) lfsr15 0x7FFF = 0x7FFF.
Proof. split; vm_compute; reflexivity. Qed.

Lemma advance_WF mem i format s : WF s -> WF (advance mem i format s).
Proof. intros H. eapply WF_Frame; [exact H|apply advance_Frame]. Qed.

Lemma advance_noise_low15 mem i s :
  WF s -> Typed s -> (14 <= i < 16)%nat ->
  Z.land (get (noiseValues (advance mem i 3 s)) (i - 14)%nat) 0x7FFF
  = lfsr15 (Z.land (get (noiseValues s) (i - 14)%nat) 0x7FFF).
Proof.
  intros Hwf Hty Hi.
  pose proof (proj1 (onlyBits_16 _) (onlyBits_get _ _ (i - 14)%nat (ty_noiseValues s Hty)))
    as Hx.
  destruct (noiseStep_spec (i - 14)%nat s) as [Hv Hl];
    [rewrite (wf_noiseValues s Hwf); lia|exact Hx|].
  rewrite advance_psg, psgStep_noise, Hv by lia.
  destruct (Z.testbit _ 0); [apply lor_bit15, Hl|apply land_low15, Hl].
Qed.

(** [k] steps of a noise channel's generator, on the 15 bits of the
    shift register. *)
Lemma advance_noise_iter (k : nat) mem i s :
  WF s -> Typed s -> (14 <= i < 16)%nat ->
  let sk := Nat.iter k (advance mem i 3) s in
  WF sk /\ Typed sk /\
  Z.land (get (noiseValues sk) (i - 14)%nat) 0x7FFF
  = Nat.iter k lfsr15 (Z.land (get (noiseValues s) (i - 14)%nat) 0x7FFF).
Proof.
  intros Hwf Hty Hi. cbv zeta. induction k as [|k (W & T & IH)]; [done|].
  rewrite !Nat.iter_succ. split; [by apply advance_WF|]. split; [by apply advance_Typed|].
  rewrite advance_noise_low15 by assumption. by rewrite IH.
Qed.

(** X13: the noise generator has the maximal period.  Started from 0x7FFF,
    the value the enabling write loads, the 15 low bits of the generator
    are 0x7FFF again after exactly 32767 reload passes, and after no
    smaller positive number of passes. *)
Theorem X13_noise_generator_period (H : Memory -> Z -> Prop) mem (i : nat) (s : Spu) :
  Reachable H s -> (14 <= i < 16)%nat ->
  Z.land (get (noiseValues s) (i - 14)%nat) 0x7FFF = 0x7FFF ->
  (forall k : nat,
     (0 < k < Z.to_nat 32767)%nat ->
     Z.land (get (noiseValues (Nat.iter k (advance mem i 3) s)) (i - 14)%nat) 0x7FFF
     <> 0x7FFF) /\
  Z.land (get (noiseValues (Nat.iter (Z.to_nat 32767) (advance mem i 3) s)) (i - 14)%nat)
    0x7FFF = 0x7FFF.
Proof.
  intros Hr Hi Hx.
  pose proof (Reachable_WF H s Hr) as Hwf.
  pose proof (Reachable_Typed H s Hr) as Hty.
  destruct lfsr15_period as [P1 P2].
  split.
  - intros k Hk.
    destruct (advance_noise_iter k mem i s Hwf Hty Hi) as (_ & _ & ->). rewrite Hx.
    apply (returnsWithin_false _ _ _ P1). lia.
  - destruct (advance_noise_iter (Z.to_nat 32767) mem i s Hwf Hty Hi) as (_ & _ & ->).
    rewrite Hx. exact P2.
Qed.

Lemma X13_witness :
  (forall k : nat,
     (0 < k < Z.to_nat 32767)%nat ->
     Z.land (get (noiseValues (Nat.iter k (advance zeroMemory 14 3) noiseStart)) (14 - 14)%nat)
       0x7FFF <> 0x7FFF) /\
  Z.land (get (noiseValues (Nat.iter (Z.to_nat 32767) (advance zeroMemory 14 3) noiseStart))
            (14 - 14)%nat) 0x7FFF = 0x7FFF.
Proof.
  apply (X13_noise_generator_period AnyHeader zeroMemory 14 noiseStart).
  - apply noiseStart_Reachable.
  - lia.
  - vm_compute. reflexivity.
Defined.

(** ** The volume stages: exact factors and the width of the mixer *)

Lemma land_ones_range (x k : Z) : 0 <= k -> 0 <= Z.land x (Z.ones k) < 2 ^ k.
Proof. intros Hk. rewrite Z.land_ones by exact Hk. apply Z.mod_pos_bound. lia. Qed.

Lemma mulField_range cnt : 0 <= mulField cnt <= 127.
Proof.
  pose proof (land_ones_range cnt 7) as H. unfold mulField.
  change (Z.ones 7) with 127 in H. change (2 ^ 7) with 128 in H. lia.
Qed.

Lemma masterField_range cnt : 0 <= masterField cnt <= 127.
Proof. apply mulField_range. Qed.

Lemma panField_range cnt : 0 <= panField cnt <= 127.
Proof.
  pose proof (land_ones_range (Z.shiftr cnt 16) 7) as H.
  unfold panField. change 0x007F0000 with (Z.shiftl (Z.ones 7) 16).
  rewrite Z.shiftr_land, Z.shiftr_shiftl_l by lia.
  change (16 - 16) with 0. rewrite Z.shiftl_0_r. change (2 ^ 7) with 128 in H. lia.
Qed.

Lemma divField_range cnt : 0 <= divField cnt <= 3.
Proof.
  pose proof (land_ones_range (Z.shiftr cnt 8) 2) as H.
  unfold divField. change 0x00000300 with (Z.shiftl (Z.ones 2) 8).
  rewrite Z.shiftr_land, Z.shiftr_shiftl_l by lia.
  change (8 - 8) with 0. rewrite Z.shiftl_0_r. change (2 ^ 2) with 4 in H. lia.
Qed.

Lemma factorOf_range f : 0 <= f <= 127 -> 0 <= factorOf f <= 128.
Proof. unfold factorOf. destruct (Z.eqb_spec f 127); lia. Qed.

Lemma dividerOf_range f : 0 <= f <= 3 -> 0 <= dividerOf f <= 4.
Proof. unfold dividerOf. destruct (Z.eqb_spec f 3); lia. Qed.

Lemma scale_exact (x f : Z) : Z.quot (Z.shiftl x 7 * f) 128 = x * f.
Proof.
  rewrite Z.shiftl_mul_pow2 by lia. change (2 ^ 7) with 128.
  replace (x * 128 * f) with (x * f * 128) by lia. apply Z.quot_mul. lia.
Qed.

Lemma divStage_exact cnt x : divStage cnt x = x * 2 ^ (4 - dividerOf (divField cnt)).
Proof.
  unfold divStage. cbv zeta. fold (divField cnt). fold (dividerOf (divField cnt)).
  pose proof (dividerOf_range _ (divField_range cnt)).
  apply Z.shiftl_mul_pow2. lia.
Qed.

Lemma mulStage_exact cnt x : mulStage cnt x = x * factorOf (mulField cnt).
Proof.
  unfold mulStage. cbv zeta. fold (mulField cnt). fold (factorOf (mulField cnt)).
  apply scale_exact.
Qed.

Lemma panStage_exact cnt x :
  panStage cnt x
  = (x * (128 - factorOf (panField cnt)) / 1024, x * factorOf (panField cnt) / 1024).
Proof.
  unfold panStage. cbv zeta. fold (panField cnt). fold (factorOf (panField cnt)).
  rewrite !scale_exact, !Z.shiftr_div_pow2 by lia. reflexivity.
Qed.

Lemma masterStage_exact mainCnt x : masterStage mainCnt x = x * factorOf (masterField mainCnt).
Proof.
  unfold masterStage. cbv zeta. fold (masterField mainCnt).
  fold (factorOf (masterField mainCnt)).
  rewrite Z.shiftl_mul_pow2 by lia. change (2 ^ 13) with (64 * 128).
  replace (x * (64 * 128) * factorOf (masterField mainCnt))
    with (x * factorOf (masterField mainCnt) * 64 * 128) by lia.
  rewrite Z.quot_mul by lia. apply Z.quot_mul. lia.
Qed.

(** X14: the volume stages lose nothing but the final rounding.  The
    divider multiplies the data by [2 ^ (4 - d)], the volume factor by
    [f], the panning by [128 - p] and [p] with one floor division by 1024,
    and the master volume by [v]: the shifts by 7 and 13 bits cancel the
    truncating divisions by 128 and by 128 * 64 exactly, for negative data
    too.  Here [d], [f], [p] and [v] are the factors the register fields
    stand for (4 for a divider field of 3, 128 for a field of 127).  The
    value the bias is added to is the floor of the accumulator times [v]
    over 2^21. *)
Theorem X14_volume_stages_exact (cnt mainCnt bias data : Z) :
  divStage cnt data = data * 2 ^ (4 - dividerOf (divField cnt)) /\
  mulStage cnt data = data * factorOf (mulField cnt) /\
  panStage cnt data
  = (data * (128 - factorOf (panField cnt)) / 1024, data * factorOf (panField cnt) / 1024) /\
  contribution cnt data
  = (data * 2 ^ (4 - dividerOf (divField cnt)) * factorOf (mulField cnt)
       * (128 - factorOf (panField cnt)) / 1024,
     data * 2 ^ (4 - dividerOf (divField cnt)) * factorOf (mulField cnt)
       * factorOf (panField cnt) / 1024) /\
  masterStage mainCnt data = data * factorOf (masterField mainCnt) /\
  biasStage bias (masterStage mainCnt data)
  = data * factorOf (masterField mainCnt) / 2097152 + bias.
Proof.
  split; [apply divStage_exact|]. split; [apply mulStage_exact|].
  split; [apply panStage_exact|].
  split; [unfold contribution; by rewrite panStage_exact, mulStage_exact, divStage_exact|].
  split; [apply masterStage_exact|].
  unfold biasStage. rewrite masterStage_exact, Z.shiftr_div_pow2 by lia. reflexivity.
Qed.

Lemma contribution_zero cnt : contribution cnt 0 = (0, 0).
Proof.
  unfold contribution. rewrite panStage_exact, mulStage_exact, divStage_exact.
  rewrite !Z.mul_0_l. reflexivity.
Qed.

(** X15: silence and hard panning.  Data 0 adds nothing to either
    accumulator, and neither does any data at volume factor 0; at pan 0 a
    channel adds nothing to the right accumulator and at pan 127 nothing
    to the left one; at master volume 0 the value before clipping is the
    bias.  In format 3 the channels 0 to 7, which have no generator, give
    the data 0, and a reload pass changes nothing of the unit but the
    channel's timer, to which it adds the reload period. *)
Theorem X15_silence_and_hard_panning mem (i : nat) (s : Spu) (cnt mainCnt bias data : Z) :
  contribution cnt 0 = (0, 0) /\
  (mulField cnt = 0 -> contribution cnt data = (0, 0)) /\
  (panField cnt = 0 -> (contribution cnt data).2 = 0) /\
  (panField cnt = 127 -> (contribution cnt data).1 = 0) /\
  (masterField mainCnt = 0 -> biasStage bias (masterStage mainCnt data) = bias) /\
  ((i < 8)%nat -> formatOf (get (soundCnt s) i) = 3 ->
   readData mem i 3 s = 0 /\
   reloadPass mem i s
   = set_soundTimers
       (<[i := u16 (get (soundTimers s) i + get (soundTmr s) i)]> (soundTimers s)) s).
Proof.
  split; [apply contribution_zero|].
  unfold contribution. rewrite panStage_exact, mulStage_exact, divStage_exact. cbn [fst snd].
  split; [|split; [|split; [|split]]].
  - intros ->. change (factorOf 0) with 0. by rewrite Z.mul_0_r, !Z.mul_0_l.
  - intros ->. change (factorOf 0) with 0. by rewrite Z.mul_0_r.
  - intros ->. change (factorOf 127) with 128. change (128 - 128) with 0.
    by rewrite Z.mul_0_r.
  - intros Hm. unfold biasStage. rewrite masterStage_exact, Hm. change (factorOf 0) with 0.
    by rewrite Z.mul_0_r.
  - intros Hi Hf. split.
    + unfold readData.
      change (3 =? 0) with false. change (3 =? 1) with false.
      change (3 =? 2) with false. change (3 =? 3) with true. cbv iota.
      destruct (Nat.leb_spec 8 i); [lia|]. destruct (Nat.leb_spec 14 i); [lia|]. done.
    + rewrite reloadPass_psg by exact Hf. unfold psgStep.
      destruct (Nat.leb_spec 8 i); [lia|]. destruct (Nat.leb_spec 14 i); [lia|]. done.
Qed.

Lemma X15_witness :
  let s := writeSoundCnt zeroMemory 3 0xFFFFFFFF 0xE000007F initial in
  contribution 0x007F0300 0 = (0, 0) /\
  contribution 0x007F0300 1000 = (0, 0) /\
  (contribution 0x0000037F 1000).2 = 0 /\
  (contribution 0x007F037F 1000).1 = 0 /\
  biasStage 0x200 (masterStage 0 1000) = 0x200 /\
  (readData zeroMemory 3 3 s = 0 /\
   reloadPass zeroMemory 3 s
   = set_soundTimers
       (<[3%nat := u16 (get (soundTimers s) 3 + get (soundTmr s) 3)]> (soundTimers s)) s).
Proof.
  intros s.
  destruct (X15_silence_and_hard_panning zeroMemory 3 s 0x007F0300 0 0x200 0)
    as (H1 & _).
  destruct (X15_silence_and_hard_panning zeroMemory 3 s 0x007F0300 0 0x200 1000)
    as (_ & H2 & _ & _ & H5 & H6).
  destruct (X15_silence_and_hard_panning zeroMemory 3 s 0x0000037F 0 0x200 1000)
    as (_ & _ & H3 & _).
  destruct (X15_silence_and_hard_panning zeroMemory 3 s 0x007F037F 0 0x200 1000)
    as (_ & _ & _ & H4 & _).
  split; [exact H1|]. split; [apply H2; reflexivity|]. split; [apply H3; reflexivity|].
  split; [apply H4; reflexivity|]. split; [apply H5; reflexivity|].
  apply H6; [lia|vm_compute; reflexivity].
Defined.

Lemma mul_bound (a f A F : Z) :
  - A <= a <= A -> 0 <= f <= F -> - (A * F) <= a * f <= A * F.
Proof. intros Ha Hf. nia. Qed.

Lemma div_bound (a k A : Z) : 0 < k -> - A <= a <= A -> - A <= a / k <= A.
Proof.
  intros Hk Ha. assert (0 <= A) by lia. split.
  - apply Z.div_le_lower_bound; [lia|]. nia.
  - apply Z.div_le_upper_bound; [lia|]. nia.
Qed.

Lemma divStage_bound cnt data :
  - 32768 <= data <= 32768 -> - 524288 <= divStage cnt data <= 524288.
Proof.
  intros Hd. rewrite divStage_exact.
  pose proof (dividerOf_range _ (divField_range cnt)) as Hr.
  assert (Hp : 0 <= 2 ^ (4 - dividerOf (divField cnt)) <= 16).
  { split; [apply Z.pow_nonneg; lia|].
    change 16 with (2 ^ 4). apply Z.pow_le_mono_r; lia. }
  pose proof (mul_bound _ _ 32768 16 Hd Hp). lia.
Qed.

Lemma mulStage_bound cnt x A : - A <= x <= A -> - (A * 128) <= mulStage cnt x <= A * 128.
Proof.
  intros Hx. rewrite mulStage_exact.
  apply mul_bound; [exact Hx|]. apply factorOf_range, mulField_range.
Qed.

Lemma panStage_bound cnt x A :
  - A <= x <= A ->
  - (A * 128) <= (panStage cnt x).1 <= A * 128 /\
  - (A * 128) <= (panStage cnt x).2 <= A * 128.
Proof.
  intros Hx. rewrite panStage_exact. cbn [fst snd].
  pose proof (factorOf_range _ (panField_range cnt)) as Hp.
  split; (apply div_bound; [lia|]; apply mul_bound; [exact Hx|lia]).
Qed.

(** A 16-bit sample adds at most 2^23 in magnitude to either accumulator. *)
Lemma contribution_bound cnt data :
  - 32768 <= data <= 32768 ->
  - 8388608 <= (contribution cnt data).1 <= 8388608 /\
  - 8388608 <= (contribution cnt data).2 <= 8388608.
Proof.
  intros Hd. unfold contribution. rewrite panStage_exact. cbn [fst snd].
  pose proof (mulStage_bound cnt _ 524288 (divStage_bound cnt data Hd)) as Hm.
  pose proof (factorOf_range _ (panField_range cnt)) as Hp.
  set (m := mulStage cnt (divStage cnt data)) in *.
  assert (H1 : - (67108864 * 128) <= m * (128 - factorOf (panField cnt)) <= 67108864 * 128)
    by (apply mul_bound; lia).
  assert (H2 : - (67108864 * 128) <= m * factorOf (panField cnt) <= 67108864 * 128)
    by (apply mul_bound; lia).
  split.
  - split; [apply Z.div_le_lower_bound; lia|apply Z.div_le_upper_bound; lia].
  - split; [apply Z.div_le_lower_bound; lia|apply Z.div_le_upper_bound; lia].
Qed.

Lemma i8_range x : - 128 <= i8 x <= 127.
Proof.
  unfold i8. cbv zeta. pose proof (u8_range x). change (2 ^ 7) with 128.
  change (2 ^ 8) with 256. destruct (Z.ltb_spec (u8 x) 128); lia.
Qed.

Lemma lo_widest : - 32768 <= - 32768 <= - 32767.
Proof. lia. Qed.

(** The sample data of a channel is a signed 16-bit value. *)
Lemma readData_range mem i format s :
  AdpcmInv (- 32768) s -> - 32768 <= readData mem i format s <= 32767.
Proof.
  intros Hinv. unfold readData.
  destruct (format =? 0).
  { pose proof (i8_range (mem (get (soundCurrent s) i))) as H8. unfold read_i8.
    rewrite Z.shiftl_mul_pow2 by lia. change (2 ^ 8) with 256. lia. }
  destruct (format =? 1); [apply i16_range|].
  destruct (format =? 2).
  { destruct (AdpcmInv_get (- 32768) lo_widest s i Hinv) as (_ & _ & Hv & _).
    unfold valOK in Hv. lia. }
  destruct (format =? 3); [|lia].
  destruct (_ && _); [cbv zeta; destruct (_ <? _); lia|].
  destruct (14 <=? i)%nat; [destruct (nonzero _); lia|lia].
Qed.

Lemma fits64_bound (x : Z) : - 2 ^ 62 <= x <= 2 ^ 62 -> fits64 x.
Proof. unfold fits64. change (2 ^ 63) with (2 * 2 ^ 62). lia. Qed.

Lemma quot_bound (a k A : Z) : 0 < k -> - A <= a <= A -> - A <= Z.quot a k <= A.
Proof.
  intros Hk Ha.
  destruct (Z_le_gt_dec 0 a).
  - pose proof (Z.quot_pos a k ltac:(lia) Hk). pose proof (Z.quot_le_upper_bound a k A Hk).
    assert (a <= k * A) by nia. lia.
  - rewrite <- (Z.opp_involutive a), Z.quot_opp_l by lia.
    pose proof (Z.quot_pos (- a) k ltac:(lia) Hk).
    pose proof (Z.quot_le_upper_bound (- a) k A Hk).
    assert (- a <= k * A) by nia. lia.
Qed.

Lemma channelIntermediates_fit cnt data :
  - 32768 <= data <= 32768 -> Forall fits64 (channelIntermediates cnt data).
Proof.
  intros Hd. unfold channelIntermediates. cbv zeta.
  pose proof (divStage_bound cnt data Hd) as H1.
  pose proof (mulStage_bound cnt _ 524288 H1) as H2.
  destruct (panStage_bound cnt _ (524288 * 128) H2) as [H3 H4].
  pose proof (factorOf_range _ (mulField_range cnt)) as Hf.
  pose proof (factorOf_range _ (panField_range cnt)) as Hp.
  set (d := divStage cnt data) in *. set (m := mulStage cnt d) in *.
  assert (Sd : Z.shiftl d 7 = d * 128) by (apply (Z.shiftl_mul_pow2 d 7); lia).
  assert (Sm : Z.shiftl m 7 = m * 128) by (apply (Z.shiftl_mul_pow2 m 7); lia).
  rewrite Sd, Sm.
  assert (M1 : - (67108864 * 128) <= d * 128 * factorOf (mulField cnt) <= 67108864 * 128)
    by (apply mul_bound; lia).
  assert (M2 : - (8589934592 * 128)
               <= m * 128 * (128 - factorOf (panField cnt)) <= 8589934592 * 128)
    by (apply mul_bound; lia).
  assert (M3 : - (8589934592 * 128)
               <= m * 128 * factorOf (panField cnt) <= 8589934592 * 128)
    by (apply mul_bound; lia).
  pose proof (quot_bound _ 128 _ ltac:(lia) M2) as Q2.
  pose proof (quot_bound _ 128 _ ltac:(lia) M3) as Q3.
  repeat (apply List.Forall_cons;
          [apply fits64_bound; change (2 ^ 62) with 4611686018427387904; lia|]).
  apply List.Forall_nil.
Qed.

Lemma masterIntermediates_fit mainCnt bias sample :
  - 134217728 <= sample <= 134217728 -> 0 <= bias <= 0x03FF ->
  Forall fits64 (masterIntermediates mainCnt bias sample) /\
  - 8192 <= Z.shiftr (masterStage mainCnt sample) 21 <= 8192.
Proof.
  intros Hs Hb. unfold masterIntermediates. cbv zeta.
  pose proof (factorOf_range _ (masterField_range mainCnt)) as Hv.
  assert (S13 : Z.shiftl sample 13 = sample * 8192) by (apply (Z.shiftl_mul_pow2 sample 13); lia).
  assert (M1 : - (1099511627776 * 128)
               <= sample * 8192 * factorOf (masterField mainCnt) <= 1099511627776 * 128)
    by (apply mul_bound; lia).
  pose proof (quot_bound _ 128 _ ltac:(lia) M1) as Q1.
  assert (M2 : - (134217728 * 128) <= masterStage mainCnt sample <= 134217728 * 128)
    by (rewrite masterStage_exact; apply mul_bound; lia).
  assert (R : - 8192 <= Z.shiftr (masterStage mainCnt sample) 21 <= 8192).
  { rewrite Z.shiftr_div_pow2 by lia. change (2 ^ 21) with 2097152.
    split; [apply Z.div_le_lower_bound; lia|apply Z.div_le_upper_bound; lia]. }
  split; [|exact R].
  pose proof (clip_range (biasStage bias (masterStage mainCnt sample))) as Hc.
  pose proof (expand_clip_range (biasStage bias (masterStage mainCnt sample))) as He.
  assert (S16 : Z.shiftl (expand (clip (biasStage bias (masterStage mainCnt sample)))) 16
                = expand (clip (biasStage bias (masterStage mainCnt sample))) * 65536)
    by (apply (Z.shiftl_mul_pow2 _ 16); lia).
  rewrite S13, S16. unfold biasStage in *.
  repeat (apply List.Forall_cons;
          [apply fits64_bound; change (2 ^ 62) with 4611686018427387904; lia|]).
  apply List.Forall_nil.
Qed.

(** The channel loop on a state whose predictors are 16-bit values: each
    channel moves either accumulator by at most 2^23. *)
Lemma runChannels_acc mem (n i : nat) st st' (K : Z) :
  WF st.1 -> AdpcmInv (- 32768) st.1 -> (i + n <= 16)%nat ->
  runChannels mem i n st = Some st' ->
  - K <= st.2.1 <= K -> - K <= st.2.2 <= K ->
  - (K + Z.of_nat n * 8388608) <= st'.2.1 <= K + Z.of_nat n * 8388608 /\
  - (K + Z.of_nat n * 8388608) <= st'.2.2 <= K + Z.of_nat n * 8388608.
Proof.
  revert i st K. induction n as [|n IH]; intros i st K Hwf Hinv Hi; cbn [runChannels].
  - intros E. apply (inj Some) in E. subst. lia.
  - destruct (runChannel mem i st) as [st1|] eqn:E1; cbn [mbind option_bind]; [|discriminate].
    intros E H1 H2.
    assert (W1 : WF st1.1) by (eapply WF_Frame; [exact Hwf|eapply runChannel_Frame, E1]).
    assert (I1 : AdpcmInv (- 32768) st1.1).
    { eapply (runChannel_inv (- 32768) lo_widest mem i st st1); [exact Hwf|lia|exact Hinv|exact E1]. }
    assert (B1 : - (K + 8388608) <= st1.2.1 <= K + 8388608 /\
                 - (K + 8388608) <= st1.2.2 <= K + 8388608).
    { unfold runChannel in E1. destruct (negb _).
      - apply (inj Some) in E1. subst. lia.
      - cbv zeta in E1. destruct (runTimer mem i _ st.1) as [s2|]; [|discriminate].
        cbn [mbind option_bind] in E1. apply (inj Some) in E1. subst st1. cbn [fst snd].
        pose proof (readData_range mem i
                      (Z.shiftr (Z.land (get (soundCnt st.1) i) 0x60000000) 29) st.1 Hinv) as Hd.
        set (data := readData mem i _ st.1) in *.
        assert (Hd' : - 32768 <= data <= 32768) by lia.
        destruct (contribution_bound (get (soundCnt s2) i) data Hd') as [C1 C2].
        lia. }
    destruct (IH (S i) st1 (K + 8388608) W1 I1 ltac:(lia) E) as [R1 R2]; [lia|lia|].
    lia.
Qed.

Lemma Reachable_inv16 (H : Memory -> Z -> Prop) (s : Spu) :
  Reachable H s -> AdpcmInv (- 32768) s.
Proof.
  intros Hr.
  refine (proj2 (Reachable_WF_inv (- 32768) lo_widest H _ s Hr)).
  intros mem a _. apply i16_range.
Qed.

(** X16: the mixer stays inside [int64_t].  In a reachable state, after [i]
    channels have been mixed both accumulators are at most [i * 2^23] in
    magnitude; the data of the next channel is a signed 16-bit value, and
    every intermediate value of its divider, volume and panning stages fits
    64 bits whatever its control word.  After all 16 channels every
    intermediate value of the master volume, bias, clipping and expansion
    fits 64 bits, and the value the bias is added to is at most 8192 in
    magnitude. *)
Theorem X16_mixer_without_overflow (H : Memory -> Z -> Prop) mem (i : nat)
    (s : Spu) (st : Spu * (Z * Z)) :
  Reachable H s -> (i <= 16)%nat ->
  runChannels mem 0 i (s, (0, 0)) = Some st ->
  (- (Z.of_nat i * 8388608) <= st.2.1 <= Z.of_nat i * 8388608 /\
   - (Z.of_nat i * 8388608) <= st.2.2 <= Z.of_nat i * 8388608) /\
  ((i < 16)%nat ->
   let data := readData mem i (formatOf (get (soundCnt st.1) i)) st.1 in
   - 32768 <= data <= 32767 /\
   forall cnt, Forall fits64 (channelIntermediates cnt data)) /\
  (i = 16%nat ->
   Forall fits64 (masterIntermediates (mainSoundCnt st.1) (soundBias st.1) st.2.1) /\
   Forall fits64 (masterIntermediates (mainSoundCnt st.1) (soundBias st.1) st.2.2) /\
   - 8192 <= Z.shiftr (masterStage (mainSoundCnt st.1) st.2.1) 21 <= 8192 /\
   - 8192 <= Z.shiftr (masterStage (mainSoundCnt st.1) st.2.2) 21 <= 8192).
Proof.
  intros Hr Hi E.
  pose proof (Reachable_WF H s Hr) as Hwf.
  pose proof (Reachable_inv16 H s Hr) as Hinv.
  pose proof (Reachable_Typed H s Hr) as Hty.
  assert (I1 : AdpcmInv (- 32768) st.1).
  { eapply (runChannels_inv (- 32768) lo_widest mem i 0 (s, (0, 0)) st);
      [exact Hwf|lia|exact Hinv|exact E]. }
  assert (T1 : Typed st.1) by (eapply (runChannels_Typed mem i 0 (s, (0, 0)) st); [exact Hty|exact E]).
  assert (Hn : (0 + i <= 16)%nat) by lia.
  destruct (runChannels_acc mem i 0 (s, (0, 0)) st 0 Hwf Hinv Hn E) as [B1 B2];
    [cbn; lia|cbn; lia|].
  split; [lia|]. split.
  - intros _ data. pose proof (readData_range mem i (formatOf (get (soundCnt st.1) i)) st.1 I1).
    split; [assumption|]. intros cnt. apply channelIntermediates_fit. fold data. lia.
  - intros ->. change (Z.of_nat 16) with 16 in *.
    assert (Hb : 0 <= soundBias st.1 <= 0x03FF)
      by (apply onlyBits_le; [lia|apply (ty_soundBias _ T1)]).
    destruct (masterIntermediates_fit (mainSoundCnt st.1) (soundBias st.1) st.2.1) as [F1 R1];
      [lia|exact Hb|].
    destruct (masterIntermediates_fit (mainSoundCnt st.1) (soundBias st.1) st.2.2) as [F2 R2];
      [lia|exact Hb|].
    done.
Qed.

Lemma X16_witness :
  let st := default (adpcmRunning, (0, 0)) (runChannels headerMemory 0 16 (adpcmRunning, (0, 0))) in
  (- (Z.of_nat 16 * 8388608) <= st.2.1 <= Z.of_nat 16 * 8388608 /\
   - (Z.of_nat 16 * 8388608) <= st.2.2 <= Z.of_nat 16 * 8388608) /\
  ((16 < 16)%nat ->
   let data := readData headerMemory 16 (formatOf (get (soundCnt st.1) 16)) st.1 in
   - 32768 <= data <= 32767 /\
   forall cnt, Forall fits64 (channelIntermediates cnt data)) /\
  (16%nat = 16%nat ->
   Forall fits64 (masterIntermediates (mainSoundCnt st.1) (soundBias st.1) st.2.1) /\
   Forall fits64 (masterIntermediates (mainSoundCnt st.1) (soundBias st.1) st.2.2) /\
   - 8192 <= Z.shiftr (masterStage (mainSoundCnt st.1) st.2.1) 21 <= 8192 /\
   - 8192 <= Z.shiftr (masterStage (mainSoundCnt st.1) st.2.2) 21 <= 8192).
Proof.
  apply (X16_mixer_without_overflow AnyHeader headerMemory 16 adpcmRunning).
  - unfold adpcmRunning. apply reach_writeSoundCnt; [lia|exact I|].
    apply adpcmSetup_Reachable. exact I.
  - lia.
  - vm_compute. reflexivity.
Defined.

Lemma runChannels_all_disabled mem (n i : nat) (s : Spu) (acc : Z * Z) :
  (forall j, (i <= j < i + n)%nat -> enabled (get (soundCnt s) j) = false) ->
  runChannels mem i n (s, acc) = Some (s, acc).
Proof.
  revert i. induction n as [|n IH]; intros i Hd; cbn [runChannels]; [reflexivity|].
  rewrite runChannel_disabled by (cbn [fst]; apply Hd; lia).
  cbn [mbind option_bind]. apply IH. intros j Hj. apply Hd. lia.
Qed.

(** X17: with all 16 channels disabled a tick changes no channel and mixes
    nothing: both accumulators stay 0, the frame produced carries the
    clipped bias level [(clip soundBias - 0x200) << 5] in both halves, and
    the tick changes nothing of the sound state (registers, counters,
    ADPCM values). *)
Theorem X17_all_channels_off_gives_bias_level mem limitFps (s : Spu) :
  (forall j, (j < 16)%nat -> enabled (get (soundCnt s) j) = false) ->
  let level := expand (clip (soundBias s)) in
  runChannels mem 0 16 (s, (0, 0)) = Some (s, (0, 0)) /\
  frameOf s (0, 0) = packFrame level level /\
  runSample mem limitFps s
  = (if bufferSize s =? 0 then Returned s else pushFrame limitFps (packFrame level level) s) /\
  (forall s', outcomeState (runSample mem limitFps s) = Some s' -> SameSound s s').
Proof.
  intros Hd level.
  assert (Hch : runChannels mem 0 16 (s, (0, 0)) = Some (s, (0, 0)))
    by (apply runChannels_all_disabled; intros j Hj; apply Hd; lia).
  assert (Hf : frameOf s (0, 0) = packFrame level level).
  { unfold frameOf, finalSample. cbn [fst snd]. rewrite masterStage_exact, Z.mul_0_l.
    unfold biasStage. rewrite Z.shiftr_0_l, Z.add_0_l. reflexivity. }
  split; [exact Hch|]. split; [exact Hf|].
  assert (Hr : runSample mem limitFps s
               = (if bufferSize s =? 0 then Returned s
                  else pushFrame limitFps (packFrame level level) s))
    by (unfold runSample; rewrite Hch, Hf; reflexivity).
  split; [exact Hr|].
  intros s' E. rewrite Hr in E.
  destruct (_ =? 0).
  - apply (inj Some) in E. subst. apply SameSound_refl.
  - eapply pushFrame_SameSound, E.
Qed.

Lemma X17_witness :
  let level := expand (clip (soundBias adpcmSetup)) in
  runChannels headerMemory 0 16 (adpcmSetup, (0, 0)) = Some (adpcmSetup, (0, 0)) /\
  frameOf adpcmSetup (0, 0) = packFrame level level /\
  runSample headerMemory false adpcmSetup
  = (if bufferSize adpcmSetup =? 0 then Returned adpcmSetup
     else pushFrame false (packFrame level level) adpcmSetup) /\
  (forall s', outcomeState (runSample headerMemory false adpcmSetup) = Some s' ->
              SameSound adpcmSetup s').
Proof.
  apply (X17_all_channels_off_gives_bias_level headerMemory false adpcmSetup).
  intros j Hj.
  do 16 (destruct j as [|j]; [vm_compute; reflexivity|]). lia.
Defined.

(** X18: the packing of a frame into one [uint32_t] loses nothing.  For
    two signed 16-bit samples the packed word is a 32-bit value whose low
    half reads back as the left sample and whose high half as the right
    one, and two pairs of samples that pack to the same word are the same
    pair. *)
Theorem X18_frame_packing_round_trip (l r l' r' : Z) :
  - 32768 <= l < 32768 -> - 32768 <= r < 32768 ->
  frameLeft (packFrame l r) = l /\ frameRight (packFrame l r) = r /\
  0 <= packFrame l r < 2 ^ 32 /\
  (- 32768 <= l' < 32768 -> - 32768 <= r' < 32768 ->
   packFrame l r = packFrame l' r' -> l = l' /\ r = r').
Proof.
  intros Hl Hr.
  split; [by apply frameLeft_packFrame|]. split; [by apply frameRight_packFrame|].
  split; [apply u32_range|].
  intros Hl' Hr' E. split.
  - rewrite <- (frameLeft_packFrame l r Hl), E. by apply frameLeft_packFrame.
  - rewrite <- (frameRight_packFrame l r Hr), E. by apply frameRight_packFrame.
Qed.

Lemma X18_witness :
  frameLeft (packFrame (- 5) 7) = - 5 /\ frameRight (packFrame (- 5) 7) = 7 /\
  0 <= packFrame (- 5) 7 < 2 ^ 32 /\
  (- 32768 <= 3 < 32768 -> - 32768 <= 7 < 32768 ->
   packFrame (- 5) 7 = packFrame 3 7 -> - 5 = 3 /\ 7 = 7).
Proof. apply (X18_frame_packing_round_trip (- 5) 7 3 7); lia. Defined.

(** ** The frame buffers and the free store *)

Lemma SameBuffers_Frame i s s' : Frame i s s' -> SameBuffers s s'.
Proof. intros []. by split. Qed.

Lemma SameBuffers_Keep j s s' : Keep j s s' -> SameBuffers s s'.
Proof. intros []. by split. Qed.

Lemma buffersLive_same s s' : SameBuffers s s' -> buffersLive s -> buffersLive s'.
Proof. intros [] H. unfold buffersLive in *. rewrite_fields s'. exact H. Qed.

Lemma writeSoundCnt_SameBuffers mem ch mask value s :
  SameBuffers s (writeSoundCnt mem ch mask value s).
Proof.
  rewrite writeSoundCnt_store.
  assert (H1 : SameBuffers s (if reloads ch value s then reloadRegisters mem ch s else s)).
  { destruct (reloads ch value s); [apply (SameBuffers_Frame ch), reloadRegisters_Frame|by split]. }
  destruct H1. unfold storeSoundCnt. by split.
Qed.

Lemma buffersLive_bufferOk s :
  buffersLive s -> bufferPointer s < bufferSize s \/ bufferSize s = 0 -> bufferOk s = true.
Proof.
  intros [Hp Hb] Hc. unfold bufferOk.
  destruct (Z.eqb_spec (bufferSize s) 0) as [E|E]; [reflexivity|]. cbn [orb].
  destruct (bufferIn s) as [a|], (bufferOut s) as [b|]; try done.
  destruct Hb as (Hab & la & lb & -> & -> & La & Lb).
  destruct (Nat.eqb_spec a b); [done|]. cbn [negb andb].
  rewrite La, Lb, Z.eqb_refl. cbn [andb].
  destruct (Z.leb_spec 0 (bufferPointer s)); [|lia].
  destruct (Z.ltb_spec (bufferPointer s) (bufferSize s)); [done|lia].
Qed.

Lemma swapBuffers_live s : buffersLive s -> buffersLive (swapBuffers s).
Proof.
  intros [Hp Hb]. unfold buffersLive, swapBuffers. proj.
  split; [lia|].
  destruct (bufferIn s) as [a|], (bufferOut s) as [b|]; try done.
  destruct Hb as (Hab & la & lb & Ha & Hlb & La & Lb).
  split; [done|]. by exists lb, la.
Qed.

Lemma pushFrame_live limitFps frame s s' :
  buffersLive s -> bufferSize s <> 0 ->
  outcomeState (pushFrame limitFps frame s) = Some s' -> buffersLive s'.
Proof.
  intros [Hp Hb] Hne. unfold pushFrame.
  destruct (bufferIn s) as [a|] eqn:Ea; [|done].
  destruct (bufferOut s) as [b|] eqn:Eb; [|done].
  destruct Hb as (Hab & la & lb & Ha & Hlb & La & Lb).
  rewrite Ha.
  destruct (Z.leb_spec 0 (bufferPointer s)); [|done].
  destruct (Z.ltb_spec (bufferPointer s) (Z.of_nat (length la))); [|done].
  cbn [andb]. cbv zeta. proj.
  set (s1 := set_bufferPointer _ _).
  assert (L1 : buffersLive s1).
  { subst s1. unfold buffersLive. proj. rewrite Ea, Eb. split; [lia|]. split; [done|].
    exists (<[Z.to_nat (bufferPointer s) := frame]> la), lb.
    rewrite lookup_insert_eq, lookup_insert_ne, length_insert by done. done. }
  clearbody s1.
  destruct (_ =? _); [destruct (_ && _)|]; cbn [outcomeState]; intros E;
    apply (inj Some) in E; subst s'; [exact L1|by apply swapBuffers_live|exact L1].
Qed.

Lemma runSample_live mem limitFps s s' :
  buffersLive s -> outcomeState (runSample mem limitFps s) = Some s' -> buffersLive s'.
Proof.
  intros Hl. unfold runSample.
  destruct (runChannels mem 0 16 (s, (0, 0))) as [[s1 acc]|] eqn:Hch; [|done].
  pose proof (runChannels_Keep mem 16 0 16 _ _ Hch ltac:(lia)) as K. cbn [fst] in K.
  apply SameBuffers_Keep in K. pose proof (buffersLive_same _ _ K Hl) as L1.
  destruct (Z.eqb_spec (bufferSize s1) 0) as [E|E].
  - cbn [outcomeState]. intros H. apply (inj Some) in H. by subst.
  - by apply pushFrame_live.
Qed.

Lemma fresh_not_live (h : gmap nat (list Z)) (p : nat) (l : list Z) :
  h !! p = Some l -> fresh (dom h) <> p.
Proof.
  intros Hp Heq. apply (is_fresh (dom h)). rewrite Heq. apply elem_of_dom. by rewrite Hp.
Qed.

Lemma fresh_lookup (h : gmap nat (list Z)) : h !! fresh (dom h) = None.
Proof. apply not_elem_of_dom, is_fresh. Qed.

(** The reallocation step: the buffers are live afterwards, and what the
    destructor would leave is the same as before. *)
Lemma resizeBuffers_live (count : Z) (junkIn junkOut : list Z) (s : Spu) :
  buffersLive s -> 0 <= count ->
  let s0 := resizeBuffers count junkIn junkOut s in
  buffersLive s0 /\ bufferSize s0 = count /\ ready s0 = ready s /\
  destructor s0 = destructor s /\
  (bufferSize s <> count ->
   bufferPointer s0 = 0 /\
   exists a b, bufferIn s0 = Some a /\ bufferOut s0 = Some b /\
               heap s0 !! a = Some (resize (Z.to_nat count) 0 junkIn) /\
               heap s0 !! b = Some (resize (Z.to_nat count) 0 junkOut)).
Proof.
  intros Hl Hc. cbv zeta. unfold resizeBuffers.
  destruct (Z.eqb_spec (bufferSize s) count) as [E|E]; cbn [negb]; [done|].
  unfold alloc, destructor. proj.
  set (h2 := free (bufferOut s) (free (bufferIn s) (heap s))).
  set (pin := fresh (dom h2)).
  set (h3 := <[pin := resize (Z.to_nat count) 0 junkIn]> h2).
  set (pout := fresh (dom h3)).
  assert (Hpin : h2 !! pin = None) by apply fresh_lookup.
  assert (Hpout : h3 !! pout = None) by apply fresh_lookup.
  assert (Hpp : pout <> pin).
  { apply (fresh_not_live h3 pin (resize (Z.to_nat count) 0 junkIn)).
    subst h3. apply lookup_insert_eq. }
  assert (Ha : <[pout := resize (Z.to_nat count) 0 junkOut]> h3 !! pin
               = Some (resize (Z.to_nat count) 0 junkIn))
    by (rewrite lookup_insert_ne by done; subst h3; apply lookup_insert_eq).
  assert (Hb : <[pout := resize (Z.to_nat count) 0 junkOut]> h3 !! pout
               = Some (resize (Z.to_nat count) 0 junkOut)) by apply lookup_insert_eq.
  split; [|split; [done|split; [done|split]]].
  - unfold buffersLive. proj. split; [lia|]. split; [done|].
    exists (resize (Z.to_nat count) 0 junkIn), (resize (Z.to_nat count) 0 junkOut).
    rewrite Ha, Hb, !length_resize. split; [done|]. split; [done|]. lia.
  - cbn [free]. rewrite delete_insert_ne by done.
    subst h3. rewrite (delete_insert_id h2 pin _ Hpin).
    apply delete_insert_id.
    rewrite lookup_insert_ne in Hpout by done. exact Hpout.
  - intros _. split; [done|]. by exists pin, pout.
Qed.

(** [getSamples] in closed form on a unit whose buffers are live. *)
Lemma getSamples_live polls (junkIn junkOut junkRes : list Z) (count : Z) (s : Spu) :
  buffersLive s -> 0 <= count ->
  let s0 := resizeBuffers count junkIn junkOut s in
  let out := fresh (dom (heap s0)) in
  exists filled,
    getSamples polls (junkIn, junkOut, junkRes) count s
    = Some (out, set_ready false (set_heap (<[out := filled]> (heap s0)) s0)) /\
    length filled = Z.to_nat count /\
    (forall b blk, bufferOut s0 = Some b -> heap s0 !! b = Some blk ->
       filled = if ready s then blk
                else replicate (Z.to_nat count) (default 0 (blk !! Z.to_nat (count - 1)))) /\
    buffersLive (set_ready false (set_heap (<[out := filled]> (heap s0)) s0)) /\
    destructor (set_ready false (set_heap (<[out := filled]> (heap s0)) s0))
    = <[out := filled]> (destructor s) /\
    destructor s !! out = None.
Proof.
  intros Hl Hc s0 out.
  destruct (resizeBuffers_live count junkIn junkOut s Hl Hc) as (L0 & S0 & R0 & D0 & _).
  fold s0 in L0, S0, R0, D0.
  destruct L0 as [Hp Hb].
  assert (Hout : heap s0 !! out = None) by apply fresh_lookup.
  destruct (bufferIn s0) as [a|] eqn:Ea, (bufferOut s0) as [b|] eqn:Eb; try done.
  - destruct Hb as (Hab & la & lb & Hla & Hlb & La & Lb).
    assert (Hoa : out <> a) by (eapply fresh_not_live, Hla).
    assert (Hob : out <> b) by (eapply fresh_not_live, Hlb).
    pose proof (getSamples_result polls junkIn junkOut junkRes count s b lb Hc) as G.
    cbv zeta in G. fold s0 in G. fold out in G.
    rewrite G by (intros _; split; [done|]; split; [done|]; lia).
    eexists. split; [reflexivity|]. rewrite R0.
    split; [|split; [|split; [|split]]].
    + destruct (Z.eqb_spec count 0) as [->|]; [done|].
      destruct (ready s); [lia|by rewrite length_replicate].
    + intros b' blk' Hb' Hblk'. apply (inj Some) in Hb'. subst b'.
      rewrite Hlb in Hblk'. apply (inj Some) in Hblk'. subst blk'.
      destruct (Z.eqb_spec count 0) as [->|]; [|done].
      assert (lb = []) by (destruct lb; [done|cbn in Lb; lia]). subst lb.
      by destruct (ready s).
    + unfold buffersLive. proj. rewrite Ea, Eb. split; [done|]. split; [done|].
      exists la, lb. by rewrite !lookup_insert_ne by done.
    + unfold destructor in *. proj. rewrite Ea, Eb in *. cbn [free] in *.
      rewrite !delete_insert_ne by done. by rewrite D0.
    + rewrite <- D0. unfold destructor. rewrite Ea, Eb. cbn [free].
      rewrite !lookup_delete_ne by done. exact Hout.
  - assert (E0 : count = 0) by lia.
    pose proof (getSamples_result polls junkIn junkOut junkRes count s 0%nat [] Hc) as G.
    cbv zeta in G. fold s0 in G. fold out in G.
    rewrite G by (intros; lia).
    eexists. split; [reflexivity|]. rewrite E0. change (0 =? 0) with true. cbv iota.
    split; [done|]. split; [intros ? ? ?; done|]. split; [|split].
    + unfold buffersLive. proj. by rewrite Ea, Eb.
    + unfold destructor in *. proj. rewrite Ea, Eb in *. cbn [free] in *. by rewrite D0.
    + rewrite <- D0. unfold destructor. rewrite Ea, Eb. cbn [free]. exact Hout.
Qed.

Lemma getSamples_nonneg polls junk count s out s' :
  getSamples polls junk count s = Some (out, s') -> 0 <= count.
Proof. unfold getSamples. destruct (Z.ltb_spec count 0); [done|lia]. Qed.

Lemma Reachable_live (H : Memory -> Z -> Prop) (s : Spu) : Reachable H s -> buffersLive s.
Proof.
  induction 1 as [|mem ch mask value s Hch Hh _ IH|ch mask value s Hch _ IH
                  |ch mask value s Hch _ IH|ch mask value s Hch _ IH|ch mask value s Hch _ IH
                  |mask value s _ IH|mask value s _ IH|mem limitFps s s' _ IH E
                  |s _ IH|polls junk count s out s' _ IH E].
  - unfold buffersLive. cbn. lia.
  - eapply buffersLive_same; [apply writeSoundCnt_SameBuffers|exact IH].
  - eapply buffersLive_same; [|exact IH]. by split.
  - eapply buffersLive_same; [|exact IH]. by split.
  - eapply buffersLive_same; [|exact IH]. by split.
  - eapply buffersLive_same; [|exact IH]. by split.
  - eapply buffersLive_same; [|exact IH]. by split.
  - eapply buffersLive_same; [|exact IH]. by split.
  - eapply runSample_live; [exact IH|exact E].
  - by apply swapBuffers_live.
  - pose proof (getSamples_nonneg _ _ _ _ _ _ E) as Hc.
    destruct junk as [[junkIn junkOut] junkRes].
    destruct (getSamples_live polls junkIn junkOut junkRes count s IH Hc)
      as (filled & G & _ & _ & L & _).
    rewrite G in E. apply (inj Some) in E. apply (f_equal snd) in E. cbn [snd] in E.
    by subst s'.
Qed.

(** X19: the buffer accesses of the unit are in bounds.  In every reachable
    state the cursor is between 0 and the buffer size; unless the size is
    0 the two buffers are different live blocks of exactly that many
    words.  So a tick whose cursor is below the size (or whose unit has no
    buffers yet) writes inside the in buffer, and [getSamples] with any
    count that is not negative reads inside the out buffer and returns. *)
Theorem X19_buffer_accesses_in_bounds (H : Memory -> Z -> Prop) (s : Spu) :
  Reachable H s ->
  0 <= bufferPointer s <= bufferSize s /\
  (bufferSize s <> 0 ->
   exists a b la lb,
     bufferIn s = Some a /\ bufferOut s = Some b /\ a <> b /\
     heap s !! a = Some la /\ heap s !! b = Some lb /\
     Z.of_nat (length la) = bufferSize s /\ Z.of_nat (length lb) = bufferSize s) /\
  (forall mem limitFps,
     bufferPointer s < bufferSize s \/ bufferSize s = 0 ->
     runSample mem limitFps s <> Undefined) /\
  (forall polls junk count,
     0 <= count -> exists out s', getSamples polls junk count s = Some (out, s')).
Proof.
  intros Hr. pose proof (Reachable_live H s Hr) as Hl.
  pose proof (Reachable_WF H s Hr) as Hwf. apply wf_WF in Hwf.
  split; [apply Hl|]. split; [|split].
  - intros Hne. destruct Hl as [_ Hb].
    destruct (bufferIn s) as [a|], (bufferOut s) as [b|]; try done.
    destruct Hb as (Hab & la & lb & Hb). by exists a, b, la, lb.
  - intros mem limitFps Hc. apply runSample_defined; [exact Hwf|].
    by apply buffersLive_bufferOk.
  - intros polls [[junkIn junkOut] junkRes] count Hc.
    destruct (getSamples_live polls junkIn junkOut junkRes count s Hl Hc) as (filled & G & _).
    eauto.
Qed.

Lemma X19_witness :
  0 <= bufferPointer twoFrameUnit <= bufferSize twoFrameUnit /\
  (bufferSize twoFrameUnit <> 0 ->
   exists a b la lb,
     bufferIn twoFrameUnit = Some a /\ bufferOut twoFrameUnit = Some b /\ a <> b /\
     heap twoFrameUnit !! a = Some la /\ heap twoFrameUnit !! b = Some lb /\
     Z.of_nat (length la) = bufferSize twoFrameUnit /\
     Z.of_nat (length lb) = bufferSize twoFrameUnit) /\
  (forall mem limitFps,
     bufferPointer twoFrameUnit < bufferSize twoFrameUnit \/ bufferSize twoFrameUnit = 0 ->
     runSample mem limitFps twoFrameUnit <> Undefined) /\
  (forall polls junk count,
     0 <= count -> exists out s', getSamples polls junk count twoFrameUnit = Some (out, s')).
Proof.
  apply (X19_buffer_accesses_in_bounds AnyHeader twoFrameUnit).
  apply twoFrameUnit_Reachable.
Defined.

(** X20: a tick writes one word.  In a reachable state a tick of a unit
    without buffers changes nothing of the buffers and the free store; a
    tick of a unit with buffers stores one frame in the in buffer at the
    cursor and leaves every other block as it was, stepping the cursor by
    one modulo the size when it returns; it waits for the consumer only
    with the frame limit on and the [ready] flag still set, at the end of
    the buffer. *)
Theorem X20_tick_writes_one_word (H : Memory -> Z -> Prop) mem limitFps (s s' : Spu) :
  Reachable H s ->
  outcomeState (runSample mem limitFps s) = Some s' ->
  (bufferSize s = 0 -> SameBuffers s s') /\
  (bufferSize s <> 0 ->
   exists a la frame,
     bufferIn s = Some a /\ heap s !! a = Some la /\
     heap s' = <[a := <[Z.to_nat (bufferPointer s) := frame]> la]> (heap s) /\
     (forall p, p <> a -> heap s' !! p = heap s !! p) /\
     bufferSize s' = bufferSize s /\
     (runSample mem limitFps s = Returned s' ->
      bufferPointer s' = (bufferPointer s + 1) mod bufferSize s) /\
     (runSample mem limitFps s = Spinning s' ->
      bufferPointer s' = bufferSize s /\ limitFps = true /\ ready s = true)).
Proof.
  intros Hr. pose proof (Reachable_live H s Hr) as Hl.
  unfold runSample.
  destruct (runChannels mem 0 16 (s, (0, 0))) as [[s1 acc]|] eqn:Hch; [|done].
  pose proof (runChannels_Keep mem 16 0 16 _ _ Hch ltac:(lia)) as K. cbn [fst] in K.
  apply SameBuffers_Keep in K. pose proof (buffersLive_same _ _ K Hl) as [Hp Hb].
  pose proof K as [Kh Ki Ko Ks Kp Kr]. rewrite <- Kh, <- Ki, <- Ks, <- Kp, <- Kr.
  destruct (Z.eqb_spec (bufferSize s1) 0) as [E|E].
  - cbn [outcomeState]. intros E1. apply (inj Some) in E1. subst s'. done.
  - intros E1. split; [done|]. intros _. revert E1. unfold pushFrame.
    destruct (bufferIn s1) as [a|] eqn:Ea; [|done].
    destruct (bufferOut s1) as [b|] eqn:Eb; [|done].
    destruct Hb as (Hab & la & lb & Ha & Hlb & La & Lb).
    rewrite Ha.
    destruct (Z.leb_spec 0 (bufferPointer s1)); [|done].
    destruct (Z.ltb_spec (bufferPointer s1) (Z.of_nat (length la))); [|done].
    cbn [andb]. cbv zeta. proj.
    exists a, la, (frameOf s1 acc).
    destruct (Z.eqb_spec (bufferPointer s1 + 1) (bufferSize s1)) as [Ef|Ef];
      [destruct (limitFps && ready s1) eqn:Elr|]; cbn [outcomeState] in E1;
      apply (inj Some) in E1; subst s'; proj.
    + apply andb_true_iff in Elr as [-> ->].
      do 3 (split; [done|]). split; [intros p Hp'; apply lookup_insert_ne; congruence|].
      split; [done|]. split; [done|]. intros _. lia.
    + do 3 (split; [done|]). split; [intros p Hp'; apply lookup_insert_ne; congruence|].
      split; [done|]. split; [|done]. intros _. rewrite Ef, Z.mod_same by lia. done.
    + do 3 (split; [done|]). split; [intros p Hp'; apply lookup_insert_ne; congruence|].
      split; [done|]. split; [|done]. intros _. rewrite Z.mod_small by lia. done.
Qed.

Lemma X20_witness :
  let s' := afterTick zeroMemory false twoFrameUnit in
  (bufferSize twoFrameUnit = 0 -> SameBuffers twoFrameUnit s') /\
  (bufferSize twoFrameUnit <> 0 ->
   exists a la frame,
     bufferIn twoFrameUnit = Some a /\ heap twoFrameUnit !! a = Some la /\
     heap s' = <[a := <[Z.to_nat (bufferPointer twoFrameUnit) := frame]> la]> (heap twoFrameUnit) /\
     (forall p, p <> a -> heap s' !! p = heap twoFrameUnit !! p) /\
     bufferSize s' = bufferSize twoFrameUnit /\
     (runSample zeroMemory false twoFrameUnit = Returned s' ->
      bufferPointer s' = (bufferPointer twoFrameUnit + 1) mod bufferSize twoFrameUnit) /\
     (runSample zeroMemory false twoFrameUnit = Spinning s' ->
      bufferPointer s' = bufferSize twoFrameUnit /\ false = true /\ ready twoFrameUnit = true)).
Proof.
  apply (X20_tick_writes_one_word AnyHeader zeroMemory false twoFrameUnit).
  - apply twoFrameUnit_Reachable.
  - vm_compute. reflexivity.
Defined.

(** X21: with the frame limit on, a buffer the consumer has not taken is
    not overwritten.  While [ready] is set a tick leaves it set, swaps
    nothing and changes no word of the out buffer; the tick that fills the
    in buffer does not return but waits for the consumer. *)
Theorem X21_frame_limit_keeps_unplayed_buffer (H : Memory -> Z -> Prop) mem (s s' : Spu) :
  Reachable H s -> ready s = true ->
  outcomeState (runSample mem true s) = Some s' ->
  ready s' = true /\ bufferOut s' = bufferOut s /\ bufferIn s' = bufferIn s /\
  (forall b, bufferOut s = Some b -> heap s' !! b = heap s !! b) /\
  (bufferSize s <> 0 -> bufferPointer s + 1 = bufferSize s ->
   runSample mem true s = Spinning s').
Proof.
  intros Hr Hrd. pose proof (Reachable_live H s Hr) as Hl.
  unfold runSample.
  destruct (runChannels mem 0 16 (s, (0, 0))) as [[s1 acc]|] eqn:Hch; [|done].
  pose proof (runChannels_Keep mem 16 0 16 _ _ Hch ltac:(lia)) as K. cbn [fst] in K.
  apply SameBuffers_Keep in K. pose proof (buffersLive_same _ _ K Hl) as [Hp Hb].
  destruct K as [Kh Ki Ko Ks Kp Kr]. rewrite <- Kh, <- Ki, <- Ko, <- Ks, <- Kp.
  rewrite <- Kr in Hrd.
  destruct (Z.eqb_spec (bufferSize s1) 0) as [E|E].
  - cbn [outcomeState]. intros E1. apply (inj Some) in E1. subst s'. done.
  - unfold pushFrame.
    destruct (bufferIn s1) as [a|] eqn:Ea; [|done].
    destruct (bufferOut s1) as [b|] eqn:Eb; [|done].
    destruct Hb as (Hab & la & lb & Ha & Hlb & La & Lb).
    rewrite Ha.
    destruct (Z.leb_spec 0 (bufferPointer s1)); [|done].
    destruct (Z.ltb_spec (bufferPointer s1) (Z.of_nat (length la))); [|done].
    cbn [andb]. cbv zeta. proj. rewrite Hrd. cbn [andb].
    destruct (Z.eqb_spec (bufferPointer s1 + 1) (bufferSize s1)) as [Ef|Ef];
      cbn [outcomeState]; intros E1; apply (inj Some) in E1; subst s'; proj.
    + split; [done|]. split; [done|]. split; [done|]. split; [|done].
      intros b' Hb'. apply (inj Some) in Hb'. subst b'. by rewrite lookup_insert_ne.
    + split; [done|]. split; [done|]. split; [done|]. split; [|done].
      intros b' Hb'. apply (inj Some) in Hb'. subst b'. by rewrite lookup_insert_ne.
Qed.

Lemma X21_witness :
  let s' := afterTick zeroMemory true readyUnit in
  ready s' = true /\ bufferOut s' = bufferOut readyUnit /\ bufferIn s' = bufferIn readyUnit /\
  (forall b, bufferOut readyUnit = Some b -> heap s' !! b = heap readyUnit !! b) /\
  (bufferSize readyUnit <> 0 -> bufferPointer readyUnit + 1 = bufferSize readyUnit ->
   runSample zeroMemory true readyUnit = Spinning s').
Proof.
  apply (X21_frame_limit_keeps_unplayed_buffer AnyHeader zeroMemory readyUnit).
  - apply readyUnit_Reachable.
  - vm_compute. reflexivity.
  - vm_compute. reflexivity.
Defined.

Lemma destructor_same s s' : SameBuffers s s' -> destructor s' = destructor s.
Proof. intros []. unfold destructor. by rewrite_fields s'. Qed.

Lemma swapBuffers_destructor s : destructor (swapBuffers s) = destructor s.
Proof.
  unfold destructor, swapBuffers. proj.
  destruct (bufferIn s), (bufferOut s); cbn [free]; try done. apply delete_delete.
Qed.

Lemma pushFrame_destructor limitFps frame s s' :
  outcomeState (pushFrame limitFps frame s) = Some s' -> destructor s' = destructor s.
Proof.
  unfold pushFrame.
  destruct (bufferIn s) as [a|] eqn:Ea; [|done].
  destruct (heap s !! a) as [blk|]; [|done].
  destruct (_ && _); [|done]. cbv zeta. proj.
  set (s1 := set_bufferPointer _ _).
  assert (D1 : destructor s1 = destructor s).
  { subst s1. unfold destructor. proj. rewrite Ea. cbn [free].
    by rewrite delete_insert_eq. }
  clearbody s1.
  destruct (_ =? _); [destruct (_ && _)|]; cbn [outcomeState]; intros E;
    apply (inj Some) in E; subst s'; rewrite ?swapBuffers_destructor; exact D1.
Qed.

Lemma runSample_destructor mem limitFps s s' :
  outcomeState (runSample mem limitFps s) = Some s' -> destructor s' = destructor s.
Proof.
  unfold runSample.
  destruct (runChannels mem 0 16 (s, (0, 0))) as [[s1 acc]|] eqn:Hch; [|done].
  pose proof (runChannels_Keep mem 16 0 16 _ _ Hch ltac:(lia)) as K. cbn [fst] in K.
  apply SameBuffers_Keep, destructor_same in K.
  destruct (_ =? 0).
  - cbn [outcomeState]. intros E. apply (inj Some) in E. by subst.
  - intros E. apply pushFrame_destructor in E. by rewrite E.
Qed.

(** X22: what the destructor frees.  [~Spu] frees the two frame buffers,
    and nothing else.  No block is left of a fresh unit; register writes,
    ticks and buffer swaps do not change what the destructor leaves; each
    [getSamples] call adds exactly the block it returns, of [count] words
    at an address that held no block, which stays with the caller. *)
Theorem X22_destructor_leaves_callers_blocks (H : Memory -> Z -> Prop) (s : Spu) :
  Reachable H s ->
  destructor initial = ∅ /\
  (forall mem ch mask value, destructor (writeSoundCnt mem ch mask value s) = destructor s) /\
  (forall mem limitFps s',
     outcomeState (runSample mem limitFps s) = Some s' -> destructor s' = destructor s) /\
  destructor (swapBuffers s) = destructor s /\
  (forall polls junk count out s',
     getSamples polls junk count s = Some (out, s') ->
     destructor s !! out = None /\
     exists filled,
       length filled = Z.to_nat count /\ heap s' !! out = Some filled /\
       destructor s' = <[out := filled]> (destructor s)).
Proof.
  intros Hr. pose proof (Reachable_live H s Hr) as Hl.
  split; [reflexivity|]. split; [|split; [|split]].
  - intros mem ch mask value. apply destructor_same, writeSoundCnt_SameBuffers.
  - intros mem limitFps s'. apply runSample_destructor.
  - apply swapBuffers_destructor.
  - intros polls [[junkIn junkOut] junkRes] count out s' E.
    pose proof (getSamples_nonneg _ _ _ _ _ _ E) as Hc.
    destruct (getSamples_live polls junkIn junkOut junkRes count s Hl Hc)
      as (filled & G & Hlen & _ & _ & D & Dn).
    rewrite G in E. apply (inj Some) in E.
    pose proof (f_equal fst E) as E1. pose proof (f_equal snd E) as E2.
    cbn [fst snd] in E1, E2. subst out s'.
    split; [exact Dn|]. exists filled. split; [exact Hlen|]. split; [|exact D].
    proj. apply lookup_insert_eq.
Qed.

Lemma X22_witness :
  destructor initial = ∅ /\
  (forall mem ch mask value,
     destructor (writeSoundCnt mem ch mask value twoFrameUnit) = destructor twoFrameUnit) /\
  (forall mem limitFps s',
     outcomeState (runSample mem limitFps twoFrameUnit) = Some s' ->
     destructor s' = destructor twoFrameUnit) /\
  destructor (swapBuffers twoFrameUnit) = destructor twoFrameUnit /\
  (forall polls junk count out s',
     getSamples polls junk count twoFrameUnit = Some (out, s') ->
     destructor twoFrameUnit !! out = None /\
     exists filled,
       length filled = Z.to_nat count /\ heap s' !! out = Some filled /\
       destructor s' = <[out := filled]> (destructor twoFrameUnit)).
Proof.
  apply (X22_destructor_leaves_callers_blocks AnyHeader twoFrameUnit).
  apply twoFrameUnit_Reachable.
Defined.

(** X23: a change of the block size discards the frames produced so far.
    [getSamples] with a count different from the buffer size allocates
    both buffers anew, of [count] words, sets the cursor to 0 and clears
    [ready]; the block it returns holds the indeterminate contents of the
    new out buffer when [ready] was set, and [count] copies of that
    buffer's last word otherwise. *)
Theorem X23_resize_returns_indeterminate_frames (H : Memory -> Z -> Prop) (polls : nat)
    (junkIn junkOut junkRes : list Z) (count : Z) (s : Spu) (out : nat) (s' : Spu) :
  Reachable H s -> 0 < count -> bufferSize s <> count ->
  getSamples polls (junkIn, junkOut, junkRes) count s = Some (out, s') ->
  let n := Z.to_nat count in
  let fresh_out := resize n 0 junkOut in
  heap s' !! out
  = Some (if ready s then fresh_out
          else replicate n (default 0 (fresh_out !! (n - 1)%nat))) /\
  bufferSize s' = count /\ bufferPointer s' = 0 /\ ready s' = false /\
  exists a b,
    bufferIn s' = Some a /\ bufferOut s' = Some b /\
    heap s' !! a = Some (resize n 0 junkIn) /\ heap s' !! b = Some fresh_out.
Proof.
  intros Hr Hc Hne E n fresh_out. pose proof (Reachable_live H s Hr) as Hl.
  destruct (resizeBuffers_live count junkIn junkOut s Hl ltac:(lia))
    as (L0 & S0 & R0 & _ & Hnew).
  destruct (Hnew Hne) as (P0 & a & b & Ea & Eb & Ha & Hb).
  destruct (getSamples_live polls junkIn junkOut junkRes count s Hl ltac:(lia))
    as (filled & G & Hlen & Hfill & _).
  rewrite G in E. apply (inj Some) in E.
  pose proof (f_equal fst E) as E1. pose proof (f_equal snd E) as E2.
  cbn [fst snd] in E1, E2. subst out s'. proj.
  assert (Hoa : fresh (dom (heap (resizeBuffers count junkIn junkOut s))) <> a)
    by (eapply fresh_not_live, Ha).
  assert (Hob : fresh (dom (heap (resizeBuffers count junkIn junkOut s))) <> b)
    by (eapply fresh_not_live, Hb).
  rewrite lookup_insert_eq, (Hfill b _ Eb Hb).
  replace (Z.to_nat (count - 1)) with (n - 1)%nat by lia.
  split; [done|]. split; [done|]. split; [done|]. split; [done|].
  exists a, b. by rewrite !lookup_insert_ne by done.
Qed.

Lemma X23_witness :
  let n := Z.to_nat 3 in
  let fresh_out := resize n 0 [4; 5; 6] in
  heap resizedUnit !! 5%nat
  = Some (if ready twoFrameUnit then fresh_out
          else replicate n (default 0 (fresh_out !! (n - 1)%nat))) /\
  bufferSize resizedUnit = 3 /\ bufferPointer resizedUnit = 0 /\ ready resizedUnit = false /\
  exists a b,
    bufferIn resizedUnit = Some a /\ bufferOut resizedUnit = Some b /\
    heap resizedUnit !! a = Some (resize n 0 [1; 2; 3]) /\
    heap resizedUnit !! b = Some fresh_out.
Proof.
  apply (X23_resize_returns_indeterminate_frames AnyHeader 0 [1; 2; 3] [4; 5; 6] [7; 8; 9]
           3 twoFrameUnit 5%nat resizedUnit).
  - apply twoFrameUnit_Reachable.
  - lia.
  - vm_compute. discriminate.
  - vm_compute. reflexivity.
Defined.

(** ** Looping channels *)

(** The two addresses of a channel whose registers hold only their
    writable bits. *)
Lemma plain_addresses (i : nat) (s : Spu) :
  Forall (onlyBits 0x07FFFFFC) (soundSad s) -> Forall (onlyBits 0xFFFF) (soundPnt s) ->
  Forall (onlyBits 0x003FFFFF) (soundLen s) ->
  loopAddress i s = get (soundSad s) i + get (soundPnt s) i * 4 /\
  endAddress i s = get (soundSad s) i + (get (soundPnt s) i + get (soundLen s) i) * 4 /\
  get (soundSad s) i mod 4 = 0 /\
  0 <= get (soundSad s) i <= 0x07FFFFFC /\
  0 <= get (soundPnt s) i <= 0xFFFF /\ 0 <= get (soundLen s) i <= 0x003FFFFF.
Proof.
  intros Tsad Tpnt Tlen.
  pose proof (onlyBits_get _ _ i Tsad) as Hsad.
  assert (Hal : get (soundSad s) i mod 4 = 0)
    by (apply (onlyBits_aligned 0x07FFFFFC); [reflexivity|exact Hsad]).
  apply onlyBits_le in Hsad; [|lia].
  pose proof (onlyBits_get _ _ i Tpnt) as Hpnt. apply onlyBits_le in Hpnt; [|lia].
  pose proof (onlyBits_get _ _ i Tlen) as Hlen. apply onlyBits_le in Hlen; [|lia].
  unfold loopAddress, endAddress. rewrite !u32_small by lia. done.
Qed.

Lemma formatOf_range (x : Z) : 0 <= formatOf x <= 3.
Proof.
  pose proof (land_ones_range (Z.shiftr x 29) 2) as H.
  unfold formatOf. change 0x60000000 with (Z.shiftl (Z.ones 2) 29).
  rewrite Z.shiftr_land, Z.shiftr_shiftl_l by lia.
  change (29 - 29) with 0. rewrite Z.shiftl_0_r. change (2 ^ 2) with 4 in H. lia.
Qed.

(** Where one ADPCM nibble leaves the current address. *)
Lemma adpcmStep_current mem i s :
  WF s -> (i < 16)%nat ->
  get (soundCurrent (adpcmStep mem i s)) i
  = (if getb (adpcmToggle s) i then u32 (get (soundCurrent s) i + 1)
     else get (soundCurrent s) i).
Proof.
  intros Hwf Hi. unfold adpcmStep. cbv zeta.
  set (d := adpcmNibble mem i s). set (diff := adpcmDiff i d s).
  set (s1 := applyDiff i d diff s).
  set (s2 := nextIndex i d s1).
  assert (W1 : WF s1) by (eapply WF_Frame; [exact Hwf|apply applyDiff_Frame]).
  assert (W2 : WF s2) by (eapply WF_Frame; [exact W1|apply nextIndex_Frame]).
  destruct (applyDiff_others i d diff s) as (_ & A2 & A3 & _).
  destruct (nextIndex_others i d s1) as (_ & B2 & B3 & _).
  fold s1 in A2, A3. fold s2 in B2, B3.
  destruct (nextNibble_spec i s2) as (_ & N2);
    [rewrite (wf_adpcmToggle _ W2); done|rewrite (wf_soundCurrent _ W2); done|].
  destruct (saveLoop_others i (nextNibble i s2)) as (_ & _ & _ & S4 & _).
  rewrite S4, N2, B2, B3, A2, A3. reflexivity.
Qed.

(** Where the advance of a reload pass leaves the current address of a
    channel that plays sample data. *)
Lemma advance_current mem i format s :
  WF s -> (i < 16)%nat -> 0 <= format <= 2 ->
  get (soundCurrent (advance mem i format s)) i
  = (if format =? 2
     then if getb (adpcmToggle s) i then u32 (get (soundCurrent s) i + 1)
          else get (soundCurrent s) i
     else u32 (get (soundCurrent s) i + (1 + format))).
Proof.
  intros Hwf Hi Hf. unfold advance.
  destruct (Z.eqb_spec format 0) as [->|H0]; cbn [orb].
  { proj. rewrite get_insert_eq by (rewrite (wf_soundCurrent _ Hwf); done). reflexivity. }
  destruct (Z.eqb_spec format 1) as [->|H1]; cbn [orb].
  { proj. rewrite get_insert_eq by (rewrite (wf_soundCurrent _ Hwf); done). reflexivity. }
  destruct (Z.eqb_spec format 2) as [->|H2]; [|lia].
  by apply adpcmStep_current.
Qed.

(** One pass of the reload loop on a looping channel with sample data of
    positive length: the read pointer stays inside the sample data. *)
Lemma reloadStep_inSample mem i s :
  WF s -> (i < 16)%nat ->
  Forall (onlyBits 0x07FFFFFC) (soundSad s) -> Forall (onlyBits 0xFFFF) (soundPnt s) ->
  Forall (onlyBits 0x003FFFFF) (soundLen s) ->
  formatOf (get (soundCnt s) i) <> 3 -> repeatOf (get (soundCnt s) i) = 1 ->
  0 < get (soundLen s) i -> inSample i s ->
  inSample i (reloadStep mem i (formatOf (get (soundCnt s) i)) s).1 /\
  soundCnt (reloadStep mem i (formatOf (get (soundCnt s) i)) s).1 = soundCnt s /\
  soundLen (reloadStep mem i (formatOf (get (soundCnt s) i)) s).1 = soundLen s.
Proof.
  intros Hwf Hi Tsad Tpnt Tlen Hf Hrep Hlen [Hin Hev].
  pose proof (formatOf_range (get (soundCnt s) i)) as Hfr.
  set (format := formatOf (get (soundCnt s) i)) in *.
  destruct (plain_addresses i s Tsad Tpnt Tlen) as (Hloop & Hend & Hal & Hsad & Hpnt & Hl).
  pose proof (reloadStep_Frame mem i format s) as Fr.
  pose proof (reloadStep_keeps_cnt mem i format s (or_intror Hrep)) as Hcnt.
  split; [|split; [exact Hcnt|apply Fr]].
  assert (Hsame : loopAddress i (reloadStep mem i format s).1 = loopAddress i s /\
                  endAddress i (reloadStep mem i format s).1 = endAddress i s /\
                  get (soundSad (reloadStep mem i format s).1) i = get (soundSad s) i).
  { unfold loopAddress, endAddress.
    by rewrite (fr_soundSad _ _ _ Fr), (fr_soundPnt _ _ _ Fr), (fr_soundLen _ _ _ Fr). }
  destruct Hsame as (_ & E2 & E3).
  unfold inSample. rewrite Hcnt, E2, E3. fold format.
  (* the pointer after the pass *)
  assert (Hcur : get (soundCurrent (reloadStep mem i format s).1) i
                 = let c := get (soundCurrent (advance mem i format (reloadTimer i s))) i in
                   if c =? endAddress i s then loopAddress i s else c).
  { unfold reloadStep. cbv zeta. cbn [fst].
    destruct (reloadTimer_spec i s Hwf Hi) as (_ & _ & C0 & N0 & A0).
    assert (W0 : WF (reloadTimer i s))
      by (eapply WF_Frame; [exact Hwf|apply reloadTimer_Frame]).
    assert (L0 : loopAddress i (reloadTimer i s) = loopAddress i s) by reflexivity.
    set (s0 := reloadTimer i s) in *. clearbody s0.
    pose proof (advance_Frame mem i format s0) as F1.
    pose proof (advance_soundCnt mem i format s0) as N1.
    assert (W1 : WF (advance mem i format s0)) by (eapply WF_Frame; [exact W0|exact F1]).
    assert (A1 : endAddress i (advance mem i format s0) = endAddress i s).
    { rewrite <- A0. unfold endAddress.
      by rewrite (fr_soundSad _ _ _ F1), (fr_soundPnt _ _ _ F1), (fr_soundLen _ _ _ F1). }
    assert (L1 : loopAddress i (advance mem i format s0) = loopAddress i s).
    { rewrite <- L0. unfold loopAddress.
      by rewrite (fr_soundSad _ _ _ F1), (fr_soundPnt _ _ _ F1). }
    set (s1 := advance mem i format s0) in *. clearbody s1.
    unfold endOfData. rewrite A1.
    destruct (Z.eqb_spec format 3) as [|_]; [done|]. cbn [negb andb].
    destruct (get (soundCurrent s1) i =? endAddress i s); [|reflexivity].
    unfold repeatOf in Hrep. rewrite N1, N0, Hrep. change (1 =? 1) with true.
    cbv iota zeta. rewrite L1.
    set (s2 := set_soundCurrent _ s1).
    assert (C2 : get (soundCurrent s2) i = loopAddress i s).
    { subst s2. proj. apply get_insert_eq. rewrite (wf_soundCurrent _ W1). done. }
    assert (W2 : WF s2) by (destruct W1; subst s2; split; proj; rewrite ?length_insert; done).
    clearbody s2.
    destruct (format =? 2); [|exact C2].
    destruct (restoreLoop_spec i s2 W2 Hi) as (_ & _ & _ & _ & _ & R6 & _).
    by rewrite R6. }
  cbv zeta in Hcur.
  assert (Hadv : get (soundCurrent (advance mem i format (reloadTimer i s))) i
                 = (if format =? 2
                    then if getb (adpcmToggle s) i then u32 (get (soundCurrent s) i + 1)
                         else get (soundCurrent s) i
                    else u32 (get (soundCurrent s) i + (1 + format)))).
  { rewrite advance_current; [reflexivity| |exact Hi|lia].
    eapply WF_Frame; [exact Hwf|apply reloadTimer_Frame]. }
  rewrite Hcur, Hadv. clear Hcur Hadv.
  rewrite Hloop, Hend in *.
  set (cur := get (soundCurrent s) i) in *. set (sad := get (soundSad s) i) in *.
  set (pnt := get (soundPnt s) i) in *. set (len := get (soundLen s) i) in *.
  assert (Hev' : format = 1 -> cur + 2 <= sad + (pnt + len) * 4).
  { intros E. specialize (Hev E). Z.to_euclidean_division_equations. lia. }
  destruct (Z.eqb_spec format 2) as [E2f|E2f].
  - split; [|lia].
    destruct (getb (adpcmToggle s) i).
    + rewrite u32_small by lia.
      destruct (Z.eqb_spec (cur + 1) (sad + (pnt + len) * 4)); lia.
    + destruct (Z.eqb_spec cur (sad + (pnt + len) * 4)); lia.
  - rewrite u32_small by lia.
    destruct (Z.eqb_spec (cur + (1 + format)) (sad + (pnt + len) * 4)).
    + split; [lia|]. intros _. Z.to_euclidean_division_equations. lia.
    + split.
      * assert (format = 0 \/ format = 1) as [E|E] by lia; [lia|]. specialize (Hev' E). lia.
      * intros E. specialize (Hev E). rewrite E. Z.to_euclidean_division_equations. lia.
Qed.

Lemma reloadLoop_inSample (fuel : nat) mem i s s' :
  WF s -> (i < 16)%nat ->
  Forall (onlyBits 0x07FFFFFC) (soundSad s) -> Forall (onlyBits 0xFFFF) (soundPnt s) ->
  Forall (onlyBits 0x003FFFFF) (soundLen s) ->
  formatOf (get (soundCnt s) i) <> 3 -> repeatOf (get (soundCnt s) i) = 1 ->
  0 < get (soundLen s) i -> inSample i s ->
  reloadLoop fuel mem i (formatOf (get (soundCnt s) i)) s = Some s' ->
  inSample i s' /\ soundCnt s' = soundCnt s.
Proof.
  revert s. induction fuel as [|fuel IH]; intros s Hwf Hi Tsad Tpnt Tlen Hf Hrep Hlen Hin;
    cbn [reloadLoop]; [discriminate|].
  destruct (reloadStep_inSample mem i s Hwf Hi Tsad Tpnt Tlen Hf Hrep Hlen Hin)
    as (I1 & N1 & L1).
  pose proof (reloadStep_Frame mem i (formatOf (get (soundCnt s) i)) s) as F1.
  destruct (reloadStep mem i (formatOf (get (soundCnt s) i)) s) as [s1 ov].
  cbn [fst] in I1, N1, L1, F1.
  destruct ov.
  - intros E. rewrite <- N1 in E.
    apply IH in E; rewrite ?N1, ?L1, ?(fr_soundSad _ _ _ F1), ?(fr_soundPnt _ _ _ F1); try done.
    + destruct E as [I2 N2]. split; [exact I2|]. by rewrite N2.
    + eapply WF_Frame; [exact Hwf|exact F1].
  - intros E. apply (inj Some) in E. by subst.
Qed.

Lemma runTimer_inSample mem i s s' :
  WF s -> (i < 16)%nat ->
  Forall (onlyBits 0x07FFFFFC) (soundSad s) -> Forall (onlyBits 0xFFFF) (soundPnt s) ->
  Forall (onlyBits 0x003FFFFF) (soundLen s) ->
  formatOf (get (soundCnt s) i) <> 3 -> repeatOf (get (soundCnt s) i) = 1 ->
  0 < get (soundLen s) i -> inSample i s ->
  runTimer mem i (formatOf (get (soundCnt s) i)) s = Some s' ->
  inSample i s' /\ soundCnt s' = soundCnt s.
Proof.
  intros Hwf Hi Tsad Tpnt Tlen Hf Hrep Hlen Hin. unfold runTimer. cbv zeta.
  destruct (_ <? 512).
  - intros E.
    apply (reloadLoop_inSample _ mem i (tickTimer i s)) in E; try done.
    eapply WF_Frame; [exact Hwf|apply tickTimer_Frame].
  - intros E. apply (inj Some) in E. by subst.
Qed.

Lemma inSample_Keep i s s' : Keep i s s' -> inSample i s -> inSample i s'.
Proof.
  intros K. unfold inSample.
  by rewrite (endAddress_Keep _ _ _ K), (kp_soundSad _ _ _ K), (kp_soundCurrent _ _ _ K),
    (kp_soundCnt _ _ _ K).
Qed.

Lemma inSample_SameSound i s s' : SameSound s s' -> inSample i s -> inSample i s'.
Proof.
  intros []. unfold inSample, endAddress. by rewrite_fields s'.
Qed.

(** A tick on a looping channel with sample data of positive length. *)
Lemma tick_inSample mem limitFps (i : nat) (s s' : Spu) :
  WF s -> Typed s -> (i < 16)%nat ->
  enabled (get (soundCnt s) i) = true ->
  formatOf (get (soundCnt s) i) <> 3 -> repeatOf (get (soundCnt s) i) = 1 ->
  0 < get (soundLen s) i -> inSample i s ->
  outcomeState (runSample mem limitFps s) = Some s' ->
  inSample i s' /\ get (soundCnt s') i = get (soundCnt s) i /\
  soundLen s' = soundLen s.
Proof.
  intros Hwf Hty Hi Hen Hf Hrep Hlen Hin Hrun.
  destruct (runSample_channel mem limitFps i s s' Hi Hwf Hrun)
    as (st1 & st2 & s1 & K1 & W1 & Hpass & K2 & Hss).
  rewrite runChannel_enabled_unfold in Hpass by (by rewrite (kp_soundCnt _ _ _ K1)).
  destruct (runTimer mem i _ st1.1) as [s2|] eqn:E; [|discriminate].
  cbn [mbind option_bind] in Hpass. apply (inj Some) in Hpass.
  subst st2. cbn [fst] in K2.
  pose proof (runTimer_Frame _ _ _ _ _ E) as F2.
  apply runTimer_inSample in E; try done.
  - destruct E as [I2 N2].
    split; [|split].
    + eapply inSample_SameSound; [exact Hss|]. eapply inSample_Keep; [exact K2|exact I2].
    + rewrite (ss_soundCnt _ _ Hss), (kp_soundCnt _ _ _ K2), N2. apply (kp_soundCnt _ _ _ K1).
    + rewrite (ss_soundLen _ _ Hss), (kp_soundLen _ _ _ K2), (fr_soundLen _ _ _ F2).
      apply (kp_soundLen _ _ _ K1).
  - rewrite (kp_soundSad _ _ _ K1). apply Hty.
  - rewrite (kp_soundPnt _ _ _ K1). apply Hty.
  - rewrite (kp_soundLen _ _ _ K1). apply Hty.
  - by rewrite (kp_soundCnt _ _ _ K1).
  - by rewrite (kp_soundCnt _ _ _ K1).
  - by rewrite (kp_soundLen _ _ _ K1).
  - by apply (inSample_Keep i s).
Qed.

(** X24: the read pointer of a looping channel never leaves its sample
    data.  For an enabled PCM8, PCM16 or ADPCM channel in loop mode whose
    length is not 0, in a reachable state: if the current address is at or
    after the source address and before the end address (and even, for
    PCM16), then it is so again after any number of ticks, and the control
    word, the source address and the end address are what they were. *)
Theorem X24_looping_pointer_stays_in_sample (H : Memory -> Z -> Prop) mem limitFps
    (i : nat) (n : nat) (s s' : Spu) :
  Reachable H s -> (i < 16)%nat ->
  enabled (get (soundCnt s) i) = true ->
  formatOf (get (soundCnt s) i) <> 3 -> repeatOf (get (soundCnt s) i) = 1 ->
  0 < get (soundLen s) i ->
  get (soundSad s) i <= get (soundCurrent s) i < endAddress i s ->
  (formatOf (get (soundCnt s) i) = 1 -> get (soundCurrent s) i mod 2 = 0) ->
  runTicks n mem limitFps s = Returned s' ->
  get (soundSad s') i <= get (soundCurrent s') i < endAddress i s' /\
  (formatOf (get (soundCnt s') i) = 1 -> get (soundCurrent s') i mod 2 = 0) /\
  get (soundCnt s') i = get (soundCnt s) i /\
  get (soundSad s') i = get (soundSad s) i /\ endAddress i s' = endAddress i s.
Proof.
  intros Hr Hi Hen Hf Hrep Hlen Hin Hev.
  assert (Hs : inSample i s) by (split; assumption). clear Hin Hev.
  revert s Hr Hen Hf Hrep Hlen Hs. induction n as [|n IH]; intros s Hr Hen Hf Hrep Hlen Hs;
    cbn [runTicks].
  - intros E. injection E as <-. destruct Hs. done.
  - destruct (runSample mem limitFps s) as [s1| |] eqn:E1; try discriminate.
    assert (Ho : outcomeState (runSample mem limitFps s) = Some s1) by (by rewrite E1).
    destruct (tick_inSample mem limitFps i s s1 (Reachable_WF H s Hr) (Reachable_Typed H s Hr)
                Hi Hen Hf Hrep Hlen Hs Ho) as (I1 & N1 & L1).
    destruct (runSample_sound _ _ _ _ Ho) as (sa & acc & Hch & Hss).
    pose proof (runChannels_Keep mem 16 0 16 _ _ Hch ltac:(lia)) as K. cbn [fst] in K.
    intros E. apply IH in E; rewrite ?N1, ?L1; try done.
    + destruct E as (E1' & E2 & E3 & E4 & E5).
      split; [exact E1'|]. split; [exact E2|]. split; [by rewrite E3|].
      split.
      * by rewrite E4, (ss_soundSad _ _ Hss), (kp_soundSad _ _ _ K).
      * rewrite E5. unfold endAddress.
        by rewrite (ss_soundSad _ _ Hss), (ss_soundPnt _ _ Hss), (ss_soundLen _ _ Hss),
          (kp_soundSad _ _ _ K), (kp_soundPnt _ _ _ K), (kp_soundLen _ _ _ K).
    + eapply reach_runSample; [exact Hr|exact Ho].
Qed.

Lemma X24_witness :
  let s' := afterTicks 3 zeroMemory false loopStart in
  get (soundSad s') 0 <= get (soundCurrent s') 0 < endAddress 0 s' /\
  (formatOf (get (soundCnt s') 0) = 1 -> get (soundCurrent s') 0 mod 2 = 0) /\
  get (soundCnt s') 0 = get (soundCnt loopStart) 0 /\
  get (soundSad s') 0 = get (soundSad loopStart) 0 /\
  endAddress 0 s' = endAddress 0 loopStart.
Proof.
  apply (X24_looping_pointer_stays_in_sample AnyHeader zeroMemory false 0 3 loopStart).
  - apply loopStart_Reachable.
  - lia.
  - vm_compute. reflexivity.
  - vm_compute. discriminate.
  - vm_compute. reflexivity.
  - vm_compute. reflexivity.
  - vm_compute. split; [discriminate|reflexivity].
  - vm_compute. discriminate.
  - vm_compute. reflexivity.
Defined.

(** Where one ADPCM nibble leaves the nibble selector, the current
    address and the loop pair. *)
Lemma adpcmStep_position mem i s :
  WF s -> (i < 16)%nat ->
  let t := getb (adpcmToggle s) i in
  let a' := if t then u32 (get (soundCurrent s) i + 1) else get (soundCurrent s) i in
  get (soundCurrent (adpcmStep mem i s)) i = a' /\
  getb (adpcmToggle (adpcmStep mem i s)) i = negb t /\
  ((a' =? loopAddress i s) && t = false ->
   get (adpcmLoopValue (adpcmStep mem i s)) i = get (adpcmLoopValue s) i /\
   get (adpcmLoopIndex (adpcmStep mem i s)) i = get (adpcmLoopIndex s) i).
Proof.
  intros Hwf Hi t a'.
  split; [apply adpcmStep_current; assumption|].
  unfold adpcmStep. cbv zeta.
  set (d := adpcmNibble mem i s). set (diff := adpcmDiff i d s).
  set (s1 := applyDiff i d diff s).
  set (s2 := nextIndex i d s1).
  assert (W1 : WF s1) by (eapply WF_Frame; [exact Hwf|apply applyDiff_Frame]).
  assert (W2 : WF s2) by (eapply WF_Frame; [exact W1|apply nextIndex_Frame]).
  assert (W3 : WF (nextNibble i s2)) by (eapply WF_Frame; [exact W2|apply nextNibble_Frame]).
  destruct (applyDiff_others i d diff s) as (_ & A2 & A3 & A4 & A5 & A6 & A7 & _).
  destruct (nextIndex_others i d s1) as (_ & B2 & B3 & B4 & B5 & B6 & B7 & _).
  fold s1 in A2, A3, A4, A5, A6, A7. fold s2 in B2, B3, B4, B5, B6, B7.
  destruct (nextNibble_spec i s2) as (N1 & N2);
    [rewrite (wf_adpcmToggle _ W2); done|rewrite (wf_soundCurrent _ W2); done|].
  destruct (nextNibble_others i s2) as (_ & _ & C3 & C4 & C5 & C6 & _).
  destruct (saveLoop_others i (nextNibble i s2)) as (_ & _ & S3 & _).
  destruct (saveLoop_spec i (nextNibble i s2)) as (L1 & L2);
    [rewrite (wf_adpcmLoopValue _ W3); done|rewrite (wf_adpcmLoopIndex _ W3); done|].
  cbv zeta in L1, L2.
  rewrite N1, N2, C5, C6, B2, B3, B6, B7, A2, A3, A6, A7, negb_involutive in L1, L2.
  rewrite C3, B4, A4 in L1. rewrite C4, B5, A5 in L2.
  fold t in L1, L2, N1. fold a' in L1, L2.
  split.
  - rewrite S3, N1, B2, A2. reflexivity.
  - intros Hat. unfold loopAddress in Hat. rewrite Hat in L1, L2. done.
Qed.

(** One pass of the reload loop on an ADPCM channel in loop mode whose
    read pointer is between the loop address and the end address. *)
Lemma reloadStep_adpcm_loop mem i s :
  WF s -> (i < 16)%nat ->
  Forall (onlyBits 0x07FFFFFC) (soundSad s) -> Forall (onlyBits 0xFFFF) (soundPnt s) ->
  Forall (onlyBits 0x003FFFFF) (soundLen s) ->
  repeatOf (get (soundCnt s) i) = 1 -> 0 < get (soundLen s) i ->
  loopAddress i s <= get (soundCurrent s) i < endAddress i s ->
  let t := getb (adpcmToggle s) i in
  let a' := if t then get (soundCurrent s) i + 1 else get (soundCurrent s) i in
  let s' := (reloadStep mem i 2 s).1 in
  WF s' /\ soundCnt s' = soundCnt s /\ soundSad s' = soundSad s /\
  soundPnt s' = soundPnt s /\ soundLen s' = soundLen s /\
  get (soundCurrent s') i = (if a' =? endAddress i s then loopAddress i s else a') /\
  getb (adpcmToggle s') i = (if a' =? endAddress i s then false else negb t) /\
  get (adpcmLoopValue s') i = get (adpcmLoopValue s) i /\
  get (adpcmLoopIndex s') i = get (adpcmLoopIndex s) i /\
  (a' = endAddress i s ->
   get (adpcmValue s') i = get (adpcmLoopValue s) i /\
   get (adpcmIndex s') i = get (adpcmLoopIndex s) i).
Proof.
  intros Hwf Hi Tsad Tpnt Tlen Hrep Hlen Hin t a' s'.
  destruct (plain_addresses i s Tsad Tpnt Tlen) as (Hloop & Hend & Hal & Hsad & Hpnt & Hl).
  pose proof (reloadStep_Frame mem i 2 s) as Fr.
  pose proof (reloadStep_keeps_cnt mem i 2 s (or_intror Hrep)) as Hcnt.
  fold s' in Fr, Hcnt.
  split; [eapply WF_Frame; [exact Hwf|exact Fr]|].
  split; [exact Hcnt|]. split; [apply Fr|]. split; [apply Fr|]. split; [apply Fr|].
  clear Fr Hcnt. subst s'. unfold reloadStep. cbv zeta. cbn [fst].
  destruct (reloadTimer_spec i s Hwf Hi) as (_ & _ & C0 & N0 & A0).
  assert (W0 : WF (reloadTimer i s))
    by (eapply WF_Frame; [exact Hwf|apply reloadTimer_Frame]).
  assert (L0 : loopAddress i (reloadTimer i s) = loopAddress i s) by reflexivity.
  assert (G0 : getb (adpcmToggle (reloadTimer i s)) i = t) by reflexivity.
  assert (V0 : get (adpcmLoopValue (reloadTimer i s)) i = get (adpcmLoopValue s) i)
    by reflexivity.
  assert (I0 : get (adpcmLoopIndex (reloadTimer i s)) i = get (adpcmLoopIndex s) i)
    by reflexivity.
  set (s0 := reloadTimer i s) in *. clearbody s0.
  change (advance mem i 2 s0) with (adpcmStep mem i s0).
  destruct (adpcmStep_position mem i s0 W0 Hi) as (P1 & P2 & P3).
  cbv zeta in P1, P2, P3. rewrite G0, C0 in P1. rewrite G0 in P2. rewrite G0, C0, L0 in P3.
  assert (Ea : (if t then u32 (get (soundCurrent s) i + 1) else get (soundCurrent s) i) = a').
  { subst a'. destruct t; [apply u32_small; lia|reflexivity]. }
  rewrite Ea in P1, P3.
  assert (Hnl : (a' =? loopAddress i s) && t = false).
  { subst a'. destruct t; [|apply andb_false_r].
    rewrite andb_true_r. apply Z.eqb_neq. lia. }
  destruct (P3 Hnl) as (P4 & P5). clear P3.
  pose proof (adpcmStep_Frame mem i s0) as F1.
  pose proof (adpcmStep_soundCnt mem i s0) as N1.
  assert (W1 : WF (adpcmStep mem i s0)) by (eapply WF_Frame; [exact W0|exact F1]).
  assert (A1 : endAddress i (adpcmStep mem i s0) = endAddress i s).
  { rewrite <- A0. unfold endAddress.
    by rewrite (fr_soundSad _ _ _ F1), (fr_soundPnt _ _ _ F1), (fr_soundLen _ _ _ F1). }
  assert (L1 : loopAddress i (adpcmStep mem i s0) = loopAddress i s).
  { rewrite <- L0. unfold loopAddress.
    by rewrite (fr_soundSad _ _ _ F1), (fr_soundPnt _ _ _ F1). }
  set (s1 := adpcmStep mem i s0) in *. clearbody s1.
  unfold endOfData. rewrite A1, P1. change (negb (2 =? 3)) with true. cbn [andb].
  destruct (Z.eqb_spec a' (endAddress i s)) as [He|He].
  - unfold repeatOf in Hrep. rewrite N1, N0, Hrep. change (1 =? 1) with true.
    change (2 =? 2) with true. cbv iota zeta. rewrite L1.
    set (s2 := set_soundCurrent _ s1).
    assert (C2 : get (soundCurrent s2) i = loopAddress i s).
    { subst s2. proj. apply get_insert_eq. rewrite (wf_soundCurrent _ W1). done. }
    assert (V2 : get (adpcmLoopValue s2) i = get (adpcmLoopValue s) i)
      by (subst s2; proj; by rewrite P4, V0).
    assert (I2 : get (adpcmLoopIndex s2) i = get (adpcmLoopIndex s) i)
      by (subst s2; proj; by rewrite P5, I0).
    assert (W2 : WF s2) by (destruct W1; subst s2; split; proj; rewrite ?length_insert; done).
    clearbody s2.
    destruct (restoreLoop_spec i s2 W2 Hi) as (R1 & R2 & R3 & R4 & R5 & R6 & _).
    rewrite R1, R2, R3, R4, R5, R6, C2, V2, I2. done.
  - rewrite P1, P2, P4, P5, V0, I0. done.
Qed.

Lemma odd_succ_half (m : Z) :
  0 <= m ->
  (m + 1) / 2 = (if Z.odd m then m / 2 + 1 else m / 2) /\ Z.odd (m + 1) = negb (Z.odd m).
Proof.
  intros Hm. split.
  - rewrite (Z.div_mod m 2) at 1 by lia. rewrite Zmod_odd.
    destruct (Z.odd m).
    + replace (2 * (m / 2) + 1 + 1) with ((m / 2 + 1) * 2) by lia. apply Z.div_mul. lia.
    + replace (2 * (m / 2) + 0 + 1) with (1 + (m / 2) * 2) by lia.
      rewrite Z.div_add by lia. reflexivity.
  - replace (m + 1) with (Z.succ m) by lia. rewrite Z.odd_succ, <- Z.negb_odd. reflexivity.
Qed.

(** The passes of an ADPCM channel through its loop, from the loop
    address to the last nibble before the end address. *)
Lemma reloadPass_in_loop mem (i : nat) (s : Spu) (k : nat) :
  WF s -> (i < 16)%nat ->
  Forall (onlyBits 0x07FFFFFC) (soundSad s) -> Forall (onlyBits 0xFFFF) (soundPnt s) ->
  Forall (onlyBits 0x003FFFFF) (soundLen s) ->
  formatOf (get (soundCnt s) i) = 2 -> repeatOf (get (soundCnt s) i) = 1 ->
  getb (adpcmToggle s) i = false -> get (soundCurrent s) i = loopAddress i s ->
  Z.of_nat k < 8 * get (soundLen s) i ->
  let sk := Nat.iter k (reloadPass mem i) s in
  WF sk /\ soundCnt sk = soundCnt s /\ soundSad sk = soundSad s /\
  soundPnt sk = soundPnt s /\ soundLen sk = soundLen s /\
  get (soundCurrent sk) i = loopAddress i s + Z.of_nat k / 2 /\
  getb (adpcmToggle sk) i = Z.odd (Z.of_nat k) /\
  get (adpcmLoopValue sk) i = get (adpcmLoopValue s) i /\
  get (adpcmLoopIndex sk) i = get (adpcmLoopIndex s) i.
Proof.
  intros Hwf Hi Tsad Tpnt Tlen Hf Hrep Htog Hcur.
  destruct (plain_addresses i s Tsad Tpnt Tlen) as (Hloop & Hend & Hal & Hsad & Hpnt & Hl).
  induction k as [|k IH]; intros Hk; cbv zeta.
  - change (Nat.iter 0 (reloadPass mem i) s) with s.
    rewrite Hcur, Htog. change (Z.of_nat 0 / 2) with 0. rewrite Z.add_0_r. done.
  - rewrite Nat.iter_succ.
    destruct (IH ltac:(lia)) as (Wk & Nk & Sk & Pk & Lk & Ck & Gk & Vk & Ik). clear IH.
    set (sk := Nat.iter k (reloadPass mem i) s) in *. clearbody sk.
    assert (Es : reloadPass mem i sk = (reloadStep mem i 2 sk).1)
      by (unfold reloadPass; by rewrite Nk, Hf).
    rewrite Es. clear Es.
    assert (Lo : loopAddress i sk = loopAddress i s)
      by (unfold loopAddress; by rewrite Sk, Pk).
    assert (En : endAddress i sk = endAddress i s)
      by (unfold endAddress; by rewrite Sk, Pk, Lk).
    pose proof (Z.div_pos (Z.of_nat k) 2 ltac:(lia) ltac:(lia)) as Hq0.
    assert (Hq1 : Z.of_nat k / 2 < 4 * get (soundLen s) i)
      by (apply Z.div_lt_upper_bound; lia).
    destruct (odd_succ_half (Z.of_nat k) ltac:(lia)) as [Hh Ho].
    replace (Z.of_nat k + 1) with (Z.of_nat (S k)) in Hh, Ho by lia.
    assert (Hq2 : Z.of_nat (S k) / 2 < 4 * get (soundLen s) i)
      by (apply Z.div_lt_upper_bound; lia).
    assert (Tsk : Forall (onlyBits 0x07FFFFFC) (soundSad sk)) by (by rewrite Sk).
    assert (Tpk : Forall (onlyBits 0xFFFF) (soundPnt sk)) by (by rewrite Pk).
    assert (Tlk : Forall (onlyBits 0x003FFFFF) (soundLen sk)) by (by rewrite Lk).
    assert (Rk : repeatOf (get (soundCnt sk) i) = 1) by (by rewrite Nk).
    assert (Hlk : 0 < get (soundLen sk) i) by (rewrite Lk; lia).
    assert (Hik : loopAddress i sk <= get (soundCurrent sk) i < endAddress i sk)
      by (rewrite Lo, En, Ck; lia).
    destruct (reloadStep_adpcm_loop mem i sk Wk Hi Tsk Tpk Tlk Rk Hlk Hik)
      as (W' & N' & S' & P' & L' & C' & G' & V' & I' & _).
    cbv zeta in C', G'. rewrite En, Lo, Ck, Gk in C'. rewrite En, Ck, Gk in G'.
    set (a' := if Z.odd (Z.of_nat k) then _ else _) in C', G'.
    assert (Ea : a' = loopAddress i s + Z.of_nat (S k) / 2).
    { subst a'. rewrite Hh. destruct (Z.odd (Z.of_nat k)); lia. }
    assert (Hne : a' <> endAddress i s) by lia.
    apply Z.eqb_neq in Hne. rewrite Hne in C', G'.
    split; [exact W'|]. split; [by rewrite N'|]. split; [by rewrite S'|].
    split; [by rewrite P'|]. split; [by rewrite L'|].
    split; [by rewrite C'|]. split; [by rewrite G', Ho|].
    split; [by rewrite V'|by rewrite I'].
Qed.

(** X25: the loop of an ADPCM channel replays exactly.  When the read
    pointer of an ADPCM channel in loop mode stands at the loop address
    with the low nibble next, and the predictor and the step index are the
    pair saved for the loop, the next [8 * soundLen] reload passes take
    the two nibbles of every byte from the loop address up to the end
    address in order, and the last of them brings the channel back to the
    very same predictor, step index, nibble selector, current address and
    saved pair; the control word is unchanged. *)
Theorem X25_adpcm_loop_is_periodic (H : Memory -> Z -> Prop) mem (i : nat) (s : Spu) :
  Reachable H s -> (i < 16)%nat ->
  formatOf (get (soundCnt s) i) = 2 -> repeatOf (get (soundCnt s) i) = 1 ->
  0 < get (soundLen s) i ->
  getb (adpcmToggle s) i = false -> get (soundCurrent s) i = loopAddress i s ->
  get (adpcmValue s) i = get (adpcmLoopValue s) i ->
  get (adpcmIndex s) i = get (adpcmLoopIndex s) i ->
  let period := Z.to_nat (8 * get (soundLen s) i) in
  adpcmChannel i (Nat.iter period (reloadPass mem i) s) = adpcmChannel i s /\
  soundCnt (Nat.iter period (reloadPass mem i) s) = soundCnt s /\
  (forall k : nat,
     (k < period)%nat ->
     get (soundCurrent (Nat.iter k (reloadPass mem i) s)) i
     = loopAddress i s + Z.of_nat k / 2 /\
     getb (adpcmToggle (Nat.iter k (reloadPass mem i) s)) i = Z.odd (Z.of_nat k) /\
     loopAddress i s <= get (soundCurrent (Nat.iter k (reloadPass mem i) s)) i
     < endAddress i s).
Proof.
  intros Hr Hi Hf Hrep Hlen Htog Hcur Hval Hidx period.
  pose proof (Reachable_WF H s Hr) as Hwf.
  pose proof (Reachable_Typed H s Hr) as Hty.
  pose proof (ty_soundSad s Hty) as Tsad. pose proof (ty_soundPnt s Hty) as Tpnt.
  pose proof (ty_soundLen s Hty) as Tlen.
  destruct (plain_addresses i s Tsad Tpnt Tlen) as (Hloop & Hend & Hal & Hsad & Hpnt & Hl).
  assert (Hin : forall k : nat, (k < period)%nat ->
            get (soundCurrent (Nat.iter k (reloadPass mem i) s)) i
            = loopAddress i s + Z.of_nat k / 2 /\
            getb (adpcmToggle (Nat.iter k (reloadPass mem i) s)) i = Z.odd (Z.of_nat k) /\
            loopAddress i s <= get (soundCurrent (Nat.iter k (reloadPass mem i) s)) i
            < endAddress i s).
  { intros k Hk.
    destruct (reloadPass_in_loop mem i s k Hwf Hi Tsad Tpnt Tlen Hf Hrep Htog Hcur ltac:(lia))
      as (_ & _ & _ & _ & _ & Ck & Gk & _).
    split; [exact Ck|]. split; [exact Gk|]. rewrite Ck.
    pose proof (Z.div_pos (Z.of_nat k) 2 ltac:(lia) ltac:(lia)).
    assert (Z.of_nat k / 2 < 4 * get (soundLen s) i) by (apply Z.div_lt_upper_bound; lia).
    lia. }
  split; [|split; [|exact Hin]].
  - assert (Ep : period = S (Z.to_nat (8 * get (soundLen s) i - 1))) by lia.
    rewrite Ep, Nat.iter_succ.
    set (k := Z.to_nat (8 * get (soundLen s) i - 1)).
    destruct (reloadPass_in_loop mem i s k Hwf Hi Tsad Tpnt Tlen Hf Hrep Htog Hcur ltac:(lia))
      as (Wk & Nk & Sk & Pk & Lk & Ck & Gk & Vk & Ik).
    set (sk := Nat.iter k (reloadPass mem i) s) in *. clearbody sk.
    assert (Es : reloadPass mem i sk = (reloadStep mem i 2 sk).1)
      by (unfold reloadPass; by rewrite Nk, Hf).
    rewrite Es. clear Es.
    assert (Lo : loopAddress i sk = loopAddress i s)
      by (unfold loopAddress; by rewrite Sk, Pk).
    assert (En : endAddress i sk = endAddress i s)
      by (unfold endAddress; by rewrite Sk, Pk, Lk).
    assert (Ek : Z.of_nat k = 2 * (4 * get (soundLen s) i - 1) + 1) by lia.
    assert (Hq : Z.of_nat k / 2 = 4 * get (soundLen s) i - 1).
    { rewrite Ek. rewrite Z.add_comm, Z.mul_comm, Z.div_add by lia.
      change (1 / 2) with 0. lia. }
    assert (Hodd : Z.odd (Z.of_nat k) = true).
    { rewrite Ek, Z.add_comm, Z.odd_add_mul_2. reflexivity. }
    assert (Tsk : Forall (onlyBits 0x07FFFFFC) (soundSad sk)) by (by rewrite Sk).
    assert (Tpk : Forall (onlyBits 0xFFFF) (soundPnt sk)) by (by rewrite Pk).
    assert (Tlk : Forall (onlyBits 0x003FFFFF) (soundLen sk)) by (by rewrite Lk).
    assert (Rk : repeatOf (get (soundCnt sk) i) = 1) by (by rewrite Nk).
    assert (Hlk : 0 < get (soundLen sk) i) by (rewrite Lk; lia).
    assert (Hik : loopAddress i sk <= get (soundCurrent sk) i < endAddress i sk)
      by (rewrite Lo, En, Ck; lia).
    destruct (reloadStep_adpcm_loop mem i sk Wk Hi Tsk Tpk Tlk Rk Hlk Hik)
      as (W' & N' & S' & P' & L' & C' & G' & V' & I' & R').
    cbv zeta in C', G', R'. rewrite En, Lo, Ck, Gk, Hodd, Hq in C'.
    rewrite En, Ck, Gk, Hodd, Hq in G', R'.
    assert (Ee : loopAddress i s + (4 * get (soundLen s) i - 1) + 1 = endAddress i s) by lia.
    rewrite Ee, Z.eqb_refl in C', G'. destruct (R' Ee) as [R1 R2].
    set (s' := (reloadStep mem i 2 sk).1) in *. clearbody s'.
    unfold adpcmChannel.
    rewrite R1, R2, G', C', V', I', Vk, Ik, Hval, Hidx, Htog, Hcur. reflexivity.
  - assert (Ep : period = S (Z.to_nat (8 * get (soundLen s) i - 1))) by lia.
    rewrite Ep, Nat.iter_succ.
    set (k := Z.to_nat (8 * get (soundLen s) i - 1)).
    destruct (reloadPass_in_loop mem i s k Hwf Hi Tsad Tpnt Tlen Hf Hrep Htog Hcur ltac:(lia))
      as (Wk & Nk & _).
    unfold reloadPass at 1. rewrite reloadStep_keeps_cnt; [exact Nk|].
    right. by rewrite Nk.
Qed.

Lemma X25_witness :
  let period := Z.to_nat (8 * get (soundLen adpcmLoopStart) 3) in
  adpcmChannel 3 (Nat.iter period (reloadPass zeroHeaderMemory 3) adpcmLoopStart)
  = adpcmChannel 3 adpcmLoopStart /\
  soundCnt (Nat.iter period (reloadPass zeroHeaderMemory 3) adpcmLoopStart)
  = soundCnt adpcmLoopStart /\
  (forall k : nat,
     (k < period)%nat ->
     get (soundCurrent (Nat.iter k (reloadPass zeroHeaderMemory 3) adpcmLoopStart)) 3
     = loopAddress 3 adpcmLoopStart + Z.of_nat k / 2 /\
     getb (adpcmToggle (Nat.iter k (reloadPass zeroHeaderMemory 3) adpcmLoopStart)) 3
     = Z.odd (Z.of_nat k) /\
     loopAddress 3 adpcmLoopStart
     <= get (soundCurrent (Nat.iter k (reloadPass zeroHeaderMemory 3) adpcmLoopStart)) 3
     < endAddress 3 adpcmLoopStart).
Proof.
  apply (X25_adpcm_loop_is_periodic AnyHeader zeroHeaderMemory 3 adpcmLoopStart).
  - apply adpcmLoopStart_Reachable.
  - lia.
  - vm_compute. reflexivity.
  - vm_compute. reflexivity.
  - vm_compute. reflexivity.
  - vm_compute. reflexivity.
  - vm_compute. reflexivity.
  - vm_compute. reflexivity.
  - vm_compute. reflexivity.
Defined.

(** ** The exchange of whole blocks *)

(** The push that fills the in buffer while the consumer has not taken
    the out buffer and the frame limit is on. *)
Lemma pushFrame_spin frame s a blk :
  bufferIn s = Some a -> heap s !! a = Some blk ->
  0 <= bufferPointer s < Z.of_nat (length blk) ->
  bufferPointer s + 1 = bufferSize s ->
  ready s = true ->
  pushFrame true frame s
  = Spinning (set_bufferPointer (bufferPointer s + 1)
                (set_heap (<[a := <[Z.to_nat (bufferPointer s) := frame]> blk]> (heap s)) s)).
Proof.
  intros Ha Hb Hp He Hr. unfold pushFrame. rewrite Ha, Hb.
  destruct (Z.leb_spec 0 (bufferPointer s)); [|lia].
  destruct (Z.ltb_spec (bufferPointer s) (Z.of_nat (length blk))); [|lia].
  cbn [andb]. cbv zeta. proj.
  destruct (Z.eqb_spec (bufferPointer s + 1) (bufferSize s)); [|done].
  by rewrite Hr.
Qed.

(** [k] ticks that do not fill the in buffer: all return, whatever the
    frame limit, and their frames stand in the in buffer from the cursor
    on. *)
Lemma produce_more (k : nat) mem limitFps :
  forall (s : Spu) (a : nat) (blk : list Z) (p : nat),
    WF s -> bufferSize s = Z.of_nat (length blk) ->
    bufferIn s = Some a -> heap s !! a = Some blk ->
    bufferPointer s = Z.of_nat p -> (p + k < length blk)%nat ->
    exists frames s1 blk1,
      produce k mem limitFps s = Some (frames, s1) /\ length frames = k /\
      heap s1 = <[a := blk1]> (heap s) /\ length blk1 = length blk /\
      take (p + k) blk1 = take p blk ++ frames /\
      bufferIn s1 = Some a /\ bufferOut s1 = bufferOut s /\ ready s1 = ready s /\
      bufferSize s1 = bufferSize s /\ bufferPointer s1 = Z.of_nat (p + k) /\ WF s1.
Proof.
  induction k as [|k IH]; intros s a blk p Hwf Hsize Ha Hblk Hptr Hk.
  - cbn [produce]. exists [], s, blk.
    rewrite Nat.add_0_r, app_nil_r, insert_id by done. done.
  - destruct (runSample_push mem limitFps s a blk Hwf) as (s1 & acc & Hch & K & W1 & Hrun);
      [lia|done|done|lia|].
    cbn [produce]. rewrite Hch, Hrun.
    assert (Ha1 : bufferIn s1 = Some a) by (by rewrite (kp_bufferIn _ _ _ K)).
    assert (Hb1 : heap s1 !! a = Some blk) by (by rewrite (kp_heap _ _ _ K)).
    assert (Hp1 : bufferPointer s1 = Z.of_nat p) by (by rewrite (kp_bufferPointer _ _ _ K)).
    assert (Hs1 : bufferSize s1 = Z.of_nat (length blk)) by (by rewrite (kp_bufferSize _ _ _ K)).
    rewrite (pushFrame_more limitFps _ s1 a blk) by (done || lia).
    set (s2 := set_bufferPointer _ _).
    destruct (IH s2 a (<[p := frameOf s1 acc]> blk) (S p))
      as (frames & s3 & blk3 & Hprod & Hlenf & H3 & L3 & T3 & I3 & O3 & R3 & S3 & P3 & W3).
    + subst s2. destruct W1. split; proj; done.
    + subst s2. proj. by rewrite length_insert.
    + subst s2. by proj.
    + subst s2. proj. rewrite Hp1, Nat2Z.id. apply lookup_insert_eq.
    + subst s2. proj. rewrite Hp1. lia.
    + rewrite length_insert. lia.
    + rewrite Hprod. cbn [mbind option_bind fst snd].
      exists (frameOf s1 acc :: frames), s3, blk3. split; [reflexivity|].
      split; [cbn [length]; by rewrite Hlenf|].
      split.
      { rewrite H3. subst s2. proj. rewrite (kp_heap _ _ _ K). apply insert_insert_eq. }
      split; [by rewrite L3, length_insert|].
      split.
      { replace (p + S k)%nat with (S p + k)%nat by lia.
        rewrite T3, take_insert_S by lia. by rewrite <- app_assoc. }
      split; [done|].
      split; [rewrite O3; subst s2; proj; apply (kp_bufferOut _ _ _ K)|].
      split; [rewrite R3; subst s2; proj; apply (kp_ready _ _ _ K)|].
      split; [rewrite S3; subst s2; proj; apply (kp_bufferSize _ _ _ K)|].
      split; [rewrite P3; f_equal; lia|exact W3].
Qed.

(** [getSamples] with the size of the buffers, on a unit whose out buffer
    is ready. *)
Lemma getSamples_ready polls (junk : list Z * list Z * list Z) (n : nat) s b blk :
  (0 < n)%nat -> bufferSize s = Z.of_nat n -> ready s = true ->
  bufferOut s = Some b -> heap s !! b = Some blk -> length blk = n ->
  let out := fresh (dom (heap s)) in
  getSamples polls junk (Z.of_nat n) s
  = Some (out, set_ready false (set_heap (<[out := blk]> (heap s)) s)).
Proof.
  intros Hn Hsize Hrdy Hb Hblk Hlen out.
  destruct junk as [[junkIn junkOut] junkRes].
  assert (E0 : resizeBuffers (Z.of_nat n) junkIn junkOut s = s).
  { unfold resizeBuffers. rewrite Hsize, Z.eqb_refl. done. }
  pose proof (getSamples_result polls junkIn junkOut junkRes (Z.of_nat n) s b blk
                ltac:(lia)) as Hget.
  cbv zeta in Hget. rewrite E0 in Hget.
  rewrite Hget by (intros _; rewrite Nat2Z.id; done).
  destruct (Z.eqb_spec (Z.of_nat n) 0) as [|_]; [lia|]. by rewrite Hrdy.
Qed.

(** X26: without the frame limit, a block the consumer does not take in
    time is lost.  From an empty in buffer of [n] frames, the first [n]
    ticks fill it and swap it out; the next [n] ticks fill the other
    buffer and swap again without waiting.  [getSamples] then returns the
    second block; the first one, never handed to the consumer, is in the
    in buffer, where the following ticks write. *)
Theorem X26_unplayed_block_is_overwritten mem mem' (polls : nat)
    (junk : list Z * list Z * list Z) (n : nat) (s : Spu) :
  wf s = true -> bufferOk s = true ->
  (0 < n)%nat -> bufferSize s = Z.of_nat n -> bufferPointer s = 0 ->
  exists frames1 s1 frames2 s2 out s3,
    produce n mem false s = Some (frames1, s1) /\ length frames1 = n /\
    produce n mem' false s1 = Some (frames2, s2) /\ length frames2 = n /\
    bufferOut s1 ≫= (heap s1 !!.) = Some frames1 /\
    bufferOut s2 ≫= (heap s2 !!.) = Some frames2 /\
    bufferIn s2 ≫= (heap s2 !!.) = Some frames1 /\
    bufferIn s2 = bufferOut s1 /\ bufferPointer s2 = 0 /\
    getSamples polls junk (Z.of_nat n) s2 = Some (out, s3) /\
    heap s3 !! out = Some frames2.
Proof.
  intros Hwf Hok Hn Hsize Hptr. apply wf_WF in Hwf.
  destruct (bufferOk_spec s Hok) as (a & b & la & lb & Ha & Hb & Hab & Hla & Hlb & La & Lb & _);
    [lia|].
  destruct (produce_fill n mem false s a b la 0 Hwf Hn) as
    (frames1 & s1 & Hprod1 & Hlen1 & R1 & O1 & I1 & H1 & S1 & P1 & W1);
    [by rewrite Hsize|done|done|done|lia|by rewrite Hptr|done|].
  cbn [take app] in H1.
  destruct (produce_fill n mem' false s1 b a lb 0 W1 Hn) as
    (frames2 & s2 & Hprod2 & Hlen2 & R2 & O2 & I2 & H2 & S2 & P2 & W2);
    [by rewrite S1, Hsize|done|done|by rewrite H1, lookup_insert_ne|lia|done|done|].
  cbn [take app] in H2.
  assert (Hs2b : heap s2 !! b = Some frames2) by (rewrite H2; apply lookup_insert_eq).
  assert (Hs2a : heap s2 !! a = Some frames1).
  { rewrite H2, lookup_insert_ne by done. rewrite H1. apply lookup_insert_eq. }
  exists frames1, s1, frames2, s2. eexists _, _.
  split; [exact Hprod1|]. split; [exact Hlen1|]. split; [exact Hprod2|].
  split; [exact Hlen2|].
  split; [rewrite O1; cbn; rewrite H1; apply lookup_insert_eq|].
  split; [by rewrite O2|]. split; [by rewrite I2|]. split; [by rewrite I2, O1|].
  split; [exact P2|].
  split.
  - apply (getSamples_ready polls junk n s2 b frames2); try done. by rewrite S2, S1.
  - proj. apply lookup_insert_eq.
Qed.

Lemma X26_witness :
  exists frames1 s1 frames2 s2 out s3,
    produce 2 zeroMemory false twoFrameUnit = Some (frames1, s1) /\ length frames1 = 2%nat /\
    produce 2 headerMemory false s1 = Some (frames2, s2) /\ length frames2 = 2%nat /\
    bufferOut s1 ≫= (heap s1 !!.) = Some frames1 /\
    bufferOut s2 ≫= (heap s2 !!.) = Some frames2 /\
    bufferIn s2 ≫= (heap s2 !!.) = Some frames1 /\
    bufferIn s2 = bufferOut s1 /\ bufferPointer s2 = 0 /\
    getSamples 0 ([], [], []) (Z.of_nat 2) s2 = Some (out, s3) /\
    heap s3 !! out = Some frames2.
Proof.
  apply (X26_unplayed_block_is_overwritten zeroMemory headerMemory 0 ([], [], []) 2
           twoFrameUnit).
  - vm_compute. reflexivity.
  - vm_compute. reflexivity.
  - lia.
  - vm_compute. reflexivity.
  - vm_compute. reflexivity.
Defined.

(** X27: with the frame limit on, consecutive blocks reach the consumer
    complete and in order.  After a first block of [m + 1] frames has been
    swapped out, the next [m] ticks return and the tick after them, which
    fills the in buffer, waits for the consumer; the out buffer still
    holds the first block, and [getSamples] returns it.  When the producer
    leaves its wait with the swap, the next [getSamples] returns the
    second block, the frames of those [m + 1] ticks in order, at another
    address, and the first block is unchanged. *)
Theorem X27_frame_limit_delivers_every_block mem mem' (polls polls' : nat)
    (junk junk' : list Z * list Z * list Z) (m : nat) (s : Spu) :
  wf s = true -> bufferOk s = true ->
  bufferSize s = Z.of_nat (S m) -> bufferPointer s = 0 -> ready s = false ->
  exists frames1 s1 frames sm sc acc s2 out1 s3 out2 s5,
    produce (S m) mem true s = Some (frames1, s1) /\ length frames1 = S m /\
    ready s1 = true /\
    produce m mem' true s1 = Some (frames, sm) /\ length frames = m /\
    runChannels mem' 0 16 (sm, (0, 0)) = Some (sc, acc) /\
    runSample mem' true sm = Spinning s2 /\
    bufferOut s2 ≫= (heap s2 !!.) = Some frames1 /\
    getSamples polls junk (Z.of_nat (S m)) s2 = Some (out1, s3) /\
    heap s3 !! out1 = Some frames1 /\ ready s3 = false /\
    getSamples polls' junk' (Z.of_nat (S m)) (swapBuffers s3) = Some (out2, s5) /\
    heap s5 !! out2 = Some (frames ++ [frameOf sc acc]) /\
    out1 <> out2 /\ heap s5 !! out1 = Some frames1.
Proof.
  intros Hwf Hok Hsize Hptr Hrdy. apply wf_WF in Hwf.
  destruct (bufferOk_spec s Hok) as (a & b & la & lb & Ha & Hb & Hab & Hla & Hlb & La & Lb & _);
    [lia|].
  destruct (produce_fill (S m) mem true s a b la 0 Hwf ltac:(lia)) as
    (frames1 & s1 & Hprod1 & Hlen1 & R1 & O1 & I1 & H1 & S1 & P1 & W1);
    [by rewrite Hsize|done|done|done|lia|by rewrite Hptr|by rewrite Hrdy|].
  cbn [take app] in H1.
  assert (Hs1b : heap s1 !! b = Some lb) by (by rewrite H1, lookup_insert_ne).
  destruct (produce_more m mem' true s1 b lb 0 W1) as
    (frames & sm & blk & Hprod & Hlenf & Hm & Lm & Tm & Im & Om & Rm & Sm & Pm & Wm);
    [rewrite S1; lia|done|done|done|lia|].
  cbn [take app Nat.add] in Tm.
  assert (Hsmb : heap sm !! b = Some blk) by (rewrite Hm; apply lookup_insert_eq).
  destruct (runSample_push mem' true sm b blk Wm) as (sc & acc & Hch & K & Wc & Hrun);
    [rewrite Sm, S1; lia|done|done|rewrite Pm; lia|].
  assert (Hspin : pushFrame true (frameOf sc acc) sc
                  = Spinning (set_bufferPointer (bufferPointer sc + 1)
                      (set_heap (<[b := <[Z.to_nat (bufferPointer sc) := frameOf sc acc]> blk]>
                                   (heap sc)) sc))).
  { apply pushFrame_spin.
    - by rewrite (kp_bufferIn _ _ _ K).
    - by rewrite (kp_heap _ _ _ K).
    - rewrite (kp_bufferPointer _ _ _ K), Pm. lia.
    - rewrite (kp_bufferPointer _ _ _ K), (kp_bufferSize _ _ _ K), Pm, Sm, S1. lia.
    - by rewrite (kp_ready _ _ _ K), Rm. }
  rewrite Hspin in Hrun.
  set (s2 := set_bufferPointer _ _) in Hrun.
  assert (Eblk : <[Z.to_nat (bufferPointer sc) := frameOf sc acc]> blk
                 = frames ++ [frameOf sc acc]).
  { rewrite (kp_bufferPointer _ _ _ K), Pm, Nat2Z.id. cbn [Nat.add].
    rewrite insert_last_take by lia. by rewrite Tm. }
  assert (H2 : heap s2 = <[b := frames ++ [frameOf sc acc]]> (heap sm)).
  { subst s2. proj. by rewrite Eblk, (kp_heap _ _ _ K). }
  assert (O2 : bufferOut s2 = Some a).
  { subst s2. proj. by rewrite (kp_bufferOut _ _ _ K), Om. }
  assert (I2 : bufferIn s2 = Some b).
  { subst s2. proj. by rewrite (kp_bufferIn _ _ _ K). }
  assert (S2 : bufferSize s2 = Z.of_nat (S m)).
  { subst s2. proj. by rewrite (kp_bufferSize _ _ _ K), Sm, S1. }
  assert (R2 : ready s2 = true).
  { subst s2. proj. by rewrite (kp_ready _ _ _ K), Rm. }
  assert (Hs2a : heap s2 !! a = Some frames1).
  { rewrite H2, lookup_insert_ne by done. rewrite Hm, lookup_insert_ne by done.
    rewrite H1. apply lookup_insert_eq. }
  assert (Hs2b : heap s2 !! b = Some (frames ++ [frameOf sc acc]))
    by (rewrite H2; apply lookup_insert_eq).
  clearbody s2.
  pose proof (getSamples_ready polls junk (S m) s2 a frames1 ltac:(lia) S2 R2 O2 Hs2a Hlen1)
    as G1. cbv zeta in G1.
  set (out1 := fresh (dom (heap s2))) in G1.
  assert (F1 : heap s2 !! out1 = None) by apply fresh_lookup.
  assert (Hne1 : out1 <> b) by (intros ->; by rewrite Hs2b in F1).
  set (s3 := set_ready false (set_heap (<[out1 := frames1]> (heap s2)) s2)) in G1.
  assert (Hs3b : heap (swapBuffers s3) !! b = Some (frames ++ [frameOf sc acc])).
  { unfold swapBuffers, s3. proj. by rewrite lookup_insert_ne. }
  pose proof (getSamples_ready polls' junk' (S m) (swapBuffers s3) b
                (frames ++ [frameOf sc acc]) ltac:(lia)) as G2.
  cbv zeta in G2.
  set (out2 := fresh (dom (heap (swapBuffers s3)))) in G2.
  assert (F2 : heap (swapBuffers s3) !! out2 = None) by apply fresh_lookup.
  assert (Hs3o : heap (swapBuffers s3) !! out1 = Some frames1).
  { unfold swapBuffers, s3. proj. apply lookup_insert_eq. }
  assert (Hne2 : out1 <> out2) by (intros E; rewrite <- E in F2; by rewrite Hs3o in F2).
  exists frames1, s1, frames, sm, sc, acc, s2, out1, s3, out2. eexists.
  split; [exact Hprod1|]. split; [exact Hlen1|]. split; [exact R1|].
  split; [exact Hprod|]. split; [exact Hlenf|]. split; [exact Hch|]. split; [exact Hrun|].
  split; [by rewrite O2; cbn; rewrite Hs2a|]. split; [exact G1|].
  split; [unfold s3; proj; apply lookup_insert_eq|]. split; [reflexivity|].
  split.
  - apply G2; try done. rewrite length_app, Hlenf. cbn. lia.
  - proj. split; [apply lookup_insert_eq|]. split; [exact Hne2|].
    by rewrite lookup_insert_ne.
Qed.

Lemma X27_witness :
  exists frames1 s1 frames sm sc acc s2 out1 s3 out2 s5,
    produce 2 zeroMemory true twoFrameUnit = Some (frames1, s1) /\ length frames1 = 2%nat /\
    ready s1 = true /\
    produce 1 headerMemory true s1 = Some (frames, sm) /\ length frames = 1%nat /\
    runChannels headerMemory 0 16 (sm, (0, 0)) = Some (sc, acc) /\
    runSample headerMemory true sm = Spinning s2 /\
    bufferOut s2 ≫= (heap s2 !!.) = Some frames1 /\
    getSamples 0 ([], [], []) (Z.of_nat 2) s2 = Some (out1, s3) /\
    heap s3 !! out1 = Some frames1 /\ ready s3 = false /\
    getSamples 0 ([], [], []) (Z.of_nat 2) (swapBuffers s3) = Some (out2, s5) /\
    heap s5 !! out2 = Some (frames ++ [frameOf sc acc]) /\
    out1 <> out2 /\ heap s5 !! out1 = Some frames1.
Proof.
  apply (X27_frame_limit_delivers_every_block zeroMemory headerMemory 0 0
           ([], [], []) ([], [], []) 1 twoFrameUnit).
  - vm_compute. reflexivity.
  - vm_compute. reflexivity.
  - vm_compute. reflexivity.
  - vm_compute. reflexivity.
  - vm_compute. reflexivity.
Defined.
